(** * klogg: line types, search data and the search pipeline

    A shallow embedding of
      - [linetypes.h]: the strong line types, their mixed arithmetic and
        [getUntabifiedLength] / [untabify];
      - [logfiltereddataworker.cpp]: [SearchData], [filterLines] and the
        flow graph of [SearchOperation::doSearch], with the two operations
        [FullSearchOperation::run] and [UpdateSearchOperation::run];
      - [logfiltereddataworkerthread.cpp]: the earlier worker thread, whose
        [SearchData] keeps the matches in a vector;
      - [abstractlogdata.h]: the length and the tab expansion of a decoded
        line, which the earlier worker uses;
      - [crawlerwidget.cpp]: the search state of the widget and the
        patterns it builds.

    Unsigned 64-bit quantities are integers of [Z] with the wrap-around or the
    saturation of the source written out. *)

From Stdlib Require Import ZArith List Lia Bool Sorted Permutation.
From Stdlib Require Import Strings.Byte.
From Stdlib Require Strings.String.
Import String.StringSyntax.
Local Delimit Scope string_scope with string.
Import ListNotations.
Open Scope Z_scope.

(* ===================================================================== *)
(** ** Machine integers *)
(* ===================================================================== *)

(** [2^64 - 1], [2^31 - 1] and [-2^31], written as numerals. *)
Definition UINT64_MAX : Z := 18446744073709551615.
Definition INT_MAX : Z := 2147483647.
Definition INT_MIN : Z := -2147483648.

(** Arithmetic on [uint64_t] and [size_t] is modulo 2^64. *)
Definition wrap64 (z : Z) : Z := z mod 18446744073709551616.

(** [static_cast<int>] of an unsigned value: the low 32 bits, read as a
    two's complement number. *)
Definition to_int (z : Z) : Z := (z + 2147483648) mod 4294967296 - 2147483648.

(** [static_cast<uint32_t>]: the low 32 bits. *)
Definition to_uint32 (z : Z) : Z := z mod 4294967296.

Definition is_uint64 (z : Z) : Prop := 0 <= z <= UINT64_MAX.

(* ===================================================================== *)
(** ** linetypes.h: strong types and their mixed arithmetic *)
(* ===================================================================== *)

(** [fluent::NamedType<uint64_t, ...>]: a value wrapped under a distinct
    name; [ln] and [lc] play [get()]. *)
Record LineNumber : Set := mkLineNumber { ln : Z }.
Record LinesCount : Set := mkLinesCount { lc : Z }.
(** [fluent::NamedType<int, ...>]. *)
Record LineLength : Set := mkLineLength { ll : Z }.

Definition valid_lnum (n : LineNumber) : Prop := is_uint64 (ln n).
Definition valid_lcount (c : LinesCount) : Prop := is_uint64 (lc c).

(** [maxValue<LineNumber>()] *)
Definition maxValue_LineNumber : LineNumber := mkLineNumber UINT64_MAX.

(** [LineNumber operator+( const LineNumber&, const LinesCount& )] *)
Definition lnum_plus (number : LineNumber) (count : LinesCount) : LineNumber :=
  if ln number <=? wrap64 (ln maxValue_LineNumber - lc count)
  then mkLineNumber (wrap64 (ln number + lc count))
  else maxValue_LineNumber.

(** [LineNumber operator-( const LineNumber&, const LinesCount& )] *)
Definition lnum_minus (number : LineNumber) (count : LinesCount) : LineNumber :=
  if ln number >=? lc count
  then mkLineNumber (wrap64 (ln number - lc count))
  else mkLineNumber 0.

(** [LinesCount operator-( const LineNumber&, const LineNumber& )] *)
Definition lnum_diff (n1 n2 : LineNumber) : LinesCount :=
  if ln n1 >=? ln n2
  then mkLinesCount (wrap64 (ln n1 - ln n2))
  else mkLinesCount 0.

(** The comparisons of [fluent::Comparable] and the mixed ones. *)
Definition lnum_lt (a b : LineNumber) : bool := ln a <? ln b.
Definition lnum_ge (a b : LineNumber) : bool := negb (lnum_lt a b).
Definition lnum_lt_count (number : LineNumber) (count : LinesCount) : bool :=
  ln number <? lc count.

(** [qMin] and [qMax] on line numbers: [qMin(a, b)] is [(a < b) ? a : b],
    [qMax(a, b)] is [(a < b) ? b : a]. *)
Definition qMin_lnum (a b : LineNumber) : LineNumber := if lnum_lt a b then a else b.
Definition qMax_lnum (a b : LineNumber) : LineNumber := if lnum_lt a b then b else a.

(* ===================================================================== *)
(** ** linetypes.h: tab expansion *)
(* ===================================================================== *)

(** A line as the matchers see it: the bytes of a [std::string_view]. *)
Definition Line : Set := list byte.

(** [constexpr int TabStop = 8] *)
Definition TabStop : Z := 8.

Definition tab : byte := x09.
Definition space : byte := x20.
Definition nul : byte := x00.

(** [std::string_view::find( char, pos )]: the index of the first
    occurrence at or after [pos]; [None] is [npos]. *)
Fixpoint find_in (c : byte) (l : list byte) : option nat :=
  match l with
  | [] => None
  | b :: rest => if Byte.eqb b c then Some O else option_map S (find_in c rest)
  end.

Definition sv_find (line : Line) (c : byte) (pos : nat) : option nat :=
  option_map (Nat.add pos) (find_in c (skipn pos line)).

(** The [while ( tabPosition != npos )] loop of [getUntabifiedLength]; it
    runs once per tab, hence at most [length utf8Line] times. *)
Fixpoint tab_loop (fuel : nat) (utf8Line : Line) (tabPosition : option nat)
         (totalSpaces : Z) : Z :=
  match fuel with
  | O => totalSpaces
  | S fuel' =>
      match tabPosition with
      | None => totalSpaces
      | Some p =>
          let spaces :=
            wrap64 (TabStop - wrap64 (Z.of_nat p + totalSpaces) mod TabStop - 1) in
          tab_loop fuel' utf8Line (sv_find utf8Line tab (p + 1))
                   (wrap64 (totalSpaces + spaces))
      end
  end.

(** [LineLength getUntabifiedLength( const LineType& utf8Line )].  The one
    more unit of fuel lets the loop see [npos] after the last tab. *)
Definition getUntabifiedLength (utf8Line : Line) : LineLength :=
  let totalSpaces :=
    tab_loop (S (length utf8Line)) utf8Line (sv_find utf8Line tab 0) 0 in
  mkLineLength (to_int (wrap64 (Z.of_nat (length utf8Line) + totalSpaces))).

(** [QString untabify( const LineType& line, int initialPosition )]: the
    loop over [position], with [total_spaces] carried along.  The three
    numbers are [int]s: a sum that leaves the range of [int] is taken as a
    two's complement machine leaves it, which is [to_int], and [%] is the
    remainder of the division that truncates towards zero, [Z.rem].
    [position] stays below [line.length()], so [++position] is exact. *)
Fixpoint untabify_loop (rest : Line) (initialPosition position total_spaces : Z) : Line :=
  match rest with
  | [] => []
  | ch :: rest' =>
      if Byte.eqb ch tab then
        let spaces :=
          TabStop - Z.rem (to_int (to_int (initialPosition + position) + total_spaces))
                          TabStop in
        repeat space (Z.to_nat spaces)
          ++ untabify_loop rest' initialPosition (position + 1)
                           (to_int (total_spaces + (spaces - 1)))
      else if Byte.eqb ch nul then
        space :: untabify_loop rest' initialPosition (position + 1) total_spaces
      else
        ch :: untabify_loop rest' initialPosition (position + 1) total_spaces
  end.

Definition untabify (line : Line) (initialPosition : Z) : Line :=
  untabify_loop line initialPosition 0 0.

(** The display column count in the words of the specification: scan the
    line from the left, one column per byte that is not a tab, and at a tab
    move to the next multiple of 8. *)
Definition next_tab_stop (col : Z) : Z := (col / 8 + 1) * 8.

Fixpoint columns_from (col : Z) (line : Line) : Z :=
  match line with
  | [] => col
  | b :: rest =>
      columns_from (if Byte.eqb b tab then next_tab_stop col else col + 1) rest
  end.

Definition display_columns (line : Line) : Z := columns_from 0 line.

(** A line of 2^31 bytes, none of them a tab. *)
Definition long_line : Line := repeat x61 (Z.to_nat 2147483648).

(* ===================================================================== *)
(** ** SearchResultArray: the bitmap of matching lines *)
(* ===================================================================== *)

(** Modelled from the spec: the bitmap type behind [SearchResultArray] is
    declared outside the files at hand.  The specification asks of it
    "insertion with existing-key dedup, cardinality, iteration in ascending
    order, containment test, and removal of a single line"; a bitmap is
    represented here by its elements in the order of iteration. *)
Definition SearchResultArray : Set := list Z.

Definition strictly_sorted (b : list Z) : Prop := StronglySorted Z.lt b.

(** [bitmap.add( x )] *)
Fixpoint bitmap_add (x : Z) (b : SearchResultArray) : SearchResultArray :=
  match b with
  | [] => [x]
  | y :: rest =>
      if x <? y then x :: b
      else if x =? y then b
      else y :: bitmap_add x rest
  end.

(** [a |= b] *)
Definition bitmap_union (a b : SearchResultArray) : SearchResultArray :=
  fold_left (fun acc x => bitmap_add x acc) b a.

(** [bitmap.remove( x )] *)
Definition bitmap_remove (x : Z) (b : SearchResultArray) : SearchResultArray :=
  filter (fun y => negb (y =? x)) b.

(** [bitmap.cardinality()] *)
Definition bitmap_cardinality (b : SearchResultArray) : Z := Z.of_nat (length b).

(* ===================================================================== *)
(** ** logfiltereddataworker.cpp: SearchData *)
(* ===================================================================== *)

Definition qMax_length (a b : LineLength) : LineLength := if ll a <? ll b then b else a.
Definition qMax_count (a b : LinesCount) : LinesCount := if lc a <? lc b then b else a.

(** [struct SearchResults { newMatches, maxLength, processedLines }] *)
Record SearchResults : Set := mkSearchResults {
  sr_newMatches : SearchResultArray;
  sr_maxLength : LineLength;
  sr_processedLines : LinesCount
}.

(** The members of [class SearchData]. *)
Record SearchData : Set := mkSearchData {
  matches_ : SearchResultArray;
  newMatches_ : SearchResultArray;
  maxLength_ : LineLength;
  nbLinesProcessed_ : LinesCount;
  nbMatches_ : LinesCount
}.

(** [SearchData::takeCurrentResults]: [std::exchange( newMatches_, {} )]
    returns the pending matches and leaves the member empty. *)
Definition takeCurrentResults (sd : SearchData) : SearchResults * SearchData :=
  (mkSearchResults (newMatches_ sd) (maxLength_ sd) (nbLinesProcessed_ sd),
   mkSearchData (matches_ sd) [] (maxLength_ sd) (nbLinesProcessed_ sd) (nbMatches_ sd)).

(** [SearchData::addAll] *)
Definition addAll (length : LineLength) (matches : SearchResultArray) (lines : LinesCount)
           (sd : SearchData) : SearchData :=
  mkSearchData
    (matches_ sd)
    (bitmap_union (newMatches_ sd) matches)
    (qMax_length (maxLength_ sd) length)
    (qMax_count (nbLinesProcessed_ sd) lines)
    (mkLinesCount (wrap64 (lc (nbMatches_ sd) + bitmap_cardinality matches))).

(** [SearchData::getNbMatches] *)
Definition getNbMatches (sd : SearchData) : LinesCount := nbMatches_ sd.

(** [SearchData::getLastProcessedLine] *)
Definition getLastProcessedLine (sd : SearchData) : LineNumber :=
  mkLineNumber (lc (nbLinesProcessed_ sd)).

(** [SearchData::deleteMatch] *)
Definition deleteMatch (line : LineNumber) (sd : SearchData) : SearchData :=
  mkSearchData (bitmap_remove (ln line) (matches_ sd)) (newMatches_ sd)
               (maxLength_ sd) (nbLinesProcessed_ sd) (nbMatches_ sd).

(** [SearchData::clear] *)
Definition clear (sd : SearchData) : SearchData :=
  mkSearchData [] [] (mkLineLength 0) (mkLinesCount 0) (mkLinesCount 0).

(** A batch handed to [addAll], as the match processor does it. *)
Record Commit : Set := mkCommit {
  commit_length : LineLength;
  commit_matches : SearchResultArray;
  commit_lines : LinesCount
}.

Definition addAll_commit (sd : SearchData) (c : Commit) : SearchData :=
  addAll (commit_length c) (commit_matches c) (commit_lines c) sd.

(** Several commits in a row, none of them separated by a call of
    [takeCurrentResults]. *)
Definition addAll_commits (sd : SearchData) (cs : list Commit) : SearchData :=
  fold_left addAll_commit cs sd.

(* ===================================================================== *)
(** ** The number of matcher threads *)
(* ===================================================================== *)

(** The settings [SearchOperation::doSearch] reads from [Configuration];
    the getters return [int]. *)
Record Configuration : Set := mkConfiguration {
  useParallelSearch : bool;
  searchThreadPoolSize : Z;
  searchReadBufferSizeLines : Z
}.

Definition is_int (z : Z) : Prop := INT_MIN <= z <= INT_MAX.

(** [matchingThreadsCount] of logfiltereddataworker.cpp;
    [default_concurrency] is what [tbb::info::default_concurrency()]
    returns. *)
Definition matchingThreadsCount (config : Configuration) (default_concurrency : Z) : Z :=
  to_uint32
    (if negb (useParallelSearch config) then 1
     else
       let configuredThreadPoolSize := searchThreadPoolSize config in
       Z.max 1 (if configuredThreadPoolSize =? 0
                then default_concurrency
                else configuredThreadPoolSize)).

(** [matchingThreadsCount] of logfiltereddataworkerthread.cpp;
    [idealThreadCount] is what [QThread::idealThreadCount()] returns. *)
Definition legacy_matchingThreadsCount (config : Configuration) (idealThreadCount : Z) : Z :=
  if negb (useParallelSearch config) then 1
  else
    Z.max 1 (if searchThreadPoolSize config =? 0
             then idealThreadCount - 1
             else to_int (searchThreadPoolSize config)).

(* ===================================================================== *)
(** ** The log data read by a search *)
(* ===================================================================== *)

(** Modelled from the spec: [LogData] is outside the files at hand.  Of
    the facade the search uses [line_count()], here [getNbLine], and the
    batch read [lines_raw(first, count)], here [getLinesRaw]; the indexed
    file is the list of its lines, already decoded and prefiltered. *)
Record LogData : Set := mkLogData { logLines : list Line }.

(** [LogData::RawLines]: the lines of one batch, [numberOfLines] of them,
    and the view [buildUtf8View()] gives of them. *)
Record RawLines : Set := mkRawLines {
  numberOfLines : LinesCount;
  utf8View : list Line
}.

Definition getNbLine (ld : LogData) : LinesCount :=
  mkLinesCount (Z.of_nat (length (logLines ld))).

Definition getLinesRaw (ld : LogData) (first : LineNumber) (number : LinesCount) : RawLines :=
  let ls := firstn (Z.to_nat (lc number)) (skipn (Z.to_nat (ln first)) (logLines ld)) in
  mkRawLines (mkLinesCount (Z.of_nat (length ls))) ls.

(** The text of line [n], for the statements below. *)
Definition line_at (ld : LogData) (n : Z) : Line := nth (Z.to_nat n) (logLines ld) [].

(* ===================================================================== *)
(** ** logfiltereddataworker.cpp: filterLines *)
(* ===================================================================== *)

Record PartialSearchResults : Set := mkPartialSearchResults {
  psr_matchingLines : SearchResultArray;
  psr_maxLength : LineLength;
  psr_chunkStart : LineNumber;
  psr_processedLines : LinesCount
}.

Record SearchBlockData : Set := mkSearchBlockData {
  blk_chunkStart : LineNumber;
  blk_lines : RawLines
}.

(** The loop of [filterLines] over [offset], an [unsigned]; [matcher] is
    [PatternMatcher::hasMatch] of the pattern searched for, the inverse
    flag included.  A batch holds fewer than 2^32 lines (its size comes
    from an [int] setting), so [offset] reaches the end of [lines]. *)
Fixpoint filterLines_loop (matcher : Line -> bool) (lines : list Line)
         (chunkStart : LineNumber) (offset : Z) (results : PartialSearchResults)
  : PartialSearchResults :=
  match lines with
  | [] => results
  | line :: rest =>
      let results' :=
        if matcher line then
          let lineNumber := lnum_plus chunkStart (mkLinesCount offset) in
          mkPartialSearchResults
            (bitmap_add (ln lineNumber) (psr_matchingLines results))
            (qMax_length (psr_maxLength results) (getUntabifiedLength line))
            (psr_chunkStart results)
            (psr_processedLines results)
        else results in
      filterLines_loop matcher rest chunkStart (to_uint32 (offset + 1)) results'
  end.

(** [PartialSearchResults filterLines( matcher, rawLines, chunkStart )];
    a fresh [PartialSearchResults] has no matches and length 0. *)
Definition filterLines (matcher : Line -> bool) (rawLines : RawLines)
           (chunkStart : LineNumber) : PartialSearchResults :=
  filterLines_loop matcher (utf8View rawLines) chunkStart 0
    (mkPartialSearchResults [] (mkLineLength 0) chunkStart (numberOfLines rawLines)).


(* ===================================================================== *)
(** ** logfiltereddataworker.cpp: the flow graph of SearchOperation::doSearch *)
(* ===================================================================== *)

(** The members of [SearchOperation]; the pattern [regexp_] is given by
    the matcher it compiles to. *)
Record SearchOperation : Type := mkSearchOperation {
  regexp_ : Line -> bool;
  sourceLogData_ : LogData;
  startLine_ : LineNumber;
  endLine_ : LineNumber
}.

(** The signals of a search operation. *)
Inductive Signal : Set :=
| searchProgressed (nbMatches : LinesCount) (percentage : Z) (initialLine : LineNumber)
| searchFinished.

(** What [doSearch] fixes before it builds the graph.
    [ds_calculateProgress] stands for [calculateProgress] of progress.h,
    which is outside the files at hand. *)
Record DoSearch : Type := mkDoSearch {
  ds_operation : SearchOperation;
  ds_calculateProgress : Z -> Z -> Z;
  ds_nbLinesInChunk : LinesCount;
  ds_initialLine : LineNumber
}.

(** [const auto endLine = qMin( LineNumber( nbSourceLines.get() ), endLine_ )] *)
Definition ds_endLine (ds : DoSearch) : LineNumber :=
  qMin_lnum (mkLineNumber (lc (getNbLine (sourceLogData_ (ds_operation ds)))))
            (endLine_ (ds_operation ds)).

(** [const auto totalLines = endLine - initialLine] *)
Definition ds_totalLines (ds : DoSearch) : LinesCount :=
  lnum_diff (ds_endLine ds) (ds_initialLine ds).

(** The state of a running graph: the interrupt flag shared with the
    worker, [chunkStart] and the activity of [linesSource], the two buffer
    nodes, the variables the match processor captures, the shared
    [SearchData], and the signals emitted so far.  Four more fields record
    what happens for the statements below: the reads [linesSource] issued,
    the line numbers whose text [filterLines] gave to the matcher, what
    [takeCurrentResults] handed out since the match set was last cleared,
    and the exception, if one was raised inside the graph. *)
Record Graph : Set := mkGraph {
  interruptRequested_ : bool;
  chunkStart : LineNumber;
  sourceActive : bool;
  lineBlocksQueue : list SearchBlockData;
  resultsQueue : list PartialSearchResults;
  totalProcessedLines : LinesCount;
  maxLength : LineLength;
  nbMatches : LinesCount;
  reportedMatches : LinesCount;
  reportedPercentage : Z;
  searchData : SearchData;
  emitted : list Signal;
  chunksRead : list (LineNumber * LinesCount);
  linesExamined : list Z;
  delivered : SearchResultArray;
  failure : option String.string
}.

(** [fc.stop(); return {};] *)
Definition stop_source (g : Graph) : Graph :=
  mkGraph (interruptRequested_ g) (chunkStart g) false (lineBlocksQueue g) (resultsQueue g)
          (totalProcessedLines g) (maxLength g) (nbMatches g) (reportedMatches g)
          (reportedPercentage g) (searchData g) (emitted g) (chunksRead g)
          (linesExamined g) (delivered g) (failure g).

(** The body of the input node [linesSource]. *)
Definition linesSource (ds : DoSearch) (g : Graph) : Graph :=
  if interruptRequested_ g then stop_source g
  else if lnum_ge (chunkStart g) (ds_endLine ds) then stop_source g
  else
    let linesInChunk :=
      mkLinesCount (Z.min (lc (ds_nbLinesInChunk ds))
                          (lc (lnum_diff (ds_endLine ds) (chunkStart g)))) in
    let lines := getLinesRaw (sourceLogData_ (ds_operation ds)) (chunkStart g) linesInChunk in
    let blockData := mkSearchBlockData (chunkStart g) lines in
    mkGraph (interruptRequested_ g)
            (lnum_plus (chunkStart g) (ds_nbLinesInChunk ds))
            true
            (lineBlocksQueue g ++ [blockData])
            (resultsQueue g)
            (totalProcessedLines g) (maxLength g) (nbMatches g) (reportedMatches g)
            (reportedPercentage g) (searchData g) (emitted g)
            (chunksRead g ++ [(chunkStart g, linesInChunk)])
            (linesExamined g) (delivered g) (failure g).

(** The integers from [a] up to, not including, [b]. *)
Definition line_range (a b : Z) : list Z :=
  map (fun i => a + Z.of_nat i) (seq 0 (Z.to_nat (b - a))).

(** The line numbers of the lines a block holds. *)
Definition block_lines (blockData : SearchBlockData) : list Z :=
  line_range (ln (blk_chunkStart blockData))
             (ln (blk_chunkStart blockData)
              + Z.of_nat (length (utf8View (blk_lines blockData)))).

(** The body of a [RegexMatcherNode]: it takes [blockData] out of
    [lineBlocksQueue], which keeps [others], and puts the result of
    [filterLines] into [resultsQueue]. *)
Definition regexMatcher (ds : DoSearch) (blockData : SearchBlockData)
           (others : list SearchBlockData) (g : Graph) : Graph :=
  let results :=
    filterLines (regexp_ (ds_operation ds)) (blk_lines blockData) (blk_chunkStart blockData) in
  mkGraph (interruptRequested_ g) (chunkStart g) (sourceActive g)
          others
          (resultsQueue g ++ [results])
          (totalProcessedLines g) (maxLength g) (nbMatches g) (reportedMatches g)
          (reportedPercentage g) (searchData g) (emitted g) (chunksRead g)
          (linesExamined g ++ block_lines blockData)
          (delivered g) (failure g).

(** The first half of the body of [matchProcessor]:
    [if ( matchResults->processedLines.get() ) { ... addAll ... }]. *)
Definition combineResults (matchResults : PartialSearchResults) (g : Graph) : Graph :=
  if lc (psr_processedLines matchResults) =? 0 then g
  else
    let maxLength' := qMax_length (maxLength g) (psr_maxLength matchResults) in
    let nbMatches' :=
      mkLinesCount (wrap64 (lc (nbMatches g)
                            + bitmap_cardinality (psr_matchingLines matchResults))) in
    let processedLines :=
      mkLinesCount (wrap64 (ln (psr_chunkStart matchResults)
                            + lc (psr_processedLines matchResults))) in
    let totalProcessedLines' :=
      mkLinesCount (wrap64 (lc (totalProcessedLines g)
                            + lc (psr_processedLines matchResults))) in
    mkGraph (interruptRequested_ g) (chunkStart g) (sourceActive g)
            (lineBlocksQueue g) (resultsQueue g)
            totalProcessedLines' maxLength' nbMatches'
            (reportedMatches g) (reportedPercentage g)
            (addAll maxLength' (psr_matchingLines matchResults) processedLines (searchData g))
            (emitted g) (chunksRead g) (linesExamined g) (delivered g) (failure g).

(** The second half: the percentage and the [searchProgressed] signal. *)
Definition reportProgress (ds : DoSearch) (g : Graph) : Graph :=
  let percentage :=
    ds_calculateProgress ds (lc (totalProcessedLines g)) (lc (ds_totalLines ds)) in
  if (percentage >? reportedPercentage g) || (lc (nbMatches g) >? lc (reportedMatches g))
  then
    mkGraph (interruptRequested_ g) (chunkStart g) (sourceActive g)
            (lineBlocksQueue g) (resultsQueue g)
            (totalProcessedLines g) (maxLength g) (nbMatches g)
            (nbMatches g) percentage
            (searchData g)
            (emitted g ++ [searchProgressed (nbMatches g) (Z.min 99 percentage)
                                            (ds_initialLine ds)])
            (chunksRead g) (linesExamined g) (delivered g) (failure g)
  else g.

(** [resultsQueue] after a result left it. *)
Definition with_resultsQueue (others : list PartialSearchResults) (g : Graph) : Graph :=
  mkGraph (interruptRequested_ g) (chunkStart g) (sourceActive g)
          (lineBlocksQueue g) others
          (totalProcessedLines g) (maxLength g) (nbMatches g) (reportedMatches g)
          (reportedPercentage g) (searchData g) (emitted g) (chunksRead g)
          (linesExamined g) (delivered g) (failure g).

(** The body of [matchProcessor] on [matchResults], taken out of
    [resultsQueue], which keeps [others]. *)
Definition matchProcessor (ds : DoSearch) (matchResults : PartialSearchResults)
           (others : list PartialSearchResults) (g : Graph) : Graph :=
  if interruptRequested_ g then with_resultsQueue others g
  else reportProgress ds (combineResults matchResults (with_resultsQueue others g)).

(** [LogFilteredDataWorker::interrupt]: [interruptRequested_.set()]. *)
Definition interrupt (g : Graph) : Graph :=
  mkGraph true (chunkStart g) (sourceActive g) (lineBlocksQueue g) (resultsQueue g)
          (totalProcessedLines g) (maxLength g) (nbMatches g) (reportedMatches g)
          (reportedPercentage g) (searchData g) (emitted g) (chunksRead g)
          (linesExamined g) (delivered g) (failure g).

(** [LogFilteredDataWorker::getSearchResults], called by the owner of the
    worker whenever it likes.  Modelled from the spec: the caller is
    outside the files at hand; by the "incremental diff delivery protocol"
    it joins the new matches to the ones it already holds. *)
Definition getSearchResults (g : Graph) : Graph :=
  let taken := takeCurrentResults (searchData g) in
  mkGraph (interruptRequested_ g) (chunkStart g) (sourceActive g)
          (lineBlocksQueue g) (resultsQueue g)
          (totalProcessedLines g) (maxLength g) (nbMatches g) (reportedMatches g)
          (reportedPercentage g) (snd taken) (emitted g) (chunksRead g)
          (linesExamined g)
          (bitmap_union (delivered g) (sr_newMatches (fst taken)))
          (failure g).

(** A [std::exception] with message [what] leaves a node of the graph. *)
Definition raise (what : String.string) (g : Graph) : Graph :=
  mkGraph (interruptRequested_ g) (chunkStart g) (sourceActive g)
          (lineBlocksQueue g) (resultsQueue g)
          (totalProcessedLines g) (maxLength g) (nbMatches g) (reportedMatches g)
          (reportedPercentage g) (searchData g) (emitted g) (chunksRead g)
          (linesExamined g) (delivered g) (Some what).

(** One step of the graph or of its environment.  The nodes run in any
    order: a matcher takes any block of [lineBlocksQueue], the match
    processor any result of [resultsQueue] (both are [buffer_node]s); the
    limiter node only holds [linesSource] back and forbids some of these
    orders.  After an exception the graph is abandoned. *)
Inductive step (ds : DoSearch) : Graph -> Graph -> Prop :=
| step_linesSource : forall g,
    failure g = None -> sourceActive g = true ->
    step ds g (linesSource ds g)
| step_regexMatcher : forall g before blockData after,
    failure g = None -> lineBlocksQueue g = before ++ blockData :: after ->
    step ds g (regexMatcher ds blockData (before ++ after) g)
| step_matchProcessor : forall g before matchResults after,
    failure g = None -> resultsQueue g = before ++ matchResults :: after ->
    step ds g (matchProcessor ds matchResults (before ++ after) g)
| step_interrupt : forall g,
    step ds g (interrupt g)
| step_getSearchResults : forall g,
    step ds g (getSearchResults g)
| step_exception : forall g what,
    failure g = None ->
    step ds g (raise what g).

(** Any number of steps. *)
Inductive run (ds : DoSearch) : Graph -> Graph -> Prop :=
| run_done : forall g, run ds g g
| run_step : forall g g' g'', step ds g g' -> run ds g' g'' -> run ds g g''.

(** [searchGraph.wait_for_all()] returns: the source has stopped and both
    buffers are empty. *)
Definition graph_idle (g : Graph) : bool :=
  negb (sourceActive g)
  && match lineBlocksQueue g with [] => true | _ => false end
  && match resultsQueue g with [] => true | _ => false end.

(** The graph as [doSearch] starts it. *)
Definition graph_start (ds : DoSearch) (searchData : SearchData)
           (delivered : SearchResultArray) : Graph :=
  mkGraph false (ds_initialLine ds) true [] []
          (mkLinesCount 0) (mkLineLength 0)
          (getNbMatches searchData) (getNbMatches searchData) 0
          searchData [] [] [] delivered None.

(** The locals of [doSearch( searchData, initialLine )]. *)
Definition doSearch_locals (calculateProgress : Z -> Z -> Z) (config : Configuration)
           (op : SearchOperation) (initialLine : LineNumber) : DoSearch :=
  mkDoSearch op calculateProgress
             (mkLinesCount (wrap64 (searchReadBufferSizeLines config)))
             (if lnum_lt initialLine (startLine_ op) then startLine_ op else initialLine).

(** The end of [doSearch], after [wait_for_all]:
    [emit searchProgressed( nbMatches, 100, initialLine ); emit searchFinished();]. *)
Definition doSearch_signals (ds : DoSearch) (g : Graph) : list Signal :=
  emitted g ++ [searchProgressed (nbMatches g) 100 (ds_initialLine ds); searchFinished].

(** The match set of a search, as its owner sees it: what it has taken
    out already, and what waits in [newMatches_] for the next call of
    [takeCurrentResults]. *)
Definition matchSet (g : Graph) : SearchResultArray :=
  bitmap_union (delivered g) (newMatches_ (searchData g)).

(** One schedule among the many: the source, then a matcher on the oldest
    block, then the match processor on the oldest result. *)
Definition oldest_block (ds : DoSearch) (g : Graph) : Graph :=
  match lineBlocksQueue g with
  | [] => g
  | blockData :: others => regexMatcher ds blockData others g
  end.

Definition oldest_result (ds : DoSearch) (g : Graph) : Graph :=
  match resultsQueue g with
  | [] => g
  | matchResults :: others => matchProcessor ds matchResults others g
  end.

Definition round (ds : DoSearch) (g : Graph) : Graph :=
  oldest_result ds (oldest_block ds (if sourceActive g then linesSource ds g else g)).

Fixpoint rounds (ds : DoSearch) (n : nat) (g : Graph) : Graph :=
  match n with
  | O => g
  | S n' => rounds ds n' (round ds g)
  end.

(* ===================================================================== *)
(** ** logfiltereddataworker.cpp: the two search operations *)
(* ===================================================================== *)

(** How [run] was left: through the end of its [try] block, or through
    its [catch ( const std::exception& )] handler. *)
Inductive Status : Set := Finished | Errored.

(** What a search operation leaves behind: the graph as it was when
    [run] was left, the shared [SearchData] after [run], the signals
    emitted, the lines written with [LOG_ERROR], the texts given to
    [IssueReporter::askUserAndReportIssue], and the way [run] was left. *)
Record Outcome : Set := mkOutcome {
  out_graph : Graph;
  out_searchData : SearchData;
  out_signals : list Signal;
  out_errorLog : list String.string;
  out_issues : list String.string;
  out_status : Status
}.

(** The end of the [try] block. *)
Definition finished (ds : DoSearch) (g : Graph) : Outcome :=
  mkOutcome g (searchData g) (doSearch_signals ds g) [] [] Finished.

(** The [catch] handler: [errorString] is logged and reported, and
    [searchData.clear()] runs. *)
Definition errored (prefix what : String.string) (g : Graph) : Outcome :=
  let errorString := String.append prefix what in
  mkOutcome g (clear (searchData g)) (emitted g) [errorString] [errorString] Errored.

(** [doSearch] inside the [try] block of a [run]: the graph runs from its
    start until [wait_for_all] returns or an exception comes out. *)
Definition try_doSearch (prefix : String.string) (ds : DoSearch)
           (searchData : SearchData) (delivered : SearchResultArray)
           (out : Outcome) : Prop :=
  exists g,
    run ds (graph_start ds searchData delivered) g /\
    ((failure g = None /\ graph_idle g = true /\ out = finished ds g) \/
     (exists what, failure g = Some what /\ out = errored prefix what g)).

(** [FullSearchOperation::run]: [searchData.clear(); doSearch( searchData, 0_lnum );].
    Modelled from the spec: the owner asks for a full search with
    [run_search], which "clears the match set", so it holds no match of an
    earlier search when this one starts. *)
Definition FullSearchOperation_run (calculateProgress : Z -> Z -> Z)
           (config : Configuration) (op : SearchOperation)
           (searchData : SearchData) (out : Outcome) : Prop :=
  try_doSearch "FullSearchOperation failed: "%string
               (doSearch_locals calculateProgress config op (mkLineNumber 0))
               (clear searchData) [] out.

(** The first lines of [UpdateSearchOperation::run]: where the search
    resumes, and the [deleteMatch] of that line. *)
Definition update_start (initialPosition_ : LineNumber) (searchData : SearchData)
  : LineNumber * SearchData :=
  let initialLine := qMax_lnum (getLastProcessedLine searchData) initialPosition_ in
  if ln initialLine >=? 1 then
    let initialLine' := mkLineNumber (wrap64 (ln initialLine - 1)) in
    (initialLine', deleteMatch initialLine' searchData)
  else (initialLine, searchData).

(** [UpdateSearchOperation::run] *)
Definition UpdateSearchOperation_run (calculateProgress : Z -> Z -> Z)
           (config : Configuration) (op : SearchOperation)
           (initialPosition_ : LineNumber)
           (searchData : SearchData) (delivered : SearchResultArray)
           (out : Outcome) : Prop :=
  let start := update_start initialPosition_ searchData in
  try_doSearch "UpdateSearchOpertaion failed: "%string
               (doSearch_locals calculateProgress config op (fst start))
               (snd start) delivered out.

(** The match set an operation leaves to the owner of the worker. *)
Definition out_matchSet (out : Outcome) : SearchResultArray :=
  bitmap_union (delivered (out_graph out)) (newMatches_ (out_searchData out)).

(** Modelled from the spec: [calculateProgress] of progress.h, "floor of
    100 * processed / total". *)
Definition spec_calculateProgress (value maxValue : Z) : Z := 100 * value / maxValue.

(** The lines of the file whose text the matcher accepts, from [first]
    up to, not including, [last]. *)
Definition matching_lines (op : SearchOperation) (first last : Z) : list Z :=
  filter (fun n => regexp_ op (line_at (sourceLogData_ op) n)) (line_range first last).

(* ===================================================================== *)
(** ** Sample data *)
(* ===================================================================== *)

(** The ten lines a, b, a, c, a, b, d, a, e, a and the pattern "a". *)
Definition ten_lines : LogData :=
  mkLogData [[x61]; [x62]; [x61]; [x63]; [x61]; [x62]; [x64]; [x61]; [x65]; [x61]].

(** The same file after the lines a and f were appended. *)
Definition twelve_lines : LogData :=
  mkLogData (logLines ten_lines ++ [[x61]; [x66]]).

(** After the lines a, a and f were appended. *)
Definition thirteen_lines : LogData :=
  mkLogData (logLines ten_lines ++ [[x61]; [x61]; [x66]]).

Definition contains_a (line : Line) : bool := existsb (Byte.eqb x61) line.

Definition sample_config : Configuration := mkConfiguration true 0 4.

Definition search_a (ld : LogData) (first last : Z) : SearchOperation :=
  mkSearchOperation contains_a ld (mkLineNumber first) (mkLineNumber last).

Definition empty_SearchData : SearchData :=
  mkSearchData [] [] (mkLineLength 0) (mkLinesCount 0) (mkLinesCount 0).

(** The pattern ^a$: the line is the one letter a. *)
Definition is_a (line : Line) : bool :=
  match line with
  | [b] => Byte.eqb b x61
  | _ => false
  end.

(** The ten lines when the last of them, which had no line feed yet, has
    been completed to ab, and the line a has come after it. *)
Definition rewritten_lines : LogData :=
  mkLogData (firstn 9 (logLines ten_lines) ++ [[x61; x62]; [x61]]).

Definition search_is_a (ld : LogData) (first last : Z) : SearchOperation :=
  mkSearchOperation is_a ld (mkLineNumber first) (mkLineNumber last).

(* ===================================================================== *)
(** ** Invariants of the flow graph *)
(* ===================================================================== *)

(** Every bitmap in sight is in ascending order without repetition. *)
Definition graph_sorted (g : Graph) : Prop :=
  strictly_sorted (delivered g) /\
  strictly_sorted (newMatches_ (searchData g)) /\
  strictly_sorted (matches_ (searchData g)) /\
  Forall (fun r => strictly_sorted (psr_matchingLines r)) (resultsQueue g).

(** A chunk [linesSource] may read: it starts at or after the initial
    line, holds at least one line and at most [nbLinesInChunk], and ends
    at or before [endLine]. *)
Definition chunk_ok (ds : DoSearch) (first : LineNumber) (number : LinesCount) : Prop :=
  ln (ds_initialLine ds) <= ln first /\
  1 <= lc number <= lc (ds_nbLinesInChunk ds) /\
  ln first + lc number <= ln (ds_endLine ds).

Definition block_ok (ds : DoSearch) (blockData : SearchBlockData) : Prop :=
  exists number,
    chunk_ok ds (blk_chunkStart blockData) number /\
    blk_lines blockData
    = getLinesRaw (sourceLogData_ (ds_operation ds)) (blk_chunkStart blockData) number.

Definition result_ok (ds : DoSearch) (matchResults : PartialSearchResults) : Prop :=
  exists first number,
    chunk_ok ds first number /\
    matchResults
    = filterLines (regexp_ (ds_operation ds))
                  (getLinesRaw (sourceLogData_ (ds_operation ds)) first number) first.

(** The buffers hold blocks and results of such chunks only. *)
Definition graph_queues_ok (ds : DoSearch) (g : Graph) : Prop :=
  ln (ds_initialLine ds) <= ln (chunkStart g) <= UINT64_MAX /\
  Forall (block_ok ds) (lineBlocksQueue g) /\
  Forall (result_ok ds) (resultsQueue g).

(** The pattern matches line [n] of the file searched. *)
Definition line_matches (ds : DoSearch) (n : Z) : bool :=
  regexp_ (ds_operation ds) (line_at (sourceLogData_ (ds_operation ds)) n).

(** Line [n] is a match that the graph has found or will find: it is in
    the match set, in a result that waits for the match processor, a
    matching line of a block that waits for a matcher, or a matching line
    that [linesSource] has yet to read. *)
Definition accounted (ds : DoSearch) (g : Graph) (n : Z) : Prop :=
  In n (matchSet g)
  \/ (exists r, In r (resultsQueue g) /\ In n (psr_matchingLines r))
  \/ (exists b, In b (lineBlocksQueue g) /\ In n (block_lines b) /\ line_matches ds n = true)
  \/ (ln (chunkStart g) <= n < ln (ds_endLine ds) /\ line_matches ds n = true).

(** As long as nobody interrupts, the matches accounted for are the ones
    the match set started with and the matching lines from the initial
    line to the end line; and a source that has stopped has reached the
    end line. *)
Definition graph_covers (ds : DoSearch) (base : SearchResultArray) (g : Graph) : Prop :=
  interruptRequested_ g = false ->
  (sourceActive g = false -> ln (ds_endLine ds) <= ln (chunkStart g)) /\
  forall n,
    accounted ds g n
    <-> In n base
        \/ (ln (ds_initialLine ds) <= n < ln (ds_endLine ds) /\ line_matches ds n = true).

(** The lines given to the matchers, the lines of the blocks that wait,
    and the lines not yet read are, together, the lines from the initial
    line to the end line, each of them once. *)
Definition graph_examines (ds : DoSearch) (g : Graph) : Prop :=
  Permutation
    (linesExamined g
     ++ concat (map block_lines (lineBlocksQueue g))
     ++ line_range (ln (chunkStart g)) (ln (ds_endLine ds)))
    (line_range (ln (ds_initialLine ds)) (ln (ds_endLine ds))).

(** The [searchProgressed] signals of a list, each as the pair of its
    match count and its percentage. *)
Fixpoint progress_events (signals : list Signal) : list (Z * Z) :=
  match signals with
  | [] => []
  | searchProgressed nbMatches percentage _ :: rest =>
      (lc nbMatches, percentage) :: progress_events rest
  | searchFinished :: rest => progress_events rest
  end.

(** Neither the count nor the percentage goes down from an event to a
    later one. *)
Definition progress_le (e1 e2 : Z * Z) : Prop := fst e1 <= fst e2 /\ snd e1 <= snd e2.

Definition monotonic (events : list (Z * Z)) : Prop := StronglySorted progress_le events.

Definition sum_Z (l : list Z) : Z := fold_right Z.add 0 l.

(** The lines of the range that have not reached the match processor:
    in results that wait, in blocks that wait, or not yet read. *)
Definition pending_lines (ds : DoSearch) (g : Graph) : Z :=
  sum_Z (map (fun r => lc (psr_processedLines r)) (resultsQueue g))
  + sum_Z (map (fun b => Z.of_nat (length (utf8View (blk_lines b)))) (lineBlocksQueue g))
  + Z.max 0 (ln (ds_endLine ds) - ln (chunkStart g)).

(** The counters of the match processor stay within the number of lines
    of the range, and every event emitted lies at or below what the next
    event would carry. *)
Definition graph_progress (ds : DoSearch) (nbMatches0 : Z) (g : Graph) : Prop :=
  0 <= lc (totalProcessedLines g) /\
  lc (totalProcessedLines g) + pending_lines ds g <= lc (ds_totalLines ds) /\
  nbMatches0 <= lc (nbMatches g) <= nbMatches0 + lc (totalProcessedLines g) /\
  monotonic (progress_events (emitted g)) /\
  Forall (fun e => fst e <= lc (nbMatches g)
                   /\ snd e <= 99
                   /\ snd e <= ds_calculateProgress ds (lc (totalProcessedLines g))
                                                    (lc (ds_totalLines ds)))
         (progress_events (emitted g)).

(** The graph of the sample full search over [ten_lines], chunks of four
    lines, after the five rounds that bring it to rest. *)
Definition sample_locals : DoSearch :=
  doSearch_locals spec_calculateProgress sample_config (search_a ten_lines 0 10)
                  (mkLineNumber 0).

Definition sample_graph : Graph :=
  rounds sample_locals 5 (graph_start sample_locals (clear empty_SearchData) []).

(** The watermark [nbLinesProcessed_] stays at or below the end line, or
    where it was when the graph started. *)
Definition graph_watermark (ds : DoSearch) (watermark0 : Z) (g : Graph) : Prop :=
  0 <= lc (nbLinesProcessed_ (searchData g)) <= Z.max watermark0 (ln (ds_endLine ds)).

(** What a full search leaves when the graph runs [n] rounds of the
    schedule [round]. *)
Definition full_outcome (calculateProgress : Z -> Z -> Z) (config : Configuration)
           (op : SearchOperation) (sd : SearchData) (n : nat) : Outcome :=
  finished (doSearch_locals calculateProgress config op (mkLineNumber 0))
           (rounds (doSearch_locals calculateProgress config op (mkLineNumber 0)) n
                   (graph_start (doSearch_locals calculateProgress config op (mkLineNumber 0))
                                (clear sd) [])).

(** The same for an update search that resumes at [r]. *)
Definition update_outcome (calculateProgress : Z -> Z -> Z) (config : Configuration)
           (op : SearchOperation) (r : LineNumber) (sd : SearchData)
           (d : SearchResultArray) (n : nat) : Outcome :=
  finished (doSearch_locals calculateProgress config op (fst (update_start r sd)))
           (rounds (doSearch_locals calculateProgress config op (fst (update_start r sd))) n
                   (graph_start (doSearch_locals calculateProgress config op
                                                 (fst (update_start r sd)))
                                (snd (update_start r sd)) d)).

(** The sample full search over [file] up to line [last], and the sample
    update search after the full search over [ten_lines]. *)
Definition sample_full (file : LogData) (last : Z) : Outcome :=
  full_outcome spec_calculateProgress sample_config (search_a file 0 last)
               empty_SearchData 5.

Definition sample_update (file : LogData) (last position : Z) : Outcome :=
  update_outcome spec_calculateProgress sample_config (search_a file 0 last)
                 (mkLineNumber position)
                 (out_searchData (sample_full ten_lines 10))
                 (delivered (out_graph (sample_full ten_lines 10))) 5.

(** The sample full search left through the handler: one round of the
    schedule, the owner takes the results, then [std::bad_alloc] comes out
    of a node. *)
Definition sample_exception : Outcome :=
  errored "FullSearchOperation failed: "%string "std::bad_alloc"%string
          (raise "std::bad_alloc"%string
                 (getSearchResults
                    (round sample_locals
                           (graph_start sample_locals (clear empty_SearchData) [])))).

(* ===================================================================== *)
(** ** abstractlogdata.h: the length of a line in the earlier worker *)
(* ===================================================================== *)

(** A [QString] by its UTF-16 code units, each from 0 to 65535. *)
Definition QString : Set := list Z.

Definition valid_QString (line : QString) : Prop := Forall (fun u => 0 <= u < 65536) line.

(** The memory behind [line.utf16()] as [reinterpret_cast<const char*>]
    shows it: two bytes per code unit, the low byte first (the layout of a
    little-endian host), and the two bytes of the terminating null. *)
Definition utf16_bytes (line : QString) : list Z :=
  flat_map (fun u => [u mod 256; u / 256]) line.

Definition utf16_buffer (line : QString) : list Z := utf16_bytes line ++ [0; 0].

(** [std::memchr( buffer + start, c, n )]: the offset in [buffer] of the
    first byte [c] among the [n] bytes from [start] on; [None] is
    [nullptr]. *)
Fixpoint find_byte (c : Z) (l : list Z) : option nat :=
  match l with
  | [] => None
  | b :: rest => if b =? c then Some O else option_map S (find_byte c rest)
  end.

Definition memchr (buffer : list Z) (start : nat) (c : Z) (n : nat) : option nat :=
  option_map (Nat.add start) (find_byte c (firstn n (skipn start buffer))).

(** [static const int tabStop = 8] *)
Definition tabStop : Z := 8.

(** The [while ( tab != nullptr )] loop of
    [AbstractLogData::getUntabifiedLength]: [tab] is the pointer as an
    offset from [line.utf16()], which is [tabPosition]; the next search
    starts one byte further and runs over [dataLength - tabPosition]
    bytes.  The loop runs once per byte found, hence at most [dataLength]
    times. *)
Fixpoint legacy_tab_loop (fuel : nat) (buffer : list Z) (dataLength : nat)
         (tab : option nat) (total_spaces : Z) : Z :=
  match fuel with
  | O => total_spaces
  | S fuel' =>
      match tab with
      | None => total_spaces
      | Some tabPosition =>
          let spaces := tabStop - (Z.of_nat tabPosition + total_spaces) mod tabStop in
          legacy_tab_loop fuel' buffer dataLength
                          (memchr buffer (tabPosition + 1) 9 (dataLength - tabPosition))
                          (total_spaces + (spaces - 1))
      end
  end.

(** [static inline LineLength getUntabifiedLength( const QString& line )]
    of [AbstractLogData]; the sums are taken as they are, which is what the
    [int] of the source holds for lines of fewer than 2^27 code units. *)
Definition AbstractLogData_getUntabifiedLength (line : QString) : LineLength :=
  let dataLength := (length line * 2)%nat in
  let buffer := utf16_buffer line in
  mkLineLength
    (Z.of_nat (length line)
     + legacy_tab_loop (S dataLength) buffer dataLength (memchr buffer 0 9 dataLength) 0).

(** [static QString untabify( const QString& line )] of
    [AbstractLogData]: the loop over [j] with [total_spaces] carried
    along; [QChar::Tabulation] is 9, [QChar::Null] 0, [QChar::Space] 32. *)
Fixpoint AbstractLogData_untabify_loop (rest : QString) (j total_spaces : Z) : QString :=
  match rest with
  | [] => []
  | ch :: rest' =>
      if ch =? 9 then
        let spaces := tabStop - (j + total_spaces) mod tabStop in
        repeat 32 (Z.to_nat spaces)
          ++ AbstractLogData_untabify_loop rest' (j + 1) (total_spaces + (spaces - 1))
      else if ch =? 0 then
        32 :: AbstractLogData_untabify_loop rest' (j + 1) total_spaces
      else
        ch :: AbstractLogData_untabify_loop rest' (j + 1) total_spaces
  end.

Definition AbstractLogData_untabify (line : QString) : QString :=
  AbstractLogData_untabify_loop line 0 0.

(** A code unit neither of whose bytes is the byte of a tab. *)
Definition tabless_unit (u : Z) : bool := negb (u mod 256 =? 9) && negb (u / 256 =? 9).

(** The [QString] the bytes of a line decode to under Latin-1, one code
    unit per byte: the lines [getLines] hands to the earlier worker are
    decoded ones. *)
Definition latin1 (line : Line) : QString := map (fun b => Z.of_N (Byte.to_N b)) line.

(* ===================================================================== *)
(** ** logfiltereddataworkerthread.cpp: the earlier worker thread *)
(* ===================================================================== *)

Module WorkerThread.

(** [SearchResultArray] is a vector of matching lines here; a matching
    line is given by its line number. *)
Definition SearchResultArray : Set := list Z.

(** The members of [class SearchData]. *)
Record SearchData : Set := mkSearchData {
  matches_ : SearchResultArray;
  maxLength_ : LineLength;
  nbLinesProcessed_ : LinesCount
}.

(** [std::lower_bound( begin, end, value )] as an index: the elements
    before it are below [value]. *)
Fixpoint lower_bound (range : list Z) (value : Z) : nat :=
  match range with
  | [] => O
  | x :: rest => if x <? value then S (lower_bound rest value) else O
  end.

(** [vector.insert( it, first, last )] *)
Definition vector_insert (v : list Z) (it : nat) (elements : list Z) : list Z :=
  firstn it v ++ elements ++ skipn it v.

(** The condition of the [assert] in [addAll]:
    [insertIt == end( matches_ ) || !( *insertIt < matches.back() )]. *)
Definition addAll_assertion (matches : SearchResultArray) (sd : SearchData) : bool :=
  match matches with
  | [] => true
  | front :: _ =>
      match nth_error (matches_ sd) (lower_bound (matches_ sd) front) with
      | None => true
      | Some at_insertIt => negb (at_insertIt <? last matches front)
      end
  end.

(** [SearchData::addAll] *)
Definition addAll (length : LineLength) (matches : SearchResultArray) (lines : LinesCount)
           (sd : SearchData) : SearchData :=
  mkSearchData
    (match matches with
     | [] => matches_ sd
     | front :: _ =>
         vector_insert (matches_ sd) (lower_bound (matches_ sd) front) matches
     end)
    (qMax_length (maxLength_ sd) length)
    (qMax_count (nbLinesProcessed_ sd) lines).

(** [SearchData::getNbMatches] *)
Definition getNbMatches (sd : SearchData) : LinesCount :=
  mkLinesCount (wrap64 (Z.of_nat (List.length (matches_ sd)))).

(** [SearchData::clear] *)
Definition clear (sd : SearchData) : SearchData :=
  mkSearchData [] (mkLineLength 0) (mkLinesCount 0).

(** [SearchData::getLastMatchedLineNumber] *)
Definition getLastMatchedLineNumber (sd : SearchData) : LineNumber :=
  match matches_ sd with
  | [] => mkLineNumber 0
  | x :: rest => mkLineNumber (last rest x)
  end.

(** The loop of [filterLines] over [i], a [size_t]; [lengthOf] stands for
    [AbstractLogData::getUntabifiedLength] on the decoded line. *)
Fixpoint filterLines_loop (matcher : Line -> bool) (lengthOf : Line -> LineLength)
         (lines : list Line) (chunkStart : LineNumber) (i : Z)
         (results : PartialSearchResults) : PartialSearchResults :=
  match lines with
  | [] => results
  | l :: rest =>
      let results' :=
        if matcher l then
          mkPartialSearchResults
            (psr_matchingLines results ++ [ln (lnum_plus chunkStart (mkLinesCount i))])
            (qMax_length (psr_maxLength results) (lengthOf l))
            (psr_chunkStart results)
            (psr_processedLines results)
        else results in
      filterLines_loop matcher lengthOf rest chunkStart (wrap64 (i + 1)) results'
  end.

Definition filterLines (matcher : Line -> bool) (lengthOf : Line -> LineLength)
           (lines : list Line) (chunkStart : LineNumber) : PartialSearchResults :=
  filterLines_loop matcher lengthOf lines chunkStart 0
    (mkPartialSearchResults [] (mkLineLength 0) chunkStart
                            (mkLinesCount (Z.of_nat (List.length lines)))).

(** What a search works on: the members of [SearchOperation] that
    [doSearch] reads, the length function [filterLines] calls, and
    [nbLinesInChunk], which [doSearch] takes from the configuration
    ([searchReadBufferSizeLines]). *)
Record SearchOperation : Type := mkSearchOperation {
  regexp_ : Line -> bool;
  lengthOf_ : Line -> LineLength;
  sourceLogData_ : LogData;
  startLine_ : LineNumber;
  endLine_ : LineNumber;
  nbLinesInChunk : LinesCount
}.

Definition endLine (op : SearchOperation) : LineNumber :=
  qMin_lnum (mkLineNumber (lc (getNbLine (sourceLogData_ op)))) (endLine_ op).

(** The loop of [doSearch] that reads the chunks and sends them to the
    matchers; it is left when [chunkStart] reaches [endLine], or, on an
    interrupt, after the [reads] chunks read until then. *)
Fixpoint chunks (reads : nat) (op : SearchOperation) (chunkStart : LineNumber)
  : list (LineNumber * list Line) :=
  match reads with
  | O => []
  | S reads' =>
      if lnum_lt chunkStart (endLine op) then
        let linesInChunk :=
          mkLinesCount (Z.min (lc (nbLinesInChunk op))
                              (lc (lnum_diff (endLine op) chunkStart))) in
        (chunkStart, utf8View (getLinesRaw (sourceLogData_ op) chunkStart linesInChunk))
          :: chunks reads' op (lnum_plus chunkStart (nbLinesInChunk op))
      else []
  end.

(** The results the matchers send to [processMatchQueue], one per chunk. *)
Definition partial_results (reads : nat) (op : SearchOperation) (initialLine : LineNumber)
  : list PartialSearchResults :=
  map (fun chunk => filterLines (regexp_ op) (lengthOf_ op) (snd chunk) (fst chunk))
      (chunks reads op initialLine).

(** The loop of [processMatches] over the results in the order of their
    arrival ([arrived]): the search data after each of them, the last
    state first.  The progress signals are left out. *)
Fixpoint processMatches (arrived : list PartialSearchResults) (maxLength : LineLength)
         (sd : SearchData) : list SearchData :=
  match arrived with
  | [] => [sd]
  | matchResults :: rest =>
      if lc (psr_processedLines matchResults) =? 0 then
        processMatches rest maxLength sd
      else
        let maxLength' := qMax_length maxLength (psr_maxLength matchResults) in
        let processedLines :=
          mkLinesCount (wrap64 (ln (psr_chunkStart matchResults)
                                + lc (psr_processedLines matchResults))) in
        let sd' := addAll maxLength' (psr_matchingLines matchResults) processedLines sd in
        processMatches rest maxLength' sd' ++ [sd]
  end.

(** [SearchOperation::doSearch( searchData, initialLine )]: the states of
    the search data a reader may see, the last one first, when the results
    of the matchers arrive in the order [arrived]. *)
Definition doSearch (op : SearchOperation) (reads : nat) (sd : SearchData)
           (initialLine : LineNumber) (arrived : list PartialSearchResults)
  : list SearchData :=
  processMatches arrived (mkLineLength 0) sd.

(** The adjustment of [initialLine] at the head of [doSearch]. *)
Definition adjust (op : SearchOperation) (initialLine : LineNumber) : LineNumber :=
  if lnum_lt initialLine (startLine_ op) then startLine_ op else initialLine.

(** The orders in which the results of a search may arrive: with several
    matcher threads, any. *)
Definition arrival (op : SearchOperation) (reads : nat) (initialLine : LineNumber)
           (arrived : list PartialSearchResults) : Prop :=
  Permutation arrived (partial_results reads op (adjust op initialLine)).

(** [FullSearchOperation::start] *)
Definition FullSearchOperation_start (op : SearchOperation) (reads : nat)
           (sd : SearchData) (arrived : list PartialSearchResults) : list SearchData :=
  doSearch op reads (clear sd) (mkLineNumber 0) arrived.

(** The first lines of [UpdateSearchOperation::start]. *)
Definition update_initial_line (initialPosition_ : LineNumber) (sd : SearchData)
  : LineNumber :=
  if (ln initialPosition_ >=? 1)
     && negb (ln (getLastMatchedLineNumber sd) =? ln initialPosition_)
  then mkLineNumber (wrap64 (ln initialPosition_ - 1))
  else initialPosition_.

(** [UpdateSearchOperation::start] *)
Definition UpdateSearchOperation_start (op : SearchOperation) (reads : nat)
           (initialPosition_ : LineNumber) (sd : SearchData)
           (arrived : list PartialSearchResults) : list SearchData :=
  doSearch op reads sd (update_initial_line initialPosition_ sd) arrived.

(** The sample searches on this worker: the pattern "a", chunks of four
    lines; the length of a line is [AbstractLogData::getUntabifiedLength]
    of the string its bytes decode to. *)
Definition search_a (ld : LogData) (last : Z) : SearchOperation :=
  mkSearchOperation contains_a
                    (fun line => AbstractLogData_getUntabifiedLength (latin1 line))
                    ld (mkLineNumber 0) (mkLineNumber last) (mkLinesCount 4).

(** The full search over the ten lines, results in the order of the
    chunks. *)
Definition sample_full_states : list SearchData :=
  FullSearchOperation_start (search_a ten_lines 10) 5 (mkSearchData [] (mkLineLength 0) (mkLinesCount 0))
    (partial_results 5 (search_a ten_lines 10) (mkLineNumber 0)).

(** What that search leaves. *)
Definition sample_data : SearchData :=
  hd (mkSearchData [] (mkLineLength 0) (mkLinesCount 0)) sample_full_states.

(** The update search from position 10 after the file grew to twelve
    lines. *)
Definition sample_update_states : list SearchData :=
  UpdateSearchOperation_start (search_a twelve_lines 12) 5 (mkLineNumber 10) sample_data
    (partial_results 5 (search_a twelve_lines 12)
                     (update_initial_line (mkLineNumber 10) sample_data)).

(** The same with the pattern ^a$: the full search over the ten lines,
    what it leaves, and the update search from position 10 when the last
    line has been completed to ab and the line a has come after it. *)
Definition search_is_a (ld : LogData) (last : Z) : SearchOperation :=
  mkSearchOperation is_a
                    (fun line => AbstractLogData_getUntabifiedLength (latin1 line))
                    ld (mkLineNumber 0) (mkLineNumber last) (mkLinesCount 4).

Definition is_a_full_states (ld : LogData) (last : Z) : list SearchData :=
  FullSearchOperation_start (search_is_a ld last) 5
    (mkSearchData [] (mkLineLength 0) (mkLinesCount 0))
    (partial_results 5 (search_is_a ld last) (mkLineNumber 0)).

Definition is_a_data : SearchData :=
  hd (mkSearchData [] (mkLineLength 0) (mkLinesCount 0)) (is_a_full_states ten_lines 10).

Definition is_a_update_states : list SearchData :=
  UpdateSearchOperation_start (search_is_a rewritten_lines 11) 5 (mkLineNumber 10) is_a_data
    (partial_results 5 (search_is_a rewritten_lines 11)
                     (update_initial_line (mkLineNumber 10) is_a_data)).

End WorkerThread.

(** The lines of the chunk behind a partial result: from [psr_chunkStart]
    up to, not including, [psr_chunkStart + psr_processedLines]. *)
Definition chunk_first (r : PartialSearchResults) : Z := ln (psr_chunkStart r).
Definition chunk_last (r : PartialSearchResults) : Z :=
  ln (psr_chunkStart r) + lc (psr_processedLines r).

(** Two partial results of chunks that do not overlap. *)
Definition chunks_apart (a b : PartialSearchResults) : Prop :=
  chunk_last a <= chunk_first b \/ chunk_last b <= chunk_first a.

(** A partial result as [filterLines] of the earlier worker builds it:
    the matching lines in ascending order, all of them lines of its chunk,
    which holds at least one line. *)
Definition partial_result_ok (r : PartialSearchResults) : Prop :=
  strictly_sorted (psr_matchingLines r) /\
  1 <= lc (psr_processedLines r) /\
  forall x, In x (psr_matchingLines r) -> chunk_first r <= x < chunk_last r.

(* ===================================================================== *)
(** ** linetypes.h: a line number compared with a count *)
(* ===================================================================== *)

(** [operator>], [operator<=], [operator>=], [operator==] and [operator!=]
    on a [LineNumber] and a [LinesCount], each as the header writes it;
    [operator<] is [lnum_lt_count] above. *)
Definition lnum_gt_count (number : LineNumber) (count : LinesCount) : bool :=
  lc count <? ln number.
Definition lnum_le_count (number : LineNumber) (count : LinesCount) : bool :=
  negb (lc count <? ln number).
Definition lnum_ge_count (number : LineNumber) (count : LinesCount) : bool :=
  negb (lnum_lt_count number count).
Definition lnum_eq_count (number : LineNumber) (count : LinesCount) : bool :=
  negb (lnum_lt_count number count) && negb (lc count <? ln number).
Definition lnum_ne_count (number : LineNumber) (count : LinesCount) : bool :=
  negb (lnum_eq_count number count).

(** The number of tabs of a line. *)
Definition count_tabs (line : Line) : Z :=
  Z.of_nat (length (filter (fun b => Byte.eqb b tab) line)).

(** A byte that [untabify] copies as it is. *)
Definition plain_byte (b : byte) : bool := negb (Byte.eqb b tab) && negb (Byte.eqb b nul).

(* ===================================================================== *)
(** ** SearchData: its member functions as calls *)
(* ===================================================================== *)

(** A call of one of the member functions of [SearchData] that
    logfiltereddataworker.cpp defines and that may change the object. *)
Inductive SearchDataCall : Set :=
| call_addAll (c : Commit)
| call_takeCurrentResults
| call_deleteMatch (line : LineNumber)
| call_clear.

Definition apply_call (sd : SearchData) (call : SearchDataCall) : SearchData :=
  match call with
  | call_addAll c => addAll_commit sd c
  | call_takeCurrentResults => snd (takeCurrentResults sd)
  | call_deleteMatch line => deleteMatch line sd
  | call_clear => clear sd
  end.

Definition apply_calls (sd : SearchData) (calls : list SearchDataCall) : SearchData :=
  fold_left apply_call calls sd.

(** The largest of [start] and the numbers of a list. *)
Definition max_of (start : Z) (l : list Z) : Z := fold_left Z.max l start.

(* ===================================================================== *)
(** ** Further invariants of the flow graph *)
(* ===================================================================== *)

(** The untabified length of line [n] of the file searched. *)
Definition line_length (ds : DoSearch) (n : Z) : Z :=
  ll (getUntabifiedLength (line_at (sourceLogData_ (ds_operation ds)) n)).

(** Every line of the match set was in it when the graph started
    ([base]), or it is a line of the range that the pattern matches and
    whose length [maxLength_] covers. *)
Definition graph_found (ds : DoSearch) (base : SearchResultArray) (g : Graph) : Prop :=
  forall n,
    In n (matchSet g) ->
    In n base
    \/ (ln (ds_initialLine ds) <= n < ln (ds_endLine ds)
        /\ line_matches ds n = true
        /\ line_length ds n <= ll (maxLength_ (searchData g))).

(** The number of lines from [first] up to, not including, [last] that
    the pattern matches. *)
Definition count_matching (ds : DoSearch) (first last : Z) : Z :=
  Z.of_nat (length (filter (line_matches ds) (line_range first last))).

(** The matches that have not reached the match processor. *)
Definition pending_matches (ds : DoSearch) (g : Graph) : Z :=
  sum_Z (map (fun r => bitmap_cardinality (psr_matchingLines r)) (resultsQueue g))
  + sum_Z (map (fun b => Z.of_nat (length (filter (line_matches ds) (block_lines b))))
               (lineBlocksQueue g))
  + count_matching ds (ln (chunkStart g)) (ln (ds_endLine ds)).

(** The counter of [SearchData] follows the counter of the match
    processor, and as long as nobody interrupts, the matches counted and
    the matches to come are the count at the start and the matching lines
    of the range. *)
Definition graph_counts (ds : DoSearch) (nbMatches0 : Z) (g : Graph) : Prop :=
  nbMatches_ (searchData g) = nbMatches g /\
  nbMatches0 <= lc (nbMatches g) /\
  (interruptRequested_ g = false ->
   lc (nbMatches g) + pending_matches ds g
   = nbMatches0 + count_matching ds (ln (ds_initialLine ds)) (ln (ds_endLine ds))).

(** As long as nobody interrupts, the chunk that ends at the end line has
    been committed, waits in one of the buffers, or is yet to be read. *)
Definition graph_last_chunk (ds : DoSearch) (g : Graph) : Prop :=
  interruptRequested_ g = false ->
  ln (ds_endLine ds) <= lc (nbLinesProcessed_ (searchData g))
  \/ (exists r, In r (resultsQueue g)
                /\ ln (psr_chunkStart r) + lc (psr_processedLines r) = ln (ds_endLine ds))
  \/ (exists b, In b (lineBlocksQueue g)
                /\ ln (blk_chunkStart b) + Z.of_nat (length (utf8View (blk_lines b)))
                   = ln (ds_endLine ds))
  \/ (sourceActive g = true /\ ln (chunkStart g) < ln (ds_endLine ds)).

(** The reads of [linesSource]: each a chunk of the range, below where
    the source stands, and each one after the end of the one before. *)
Definition graph_reads (ds : DoSearch) (g : Graph) : Prop :=
  Forall (fun c => chunk_ok ds (fst c) (snd c)
                   /\ ln (fst c) + lc (snd c) <= ln (chunkStart g))
         (chunksRead g) /\
  StronglySorted (fun a b => ln (fst a) + lc (snd a) <= ln (fst b)) (chunksRead g).

(** The [searchFinished] signals of a list. *)
Definition is_searchFinished (s : Signal) : bool :=
  match s with
  | searchFinished => true
  | searchProgressed _ _ _ => false
  end.

(** The line from which a [searchProgressed] signal says the search ran. *)
Definition progressed_from (s : Signal) : option LineNumber :=
  match s with
  | searchProgressed _ _ initialLine => Some initialLine
  | searchFinished => None
  end.

(* ===================================================================== *)
(** ** The earlier worker thread: what a search leaves *)
(* ===================================================================== *)

(** The lines of the file, from [first] up to, not including, [last],
    that the pattern of an operation of the earlier worker matches. *)
Definition legacy_matching_lines (op : WorkerThread.SearchOperation) (first last : Z)
  : list Z :=
  filter (fun n => WorkerThread.regexp_ op (line_at (WorkerThread.sourceLogData_ op) n))
         (line_range first last).

(** The search data when [processMatches] has taken the last result: the
    head of the states a reader may see. *)
Definition legacy_final (states : list WorkerThread.SearchData)
  : option WorkerThread.SearchData :=
  hd_error states.

(* ===================================================================== *)
(** ** crawlerwidget.cpp: the widget that starts and updates searches *)
(* ===================================================================== *)

Module CrawlerWidget.

(** The values of [SearchState::State] that the source names. *)
Inductive State : Set :=
| NoSearch
| Static
| Autorefreshing
| FileTruncated
| TruncatedAutorefreshing.

(** [CrawlerWidget::SearchState]: the two members its functions write. *)
Record SearchState : Set := mkSearchState {
  state_ : State;
  autoRefreshRequested_ : bool
}.

(** [void CrawlerWidget::SearchState::resetState()] *)
Definition resetState (s : SearchState) : SearchState :=
  mkSearchState NoSearch (autoRefreshRequested_ s).

(** [void CrawlerWidget::SearchState::setAutorefresh( bool refresh )];
    the branch from [FileTruncated] to [TruncatedAutorefreshing] is
    commented out in the source. *)
Definition setAutorefresh (refresh : bool) (s : SearchState) : SearchState :=
  if refresh then
    match state_ s with
    | Static => mkSearchState Autorefreshing refresh
    | other => mkSearchState other refresh
    end
  else
    match state_ s with
    | Autorefreshing => mkSearchState Static refresh
    | TruncatedAutorefreshing => mkSearchState FileTruncated refresh
    | other => mkSearchState other refresh
    end.

(** [void CrawlerWidget::SearchState::truncateFile()] *)
Definition truncateFile (s : SearchState) : SearchState :=
  match state_ s with
  | Autorefreshing | TruncatedAutorefreshing =>
      mkSearchState TruncatedAutorefreshing (autoRefreshRequested_ s)
  | _ => mkSearchState FileTruncated (autoRefreshRequested_ s)
  end.

(** [void CrawlerWidget::SearchState::changeExpression()] *)
Definition changeExpression (s : SearchState) : SearchState :=
  match state_ s with
  | Autorefreshing => mkSearchState Static (autoRefreshRequested_ s)
  | _ => s
  end.

(** [void CrawlerWidget::SearchState::stopSearch()] *)
Definition stopSearch (s : SearchState) : SearchState :=
  match state_ s with
  | Autorefreshing => mkSearchState Static (autoRefreshRequested_ s)
  | _ => s
  end.

(** [void CrawlerWidget::SearchState::startSearch()] *)
Definition startSearch (s : SearchState) : SearchState :=
  if autoRefreshRequested_ s
  then mkSearchState Autorefreshing (autoRefreshRequested_ s)
  else mkSearchState Static (autoRefreshRequested_ s).

(** The calls the widget makes on its [searchState_]. *)
Inductive SearchStateCall : Set :=
| on_resetState
| on_setAutorefresh (refresh : bool)
| on_truncateFile
| on_changeExpression
| on_stopSearch
| on_startSearch.

Definition searchState_call (s : SearchState) (c : SearchStateCall) : SearchState :=
  match c with
  | on_resetState => resetState s
  | on_setAutorefresh refresh => setAutorefresh refresh s
  | on_truncateFile => truncateFile s
  | on_changeExpression => changeExpression s
  | on_stopSearch => stopSearch s
  | on_startSearch => startSearch s
  end.

Definition searchState_calls (calls : list SearchStateCall) (s : SearchState) : SearchState :=
  fold_left searchState_call calls s.

(** The calls that open or close a search: [startSearch] and [resetState]. *)
Definition restarts (c : SearchStateCall) : bool :=
  match c with
  | on_startSearch | on_resetState => true
  | _ => false
  end.

(** The text [printSearchInfoMessage] puts in the search info line: none,
    [tr( "%1 match%2 found." )] with the count and whether "es" is
    appended, or [tr( "File truncated on disk" )]. *)
Inductive SearchInfoText : Set :=
| text_blank
| text_matches_found (count : Z) (plural : bool)
| text_file_truncated.

(** [void CrawlerWidget::printSearchInfoMessage( LinesCount nbMatches )]:
    the text set on [searchInfoLine_]. *)
Definition printSearchInfoMessage (s : SearchState) (nbMatches : LinesCount)
  : SearchInfoText :=
  match state_ s with
  | NoSearch => text_blank
  | Static | Autorefreshing => text_matches_found (lc nbMatches) (1 <? lc nbMatches)
  | FileTruncated | TruncatedAutorefreshing => text_file_truncated
  end.

(** The states in which the search follows the file. *)
Definition autorefreshing (s : SearchState) : bool :=
  match state_ s with
  | Autorefreshing | TruncatedAutorefreshing => true
  | _ => false
  end.

(** The two buttons the pattern functions read through [isChecked()]. *)
Record SearchButtons : Set := mkSearchButtons {
  useRegexpButton_ : bool;
  booleanButton_ : bool
}.

(** The members of [PredefinedFilter] that
    [setSearchPatternFromPredefinedFilters] reads. *)
Record PredefinedFilter : Set := mkPredefinedFilter {
  pattern : QString;
  useRegex : bool
}.

(** [QString::replace( QChar before, const QString& after )]: every
    occurrence of [before] gives way to [after]. *)
Fixpoint QString_replace (before : Z) (after : QString) (s : QString) : QString :=
  match s with
  | [] => []
  | ch :: rest =>
      (if ch =? before then after else [ch]) ++ QString_replace before after rest
  end.

(** The code unit of the double quote, the literal with the word or
    between two spaces, and the vertical bar. *)
Definition double_quote : Z := 34.
Definition or_separator : QString := [32; 111; 114; 32].
Definition bar_separator : QString := [124].

(** [QString::isEmpty()] *)
Definition QString_isEmpty (s : QString) : bool :=
  match s with
  | [] => true
  | _ :: _ => false
  end.

Section Patterns.

(** [QRegularExpression::escape], a function of Qt. *)
Variable escape : QString -> QString.

Variable buttons : SearchButtons.

(** [QString CrawlerWidget::escapeSearchPattern( const QString& pattern,
    bool isRegex ) const]; the string literal that [replace] is given
    there holds one character, the double quote itself. *)
Definition escapeSearchPattern (pattern : QString) (isRegex : bool) : QString :=
  let escapedPattern :=
    if negb isRegex && useRegexpButton_ buttons then escape pattern else pattern in
  if booleanButton_ buttons then
    (double_quote :: QString_replace double_quote [double_quote] escapedPattern)
      ++ [double_quote]
  else escapedPattern.

(** [QString& CrawlerWidget::combinePatterns( QString& currentPattern,
    const QString& newPattern ) const]: the value [currentPattern] holds
    on return. *)
Definition combinePatterns (currentPattern newPattern : QString) : QString :=
  let currentPattern :=
    if negb (QString_isEmpty currentPattern) then
      if booleanButton_ buttons then currentPattern ++ or_separator
      else if useRegexpButton_ buttons then currentPattern ++ bar_separator
      else currentPattern
    else currentPattern in
  currentPattern ++ newPattern.

(** [void CrawlerWidget::setSearchPatternFromPredefinedFilters( const
    QList<PredefinedFilter>& filters )]: the pattern handed to
    [setSearchPattern]. *)
Definition setSearchPatternFromPredefinedFilters (filters : list PredefinedFilter)
  : QString :=
  fold_left (fun searchPattern filter =>
               combinePatterns searchPattern
                               (escapeSearchPattern (pattern filter) (useRegex filter)))
            filters [].

(** What [combinePatterns] writes between two patterns. *)
Definition pattern_separator : QString :=
  if booleanButton_ buttons then or_separator
  else if useRegexpButton_ buttons then bar_separator
  else [].

End Patterns.

(** The strings of a list with [sep] between each two of them. *)
Fixpoint join (sep : QString) (l : list QString) : QString :=
  match l with
  | [] => []
  | [x] => x
  | x :: rest => x ++ sep ++ join sep rest
  end.

(** A list of strings without the empty ones it starts with. *)
Fixpoint drop_empty (l : list QString) : list QString :=
  match l with
  | [] => []
  | x :: rest => if QString_isEmpty x then drop_empty rest else l
  end.

End CrawlerWidget.

(* ===================================================================== *)
(** * Properties *)
(* ===================================================================== *)

Lemma wrap64_small z : is_uint64 z -> wrap64 z = z.
Proof.
  unfold is_uint64, UINT64_MAX, wrap64. intros H.
  apply Z.mod_small. lia.
Qed.

Lemma wrap64_range z : is_uint64 (wrap64 z).
Proof.
  unfold is_uint64, UINT64_MAX, wrap64.
  pose proof (Z.mod_pos_bound z 18446744073709551616 ltac:(lia)). lia.
Qed.

Lemma to_int_small z : INT_MIN <= z <= INT_MAX -> to_int z = z.
Proof.
  unfold INT_MIN, INT_MAX, to_int. intros H.
  rewrite Z.mod_small by lia. lia.
Qed.

Lemma lnum_plus_exact number count :
  valid_lnum number -> valid_lcount count ->
  ln number + lc count <= UINT64_MAX ->
  lnum_plus number count = mkLineNumber (ln number + lc count).
Proof.
  unfold valid_lnum, valid_lcount, lnum_plus. cbn [ln maxValue_LineNumber]. intros Hn Hc Hs.
  rewrite (wrap64_small (UINT64_MAX - lc count)) by (unfold is_uint64 in *; lia).
  destruct (Z.leb_spec (ln number) (UINT64_MAX - lc count)); [|lia].
  rewrite wrap64_small; [reflexivity | unfold is_uint64 in *; lia].
Qed.

Lemma lnum_plus_saturates number count :
  valid_lnum number -> valid_lcount count ->
  UINT64_MAX < ln number + lc count ->
  lnum_plus number count = maxValue_LineNumber.
Proof.
  unfold valid_lnum, valid_lcount, lnum_plus. cbn [ln maxValue_LineNumber]. intros Hn Hc Hs.
  rewrite (wrap64_small (UINT64_MAX - lc count)) by (unfold is_uint64 in *; lia).
  destruct (Z.leb_spec (ln number) (UINT64_MAX - lc count)); [lia | reflexivity].
Qed.

Lemma lnum_plus_valid number count :
  valid_lnum number -> valid_lcount count -> valid_lnum (lnum_plus number count).
Proof.
  intros Hn Hc. unfold lnum_plus.
  destruct (_ <=? _); unfold valid_lnum; cbn [ln maxValue_LineNumber].
  - apply wrap64_range.
  - unfold is_uint64, UINT64_MAX. lia.
Qed.

Lemma lnum_diff_exact n1 n2 :
  valid_lnum n1 -> valid_lnum n2 ->
  lc (lnum_diff n1 n2) = Z.max 0 (ln n1 - ln n2).
Proof.
  unfold valid_lnum, lnum_diff. intros H1 H2.
  destruct (Z.geb_spec (ln n1) (ln n2)); cbn [lc].
  - rewrite wrap64_small; unfold is_uint64 in *; lia.
  - lia.
Qed.

Lemma lnum_minus_exact number count :
  valid_lnum number -> valid_lcount count ->
  ln (lnum_minus number count) = Z.max 0 (ln number - lc count).
Proof.
  unfold valid_lnum, valid_lcount, lnum_minus. intros H1 H2.
  destruct (Z.geb_spec (ln number) (lc count)); cbn [ln].
  - rewrite wrap64_small; unfold is_uint64 in *; lia.
  - lia.
Qed.

(** C9. Subtraction of the mixed line types saturates at 0: for a line
    number [n] and a count [c] that exceeds it, [n - c] is [LineNumber(0)];
    for two line numbers with [n2] above [n1], [n1 - n2] is
    [LinesCount(0)]; and whatever the operands, the result is the
    mathematical difference cut off at 0, never a wrapped value. *)
Theorem line_subtraction_saturates :
  forall (n n1 n2 : LineNumber) (c : LinesCount),
    valid_lnum n -> valid_lnum n1 -> valid_lnum n2 -> valid_lcount c ->
    (ln n < lc c -> lnum_minus n c = mkLineNumber 0) /\
    (ln n1 < ln n2 -> lnum_diff n1 n2 = mkLinesCount 0) /\
    ln (lnum_minus n c) = Z.max 0 (ln n - lc c) /\
    lc (lnum_diff n1 n2) = Z.max 0 (ln n1 - ln n2).
Proof.
  intros n n1 n2 c Hn H1 H2 Hc. split; [|split; [|split]].
  - intros Hlt. unfold lnum_minus.
    destruct (Z.geb_spec (ln n) (lc c)); [lia | reflexivity].
  - intros Hlt. unfold lnum_diff.
    destruct (Z.geb_spec (ln n1) (ln n2)); [lia | reflexivity].
  - now apply lnum_minus_exact.
  - now apply lnum_diff_exact.
Qed.

Ltac solve_uint64 :=
  unfold valid_lnum, valid_lcount, is_uint64, UINT64_MAX in *; cbn [ln lc ll] in *; lia.

Lemma line_subtraction_saturates_witness :
  lnum_minus (mkLineNumber 3) (mkLinesCount 5) = mkLineNumber 0 /\
  lnum_diff (mkLineNumber 3) (mkLineNumber 10) = mkLinesCount 0 /\
  ln (lnum_minus (mkLineNumber 9) (mkLinesCount 4)) = Z.max 0 (9 - 4).
Proof.
  destruct (line_subtraction_saturates
              (mkLineNumber 3) (mkLineNumber 3) (mkLineNumber 10) (mkLinesCount 5))
    as (Ha & Hb & _); try solve_uint64.
  destruct (line_subtraction_saturates
              (mkLineNumber 9) (mkLineNumber 3) (mkLineNumber 10) (mkLinesCount 4))
    as (_ & _ & Hc & _); try solve_uint64.
  split; [apply Ha; cbn; lia | split; [apply Hb; cbn; lia | exact Hc]].
Defined.

Example getUntabifiedLength_ex1 :
  getUntabifiedLength [x61; x09; x62] = mkLineLength 9.
Proof. reflexivity. Qed.

Example getUntabifiedLength_ex2 :
  getUntabifiedLength [x09; x09; x61; x62; x63; x64; x65; x66; x67; x68; x09]
  = mkLineLength 32.
Proof. reflexivity. Qed.

Example untabify_ex1 :
  untabify [x61; x09; x62] 0
  = [x61; space; space; space; space; space; space; space; x62].
Proof. reflexivity. Qed.

Lemma next_tab_stop_eq col : next_tab_stop col = col + (8 - col mod 8).
Proof. unfold next_tab_stop. pose proof (Z.div_mod col 8 ltac:(lia)). lia. Qed.

Lemma next_tab_stop_gt col : col < next_tab_stop col.
Proof.
  rewrite next_tab_stop_eq.
  pose proof (Z.mod_pos_bound col 8 ltac:(lia)). lia.
Qed.

Lemma columns_from_ge line : forall col, col <= columns_from col line.
Proof.
  induction line as [|b rest IH]; intros col; cbn [columns_from]; [lia|].
  destruct (Byte.eqb b tab).
  - pose proof (next_tab_stop_gt col). specialize (IH (next_tab_stop col)). lia.
  - specialize (IH (col + 1)). lia.
Qed.

Lemma tab_loop_npos fuel line totalSpaces :
  tab_loop fuel line None totalSpaces = totalSpaces.
Proof. destruct fuel; reflexivity. Qed.

Lemma sv_find_here prefix b rest :
  Byte.eqb b tab = true ->
  sv_find (prefix ++ b :: rest) tab (length prefix) = Some (length prefix).
Proof.
  intros Hb. unfold sv_find.
  rewrite skipn_app, skipn_all, Nat.sub_diag. cbn [app skipn find_in].
  rewrite Hb. cbn [option_map]. now rewrite Nat.add_0_r.
Qed.

Lemma sv_find_skip prefix b rest :
  Byte.eqb b tab = false ->
  sv_find (prefix ++ b :: rest) tab (length prefix)
  = sv_find (prefix ++ b :: rest) tab (length prefix + 1).
Proof.
  intros Hb. unfold sv_find.
  rewrite skipn_app, skipn_all, Nat.sub_diag. cbn [app skipn find_in].
  rewrite Hb.
  replace (prefix ++ b :: rest) with ((prefix ++ [b]) ++ rest)
    by (now rewrite <- app_assoc).
  replace (length prefix + 1)%nat with (length (prefix ++ [b]))
    by (rewrite length_app; reflexivity).
  rewrite skipn_app, skipn_all, Nat.sub_diag. cbn [app skipn].
  destruct (find_in tab rest) as [k|]; cbn [option_map]; [|reflexivity].
  f_equal. rewrite length_app. cbn [length]. lia.
Qed.

Lemma sv_find_end line : sv_find line tab (length line) = None.
Proof. unfold sv_find. now rewrite skipn_all. Qed.

(** The loop invariant: with [prefix] scanned and [totalSpaces] the
    columns that its tabs added, the loop adds what the tabs of [rest] add. *)
Lemma tab_loop_columns :
  forall (rest prefix : Line) (fuel : nat) (totalSpaces : Z),
    (length rest < fuel)%nat ->
    0 <= totalSpaces ->
    columns_from (Z.of_nat (length prefix) + totalSpaces) rest <= UINT64_MAX ->
    Z.of_nat (length prefix) + Z.of_nat (length rest)
    + tab_loop fuel (prefix ++ rest) (sv_find (prefix ++ rest) tab (length prefix))
               totalSpaces
    = columns_from (Z.of_nat (length prefix) + totalSpaces) rest.
Proof.
  induction rest as [|b rest IH]; intros prefix fuel ts Hfuel Hts Hmax.
  - rewrite app_nil_r, sv_find_end, tab_loop_npos. cbn [length columns_from]. lia.
  - cbn [length] in Hfuel. destruct fuel as [|fuel]; [lia|].
    cbn [columns_from] in Hmax |- *.
    assert (Hnext : (prefix ++ b :: rest) = (prefix ++ [b]) ++ rest)
      by (now rewrite <- app_assoc).
    assert (Hlen : length (prefix ++ [b]) = (length prefix + 1)%nat)
      by (rewrite length_app; reflexivity).
    destruct (Byte.eqb b tab) eqn:Hb.
    + rewrite sv_find_here by exact Hb. cbn [tab_loop].
      set (col := Z.of_nat (length prefix) + ts) in *.
      pose proof (columns_from_ge rest (next_tab_stop col)) as Hge.
      pose proof (next_tab_stop_eq col) as Hnts.
      pose proof (Z.mod_pos_bound col 8 ltac:(lia)) as Hmod.
      assert (Hcol : is_uint64 col) by (unfold is_uint64, col; lia).
      unfold TabStop.
      rewrite (wrap64_small col) by exact Hcol.
      rewrite (wrap64_small (8 - col mod 8 - 1)) by (unfold is_uint64, UINT64_MAX; lia).
      rewrite (wrap64_small (ts + (8 - col mod 8 - 1)))
        by (unfold is_uint64 in *; unfold col in *; lia).
      rewrite Hnext, <- Hlen.
      specialize (IH (prefix ++ [b]) fuel (ts + (8 - col mod 8 - 1))).
      rewrite Hlen in IH |- *.
      replace (Z.of_nat (length prefix + 1) + (ts + (8 - col mod 8 - 1)))
        with (next_tab_stop col) in IH by (unfold col in *; lia).
      rewrite <- IH; [cbn [length]; lia | lia | lia | exact Hmax].
    + rewrite sv_find_skip by exact Hb.
      rewrite Hnext, <- Hlen.
      specialize (IH (prefix ++ [b]) (S fuel) ts).
      rewrite Hlen in IH |- *.
      replace (Z.of_nat (length prefix + 1) + ts)
        with (Z.of_nat (length prefix) + ts + 1) in IH by lia.
      rewrite <- IH; [cbn [length]; lia | lia | lia | exact Hmax].
Qed.

(** What the function computes before the value is narrowed to [int]. *)
Lemma getUntabifiedLength_wide line :
  display_columns line <= UINT64_MAX ->
  ll (getUntabifiedLength line) = to_int (display_columns line).
Proof.
  intros Hmax. unfold getUntabifiedLength, display_columns in *. cbn [ll].
  pose proof (tab_loop_columns line [] (S (length line)) 0) as H.
  cbn [app length Z.of_nat Z.add] in H.
  pose proof (columns_from_ge line 0) as Hge.
  rewrite H by (try exact Hmax; lia).
  rewrite wrap64_small; [reflexivity | unfold is_uint64; lia].
Qed.

Lemma display_columns_nonneg line : 0 <= display_columns line.
Proof. apply columns_from_ge. Qed.

(** Where the columns stay within [int], the sums of the loop are exact
    and the remainder is the one of the specification. *)
Lemma untabify_tab_step (ip pos ts : Z) :
  0 <= ip -> 0 <= pos -> 0 <= ts ->
  next_tab_stop (ip + pos + ts) <= INT_MAX ->
  TabStop - Z.rem (to_int (to_int (ip + pos) + ts)) TabStop = 8 - (ip + pos + ts) mod 8 /\
  to_int (ts + (8 - (ip + pos + ts) mod 8 - 1)) = ts + (8 - (ip + pos + ts) mod 8 - 1).
Proof.
  intros Hip Hpos Hts Hmax. rewrite next_tab_stop_eq in Hmax.
  pose proof (Z.mod_pos_bound (ip + pos + ts) 8 ltac:(lia)) as Hmod.
  rewrite (to_int_small (ip + pos)) by (unfold INT_MIN, INT_MAX in *; lia).
  rewrite (to_int_small (ip + pos + ts)) by (unfold INT_MIN, INT_MAX in *; lia).
  unfold TabStop. rewrite Z.rem_mod_nonneg by lia.
  split; [reflexivity|].
  apply to_int_small. unfold INT_MIN, INT_MAX in *. lia.
Qed.

Lemma columns_from_tab_bound (col : Z) (rest : Line) :
  columns_from (next_tab_stop col) rest <= INT_MAX -> next_tab_stop col <= INT_MAX.
Proof. pose proof (columns_from_ge rest (next_tab_stop col)). lia. Qed.

Lemma untabify_loop_length :
  forall (rest : Line) (initialPosition position total_spaces : Z),
    0 <= initialPosition -> 0 <= position -> 0 <= total_spaces ->
    columns_from (initialPosition + position + total_spaces) rest <= INT_MAX ->
    Z.of_nat (length (untabify_loop rest initialPosition position total_spaces))
    = columns_from (initialPosition + position + total_spaces) rest
      - (initialPosition + position + total_spaces).
Proof.
  induction rest as [|ch rest IH]; intros ip pos ts Hip Hpos Hts Hmax;
    cbn [untabify_loop columns_from] in Hmax |- *.
  - cbn [length]. lia.
  - destruct (Byte.eqb ch tab).
    + cbv zeta. set (col := ip + pos + ts) in *.
      pose proof (Z.mod_pos_bound col 8 ltac:(lia)) as Hmod.
      destruct (untabify_tab_step ip pos ts Hip Hpos Hts
                  (columns_from_tab_bound col rest Hmax)) as [Hspaces Hts'].
      fold col in Hspaces, Hts'. rewrite Hspaces, Hts'.
      rewrite next_tab_stop_eq in Hmax |- *.
      assert (Hcol : ip + (pos + 1) + (ts + (8 - col mod 8 - 1)) = col + (8 - col mod 8))
        by (unfold col; lia).
      rewrite length_app, repeat_length, Nat2Z.inj_add, Z2Nat.id by lia.
      rewrite IH by (try rewrite Hcol; try exact Hmax; lia).
      rewrite Hcol. lia.
    + assert (Hstep : forall c : byte,
                 Z.of_nat (length (c :: untabify_loop rest ip (pos + 1) ts))
                 = columns_from (ip + pos + ts + 1) rest - (ip + pos + ts)).
      { intros c. cbn [length].
        assert (Hcol : ip + (pos + 1) + ts = ip + pos + ts + 1) by lia.
        rewrite Nat2Z.inj_succ, IH by (try rewrite Hcol; try exact Hmax; lia).
        rewrite Hcol. lia. }
      destruct (Byte.eqb ch nul); apply Hstep.
Qed.

(** The expanded string of [untabify] has as many characters as the line
    has display columns. *)
Lemma untabify_length line :
  display_columns line <= INT_MAX ->
  Z.of_nat (length (untabify line 0)) = display_columns line.
Proof.
  intros Hmax. unfold untabify, display_columns in *.
  rewrite untabify_loop_length by (try exact Hmax; lia).
  cbn [Z.add]. lia.
Qed.

(** C8, as amended. For every line whose display column count fits the
    [int] of [LineLength] (at most 2^31 - 1), [getUntabifiedLength] returns
    that count: the columns reached by scanning the bytes from the left,
    one per byte that is not a tab, each tab moving to the next multiple of
    8; this is also the length of the string [untabify] builds. *)
Theorem getUntabifiedLength_display_columns :
  forall line : Line,
    display_columns line <= INT_MAX ->
    ll (getUntabifiedLength line) = display_columns line /\
    ll (getUntabifiedLength line) = Z.of_nat (length (untabify line 0)).
Proof.
  intros line Hmax.
  pose proof (display_columns_nonneg line) as Hge.
  assert (H : ll (getUntabifiedLength line) = display_columns line).
  { rewrite getUntabifiedLength_wide by (unfold INT_MAX, UINT64_MAX in *; lia).
    apply to_int_small. unfold INT_MIN, INT_MAX in *. lia. }
  split; [exact H | now rewrite untabify_length by exact Hmax].
Qed.

Lemma getUntabifiedLength_display_columns_witness :
  ll (getUntabifiedLength [x61; x09; x62; x09]) = 16 /\
  display_columns [x61; x09; x62; x09] = 16.
Proof.
  split; [|reflexivity].
  replace 16 with (display_columns [x61; x09; x62; x09]) by reflexivity.
  apply (getUntabifiedLength_display_columns [x61; x09; x62; x09]).
  vm_compute. discriminate.
Defined.

Lemma columns_from_plain :
  forall (n : nat) (b : byte) (col : Z),
    Byte.eqb b tab = false ->
    columns_from col (repeat b n) = col + Z.of_nat n.
Proof.
  induction n as [|n IH]; intros b col Hb.
  - cbn [repeat columns_from]. lia.
  - cbn [repeat columns_from]. rewrite Hb, IH by exact Hb. lia.
Qed.

(** C8 as stated fails on [long_line]: it has 2^31 display columns, and
    the narrowing to [int] turns the length into -2^31. *)
Lemma getUntabifiedLength_long_line :
  display_columns long_line = 2147483648 /\
  ll (getUntabifiedLength long_line) = -2147483648 /\
  ll (getUntabifiedLength long_line) <> display_columns long_line.
Proof.
  assert (Hcols : display_columns long_line = 2147483648).
  { unfold display_columns, long_line.
    rewrite columns_from_plain by reflexivity.
    rewrite Z2Nat.id by lia. reflexivity. }
  assert (Hlen : ll (getUntabifiedLength long_line) = -2147483648).
  { rewrite getUntabifiedLength_wide by (rewrite Hcols; unfold UINT64_MAX; lia).
    rewrite Hcols. reflexivity. }
  split; [exact Hcols | split; [exact Hlen |]].
  rewrite Hcols, Hlen. discriminate.
Qed.

Lemma bitmap_add_In x b y : In y (bitmap_add x b) <-> y = x \/ In y b.
Proof.
  induction b as [|z rest IH]; cbn [bitmap_add].
  - cbn [In]. intuition congruence.
  - destruct (Z.ltb_spec x z).
    + cbn [In]. intuition congruence.
    + destruct (Z.eqb_spec x z).
      * subst. cbn [In]. intuition.
      * cbn [In]. rewrite IH. intuition.
Qed.

Lemma bitmap_add_sorted x b : strictly_sorted b -> strictly_sorted (bitmap_add x b).
Proof.
  unfold strictly_sorted.
  induction b as [|z rest IH]; intros Hs; cbn [bitmap_add].
  - repeat constructor.
  - apply StronglySorted_inv in Hs. destruct Hs as [Hrest Hall].
    destruct (Z.ltb_spec x z).
    + constructor; [constructor; assumption|].
      constructor; [assumption|].
      rewrite Forall_forall in Hall |- *. intros w Hw. specialize (Hall w Hw). lia.
    + destruct (Z.eqb_spec x z).
      * constructor; assumption.
      * constructor; [now apply IH|].
        rewrite Forall_forall in Hall |- *. intros w Hw.
        apply bitmap_add_In in Hw. destruct Hw as [->|Hw]; [lia | now apply Hall].
Qed.

Lemma bitmap_add_length x b :
  (length (bitmap_add x b) <= S (length b))%nat.
Proof.
  induction b as [|z rest IH]; cbn [bitmap_add length]; [lia|].
  destruct (x <? z); [cbn [length]; lia|].
  destruct (x =? z); cbn [length]; lia.
Qed.

Lemma bitmap_union_In b : forall a y, In y (bitmap_union a b) <-> In y a \/ In y b.
Proof.
  unfold bitmap_union.
  induction b as [|x rest IH]; intros a y; cbn [fold_left].
  - cbn [In]. intuition.
  - rewrite IH, bitmap_add_In. cbn [In]. intuition.
Qed.

Lemma bitmap_union_sorted b :
  forall a, strictly_sorted a -> strictly_sorted (bitmap_union a b).
Proof.
  unfold bitmap_union.
  induction b as [|x rest IH]; intros a Ha; cbn [fold_left]; [exact Ha|].
  apply IH. now apply bitmap_add_sorted.
Qed.

Lemma bitmap_remove_In x b y : In y (bitmap_remove x b) <-> In y b /\ y <> x.
Proof.
  unfold bitmap_remove. rewrite filter_In.
  destruct (Z.eqb_spec y x); cbn [negb]; intuition congruence.
Qed.

Lemma bitmap_remove_sorted x b : strictly_sorted b -> strictly_sorted (bitmap_remove x b).
Proof.
  unfold strictly_sorted, bitmap_remove.
  induction b as [|z rest IH]; intros Hs; cbn [filter]; [constructor|].
  apply StronglySorted_inv in Hs. destruct Hs as [Hrest Hall].
  destruct (negb (z =? x)); [|now apply IH].
  constructor; [now apply IH|].
  rewrite Forall_forall in Hall |- *. intros w Hw.
  apply filter_In in Hw. now apply Hall.
Qed.

(** Two bitmaps with the same elements are the same bitmap. *)
Lemma strictly_sorted_ext :
  forall a b : list Z,
    strictly_sorted a -> strictly_sorted b ->
    (forall x, In x a <-> In x b) -> a = b.
Proof.
  unfold strictly_sorted.
  induction a as [|x a IH]; intros b Ha Hb Hext.
  - destruct b as [|y b]; [reflexivity|].
    exfalso. apply (proj2 (Hext y)). now left.
  - destruct b as [|y b].
    + exfalso. apply (proj1 (Hext x)). now left.
    + apply StronglySorted_inv in Ha. destruct Ha as [Ha Hxa].
      apply StronglySorted_inv in Hb. destruct Hb as [Hb Hyb].
      rewrite Forall_forall in Hxa, Hyb.
      assert (x = y) as ->.
      { destruct (proj1 (Hext x) (or_introl eq_refl)) as [->|Hin]; [reflexivity|].
        destruct (proj2 (Hext y) (or_introl eq_refl)) as [->|Hin']; [reflexivity|].
        specialize (Hxa _ Hin'). specialize (Hyb _ Hin). lia. }
      f_equal. apply IH; [assumption | assumption |].
      intros z. split; intros Hz.
      * destruct (proj1 (Hext z) (or_intror Hz)) as [->|Hin]; [|exact Hin].
        specialize (Hxa _ Hz). lia.
      * destruct (proj2 (Hext z) (or_intror Hz)) as [->|Hin]; [|exact Hin].
        specialize (Hyb _ Hz). lia.
Qed.

Lemma strictly_sorted_NoDup b : strictly_sorted b -> NoDup b.
Proof.
  unfold strictly_sorted. induction 1 as [|x b Hs IH Hall]; constructor; [|exact IH].
  rewrite Forall_forall in Hall. intros Hin. specialize (Hall _ Hin). lia.
Qed.

Lemma addAll_commits_newMatches cs :
  forall sd x,
    In x (newMatches_ (addAll_commits sd cs))
    <-> In x (newMatches_ sd) \/ exists c, In c cs /\ In x (commit_matches c).
Proof.
  unfold addAll_commits.
  induction cs as [|c cs IH]; intros sd x; cbn [fold_left].
  - split; [now left | intros [H|(c & [] & _)]; exact H].
  - rewrite IH. unfold addAll_commit at 1. unfold addAll. cbn [newMatches_].
    rewrite bitmap_union_In. split.
    + intros [[H|H]|(c' & Hc' & Hx)].
      * now left.
      * right. exists c. split; [now left | exact H].
      * right. exists c'. split; [now right | exact Hx].
    + intros [H|(c' & [<-|Hc'] & Hx)].
      * left. now left.
      * left. now right.
      * right. now exists c'.
Qed.

(** C10. What [addAll] commits reaches the caller of [takeCurrentResults]
    once: a call returns in its new-matches field exactly the pending
    matches together with every match committed since the previous call,
    and it leaves nothing pending, so a second call right after it returns
    an empty set, and a match appears in a later call only if a later
    [addAll] commits it again. *)
Theorem takeCurrentResults_hands_over_once :
  forall (sd : SearchData) (cs later : list Commit),
    let after_take := snd (takeCurrentResults sd) in
    let first := takeCurrentResults (addAll_commits after_take cs) in
    let again := takeCurrentResults (snd first) in
    let next := takeCurrentResults (addAll_commits (snd first) later) in
    (forall x, In x (sr_newMatches (fst first))
               <-> exists c, In c cs /\ In x (commit_matches c)) /\
    sr_newMatches (fst again) = [] /\
    newMatches_ (snd first) = [] /\
    (forall x, In x (sr_newMatches (fst next))
               <-> exists c, In c later /\ In x (commit_matches c)).
Proof.
  intros sd cs later. cbn zeta.
  split; [|split; [reflexivity | split; [reflexivity|]]].
  - intros x. cbn [takeCurrentResults fst snd sr_newMatches].
    rewrite addAll_commits_newMatches. cbn [newMatches_ In]. tauto.
  - intros x. cbn [takeCurrentResults fst snd sr_newMatches].
    rewrite addAll_commits_newMatches. cbn [newMatches_ In]. tauto.
Qed.

Lemma to_uint32_small z : 0 <= z <= INT_MAX -> to_uint32 z = z.
Proof. unfold INT_MAX, to_uint32. intros H. apply Z.mod_small. lia. Qed.

(** C7, as amended. With parallel search disabled there is one matcher.
    With it enabled and a pool size other than 0 there are
    [max(1, pool size)] matchers.  With it enabled and pool size 0 the
    flow-graph worker uses [max(1, default_concurrency)], the hardware
    concurrency as it is; only the earlier worker thread sets one thread
    aside and uses [max(1, idealThreadCount - 1)]. *)
Theorem matcher_count_by_configuration :
  forall (config : Configuration) (hardware_concurrency : Z),
    is_int (searchThreadPoolSize config) ->
    is_int hardware_concurrency ->
    (useParallelSearch config = false ->
       matchingThreadsCount config hardware_concurrency = 1 /\
       legacy_matchingThreadsCount config hardware_concurrency = 1) /\
    (useParallelSearch config = true -> searchThreadPoolSize config <> 0 ->
       matchingThreadsCount config hardware_concurrency
         = Z.max 1 (searchThreadPoolSize config) /\
       legacy_matchingThreadsCount config hardware_concurrency
         = Z.max 1 (searchThreadPoolSize config)) /\
    (useParallelSearch config = true -> searchThreadPoolSize config = 0 ->
       matchingThreadsCount config hardware_concurrency
         = Z.max 1 hardware_concurrency /\
       legacy_matchingThreadsCount config hardware_concurrency
         = Z.max 1 (hardware_concurrency - 1)).
Proof.
  intros config hw Hpool Hhw.
  unfold matchingThreadsCount, legacy_matchingThreadsCount, is_int in *.
  split; [|split].
  - intros ->. cbn [negb]. split; reflexivity.
  - intros -> Hnz. cbn [negb]. cbv zeta.
    destruct (Z.eqb_spec (searchThreadPoolSize config) 0); [contradiction|].
    rewrite to_int_small by exact Hpool.
    split; [|reflexivity].
    apply to_uint32_small. unfold INT_MIN, INT_MAX in *. lia.
  - intros -> Hz. cbn [negb]. cbv zeta. rewrite Hz. cbn [Z.eqb].
    split; [|reflexivity].
    apply to_uint32_small. unfold INT_MIN, INT_MAX in *. lia.
Qed.

Lemma matcher_count_by_configuration_witness :
  matchingThreadsCount (mkConfiguration true 0 5000) 8 = Z.max 1 8 /\
  legacy_matchingThreadsCount (mkConfiguration true 0 5000) 8 = Z.max 1 (8 - 1).
Proof.
  apply (matcher_count_by_configuration (mkConfiguration true 0 5000) 8);
    unfold is_int, INT_MIN, INT_MAX; cbn [searchThreadPoolSize useParallelSearch];
    solve [lia | reflexivity].
Defined.

(** C7 as stated fails in the flow-graph worker: with parallel search on,
    pool size 0 and 8 hardware threads it starts 8 matchers, not
    [max(1, 8 - 1) = 7]. *)
Lemma matcher_count_pool_size_zero :
  matchingThreadsCount (mkConfiguration true 0 5000) 8 = 8 /\
  matchingThreadsCount (mkConfiguration true 0 5000) 8 <> Z.max 1 (8 - 1).
Proof. split; [reflexivity | discriminate]. Qed.


(* ===================================================================== *)
(** ** Ranges of line numbers and batches of lines *)
(* ===================================================================== *)

Lemma line_range_In a b n : In n (line_range a b) <-> a <= n < b.
Proof.
  unfold line_range. rewrite in_map_iff. split.
  - intros (i & <- & Hi). apply in_seq in Hi. lia.
  - intros H. exists (Z.to_nat (n - a)). split; [lia|].
    apply in_seq. lia.
Qed.

Lemma line_range_empty a b : b <= a -> line_range a b = [].
Proof.
  intros H. unfold line_range.
  replace (Z.to_nat (b - a)) with O by lia. reflexivity.
Qed.

Lemma line_range_length a b : Z.of_nat (length (line_range a b)) = Z.max 0 (b - a).
Proof. unfold line_range. rewrite length_map, length_seq. lia. Qed.

Lemma line_range_split a m b :
  a <= m <= b -> line_range a b = line_range a m ++ line_range m b.
Proof.
  intros H. unfold line_range.
  replace (Z.to_nat (b - a)) with (Z.to_nat (m - a) + Z.to_nat (b - m))%nat by lia.
  rewrite seq_app, map_app. f_equal. cbn [Nat.add].
  replace (Z.to_nat (m - a)) with (0 + Z.to_nat (m - a))%nat at 1 by lia.
  generalize 0%nat as k. generalize (Z.to_nat (b - m)) as len.
  induction len as [|len IH]; intros k; cbn [seq map]; [reflexivity|].
  f_equal; [lia|]. specialize (IH (S k)).
  replace (S (k + Z.to_nat (m - a))) with (S k + Z.to_nat (m - a))%nat by lia.
  exact IH.
Qed.

Lemma line_range_sorted a b : strictly_sorted (line_range a b).
Proof.
  unfold strictly_sorted, line_range.
  generalize (Z.to_nat (b - a)) as len. generalize 0%nat as k.
  intros k len. revert k.
  induction len as [|len IH]; intros k; cbn [seq map]; constructor.
  - apply IH.
  - rewrite Forall_forall. intros x Hx. apply in_map_iff in Hx.
    destruct Hx as (i & <- & Hi). apply in_seq in Hi. lia.
Qed.

Lemma filter_sorted (f : Z -> bool) l : strictly_sorted l -> strictly_sorted (filter f l).
Proof.
  unfold strictly_sorted.
  induction l as [|x l IH]; intros Hs; cbn [filter]; [constructor|].
  apply StronglySorted_inv in Hs. destruct Hs as [Hl Hall].
  destruct (f x); [|now apply IH].
  constructor; [now apply IH|].
  rewrite Forall_forall in Hall |- *. intros w Hw.
  apply filter_In in Hw. now apply Hall.
Qed.

Lemma matching_lines_In op first last n :
  In n (matching_lines op first last)
  <-> first <= n < last /\ regexp_ op (line_at (sourceLogData_ op) n) = true.
Proof. unfold matching_lines. now rewrite filter_In, line_range_In. Qed.

Lemma matching_lines_sorted op first last : strictly_sorted (matching_lines op first last).
Proof. apply filter_sorted, line_range_sorted. Qed.

Section RawLines.
Variable ld : LogData.
Variables (first : LineNumber) (number : LinesCount).
Hypothesis Hfirst : 0 <= ln first.
Hypothesis Hnumber : 0 <= lc number.
Hypothesis Hinside : ln first + lc number <= Z.of_nat (length (logLines ld)).

Lemma getLinesRaw_length :
  Z.of_nat (length (utf8View (getLinesRaw ld first number))) = lc number.
Proof.
  unfold getLinesRaw. cbn [utf8View].
  rewrite length_firstn, length_skipn. lia.
Qed.

Lemma getLinesRaw_numberOfLines :
  numberOfLines (getLinesRaw ld first number) = mkLinesCount (lc number).
Proof.
  pose proof getLinesRaw_length as H.
  unfold getLinesRaw in *. cbn [utf8View numberOfLines] in *. now rewrite H.
Qed.

Lemma getLinesRaw_nth i :
  (Z.of_nat i < lc number) ->
  nth i (utf8View (getLinesRaw ld first number)) [] = line_at ld (ln first + Z.of_nat i).
Proof.
  intros Hi. unfold getLinesRaw, line_at. cbn [utf8View].
  rewrite nth_firstn.
  replace (i <? Z.to_nat (lc number))%nat with true
    by (symmetry; apply Nat.ltb_lt; lia).
  rewrite nth_skipn. f_equal. lia.
Qed.
End RawLines.

(* ===================================================================== *)
(** ** filterLines *)
(* ===================================================================== *)

Lemma filterLines_loop_fields matcher lines chunkStart :
  forall offset results,
    psr_chunkStart (filterLines_loop matcher lines chunkStart offset results)
    = psr_chunkStart results /\
    psr_processedLines (filterLines_loop matcher lines chunkStart offset results)
    = psr_processedLines results.
Proof.
  induction lines as [|line rest IH]; intros offset results; cbn [filterLines_loop].
  - split; reflexivity.
  - destruct (matcher line); cbv zeta.
    + destruct (IH (to_uint32 (offset + 1))
                   (mkPartialSearchResults
                      (bitmap_add (ln (lnum_plus chunkStart (mkLinesCount offset)))
                                  (psr_matchingLines results))
                      (qMax_length (psr_maxLength results) (getUntabifiedLength line))
                      (psr_chunkStart results) (psr_processedLines results))) as [H1 H2].
      split; [exact H1 | exact H2].
    + apply IH.
Qed.

Lemma filterLines_loop_sorted matcher lines chunkStart :
  forall offset results,
    strictly_sorted (psr_matchingLines results) ->
    strictly_sorted
      (psr_matchingLines (filterLines_loop matcher lines chunkStart offset results)).
Proof.
  induction lines as [|line rest IH]; intros offset results Hs; cbn [filterLines_loop].
  - exact Hs.
  - destruct (matcher line); cbv zeta; apply IH; [|exact Hs].
    cbn [psr_matchingLines]. now apply bitmap_add_sorted.
Qed.

Lemma filterLines_loop_cardinality matcher lines chunkStart :
  forall offset results,
    (length (psr_matchingLines (filterLines_loop matcher lines chunkStart offset results))
     <= length (psr_matchingLines results) + length lines)%nat.
Proof.
  induction lines as [|line rest IH]; intros offset results; cbn [filterLines_loop length].
  - lia.
  - destruct (matcher line); cbv zeta.
    + etransitivity; [apply IH|]. cbn [psr_matchingLines].
      pose proof (bitmap_add_length (ln (lnum_plus chunkStart (mkLinesCount offset)))
                                    (psr_matchingLines results)). lia.
    + etransitivity; [apply IH|]. lia.
Qed.

Lemma filterLines_loop_In matcher lines chunkStart :
  valid_lnum chunkStart ->
  forall offset results,
    0 <= offset ->
    offset + Z.of_nat (length lines) < 4294967296 ->
    ln chunkStart + offset + Z.of_nat (length lines) <= UINT64_MAX ->
    forall n,
      In n (psr_matchingLines (filterLines_loop matcher lines chunkStart offset results))
      <-> In n (psr_matchingLines results)
          \/ exists i, (i < length lines)%nat
                       /\ n = ln chunkStart + offset + Z.of_nat i
                       /\ matcher (nth i lines []) = true.
Proof.
  intros Hcs.
  induction lines as [|line rest IH]; intros offset results Ho H32 H64 n;
    cbn [filterLines_loop].
  - split; [now left | intros [H|(i & Hi & _)]; [exact H | cbn [length] in Hi; lia]].
  - cbn [length] in H32, H64.
    assert (Hnext : to_uint32 (offset + 1) = offset + 1)
      by (unfold to_uint32; apply Z.mod_small; lia).
    rewrite Hnext, IH by lia. clear IH.
    assert (Hshift :
              (exists i, (i < length rest)%nat /\ n = ln chunkStart + (offset + 1) + Z.of_nat i
                         /\ matcher (nth i rest []) = true)
              <-> (exists i, (0 < i < S (length rest))%nat
                             /\ n = ln chunkStart + offset + Z.of_nat i
                             /\ matcher (nth i (line :: rest) []) = true)).
    { split.
      - intros (i & Hi & Hn & Hm). exists (S i). cbn [nth]. repeat split; [lia | lia | lia | exact Hm].
      - intros (i & Hi & Hn & Hm). destruct i as [|i]; [lia|].
        exists i. cbn [nth] in Hm. repeat split; [lia | lia | exact Hm]. }
    rewrite Hshift. clear Hshift.
    destruct (matcher line) eqn:Hm; cbv zeta; cbn [psr_matchingLines length].
    + rewrite bitmap_add_In.
      rewrite lnum_plus_exact by (unfold valid_lnum, valid_lcount, is_uint64 in *; cbn [lc]; lia).
      cbn [ln lc]. split.
      * intros [[->|H]|(i & Hi & Hn & Hmi)].
        -- right. exists O. cbn [nth]. repeat split; [lia | lia | exact Hm].
        -- now left.
        -- right. exists i. repeat split; [lia | exact Hn | exact Hmi].
      * intros [H|(i & Hi & Hn & Hmi)]; [left; now right|].
        destruct i as [|i].
        -- left. left. lia.
        -- right. exists (S i). repeat split; [lia | lia | exact Hn | exact Hmi].
    + split.
      * intros [H|(i & Hi & Hn & Hmi)]; [now left|].
        right. exists i. repeat split; [lia | exact Hn | exact Hmi].
      * intros [H|(i & Hi & Hn & Hmi)]; [now left|].
        destruct i as [|i]; [cbn [nth] in Hmi; congruence|].
        right. exists (S i). repeat split; [lia | lia | exact Hn | exact Hmi].
Qed.

Lemma filterLines_chunkStart matcher rawLines chunkStart :
  psr_chunkStart (filterLines matcher rawLines chunkStart) = chunkStart.
Proof. unfold filterLines. now rewrite (proj1 (filterLines_loop_fields _ _ _ _ _)). Qed.

Lemma filterLines_processedLines matcher rawLines chunkStart :
  psr_processedLines (filterLines matcher rawLines chunkStart) = numberOfLines rawLines.
Proof. unfold filterLines. now rewrite (proj2 (filterLines_loop_fields _ _ _ _ _)). Qed.

Lemma filterLines_sorted matcher rawLines chunkStart :
  strictly_sorted (psr_matchingLines (filterLines matcher rawLines chunkStart)).
Proof. unfold filterLines. apply filterLines_loop_sorted. constructor. Qed.

Lemma filterLines_cardinality matcher rawLines chunkStart :
  bitmap_cardinality (psr_matchingLines (filterLines matcher rawLines chunkStart))
  <= Z.of_nat (length (utf8View rawLines)).
Proof.
  unfold filterLines, bitmap_cardinality.
  pose proof (filterLines_loop_cardinality matcher (utf8View rawLines) chunkStart 0
                (mkPartialSearchResults [] (mkLineLength 0) chunkStart
                                        (numberOfLines rawLines))) as H.
  cbn [psr_matchingLines length] in H. lia.
Qed.

(** What a matcher finds in a batch read from the file: the lines of the
    batch that the pattern matches, by their numbers in the file. *)
Lemma filterLines_getLinesRaw matcher ld chunkStart number n :
  valid_lnum chunkStart ->
  0 <= lc number < 4294967296 ->
  ln chunkStart + lc number <= Z.of_nat (length (logLines ld)) ->
  Z.of_nat (length (logLines ld)) <= UINT64_MAX ->
  In n (psr_matchingLines (filterLines matcher (getLinesRaw ld chunkStart number) chunkStart))
  <-> ln chunkStart <= n < ln chunkStart + lc number /\ matcher (line_at ld n) = true.
Proof.
  intros Hcs Hnum Hin Hmax.
  assert (H0 : 0 <= ln chunkStart) by (unfold valid_lnum, is_uint64 in Hcs; lia).
  pose proof (getLinesRaw_length ld chunkStart number H0 ltac:(lia) Hin) as Hlen.
  unfold filterLines.
  rewrite filterLines_loop_In by (try exact Hcs; lia).
  cbn [psr_matchingLines In]. split.
  - intros [[]|(i & Hi & -> & Hm)].
    rewrite getLinesRaw_nth in Hm by lia.
    replace (ln chunkStart + 0 + Z.of_nat i) with (ln chunkStart + Z.of_nat i) by lia.
    split; [lia | exact Hm].
  - intros [Hn Hm]. right. exists (Z.to_nat (n - ln chunkStart)).
    split; [lia|]. split; [lia|].
    rewrite getLinesRaw_nth by lia.
    replace (ln chunkStart + Z.of_nat (Z.to_nat (n - ln chunkStart))) with n by lia.
    exact Hm.
Qed.

(* ===================================================================== *)
(** ** The flow graph: bitmaps stay sorted *)
(* ===================================================================== *)

Lemma Forall_remove_middle {A} (P : A -> Prop) before x after :
  Forall P (before ++ x :: after) -> P x /\ Forall P (before ++ after).
Proof.
  rewrite !Forall_app. intros (Hb & Hx). inversion Hx; subst. tauto.
Qed.

Lemma reportProgress_fields ds g :
  interruptRequested_ (reportProgress ds g) = interruptRequested_ g /\
  chunkStart (reportProgress ds g) = chunkStart g /\
  sourceActive (reportProgress ds g) = sourceActive g /\
  lineBlocksQueue (reportProgress ds g) = lineBlocksQueue g /\
  resultsQueue (reportProgress ds g) = resultsQueue g /\
  totalProcessedLines (reportProgress ds g) = totalProcessedLines g /\
  nbMatches (reportProgress ds g) = nbMatches g /\
  searchData (reportProgress ds g) = searchData g /\
  chunksRead (reportProgress ds g) = chunksRead g /\
  linesExamined (reportProgress ds g) = linesExamined g /\
  delivered (reportProgress ds g) = delivered g /\
  failure (reportProgress ds g) = failure g.
Proof.
  unfold reportProgress. destruct (_ || _); cbn; repeat split; reflexivity.
Qed.

Lemma combineResults_fields matchResults g :
  interruptRequested_ (combineResults matchResults g) = interruptRequested_ g /\
  chunkStart (combineResults matchResults g) = chunkStart g /\
  sourceActive (combineResults matchResults g) = sourceActive g /\
  lineBlocksQueue (combineResults matchResults g) = lineBlocksQueue g /\
  resultsQueue (combineResults matchResults g) = resultsQueue g /\
  emitted (combineResults matchResults g) = emitted g /\
  reportedMatches (combineResults matchResults g) = reportedMatches g /\
  reportedPercentage (combineResults matchResults g) = reportedPercentage g /\
  chunksRead (combineResults matchResults g) = chunksRead g /\
  linesExamined (combineResults matchResults g) = linesExamined g /\
  delivered (combineResults matchResults g) = delivered g /\
  failure (combineResults matchResults g) = failure g.
Proof.
  unfold combineResults. destruct (_ =? _); cbn; repeat split; reflexivity.
Qed.

Lemma combineResults_searchData matchResults g :
  matches_ (searchData (combineResults matchResults g)) = matches_ (searchData g) /\
  forall n,
    In n (newMatches_ (searchData (combineResults matchResults g)))
    <-> In n (newMatches_ (searchData g))
        \/ (lc (psr_processedLines matchResults) <> 0
            /\ In n (psr_matchingLines matchResults)).
Proof.
  unfold combineResults.
  destruct (Z.eqb_spec (lc (psr_processedLines matchResults)) 0) as [Hz|Hnz].
  - split; [reflexivity|]. intros n. tauto.
  - cbn [searchData addAll matches_ newMatches_]. split; [reflexivity|].
    intros n. rewrite bitmap_union_In. tauto.
Qed.

Lemma graph_sorted_step ds g g' :
  graph_sorted g -> step ds g g' -> graph_sorted g'.
Proof.
  unfold graph_sorted. intros (Hd & Hn & Hm & Hr) Hstep.
  destruct Hstep as [g _ _|g before b after _ Hq|g before r after _ Hq|g|g|g what _].
  - unfold linesSource, stop_source.
    destruct (interruptRequested_ g); [cbn; tauto|].
    destruct (lnum_ge _ _); cbn; tauto.
  - cbn. repeat split; try assumption.
    apply Forall_app. split; [exact Hr|].
    constructor; [apply filterLines_sorted | constructor].
  - rewrite Hq in Hr. apply Forall_remove_middle in Hr. destruct Hr as [Hr Hrest].
    unfold matchProcessor.
    destruct (interruptRequested_ g); [cbn; tauto|].
    destruct (reportProgress_fields ds (combineResults r (with_resultsQueue (before ++ after) g)))
      as (_ & _ & _ & _ & Eq & _ & _ & Esd & _ & _ & Ed & _).
    destruct (combineResults_fields r (with_resultsQueue (before ++ after) g))
      as (_ & _ & _ & _ & Eq' & _ & _ & _ & _ & _ & Ed' & _).
    rewrite Eq, Esd, Ed, Eq', Ed'. cbn [delivered resultsQueue with_resultsQueue].
    repeat split; try assumption.
    + unfold combineResults. destruct (_ =? _); cbn; [exact Hn|].
      now apply bitmap_union_sorted.
    + rewrite (proj1 (combineResults_searchData _ _)). exact Hm.
  - cbn. tauto.
  - cbn. repeat split; try assumption; [|constructor].
    now apply bitmap_union_sorted.
  - cbn. tauto.
Qed.

Lemma graph_sorted_run ds g g' :
  run ds g g' -> graph_sorted g -> graph_sorted g'.
Proof.
  induction 1 as [g|g g' g'' Hstep _ IH]; intros Hs; [exact Hs|].
  apply IH. now apply (graph_sorted_step ds g).
Qed.

Lemma matchSet_sorted g : graph_sorted g -> strictly_sorted (matchSet g).
Proof. intros (Hd & _). unfold matchSet. now apply bitmap_union_sorted. Qed.

(* ===================================================================== *)
(** ** The flow graph: what the buffers hold, and which lines are covered *)
(* ===================================================================== *)

Lemma In_remove_middle {A} (x y : A) before after :
  In x (before ++ y :: after) <-> x = y \/ In x (before ++ after).
Proof. rewrite !in_app_iff. cbn [In]. intuition congruence. Qed.

Lemma matchSet_In g n :
  In n (matchSet g) <-> In n (delivered g) \/ In n (newMatches_ (searchData g)).
Proof. unfold matchSet. apply bitmap_union_In. Qed.

Lemma step_interrupt_flag ds g g' :
  step ds g g' -> interruptRequested_ g' = false -> interruptRequested_ g = false.
Proof.
  intros Hstep.
  destruct Hstep as [g _ _|g before b after _ Hq|g before r after _ Hq|g|g|g what _];
    try (cbn; tauto).
  - unfold linesSource, stop_source.
    destruct (interruptRequested_ g) eqn:E; [cbn; congruence|].
    destruct (lnum_ge _ _); cbn; congruence.
  - unfold matchProcessor. destruct (interruptRequested_ g) eqn:E; [cbn; congruence|].
    reflexivity.
  - cbn. discriminate.
Qed.

Section Graph.
Variable ds : DoSearch.
Hypothesis Hfile :
  Z.of_nat (length (logLines (sourceLogData_ (ds_operation ds)))) <= UINT64_MAX.
Hypothesis Hchunk : 1 <= lc (ds_nbLinesInChunk ds) <= INT_MAX.
Hypothesis Hinit : valid_lnum (ds_initialLine ds).
Hypothesis Hend : valid_lnum (endLine_ (ds_operation ds)).

Lemma ds_endLine_bounds :
  0 <= ln (ds_endLine ds)
  <= Z.of_nat (length (logLines (sourceLogData_ (ds_operation ds)))).
Proof using All.
  unfold ds_endLine, qMin_lnum, lnum_lt, getNbLine. cbn [ln lc].
  unfold valid_lnum, is_uint64 in Hend.
  destruct (Z.ltb_spec (Z.of_nat (length (logLines (sourceLogData_ (ds_operation ds)))))
                       (ln (endLine_ (ds_operation ds)))); cbn [ln]; lia.
Qed.

(** The chunk [linesSource] reads at [first], and where it goes next. *)
Lemma next_chunk first :
  ln (ds_initialLine ds) <= ln first <= UINT64_MAX ->
  ln first < ln (ds_endLine ds) ->
  let number := Z.min (lc (ds_nbLinesInChunk ds)) (lc (lnum_diff (ds_endLine ds) first)) in
  let next := lnum_plus first (ds_nbLinesInChunk ds) in
  chunk_ok ds first (mkLinesCount number) /\
  ln first <= ln next <= UINT64_MAX /\
  (ln first + number = ln next \/ (ln first + number = ln (ds_endLine ds)
                                   /\ ln (ds_endLine ds) <= ln next)).
Proof using All.
  intros Hfirst Hlt. cbv zeta.
  pose proof ds_endLine_bounds as Hb.
  unfold valid_lnum, is_uint64 in Hinit.
  assert (Hv1 : valid_lnum first) by (unfold valid_lnum, is_uint64; lia).
  assert (Hv2 : valid_lnum (ds_endLine ds)) by (unfold valid_lnum, is_uint64; lia).
  assert (Hv3 : valid_lcount (ds_nbLinesInChunk ds))
    by (unfold valid_lcount, is_uint64, INT_MAX, UINT64_MAX in *; lia).
  rewrite (lnum_diff_exact _ _ Hv2 Hv1).
  unfold chunk_ok. cbn [lc].
  destruct (Z.le_gt_cases (ln first + lc (ds_nbLinesInChunk ds)) UINT64_MAX) as [Hs|Hs].
  - rewrite (lnum_plus_exact _ _ Hv1 Hv3 Hs). cbn [ln]. lia.
  - rewrite (lnum_plus_saturates _ _ Hv1 Hv3 Hs). cbn [ln maxValue_LineNumber]. lia.
Qed.

Lemma block_ok_lines b :
  block_ok ds b ->
  exists number,
    chunk_ok ds (blk_chunkStart b) number /\
    blk_lines b
    = getLinesRaw (sourceLogData_ (ds_operation ds)) (blk_chunkStart b) number /\
    Z.of_nat (length (utf8View (blk_lines b))) = lc number /\
    block_lines b = line_range (ln (blk_chunkStart b)) (ln (blk_chunkStart b) + lc number).
Proof using All.
  intros (number & Hok & Hlines). exists number.
  pose proof ds_endLine_bounds as Hb.
  unfold valid_lnum, is_uint64 in Hinit. destruct Hok as (H1 & H2 & H3).
  assert (Hlen : Z.of_nat (length (utf8View (blk_lines b))) = lc number).
  { rewrite Hlines. apply getLinesRaw_length; lia. }
  split; [unfold chunk_ok; tauto|]. split; [exact Hlines|]. split; [exact Hlen|].
  unfold block_lines. now rewrite Hlen.
Qed.

Lemma result_ok_facts r :
  result_ok ds r ->
  1 <= lc (psr_processedLines r) /\
  bitmap_cardinality (psr_matchingLines r) <= lc (psr_processedLines r) /\
  ln (psr_chunkStart r) + lc (psr_processedLines r) <= ln (ds_endLine ds) /\
  ln (ds_initialLine ds) <= ln (psr_chunkStart r).
Proof using All.
  intros (first & number & (H1 & H2 & H3) & ->).
  pose proof ds_endLine_bounds as Hb.
  unfold valid_lnum, is_uint64 in Hinit.
  rewrite filterLines_processedLines, filterLines_chunkStart.
  pose proof (filterLines_cardinality (regexp_ (ds_operation ds))
                (getLinesRaw (sourceLogData_ (ds_operation ds)) first number) first) as Hc.
  rewrite getLinesRaw_length in Hc by lia.
  rewrite getLinesRaw_numberOfLines by lia. cbn [lc]. lia.
Qed.

Lemma graph_queues_ok_step g g' :
  graph_queues_ok ds g -> step ds g g' -> graph_queues_ok ds g'.
Proof using All.
  unfold graph_queues_ok. intros (Hcs & Hblocks & Hresults) Hstep.
  destruct Hstep as [g _ _|g before b after _ Hq|g before r after _ Hq|g|g|g what _];
    try (cbn; tauto).
  - unfold linesSource, stop_source.
    destruct (interruptRequested_ g); [cbn; tauto|].
    unfold lnum_ge, lnum_lt.
    destruct (Z.ltb_spec (ln (chunkStart g)) (ln (ds_endLine ds))) as [Hlt|Hge];
      cbn [negb]; [|cbn; tauto].
    destruct (next_chunk (chunkStart g) Hcs Hlt) as (Hok & Hnext & _).
    cbn [chunkStart lineBlocksQueue resultsQueue].
    split; [lia|]. split; [|exact Hresults].
    apply Forall_app. split; [exact Hblocks|]. constructor; [|constructor].
    eexists. cbn [blk_chunkStart blk_lines]. split; [exact Hok | reflexivity].
  - rewrite Hq in Hblocks. apply Forall_remove_middle in Hblocks.
    destruct Hblocks as [(number & Hok & Hlines) Hblocks].
    cbn [chunkStart lineBlocksQueue resultsQueue regexMatcher].
    split; [exact Hcs|]. split; [exact Hblocks|].
    apply Forall_app. split; [exact Hresults|]. constructor; [|constructor].
    exists (blk_chunkStart b), number. split; [exact Hok|]. now rewrite Hlines.
  - rewrite Hq in Hresults. apply Forall_remove_middle in Hresults.
    destruct Hresults as [_ Hresults].
    unfold matchProcessor. destruct (interruptRequested_ g); [cbn; tauto|].
    destruct (reportProgress_fields ds (combineResults r (with_resultsQueue (before ++ after) g)))
      as (_ & E1 & _ & E2 & E3 & _).
    destruct (combineResults_fields r (with_resultsQueue (before ++ after) g))
      as (_ & E1' & _ & E2' & E3' & _).
    rewrite E1, E2, E3, E1', E2', E3'. cbn. tauto.
Qed.

Lemma graph_queues_ok_run g g' :
  run ds g g' -> graph_queues_ok ds g -> graph_queues_ok ds g'.
Proof using All.
  induction 1 as [g|g g' g'' Hstep _ IH]; intros Hs; [exact Hs|].
  apply IH. now apply (graph_queues_ok_step g).
Qed.

Lemma graph_queues_ok_start sd d : graph_queues_ok ds (graph_start ds sd d).
Proof using All.
  unfold graph_queues_ok, graph_start. cbn.
  unfold valid_lnum, is_uint64 in Hinit. repeat split; try constructor; lia.
Qed.

(** What a matcher finds in a block is the matching lines of the block. *)
Lemma regexMatcher_finds b n :
  block_ok ds b ->
  In n (psr_matchingLines
          (filterLines (regexp_ (ds_operation ds)) (blk_lines b) (blk_chunkStart b)))
  <-> In n (block_lines b) /\ line_matches ds n = true.
Proof using All.
  intros Hb. destruct (block_ok_lines b Hb) as (number & (H1 & H2 & H3) & Hlines & _ & Hbl).
  pose proof ds_endLine_bounds as Hbnd.
  unfold valid_lnum, is_uint64 in Hinit.
  rewrite Hlines, Hbl, line_range_In.
  apply filterLines_getLinesRaw.
  - unfold valid_lnum, is_uint64. lia.
  - unfold INT_MAX in Hchunk. lia.
  - lia.
  - exact Hfile.
Qed.

Lemma accounted_step g g' :
  graph_queues_ok ds g ->
  step ds g g' ->
  interruptRequested_ g' = false ->
  forall n, accounted ds g' n <-> accounted ds g n.
Proof using All.
  intros (Hcs & Hblocks & Hresults) Hstep Hflag n.
  pose proof (step_interrupt_flag ds g g' Hstep Hflag) as Hflag0.
  destruct Hstep as [g _ _|g before b after _ Hq|g before r after _ Hq|g|g|g what _].
  - unfold linesSource, stop_source. rewrite Hflag0.
    unfold lnum_ge, lnum_lt.
    destruct (Z.ltb_spec (ln (chunkStart g)) (ln (ds_endLine ds))) as [Hlt|Hge];
      cbn [negb]; [|reflexivity].
    destruct (next_chunk (chunkStart g) Hcs Hlt) as (Hok & Hnext & Hcases).
    set (number := Z.min (lc (ds_nbLinesInChunk ds))
                         (lc (lnum_diff (ds_endLine ds) (chunkStart g)))) in *.
    set (b := mkSearchBlockData (chunkStart g)
                (getLinesRaw (sourceLogData_ (ds_operation ds)) (chunkStart g)
                             (mkLinesCount number))).
    assert (Hb : block_ok ds b) by (exists (mkLinesCount number); split; [exact Hok | reflexivity]).
    destruct (block_ok_lines b Hb) as (number' & _ & Hl & Hlen & Hbl).
    assert (Hnum : lc number' = number).
    { rewrite <- Hlen. subst b. cbn [blk_lines].
      pose proof ds_endLine_bounds. unfold valid_lnum, is_uint64 in Hinit.
      destruct Hok as (? & ? & ?). cbn [lc] in *.
      rewrite getLinesRaw_length; cbn [lc]; lia. }
    unfold accounted, matchSet.
    cbn [delivered searchData resultsQueue lineBlocksQueue chunkStart].
    assert (Hsplit :
              (exists b0, In b0 (lineBlocksQueue g ++ [b])
                          /\ In n (block_lines b0) /\ line_matches ds n = true)
              <-> (exists b0, In b0 (lineBlocksQueue g)
                              /\ In n (block_lines b0) /\ line_matches ds n = true)
                  \/ (ln (chunkStart g) <= n < ln (chunkStart g) + number
                      /\ line_matches ds n = true)).
    { split.
      - intros (b0 & Hin & Hn & Hm). apply in_app_iff in Hin.
        destruct Hin as [Hin|[<-|[]]].
        + left. now exists b0.
        + right. rewrite Hbl, line_range_In, Hnum in Hn. cbn [blk_chunkStart b] in Hn. tauto.
      - intros [(b0 & Hin & Hn & Hm)|[Hn Hm]].
        + exists b0. rewrite in_app_iff. tauto.
        + exists b. rewrite in_app_iff. cbn [In]. split; [tauto|].
          rewrite Hbl, line_range_In, Hnum. cbn [blk_chunkStart b]. tauto. }
    rewrite Hsplit. clear Hsplit.
    destruct Hok as (_ & Hnumber & Hlast). cbn [lc] in Hnumber, Hlast.
    split; intros H; repeat destruct H as [H|H]; try tauto.
    + destruct H as [Hn Hm]. right. right. right. split; [lia | exact Hm].
    + destruct H as [Hn Hm]. right. right. right. split; [lia | exact Hm].
    + destruct H as [Hn Hm].
      destruct (Z.lt_ge_cases n (ln (chunkStart g) + number)) as [Hin|Hout].
      * right. right. left. right. split; [lia | exact Hm].
      * right. right. right. split; [lia | exact Hm].
  - rewrite Hq in Hblocks. apply Forall_remove_middle in Hblocks.
    destruct Hblocks as [Hb _].
    pose proof (regexMatcher_finds b n Hb) as Hfind.
    unfold accounted, matchSet.
    cbn [regexMatcher delivered searchData resultsQueue lineBlocksQueue chunkStart].
    rewrite Hq.
    split; intros H; repeat destruct H as [H|H]; try tauto.
    + destruct H as (r0 & Hin & Hn). apply in_app_iff in Hin.
      destruct Hin as [Hin|[<-|[]]].
      * right. left. now exists r0.
      * right. right. left. exists b. rewrite In_remove_middle. tauto.
    + destruct H as (b0 & Hin & Hn). right. right. left. exists b0.
      rewrite In_remove_middle. tauto.
    + destruct H as (r0 & Hin & Hn). right. left. exists r0. rewrite in_app_iff. tauto.
    + destruct H as (b0 & Hin & Hn & Hm). apply In_remove_middle in Hin.
      destruct Hin as [->|Hin].
      * right. left. eexists. rewrite in_app_iff. cbn [In]. split; [right; left; reflexivity|].
        tauto.
      * right. right. left. now exists b0.
  - rewrite Hq in Hresults. apply Forall_remove_middle in Hresults.
    destruct Hresults as [Hr _].
    destruct (result_ok_facts r Hr) as (Hproc & _).
    unfold matchProcessor. rewrite Hflag0.
    destruct (reportProgress_fields ds (combineResults r (with_resultsQueue (before ++ after) g)))
      as (_ & E1 & _ & E2 & E3 & _ & _ & E4 & _ & _ & E5 & _).
    destruct (combineResults_fields r (with_resultsQueue (before ++ after) g))
      as (_ & E1' & _ & E2' & E3' & _ & _ & _ & _ & _ & E5' & _).
    destruct (combineResults_searchData r (with_resultsQueue (before ++ after) g))
      as (_ & Hnew).
    unfold accounted. rewrite !matchSet_In.
    rewrite E1, E2, E3, E4, E5, E1', E2', E3', E5', Hnew, Hq.
    cbn [with_resultsQueue delivered searchData resultsQueue lineBlocksQueue chunkStart].
    split; intros H; repeat destruct H as [H|H]; try tauto.
    + destruct H as [_ Hn]. right. left. exists r. rewrite In_remove_middle. tauto.
    + destruct H as (r0 & Hin & Hn). right. left. exists r0. rewrite In_remove_middle. tauto.
    + destruct H as (r0 & Hin & Hn). apply In_remove_middle in Hin.
      destruct Hin as [->|Hin].
      * left. right. right. split; [lia | exact Hn].
      * right. left. now exists r0.
  - cbn in Hflag. discriminate.
  - unfold accounted. rewrite !matchSet_In.
    cbn [getSearchResults takeCurrentResults fst snd sr_newMatches newMatches_
         delivered searchData resultsQueue lineBlocksQueue chunkStart].
    rewrite bitmap_union_In. cbn [In]. tauto.
  - reflexivity.
Qed.

Lemma graph_covers_step base g g' :
  graph_queues_ok ds g ->
  graph_covers ds base g -> step ds g g' -> graph_covers ds base g'.
Proof using All.
  intros Hq Hcov Hstep Hflag.
  pose proof (step_interrupt_flag ds g g' Hstep Hflag) as Hflag0.
  destruct (Hcov Hflag0) as [Hstop Hall].
  split.
  - destruct Hq as (Hcs & _).
    destruct Hstep as [g _ Hact|g before b after _ Hb|g before r after _ Hr|g|g|g what _];
      try exact Hstop.
    + unfold linesSource, stop_source. rewrite Hflag0.
      unfold lnum_ge, lnum_lt.
      destruct (Z.ltb_spec (ln (chunkStart g)) (ln (ds_endLine ds))) as [Hlt|Hge];
        cbn [negb]; cbn [sourceActive chunkStart]; [discriminate | intros _; lia].
    + unfold matchProcessor. rewrite Hflag0.
      destruct (reportProgress_fields ds
                  (combineResults r (with_resultsQueue (before ++ after) g)))
        as (_ & E1 & E2 & _).
      destruct (combineResults_fields r (with_resultsQueue (before ++ after) g))
        as (_ & E1' & E2' & _).
      rewrite E1, E2, E1', E2'. exact Hstop.
  - intros n. rewrite (accounted_step g g' Hq Hstep Hflag). apply Hall.
Qed.

Lemma graph_covers_run base g g' :
  run ds g g' ->
  graph_queues_ok ds g -> graph_covers ds base g -> graph_covers ds base g'.
Proof using All.
  induction 1 as [g|g g' g'' Hstep _ IH]; intros Hq Hcov; [exact Hcov|].
  apply IH.
  - now apply (graph_queues_ok_step g).
  - now apply (graph_covers_step base g).
Qed.

Lemma graph_covers_start sd d :
  graph_covers ds (matchSet (graph_start ds sd d)) (graph_start ds sd d).
Proof using All.
  intros _. split; [cbn; discriminate|].
  intros n. unfold accounted.
  cbn [graph_start resultsQueue lineBlocksQueue chunkStart].
  split; intros H; repeat destruct H as [H|H]; try tauto.
  - destruct H as (r & [] & _).
  - destruct H as (b & [] & _).
Qed.

(** When the graph has come to rest and nobody interrupted, the match
    set holds what it held at the start and the matching lines of the
    range, nothing else. *)
Lemma graph_idle_match_set sd d g n :
  run ds (graph_start ds sd d) g ->
  graph_idle g = true ->
  interruptRequested_ g = false ->
  In n (matchSet g)
  <-> In n (matchSet (graph_start ds sd d))
      \/ (ln (ds_initialLine ds) <= n < ln (ds_endLine ds) /\ line_matches ds n = true).
Proof using All.
  intros Hrun Hidle Hflag.
  pose proof (graph_covers_run _ _ _ Hrun (graph_queues_ok_start sd d)
                               (graph_covers_start sd d) Hflag) as [Hstop Hall].
  rewrite <- Hall. unfold graph_idle in Hidle.
  apply andb_prop in Hidle. destruct Hidle as [Hidle Hres].
  apply andb_prop in Hidle. destruct Hidle as [Hsrc Hblk].
  apply negb_true_iff in Hsrc. specialize (Hstop Hsrc).
  unfold accounted.
  destruct (lineBlocksQueue g); [|discriminate].
  destruct (resultsQueue g); [|discriminate].
  split; [tauto|]. intros H; repeat destruct H as [H|H]; try tauto.
  - destruct H as (r & [] & _).
  - destruct H as (b & [] & _).
  - lia.
Qed.

Lemma graph_examines_step g g' :
  graph_queues_ok ds g ->
  graph_examines ds g -> step ds g g' -> graph_examines ds g'.
Proof using All.
  unfold graph_examines. intros (Hcs & Hblocks & Hresults) Hperm Hstep.
  destruct Hstep as [g _ _|g before b after _ Hq|g before r after _ Hq|g|g|g what _];
    try exact Hperm.
  - unfold linesSource, stop_source.
    destruct (interruptRequested_ g); [exact Hperm|].
    unfold lnum_ge, lnum_lt.
    destruct (Z.ltb_spec (ln (chunkStart g)) (ln (ds_endLine ds))) as [Hlt|Hge];
      cbn [negb]; [|exact Hperm].
    destruct (next_chunk (chunkStart g) Hcs Hlt) as (Hok & Hnext & Hcases).
    set (number := Z.min (lc (ds_nbLinesInChunk ds))
                         (lc (lnum_diff (ds_endLine ds) (chunkStart g)))) in *.
    set (b := mkSearchBlockData (chunkStart g)
                (getLinesRaw (sourceLogData_ (ds_operation ds)) (chunkStart g)
                             (mkLinesCount number))).
    assert (Hb : block_ok ds b) by (exists (mkLinesCount number); split; [exact Hok | reflexivity]).
    destruct (block_ok_lines b Hb) as (number' & _ & Hl & Hlen & Hbl).
    assert (Hnum : lc number' = number).
    { rewrite <- Hlen. subst b. cbn [blk_lines].
      pose proof ds_endLine_bounds. unfold valid_lnum, is_uint64 in Hinit.
      destruct Hok as (? & ? & ?). cbn [lc] in *.
      rewrite getLinesRaw_length; cbn [lc]; lia. }
    cbn [linesExamined lineBlocksQueue chunkStart].
    rewrite map_app, concat_app. cbn [map concat]. rewrite app_nil_r, Hbl, Hnum.
    cbn [blk_chunkStart b]. rewrite <- app_assoc.
    destruct Hok as (_ & Hnumber & Hlast). cbn [lc] in Hnumber, Hlast.
    replace (line_range (ln (chunkStart g)) (ln (chunkStart g) + number)
             ++ line_range (ln (lnum_plus (chunkStart g) (ds_nbLinesInChunk ds)))
                           (ln (ds_endLine ds)))
      with (line_range (ln (chunkStart g)) (ln (ds_endLine ds))); [exact Hperm|].
    destruct Hcases as [Heq|[Heq Hle]].
    + rewrite <- Heq. apply line_range_split. lia.
    + rewrite (line_range_empty _ _ Hle), app_nil_r. now rewrite Heq.
  - cbn [regexMatcher linesExamined lineBlocksQueue chunkStart].
    rewrite Hq in Hperm.
    rewrite map_app, concat_app in Hperm |- *. cbn [map concat] in Hperm.
    rewrite <- !app_assoc in Hperm |- *.
    etransitivity; [|exact Hperm].
    apply Permutation_app_head. apply Permutation_app_swap_app.
  - unfold matchProcessor. destruct (interruptRequested_ g); [exact Hperm|].
    destruct (reportProgress_fields ds (combineResults r (with_resultsQueue (before ++ after) g)))
      as (_ & E1 & _ & E2 & _ & _ & _ & _ & _ & E3 & _).
    destruct (combineResults_fields r (with_resultsQueue (before ++ after) g))
      as (_ & E1' & _ & E2' & _ & _ & _ & _ & _ & E3' & _).
    rewrite E1, E2, E3, E1', E2', E3'. exact Hperm.
Qed.

Lemma graph_examines_run g g' :
  run ds g g' ->
  graph_queues_ok ds g -> graph_examines ds g -> graph_examines ds g'.
Proof using All.
  induction 1 as [g|g g' g'' Hstep _ IH]; intros Hq Hex; [exact Hex|].
  apply IH.
  - now apply (graph_queues_ok_step g).
  - now apply (graph_examines_step g).
Qed.

Lemma graph_examines_start sd d : graph_examines ds (graph_start ds sd d).
Proof. unfold graph_examines, graph_start. cbn. apply Permutation_refl. Qed.

(** When the graph has come to rest and nobody interrupted, the matchers
    were given every line of the range, each of them once. *)
Lemma graph_idle_examined sd d g :
  run ds (graph_start ds sd d) g ->
  graph_idle g = true ->
  interruptRequested_ g = false ->
  Permutation (linesExamined g)
              (line_range (ln (ds_initialLine ds)) (ln (ds_endLine ds))).
Proof using All.
  intros Hrun Hidle Hflag.
  pose proof (graph_covers_run _ _ _ Hrun (graph_queues_ok_start sd d)
                               (graph_covers_start sd d) Hflag) as [Hstop _].
  pose proof (graph_examines_run _ _ Hrun (graph_queues_ok_start sd d)
                                 (graph_examines_start sd d)) as Hperm.
  unfold graph_idle in Hidle.
  apply andb_prop in Hidle. destruct Hidle as [Hidle Hres].
  apply andb_prop in Hidle. destruct Hidle as [Hsrc Hblk].
  apply negb_true_iff in Hsrc. specialize (Hstop Hsrc).
  unfold graph_examines in Hperm.
  destruct (lineBlocksQueue g); [|discriminate].
  cbn [map concat app] in Hperm.
  now rewrite (line_range_empty _ _ Hstop), app_nil_r in Hperm.
Qed.
End Graph.

(* ===================================================================== *)
(** ** The flow graph: one schedule that comes to rest *)
(* ===================================================================== *)

Lemma run_trans ds g1 g2 g3 : run ds g1 g2 -> run ds g2 g3 -> run ds g1 g3.
Proof.
  induction 1 as [g|g g' g'' Hstep _ IH]; intros H23; [exact H23|].
  eapply run_step; [exact Hstep | now apply IH].
Qed.

Lemma run_one ds g g' : step ds g g' -> run ds g g'.
Proof. intros H. eapply run_step; [exact H | apply run_done]. Qed.

Lemma linesSource_failure ds g : failure (linesSource ds g) = failure g.
Proof.
  unfold linesSource, stop_source. destruct (interruptRequested_ g); [reflexivity|].
  destruct (lnum_ge _ _); reflexivity.
Qed.

Lemma matchProcessor_failure ds r others g :
  failure (matchProcessor ds r others g) = failure g.
Proof.
  unfold matchProcessor. destruct (interruptRequested_ g); [reflexivity|].
  destruct (reportProgress_fields ds (combineResults r (with_resultsQueue others g)))
    as (_ & _ & _ & _ & _ & _ & _ & _ & _ & _ & _ & E).
  destruct (combineResults_fields r (with_resultsQueue others g))
    as (_ & _ & _ & _ & _ & _ & _ & _ & _ & _ & _ & E').
  now rewrite E, E'.
Qed.

Lemma round_failure ds g : failure (round ds g) = failure g.
Proof.
  unfold round, oldest_result, oldest_block.
  set (g1 := if sourceActive g then linesSource ds g else g).
  assert (H1 : failure g1 = failure g)
    by (subst g1; destruct (sourceActive g); [apply linesSource_failure | reflexivity]).
  set (g2 := match lineBlocksQueue g1 with
             | [] => g1
             | blockData :: others => regexMatcher ds blockData others g1
             end).
  assert (H2 : failure g2 = failure g1)
    by (subst g2; destruct (lineBlocksQueue g1); reflexivity).
  destruct (resultsQueue g2); [congruence|].
  rewrite matchProcessor_failure. congruence.
Qed.

Lemma round_run ds g : failure g = None -> run ds g (round ds g).
Proof.
  intros Hf. unfold round, oldest_result, oldest_block.
  set (g1 := if sourceActive g then linesSource ds g else g).
  assert (H1 : failure g1 = None)
    by (subst g1; destruct (sourceActive g); [now rewrite linesSource_failure | exact Hf]).
  assert (R1 : run ds g g1).
  { subst g1. destruct (sourceActive g) eqn:Ha; [|apply run_done].
    apply run_one. now apply step_linesSource. }
  set (g2 := match lineBlocksQueue g1 with
             | [] => g1
             | blockData :: others => regexMatcher ds blockData others g1
             end).
  assert (H2 : failure g2 = None)
    by (subst g2; destruct (lineBlocksQueue g1); [exact H1 | exact H1]).
  assert (R2 : run ds g1 g2).
  { subst g2. destruct (lineBlocksQueue g1) as [|b others] eqn:Hq; [apply run_done|].
    apply run_one. apply (step_regexMatcher ds g1 [] b others H1 Hq). }
  apply (run_trans ds g g1); [exact R1|]. apply (run_trans ds g1 g2); [exact R2|].
  destruct (resultsQueue g2) as [|r others] eqn:Hq; [apply run_done|].
  apply run_one. apply (step_matchProcessor ds g2 [] r others H2 Hq).
Qed.

Lemma rounds_failure ds n : forall g, failure (rounds ds n g) = failure g.
Proof.
  induction n as [|n IH]; intros g; cbn [rounds]; [reflexivity|].
  now rewrite IH, round_failure.
Qed.

Lemma rounds_run ds n : forall g, failure g = None -> run ds g (rounds ds n g).
Proof.
  induction n as [|n IH]; intros g Hf; cbn [rounds]; [apply run_done|].
  apply (run_trans ds g (round ds g)); [now apply round_run|].
  apply IH. now rewrite round_failure.
Qed.

Lemma round_at_rest ds g :
  sourceActive g = false -> lineBlocksQueue g = [] -> resultsQueue g = [] ->
  round ds g = g.
Proof.
  intros Ha Hb Hr. unfold round, oldest_result, oldest_block.
  now rewrite Ha, Hb, Hr.
Qed.

Lemma rounds_at_rest ds n g :
  sourceActive g = false -> lineBlocksQueue g = [] -> resultsQueue g = [] ->
  rounds ds n g = g.
Proof.
  intros Ha Hb Hr. induction n as [|n IH]; cbn [rounds]; [reflexivity|].
  now rewrite round_at_rest.
Qed.

Section Schedule.
Variable ds : DoSearch.
Hypothesis Hfile :
  Z.of_nat (length (logLines (sourceLogData_ (ds_operation ds)))) <= UINT64_MAX.
Hypothesis Hchunk : 1 <= lc (ds_nbLinesInChunk ds) <= INT_MAX.
Hypothesis Hinit : valid_lnum (ds_initialLine ds).
Hypothesis Hend : valid_lnum (endLine_ (ds_operation ds)).

(** One round on a graph with empty buffers: the source stops at the
    end line, or a chunk goes through a matcher and the match processor
    and the source moves on. *)
Lemma round_moves_on g :
  ln (ds_initialLine ds) <= ln (chunkStart g) <= UINT64_MAX ->
  lineBlocksQueue g = [] -> resultsQueue g = [] ->
  sourceActive g = true -> interruptRequested_ g = false ->
  interruptRequested_ (round ds g) = false /\
  lineBlocksQueue (round ds g) = [] /\
  resultsQueue (round ds g) = [] /\
  ((ln (ds_endLine ds) <= ln (chunkStart g) /\ sourceActive (round ds g) = false)
   \/ (sourceActive (round ds g) = true
       /\ ln (chunkStart g) < ln (ds_endLine ds)
       /\ ln (chunkStart g) < ln (chunkStart (round ds g)) <= UINT64_MAX)).
Proof using All.
  intros Hcs Hb Hr Ha Hflag.
  unfold round. rewrite Ha. unfold linesSource. rewrite Hflag.
  unfold lnum_ge, lnum_lt.
  destruct (Z.ltb_spec (ln (chunkStart g)) (ln (ds_endLine ds))) as [Hlt|Hge]; cbn [negb].
  - destruct (next_chunk ds Hfile Hchunk Hinit Hend (chunkStart g) Hcs Hlt)
      as ((_ & Hnumber & _) & Hnext & Hcases).
    cbn [lc] in Hnumber.
    rewrite Hb, Hr. cbn [app]. unfold oldest_block. cbn [lineBlocksQueue].
    unfold oldest_result. cbn [regexMatcher resultsQueue app].
    unfold matchProcessor. cbn [interruptRequested_ regexMatcher].
    match goal with
    | |- context [reportProgress ds (combineResults ?r ?g0)] =>
        destruct (reportProgress_fields ds (combineResults r g0))
          as (E1 & E2 & E3 & E4 & E5 & _);
        destruct (combineResults_fields r g0) as (E1' & E2' & E3' & E4' & E5' & _)
    end.
    rewrite E1, E2, E3, E4, E5, E1', E2', E3', E4', E5'.
    unfold with_resultsQueue, regexMatcher.
    cbn [interruptRequested_ chunkStart sourceActive lineBlocksQueue resultsQueue].
    repeat split; try assumption. right. split; [reflexivity|]. split; [exact Hlt | lia].
  - unfold oldest_block, stop_source. cbn [lineBlocksQueue]. rewrite Hb.
    unfold oldest_result. cbn [resultsQueue]. rewrite Hr.
    cbn [interruptRequested_ lineBlocksQueue resultsQueue sourceActive].
    repeat split; try assumption. left. split; [lia | reflexivity].
Qed.

(** With chunks of at least one line, this schedule comes to rest. *)
Lemma rounds_come_to_rest :
  forall (k : nat) (g : Graph),
    ln (ds_initialLine ds) <= ln (chunkStart g) <= UINT64_MAX ->
    lineBlocksQueue g = [] -> resultsQueue g = [] ->
    sourceActive g = true -> interruptRequested_ g = false ->
    ln (ds_endLine ds) - ln (chunkStart g) <= Z.of_nat k ->
    graph_idle (rounds ds (S k) g) = true /\
    interruptRequested_ (rounds ds (S k) g) = false.
Proof using All.
  induction k as [|k IH]; intros g Hcs Hb Hr Ha Hflag Hk;
    destruct (round_moves_on g Hcs Hb Hr Ha Hflag) as (F & B & R & [[Hge Hs]|(Hs & Hlt & Hnext)]).
  - cbn [rounds]. unfold graph_idle. now rewrite Hs, B, R.
  - lia.
  - cbn [rounds]. change (rounds ds k (round ds (round ds g)))
      with (rounds ds (S k) (round ds g)).
    rewrite rounds_at_rest by assumption.
    unfold graph_idle. now rewrite Hs, B, R.
  - change (rounds ds (S (S k)) g) with (rounds ds (S k) (round ds g)).
    apply IH; try assumption; lia.
Qed.
End Schedule.

(* ===================================================================== *)
(** ** A full search finds the matching lines of its range *)
(* ===================================================================== *)

Lemma graph_sorted_start ds sd d :
  strictly_sorted d ->
  strictly_sorted (newMatches_ sd) -> strictly_sorted (matches_ sd) ->
  graph_sorted (graph_start ds sd d).
Proof. intros Hd Hn Hm. unfold graph_sorted, graph_start. cbn. repeat split; try assumption. constructor. Qed.

Lemma strictly_sorted_nil : strictly_sorted [].
Proof. constructor. Qed.

Section FullSearch.
Variable calculateProgress : Z -> Z -> Z.
Variable config : Configuration.
Variable op : SearchOperation.
Hypothesis Hfile : lc (getNbLine (sourceLogData_ op)) <= UINT64_MAX.
Hypothesis Hchunk : 1 <= searchReadBufferSizeLines config <= INT_MAX.
Hypothesis Hstart : valid_lnum (startLine_ op).
Hypothesis Hend : valid_lnum (endLine_ op).

Let ds := doSearch_locals calculateProgress config op (mkLineNumber 0).

Lemma full_search_locals :
  ln (ds_initialLine ds) = ln (startLine_ op) /\
  ln (ds_endLine ds) = Z.min (ln (endLine_ op)) (lc (getNbLine (sourceLogData_ op))) /\
  lc (ds_nbLinesInChunk ds) = searchReadBufferSizeLines config.
Proof.
  unfold ds, doSearch_locals, ds_endLine, qMin_lnum, lnum_lt.
  cbn [ds_initialLine ds_operation ds_nbLinesInChunk ln lc].
  unfold valid_lnum, is_uint64 in Hstart.
  split; [|split].
  - destruct (Z.ltb_spec 0 (ln (startLine_ op))); cbn [ln]; lia.
  - destruct (Z.ltb_spec (lc (getNbLine (sourceLogData_ op))) (ln (endLine_ op)));
      cbn [ln]; lia.
  - apply wrap64_small. unfold is_uint64, INT_MAX, UINT64_MAX in *. lia.
Qed.

Lemma full_search_hypotheses :
  Z.of_nat (length (logLines (sourceLogData_ (ds_operation ds)))) <= UINT64_MAX /\
  1 <= lc (ds_nbLinesInChunk ds) <= INT_MAX /\
  valid_lnum (ds_initialLine ds) /\
  valid_lnum (endLine_ (ds_operation ds)).
Proof.
  destruct full_search_locals as (Hi & _ & Hc).
  split; [exact Hfile|]. split; [now rewrite Hc|]. split; [|exact Hend].
  unfold valid_lnum in *. now rewrite Hi.
Qed.

(** Where a full search ends: [min(end_line, line_count)]. *)
Let full_search_last : Z :=
  Z.min (ln (endLine_ op)) (lc (getNbLine (sourceLogData_ op))).

Lemma full_search_complete_run sd :
  exists out,
    FullSearchOperation_run calculateProgress config op sd out /\
    out_status out = Finished /\
    interruptRequested_ (out_graph out) = false.
Proof.
  destruct full_search_hypotheses as (H1 & H2 & H3 & H4).
  set (g0 := graph_start ds (clear sd) []).
  set (k := Z.to_nat (ln (ds_endLine ds) - ln (chunkStart g0))).
  destruct (rounds_come_to_rest ds H1 H2 H3 H4 k g0) as [Hidle Hflag];
    try reflexivity.
  - unfold g0. cbn [graph_start chunkStart]. unfold valid_lnum, is_uint64 in H3. lia.
  - lia.
  - exists (finished ds (rounds ds (S k) g0)). split; [|split; [reflexivity | exact Hflag]].
    unfold FullSearchOperation_run, try_doSearch. fold ds. fold g0.
    exists (rounds ds (S k) g0). split; [now apply rounds_run|].
    left. split; [now rewrite rounds_failure | split; [exact Hidle | reflexivity]].
Qed.

Lemma full_search_result sd out :
  FullSearchOperation_run calculateProgress config op sd out ->
  out_status out = Finished ->
  interruptRequested_ (out_graph out) = false ->
  out_matchSet out = matching_lines op (ln (startLine_ op)) full_search_last /\
  Permutation (linesExamined (out_graph out))
              (line_range (ln (startLine_ op)) full_search_last).
Proof.
  destruct full_search_hypotheses as (H1 & H2 & H3 & H4).
  destruct full_search_locals as (Hi & He & _).
  unfold FullSearchOperation_run, try_doSearch. fold ds.
  intros (g & Hrun & [(Hf & Hidle & ->)|(what & _ & ->)]) Hstatus Hflag;
    [|discriminate].
  cbn [finished out_graph] in Hflag |- *.
  unfold full_search_last. rewrite <- Hi, <- He. split.
  - unfold out_matchSet. cbn [finished out_graph out_searchData].
    apply strictly_sorted_ext.
    + apply matchSet_sorted. apply (graph_sorted_run ds _ _ Hrun).
      apply graph_sorted_start; apply strictly_sorted_nil.
    + apply matching_lines_sorted.
    + intros n. rewrite matching_lines_In.
      change (bitmap_union (delivered g) (newMatches_ (searchData g))) with (matchSet g).
      rewrite (graph_idle_match_set ds H1 H2 H3 H4 _ _ g n Hrun Hidle Hflag).
      unfold line_matches. cbn [matchSet graph_start delivered searchData clear newMatches_
                                bitmap_union fold_left In].
      tauto.
  - apply (graph_idle_examined ds H1 H2 H3 H4 _ _ g Hrun Hidle Hflag).
Qed.
End FullSearch.

(** C1. A full search that runs to its end without an interrupt leaves as
    match set exactly the lines [n] with
    [start_line <= n < min(end_line, line_count)] whose text the pattern
    (with its inverse flag) matches, in ascending order; the matchers were
    given each line of that range once, chunk by chunk, whatever the order
    in which the chunks went through the graph; and with a chunk size of
    at least one line such a run exists. *)
Theorem full_search_match_set :
  forall (calculateProgress : Z -> Z -> Z) (config : Configuration)
         (op : SearchOperation) (sd : SearchData),
    lc (getNbLine (sourceLogData_ op)) <= UINT64_MAX ->
    1 <= searchReadBufferSizeLines config <= INT_MAX ->
    valid_lnum (startLine_ op) ->
    valid_lnum (endLine_ op) ->
    (exists out,
        FullSearchOperation_run calculateProgress config op sd out /\
        out_status out = Finished /\
        interruptRequested_ (out_graph out) = false) /\
    (forall out,
        FullSearchOperation_run calculateProgress config op sd out ->
        out_status out = Finished ->
        interruptRequested_ (out_graph out) = false ->
        out_matchSet out
        = matching_lines op (ln (startLine_ op))
                         (Z.min (ln (endLine_ op)) (lc (getNbLine (sourceLogData_ op)))) /\
        Permutation
          (linesExamined (out_graph out))
          (line_range (ln (startLine_ op))
                      (Z.min (ln (endLine_ op)) (lc (getNbLine (sourceLogData_ op)))))).
Proof.
  intros calculateProgress config op sd Hfile Hchunk Hstart Hend. split.
  - now apply full_search_complete_run.
  - intros out Hrun Hstatus Hflag.
    now apply (full_search_result calculateProgress config op Hfile Hchunk Hstart Hend sd).
Qed.

Lemma full_search_match_set_witness :
  exists out,
    FullSearchOperation_run spec_calculateProgress sample_config
                            (search_a ten_lines 0 10) empty_SearchData out /\
    out_matchSet out = [0; 2; 4; 7; 9].
Proof.
  destruct (full_search_match_set spec_calculateProgress sample_config
              (search_a ten_lines 0 10) empty_SearchData)
    as [(out & Hrun & Hstatus & Hflag) Hall].
  - vm_compute. discriminate.
  - vm_compute. split; discriminate.
  - vm_compute. split; discriminate.
  - vm_compute. split; discriminate.
  - exists out. split; [exact Hrun|].
    rewrite (proj1 (Hall out Hrun Hstatus Hflag)). reflexivity.
Defined.

(* ===================================================================== *)
(** ** Progress events *)
(* ===================================================================== *)

Lemma progress_events_app s1 s2 :
  progress_events (s1 ++ s2) = progress_events s1 ++ progress_events s2.
Proof.
  induction s1 as [|[n p i|] s1 IH]; cbn [app progress_events]; [reflexivity | |exact IH].
  now rewrite IH.
Qed.

Lemma monotonic_snoc events e :
  monotonic events -> Forall (fun x => progress_le x e) events -> monotonic (events ++ [e]).
Proof.
  unfold monotonic. induction 1 as [|x l Hs IH Hall]; intros Hle; cbn [app].
  - repeat constructor.
  - inversion Hle; subst. constructor; [now apply IH|].
    apply Forall_app. split; [exact Hall | now constructor].
Qed.

Lemma sum_Z_app l1 l2 : sum_Z (l1 ++ l2) = sum_Z l1 + sum_Z l2.
Proof.
  unfold sum_Z. induction l1 as [|x l1 IH]; cbn [app fold_right]; [lia|].
  rewrite IH. lia.
Qed.

Lemma sum_Z_remove_middle {A} (f : A -> Z) before x after :
  sum_Z (map f (before ++ x :: after)) = f x + sum_Z (map f (before ++ after)).
Proof. rewrite !map_app, !sum_Z_app. cbn [map]. unfold sum_Z at 2. cbn [fold_right]. fold (sum_Z (map f after)). lia. Qed.

Lemma sum_Z_snoc {A} (f : A -> Z) l x :
  sum_Z (map f (l ++ [x])) = sum_Z (map f l) + f x.
Proof. rewrite map_app, sum_Z_app. cbn. lia. Qed.

Section Progress.
Variable ds : DoSearch.
Hypothesis Hfile :
  Z.of_nat (length (logLines (sourceLogData_ (ds_operation ds)))) <= UINT64_MAX.
Hypothesis Hchunk : 1 <= lc (ds_nbLinesInChunk ds) <= INT_MAX.
Hypothesis Hinit : valid_lnum (ds_initialLine ds).
Hypothesis Hend : valid_lnum (endLine_ (ds_operation ds)).
Variable nbMatches0 : Z.
Hypothesis Hnb : 0 <= nbMatches0 /\ nbMatches0 + lc (ds_totalLines ds) <= UINT64_MAX.
Hypothesis Hmono :
  forall a b, 0 <= a <= b ->
              ds_calculateProgress ds a (lc (ds_totalLines ds))
              <= ds_calculateProgress ds b (lc (ds_totalLines ds)).

Lemma ds_totalLines_eq :
  lc (ds_totalLines ds) = Z.max 0 (ln (ds_endLine ds) - ln (ds_initialLine ds)).
Proof using All.
  unfold ds_totalLines. apply lnum_diff_exact; [|exact Hinit].
  pose proof (ds_endLine_bounds ds Hfile Hchunk Hinit Hend). unfold valid_lnum, is_uint64. lia.
Qed.

Lemma graph_progress_report g :
  graph_progress ds nbMatches0 g -> graph_progress ds nbMatches0 (reportProgress ds g).
Proof using All.
  unfold graph_progress. intros (H0 & Hpend & Hnbm & Hmon & Hall).
  unfold reportProgress.
  set (percentage := ds_calculateProgress ds (lc (totalProcessedLines g))
                                          (lc (ds_totalLines ds))) in *.
  destruct (_ || _); [|tauto].
  unfold pending_lines in *.
  cbn [totalProcessedLines resultsQueue lineBlocksQueue chunkStart nbMatches emitted].
  rewrite progress_events_app. cbn [progress_events].
  repeat split; try tauto; try lia.
  - apply monotonic_snoc; [exact Hmon|].
    eapply Forall_impl; [|exact Hall].
    intros [n p] (H1 & H2 & H3). unfold progress_le. cbn [fst snd] in *. lia.
  - apply Forall_app. split; [exact Hall|].
    constructor; [|constructor]. cbn [fst snd]. fold percentage. lia.
Qed.

Lemma results_sum_nonneg l :
  Forall (result_ok ds) l -> 0 <= sum_Z (map (fun r => lc (psr_processedLines r)) l).
Proof using All.
  unfold sum_Z. induction 1 as [|r l Hr _ IH]; cbn [map fold_right]; [lia|].
  destruct (result_ok_facts ds Hfile Hchunk Hinit Hend r Hr) as (Hp & _). lia.
Qed.

Lemma blocks_sum_nonneg (l : list SearchBlockData) :
  0 <= sum_Z (map (fun b => Z.of_nat (length (utf8View (blk_lines b)))) l).
Proof. unfold sum_Z. induction l as [|b l IH]; cbn [map fold_right]; lia. Qed.

Lemma graph_progress_combine g before r after :
  graph_queues_ok ds g ->
  graph_progress ds nbMatches0 g ->
  resultsQueue g = before ++ r :: after ->
  graph_progress ds nbMatches0 (combineResults r (with_resultsQueue (before ++ after) g)).
Proof using All.
  unfold graph_progress. intros (_ & _ & Hresults) (H0 & Hpend & Hnbm & Hmon & Hall) Hq.
  rewrite Hq in Hresults. apply Forall_remove_middle in Hresults.
  destruct Hresults as [Hr Hrest].
  destruct (result_ok_facts ds Hfile Hchunk Hinit Hend r Hr) as (Hp & Hcard & _).
  pose proof (results_sum_nonneg _ Hrest) as Hsum.
  pose proof (blocks_sum_nonneg (lineBlocksQueue g)) as Hblk.
  unfold pending_lines in Hpend. rewrite Hq, sum_Z_remove_middle in Hpend.
  pose proof (Z.le_max_l 0 (ln (ds_endLine ds) - ln (chunkStart g))) as Hmax.
  unfold combineResults.
  destruct (Z.eqb_spec (lc (psr_processedLines r)) 0) as [Hz|Hnz]; [lia|].
  unfold pending_lines, bitmap_cardinality in *.
  cbn [with_resultsQueue totalProcessedLines resultsQueue lineBlocksQueue chunkStart
       nbMatches emitted lc].
  rewrite (wrap64_small (lc (totalProcessedLines g) + lc (psr_processedLines r)))
    by (unfold is_uint64; lia).
  rewrite (wrap64_small (lc (nbMatches g) + Z.of_nat (length (psr_matchingLines r))))
    by (unfold is_uint64; lia).
  split; [lia|]. split; [lia|]. split; [lia|]. split; [exact Hmon|].
  eapply Forall_impl; [|exact Hall].
  intros [n p] (H1 & H2 & H3). cbn [fst snd] in *.
  split; [lia|]. split; [lia|].
  etransitivity; [exact H3|]. apply Hmono. lia.
Qed.

Lemma graph_progress_step g g' :
  graph_queues_ok ds g ->
  graph_progress ds nbMatches0 g -> step ds g g' -> graph_progress ds nbMatches0 g'.
Proof using All.
  intros Hq Hprog Hstep.
  destruct Hstep as [g _ _|g before b after _ Hb|g before r after _ Hr|g|g|g what _];
    try exact Hprog.
  - unfold linesSource, stop_source.
    destruct (interruptRequested_ g); [exact Hprog|].
    unfold lnum_ge, lnum_lt.
    destruct (Z.ltb_spec (ln (chunkStart g)) (ln (ds_endLine ds))) as [Hlt|Hge];
      cbn [negb]; [|exact Hprog].
    destruct Hq as (Hcs & _).
    destruct (next_chunk ds Hfile Hchunk Hinit Hend (chunkStart g) Hcs Hlt)
      as ((Hfirst & Hnumber & Hlast) & Hnext & Hcases).
    cbn [lc] in Hnumber, Hlast.
    unfold graph_progress, pending_lines in *.
    cbn [totalProcessedLines resultsQueue lineBlocksQueue chunkStart nbMatches emitted].
    rewrite sum_Z_snoc. cbn [blk_lines].
    pose proof (ds_endLine_bounds ds Hfile Hchunk Hinit Hend) as Hb.
    unfold valid_lnum, is_uint64 in Hinit.
    rewrite getLinesRaw_length by (cbn [lc]; lia). cbn [lc].
    destruct Hprog as (H0 & Hpend & Hrest). split; [exact H0|]. split; [lia | exact Hrest].
  - destruct Hq as (_ & Hblocks & _). rewrite Hb in Hblocks.
    apply Forall_remove_middle in Hblocks. destruct Hblocks as [Hbok _].
    destruct (block_ok_lines ds Hfile Hchunk Hinit Hend b Hbok)
      as (number & (Hfirst & Hnumber & Hlast) & Hlines & Hlen & _).
    unfold graph_progress, pending_lines in *.
    cbn [regexMatcher totalProcessedLines resultsQueue lineBlocksQueue chunkStart
         nbMatches emitted].
    rewrite Hb, sum_Z_remove_middle in Hprog. rewrite sum_Z_snoc.
    rewrite filterLines_processedLines, Hlines.
    pose proof (ds_endLine_bounds ds Hfile Hchunk Hinit Hend) as Hbnd.
    unfold valid_lnum, is_uint64 in Hinit.
    rewrite getLinesRaw_numberOfLines by lia. cbn [lc].
    rewrite Hlen in Hprog.
    destruct Hprog as (H0 & Hpend & Hrest). split; [exact H0|]. split; [lia | exact Hrest].
  - unfold matchProcessor. destruct (interruptRequested_ g).
    + destruct Hq as (_ & _ & Hresults). rewrite Hr in Hresults.
      apply Forall_remove_middle in Hresults. destruct Hresults as [Hrok Hrest].
      destruct (result_ok_facts ds Hfile Hchunk Hinit Hend r Hrok) as (Hp & _).
      unfold graph_progress, pending_lines in *.
      cbn [with_resultsQueue totalProcessedLines resultsQueue lineBlocksQueue chunkStart
           nbMatches emitted].
      rewrite Hr, sum_Z_remove_middle in Hprog.
      destruct Hprog as (H0 & Hpend & Hrest'). split; [exact H0|]. split; [lia | exact Hrest'].
    + apply graph_progress_report. now apply graph_progress_combine.
Qed.

Lemma graph_progress_run g g' :
  run ds g g' ->
  graph_queues_ok ds g -> graph_progress ds nbMatches0 g -> graph_progress ds nbMatches0 g'.
Proof using All.
  induction 1 as [g|g g' g'' Hstep _ IH]; intros Hq Hp; [exact Hp|].
  apply IH.
  - now apply (graph_queues_ok_step ds Hfile Hchunk Hinit Hend g).
  - now apply (graph_progress_step g).
Qed.

Lemma graph_progress_start sd d :
  lc (getNbMatches sd) = nbMatches0 ->
  graph_progress ds nbMatches0 (graph_start ds sd d).
Proof using All.
  intros Hsd. unfold graph_progress, pending_lines, graph_start.
  cbn [totalProcessedLines resultsQueue lineBlocksQueue chunkStart nbMatches emitted
       lc map progress_events].
  rewrite ds_totalLines_eq, Hsd. unfold sum_Z, monotonic. cbn [fold_right].
  repeat split; try lia; constructor.
Qed.
End Progress.

Lemma spec_calculateProgress_monotone total a b :
  0 <= total -> 0 <= a <= b ->
  spec_calculateProgress a total <= spec_calculateProgress b total.
Proof.
  intros Ht H. unfold spec_calculateProgress.
  destruct (Z.eq_dec total 0) as [->|Hpos].
  - rewrite !Z.div_0_r. lia.
  - apply Z.div_le_mono; lia.
Qed.

(** C4. The [searchProgressed] events of one search, in the order of
    their emission, never go down in percentage nor in match count,
    whatever the order in which the chunks reach the match processor and
    whether or not the search is interrupted; the events emitted while the
    graph runs carry a percentage of at most 99; and the end of [doSearch]
    adds one event with percentage 100 and the current match count, again
    not below any earlier event, before [searchFinished]. *)
Theorem search_progress_monotonic :
  forall (ds : DoSearch) (sd : SearchData) (d : SearchResultArray) (g : Graph),
    Z.of_nat (length (logLines (sourceLogData_ (ds_operation ds)))) <= UINT64_MAX ->
    1 <= lc (ds_nbLinesInChunk ds) <= INT_MAX ->
    valid_lnum (ds_initialLine ds) ->
    valid_lnum (endLine_ (ds_operation ds)) ->
    0 <= lc (getNbMatches sd) /\
    lc (getNbMatches sd) + lc (ds_totalLines ds) <= UINT64_MAX ->
    (forall a b, 0 <= a <= b ->
                 ds_calculateProgress ds a (lc (ds_totalLines ds))
                 <= ds_calculateProgress ds b (lc (ds_totalLines ds))) ->
    run ds (graph_start ds sd d) g ->
    monotonic (progress_events (emitted g)) /\
    Forall (fun e => snd e <= 99) (progress_events (emitted g)) /\
    (graph_idle g = true -> failure g = None ->
     out_signals (finished ds g)
     = emitted g ++ [searchProgressed (nbMatches g) 100 (ds_initialLine ds); searchFinished] /\
     progress_events (out_signals (finished ds g))
     = progress_events (emitted g) ++ [(lc (nbMatches g), 100)] /\
     monotonic (progress_events (out_signals (finished ds g)))).
Proof.
  intros ds sd d g Hfile Hchunk Hinit Hend Hnb Hmono Hrun.
  pose proof (graph_progress_run ds Hfile Hchunk Hinit Hend (lc (getNbMatches sd)) Hnb Hmono
                _ _ Hrun (graph_queues_ok_start ds Hfile Hchunk Hinit Hend sd d)
                (graph_progress_start ds Hfile Hchunk Hinit Hend _ Hnb Hmono sd d eq_refl))
    as (_ & _ & _ & Hmon & Hall).
  split; [exact Hmon|]. split.
  - eapply Forall_impl; [|exact Hall]. intros e (_ & H2 & _). exact H2.
  - intros _ _. cbn [finished out_signals]. unfold doSearch_signals.
    split; [reflexivity|].
    rewrite progress_events_app. cbn [progress_events]. split; [reflexivity|].
    apply monotonic_snoc; [exact Hmon|].
    eapply Forall_impl; [|exact Hall].
    intros [n p] (H1 & H2 & _). unfold progress_le. cbn [fst snd] in *. lia.
Qed.

Lemma search_progress_monotonic_witness :
  progress_events (out_signals (finished sample_locals sample_graph))
  = [(2, 40); (4, 80); (5, 99); (5, 100)] /\
  monotonic (progress_events (out_signals (finished sample_locals sample_graph))).
Proof.
  split; [reflexivity|].
  apply (search_progress_monotonic sample_locals (clear empty_SearchData) [] sample_graph).
  - vm_compute. discriminate.
  - vm_compute. split; discriminate.
  - vm_compute. split; discriminate.
  - vm_compute. split; discriminate.
  - vm_compute. split; discriminate.
  - intros a b Hab. apply spec_calculateProgress_monotone; [vm_compute; discriminate | exact Hab].
  - apply rounds_run. reflexivity.
  - reflexivity.
  - reflexivity.
Defined.

(* ===================================================================== *)
(** ** Interruption *)
(* ===================================================================== *)


(* ===================================================================== *)
(** ** Interruption *)
(* ===================================================================== *)

Lemma interrupted_step ds g g' :
  interruptRequested_ g = true -> step ds g g' ->
  interruptRequested_ g' = true /\
  chunksRead g' = chunksRead g /\
  (forall n, In n (matchSet g') <-> In n (matchSet g)).
Proof.
  intros Hflag Hstep.
  destruct Hstep as [g _ _|g before b after _ Hq|g before r after _ Hq|g|g|g what _].
  - unfold linesSource. rewrite Hflag. cbn. repeat split; tauto.
  - cbn. repeat split; tauto.
  - unfold matchProcessor. rewrite Hflag. cbn. repeat split; tauto.
  - cbn. repeat split; tauto.
  - split; [exact Hflag|]. split; [reflexivity|]. intros n.
    rewrite !matchSet_In.
    cbn [getSearchResults takeCurrentResults fst snd sr_newMatches newMatches_
         delivered searchData].
    rewrite bitmap_union_In. cbn [In]. tauto.
  - cbn. repeat split; tauto.
Qed.

Lemma interrupted_run ds g g' :
  run ds g g' -> interruptRequested_ g = true ->
  interruptRequested_ g' = true /\
  chunksRead g' = chunksRead g /\
  (forall n, In n (matchSet g') <-> In n (matchSet g)).
Proof.
  induction 1 as [g|g g' g'' Hstep _ IH]; intros Hflag.
  - repeat split; tauto.
  - destruct (interrupted_step ds g g' Hflag Hstep) as (Hf & Hr & Hm).
    destruct (IH Hf) as (Hf' & Hr' & Hm').
    split; [exact Hf'|]. split; [congruence|].
    intros n. now rewrite Hm', Hm.
Qed.

(** A round of an interrupted graph reads nothing: the source stops, the
    oldest block still goes through a matcher, and the oldest result is
    dropped. *)
Lemma round_interrupted ds g :
  interruptRequested_ g = true ->
  interruptRequested_ (round ds g) = true /\
  sourceActive (round ds g) = false /\
  (length (lineBlocksQueue (round ds g)) + length (resultsQueue (round ds g))
   <= pred (length (lineBlocksQueue g) + length (resultsQueue g)))%nat.
Proof.
  intros Hflag. unfold round, linesSource. rewrite Hflag.
  assert (H1 : exists g1,
             (if sourceActive g then stop_source g else g) = g1
             /\ interruptRequested_ g1 = true /\ sourceActive g1 = false
             /\ lineBlocksQueue g1 = lineBlocksQueue g
             /\ resultsQueue g1 = resultsQueue g).
  { destruct (sourceActive g) eqn:Ha; eexists; split; try reflexivity; cbn; tauto. }
  destruct H1 as (g1 & -> & F1 & A1 & B1 & R1).
  rewrite <- B1, <- R1. clear B1 R1 Hflag g.
  unfold oldest_block. destruct (lineBlocksQueue g1) as [|b others] eqn:Hb.
  - unfold oldest_result. destruct (resultsQueue g1) as [|r rest] eqn:Hr.
    + rewrite Hb, Hr. cbn. repeat split; try assumption. lia.
    + unfold matchProcessor. rewrite F1. cbn. rewrite Hb. cbn. repeat split; try assumption. lia.
  - unfold oldest_result, regexMatcher. cbn [resultsQueue].
    destruct (resultsQueue g1) as [|r rest] eqn:Hr; cbn [app];
      unfold matchProcessor; cbn [interruptRequested_]; rewrite F1;
      unfold with_resultsQueue;
      cbn [interruptRequested_ sourceActive lineBlocksQueue resultsQueue length];
      rewrite ?length_app; cbn [length]; repeat split; try assumption; lia.
Qed.

Lemma rounds_drain ds :
  forall (k : nat) (g : Graph),
    interruptRequested_ g = true ->
    (length (lineBlocksQueue g) + length (resultsQueue g) <= k)%nat ->
    graph_idle (rounds ds (S k) g) = true.
Proof.
  induction k as [|k IH]; intros g Hflag Hk;
    destruct (round_interrupted ds g Hflag) as (F & A & L).
  - cbn [rounds]. unfold graph_idle. rewrite A. cbn [negb andb].
    destruct (lineBlocksQueue (round ds g)); [|cbn [length] in L; lia].
    destruct (resultsQueue (round ds g)); [reflexivity | cbn [length] in L; lia].
  - change (rounds ds (S (S k)) g) with (rounds ds (S k) (round ds g)).
    apply IH; [exact F | lia].
Qed.

(** C5. Once the interrupt flag is set, [linesSource] issues no further
    read (the reads on record stay as they are), the match set keeps
    exactly the matches committed before, the graph still comes to rest,
    and the operation is then left through the end of its [try] block: no
    error is logged or reported and the search data is not cleared. *)
Theorem interrupt_stops_reads_keeps_matches :
  forall ds : DoSearch,
    (forall g g',
        interruptRequested_ g = true -> run ds g g' ->
        interruptRequested_ g' = true /\
        chunksRead g' = chunksRead g /\
        (forall n, In n (matchSet g') <-> In n (matchSet g))) /\
    (forall g,
        interruptRequested_ g = true -> failure g = None ->
        exists g', run ds g g' /\ graph_idle g' = true /\ failure g' = None) /\
    (forall prefix sd d out,
        try_doSearch prefix ds sd d out ->
        interruptRequested_ (out_graph out) = true ->
        failure (out_graph out) = None ->
        out_status out = Finished /\
        out_searchData out = searchData (out_graph out) /\
        out_errorLog out = [] /\ out_issues out = []).
Proof.
  intros ds. split; [|split].
  - intros g g' Hflag Hrun. now apply (interrupted_run ds g g').
  - intros g Hflag Hfail.
    exists (rounds ds (S (length (lineBlocksQueue g) + length (resultsQueue g))) g).
    split; [now apply rounds_run|]. split.
    + apply rounds_drain; [exact Hflag | lia].
    + now rewrite rounds_failure.
  - intros prefix sd d out (g & Hrun & [(Hf & Hidle & ->)|(what & Hf & ->)]) Hflag Hfail.
    + cbn. tauto.
    + cbn [errored out_graph] in Hfail. congruence.
Qed.

(** The sample search, interrupted after its first round: one chunk was
    read and its two matches stay. *)
Example interrupt_after_first_round :
  let g := interrupt (round sample_locals
                            (graph_start sample_locals (clear empty_SearchData) [])) in
  let g' := rounds sample_locals 3 g in
  graph_idle g' = true /\ chunksRead g' = chunksRead g /\
  length (chunksRead g') = 1%nat /\ matchSet g' = [0; 2].
Proof. vm_compute. repeat split. Qed.

(* ===================================================================== *)
(** ** Exceptions *)
(* ===================================================================== *)

Lemma try_doSearch_raise prefix ds sd d g what :
  run ds (graph_start ds sd d) g -> failure g = None ->
  try_doSearch prefix ds sd d (errored prefix what (raise what g)).
Proof.
  intros Hrun Hf. exists (raise what g). split.
  - apply (run_trans ds _ g); [exact Hrun|]. apply run_one. now apply step_exception.
  - right. exists what. split; reflexivity.
Qed.

(** A step of the graph emits nothing, or one [searchProgressed] that
    names the initial line. *)
Lemma reportProgress_emitted ds g :
  emitted (reportProgress ds g) = emitted g
  \/ exists nb pct,
      emitted (reportProgress ds g)
      = emitted g ++ [searchProgressed nb pct (ds_initialLine ds)].
Proof.
  unfold reportProgress. destruct (_ || _); [|now left].
  right. eexists. eexists. reflexivity.
Qed.

Lemma step_emitted ds g g' :
  step ds g g' ->
  emitted g' = emitted g
  \/ exists nb pct, emitted g' = emitted g ++ [searchProgressed nb pct (ds_initialLine ds)].
Proof.
  intros Hstep.
  destruct Hstep as [g _ _|g before b after _ Hq|g before r after _ Hq|g|g|g what _];
    try (left; reflexivity).
  - left. unfold linesSource, stop_source.
    destruct (interruptRequested_ g); [reflexivity|]. now destruct (lnum_ge _ _).
  - unfold matchProcessor. destruct (interruptRequested_ g); [left; reflexivity|].
    destruct (combineResults_fields r (with_resultsQueue (before ++ after) g))
      as (_ & _ & _ & _ & _ & E & _).
    destruct (reportProgress_emitted ds (combineResults r (with_resultsQueue (before ++ after) g)))
      as [->|(nb & pct & ->)]; rewrite E; cbn [emitted with_resultsQueue];
      [left; reflexivity | right; now exists nb, pct].
Qed.

(** No [searchFinished] comes out of the graph, and every
    [searchProgressed] names the initial line of the search. *)
Lemma graph_signals_run ds g g' :
  run ds g g' ->
  Forall (fun s => is_searchFinished s = false
                   /\ progressed_from s = Some (ds_initialLine ds)) (emitted g) ->
  Forall (fun s => is_searchFinished s = false
                   /\ progressed_from s = Some (ds_initialLine ds)) (emitted g').
Proof.
  induction 1 as [g|g g' g'' Hstep _ IH]; intros Hsig; [exact Hsig|].
  apply IH.
  destruct (step_emitted ds g g' Hstep) as [->|(nb & pct & ->)]; [exact Hsig|].
  apply Forall_app. split; [exact Hsig|]. constructor; [|constructor].
  split; reflexivity.
Qed.

(** What the owner of the worker has taken stays with it: no step of the
    graph, an exception included, takes a line out of [delivered]. *)
Lemma delivered_step ds g g' :
  step ds g g' -> forall n, In n (delivered g) -> In n (delivered g').
Proof.
  intros Hstep n Hn.
  destruct Hstep as [g _ _|g before b after _ Hq|g before r after _ Hq|g|g|g what _];
    try exact Hn.
  - unfold linesSource, stop_source.
    destruct (interruptRequested_ g); [exact Hn|]. destruct (lnum_ge _ _); exact Hn.
  - unfold matchProcessor. destruct (interruptRequested_ g); [exact Hn|].
    destruct (reportProgress_fields ds (combineResults r (with_resultsQueue (before ++ after) g)))
      as (_ & _ & _ & _ & _ & _ & _ & _ & _ & _ & E1 & _).
    destruct (combineResults_fields r (with_resultsQueue (before ++ after) g))
      as (_ & _ & _ & _ & _ & _ & _ & _ & _ & _ & E2 & _).
    rewrite E1, E2. exact Hn.
  - cbn [getSearchResults delivered]. apply bitmap_union_In. now left.
Qed.

Lemma delivered_run ds g g' :
  run ds g g' -> forall n, In n (delivered g) -> In n (delivered g').
Proof.
  induction 1 as [g|g g' g'' Hstep _ IH]; intros n Hn; [exact Hn|].
  apply IH. now apply (delivered_step ds g g').
Qed.

(** What the [catch] handler of a [run] leaves, whatever the graph did
    before the exception. *)
Lemma try_doSearch_caught prefix ds sd d out what :
  try_doSearch prefix ds sd d out ->
  failure (out_graph out) = Some what ->
  out_searchData out = empty_SearchData /\
  out_matchSet out = delivered (out_graph out) /\
  (forall n, In n d -> In n (out_matchSet out)) /\
  out_errorLog out = [String.append prefix what] /\
  out_issues out = [String.append prefix what] /\
  Forall (fun s => is_searchFinished s = false) (out_signals out).
Proof.
  intros (g & Hrun & [(Hf & Hidle & ->)|(what' & Hf & ->)]) Hfail.
  - cbn [finished out_graph] in Hfail. congruence.
  - cbn [errored out_graph] in Hfail.
    assert (what' = what) as -> by congruence.
    assert (Hset : out_matchSet (errored prefix what g) = delivered g) by reflexivity.
    split; [reflexivity|]. split; [exact Hset|]. split; [|split; [|split]];
      try reflexivity.
    + intros n Hn. rewrite Hset. now apply (delivered_run ds _ _ Hrun).
    + cbn [errored out_signals].
      assert (Hsig : Forall (fun s => is_searchFinished s = false
                                      /\ progressed_from s = Some (ds_initialLine ds))
                            (emitted g))
        by (apply (graph_signals_run ds _ _ Hrun); constructor).
      rewrite Forall_forall in Hsig |- *. intros s Hs. now apply Hsig.
Qed.

(** C6, as amended. When a [std::exception] comes out of the graph during
    a full or an update search, [run] is left through its [catch] handler:
    the message, behind the prefix of the operation, is written with
    [LOG_ERROR] and given to the issue reporter, and [SearchData::clear]
    runs, so the worker holds no match that waits to be taken and its
    counters are 0.  The matches the owner took before the exception stay
    with it: they are the match set the operation leaves, and after an
    update search it holds every line the owner held when the search
    started.  The handler emits nothing: no [searchFinished] follows.  And
    whenever an exception is raised, this is what happens. *)
Theorem exception_clears_pending_results :
  forall (calculateProgress : Z -> Z -> Z) (config : Configuration) (op : SearchOperation)
         (initialPosition_ : LineNumber) (sd : SearchData) (d : SearchResultArray),
    (forall out what,
        FullSearchOperation_run calculateProgress config op sd out ->
        failure (out_graph out) = Some what ->
        out_searchData out = empty_SearchData /\
        out_matchSet out = delivered (out_graph out) /\
        out_errorLog out = [String.append "FullSearchOperation failed: "%string what] /\
        out_issues out = [String.append "FullSearchOperation failed: "%string what] /\
        Forall (fun s => is_searchFinished s = false) (out_signals out)) /\
    (forall out what,
        UpdateSearchOperation_run calculateProgress config op initialPosition_ sd d out ->
        failure (out_graph out) = Some what ->
        out_searchData out = empty_SearchData /\
        out_matchSet out = delivered (out_graph out) /\
        (forall n, In n d -> In n (out_matchSet out)) /\
        out_errorLog out = [String.append "UpdateSearchOpertaion failed: "%string what] /\
        out_issues out = [String.append "UpdateSearchOpertaion failed: "%string what] /\
        Forall (fun s => is_searchFinished s = false) (out_signals out)) /\
    (forall what,
        (exists out, FullSearchOperation_run calculateProgress config op sd out
                     /\ failure (out_graph out) = Some what) /\
        (exists out, UpdateSearchOperation_run calculateProgress config op
                                               initialPosition_ sd d out
                     /\ failure (out_graph out) = Some what)).
Proof.
  intros calculateProgress config op initialPosition_ sd d. split; [|split].
  - intros out what Hrun Hfail.
    destruct (try_doSearch_caught _ _ _ _ out what Hrun Hfail)
      as (H1 & H2 & _ & H4 & H5 & H6).
    repeat split; assumption.
  - intros out what Hrun Hfail.
    now apply (try_doSearch_caught _ _ _ _ out what Hrun).
  - intros what. split; eexists; (split; [apply try_doSearch_raise with (what := what);
                                           [apply run_done | reflexivity] | reflexivity]).
Qed.

(** The sample search when the owner has taken the matches of the first
    chunk and [std::bad_alloc] is thrown then. *)
Lemma sample_exception_run :
  FullSearchOperation_run spec_calculateProgress sample_config (search_a ten_lines 0 10)
                          empty_SearchData sample_exception.
Proof.
  unfold sample_exception. apply try_doSearch_raise; [|reflexivity].
  apply (run_trans sample_locals _
           (round sample_locals (graph_start sample_locals (clear empty_SearchData) []))).
  - apply (round_run sample_locals). reflexivity.
  - apply run_one. apply step_getSearchResults.
Qed.

Lemma exception_clears_pending_results_witness :
  out_searchData sample_exception = empty_SearchData /\
  out_matchSet sample_exception = [0; 2] /\
  out_errorLog sample_exception = ["FullSearchOperation failed: std::bad_alloc"%string].
Proof.
  destruct (exception_clears_pending_results
              spec_calculateProgress sample_config (search_a ten_lines 0 10)
              (mkLineNumber 0) empty_SearchData []) as [Hfull _].
  destruct (Hfull sample_exception "std::bad_alloc"%string sample_exception_run)
    as (H1 & H2 & H3 & _); [reflexivity|].
  split; [exact H1|]. split; [|exact H3].
  rewrite H2. vm_compute. reflexivity.
Defined.

(** C6 as stated fails: in the sample search the owner takes the matches
    of the first chunk, 0 and 2, and [std::bad_alloc] is thrown then.  The
    handler clears the search data of the worker; the two lines stay in
    the match set, and no [searchFinished] ends the search. *)
Lemma exception_keeps_delivered_matches :
  FullSearchOperation_run spec_calculateProgress sample_config (search_a ten_lines 0 10)
                          empty_SearchData sample_exception /\
  failure (out_graph sample_exception) = Some "std::bad_alloc"%string /\
  out_searchData sample_exception = empty_SearchData /\
  out_matchSet sample_exception = [0; 2] /\
  out_matchSet sample_exception <> [] /\
  ~ In searchFinished (out_signals sample_exception).
Proof.
  split; [exact sample_exception_run|].
  split; [reflexivity|]. split; [reflexivity|]. split; [vm_compute; reflexivity|].
  split; [vm_compute; discriminate|].
  vm_compute. intros [H|[]]. discriminate.
Qed.

(** The sample search when [std::bad_alloc] is thrown after its first
    round: the two matches found so far are gone. *)
Example exception_after_first_round :
  let g := round sample_locals (graph_start sample_locals (clear empty_SearchData) []) in
  let out := errored "FullSearchOperation failed: "%string "std::bad_alloc"%string
                     (raise "std::bad_alloc"%string g) in
  FullSearchOperation_run spec_calculateProgress sample_config (search_a ten_lines 0 10)
                          empty_SearchData out /\
  matchSet g = [0; 2] /\
  out_searchData out = empty_SearchData /\
  out_errorLog out = ["FullSearchOperation failed: std::bad_alloc"%string] /\
  out_status out = Errored.
Proof.
  cbv zeta. split; [|vm_compute; repeat split].
  apply try_doSearch_raise; [|reflexivity].
  apply (round_run sample_locals). reflexivity.
Qed.

(* ===================================================================== *)
(** ** Update search *)
(* ===================================================================== *)

Section Watermark.
Variable ds : DoSearch.
Hypothesis Hfile :
  Z.of_nat (length (logLines (sourceLogData_ (ds_operation ds)))) <= UINT64_MAX.
Hypothesis Hchunk : 1 <= lc (ds_nbLinesInChunk ds) <= INT_MAX.
Hypothesis Hinit : valid_lnum (ds_initialLine ds).
Hypothesis Hend : valid_lnum (endLine_ (ds_operation ds)).
Variable watermark0 : Z.

Lemma graph_watermark_step g g' :
  graph_queues_ok ds g ->
  graph_watermark ds watermark0 g -> step ds g g' -> graph_watermark ds watermark0 g'.
Proof using All.
  unfold graph_watermark. intros (_ & _ & Hresults) Hw Hstep.
  destruct Hstep as [g _ _|g before b after _ Hq|g before r after _ Hq|g|g|g what _];
    try exact Hw.
  - unfold linesSource, stop_source. destruct (interruptRequested_ g); [exact Hw|].
    destruct (lnum_ge _ _); exact Hw.
  - rewrite Hq in Hresults. apply Forall_remove_middle in Hresults.
    destruct Hresults as [Hr _].
    destruct (result_ok_facts ds Hfile Hchunk Hinit Hend r Hr) as (Hp & _ & Hlast & Hfirst).
    unfold matchProcessor. destruct (interruptRequested_ g); [exact Hw|].
    destruct (reportProgress_fields ds (combineResults r (with_resultsQueue (before ++ after) g)))
      as (_ & _ & _ & _ & _ & _ & _ & E & _).
    rewrite E. unfold combineResults.
    destruct (lc (psr_processedLines r) =? 0); [exact Hw|].
    cbn [searchData with_resultsQueue addAll nbLinesProcessed_].
    unfold qMax_count. cbn [lc].
    pose proof (ds_endLine_bounds ds Hfile Hchunk Hinit Hend) as Hb.
    unfold valid_lnum, is_uint64 in Hinit.
    rewrite wrap64_small by (unfold is_uint64; lia).
    destruct (Z.ltb_spec (lc (nbLinesProcessed_ (searchData g)))
                         (ln (psr_chunkStart r) + lc (psr_processedLines r)));
      cbn [lc]; lia.
Qed.

Lemma graph_watermark_run g g' :
  run ds g g' ->
  graph_queues_ok ds g -> graph_watermark ds watermark0 g -> graph_watermark ds watermark0 g'.
Proof using All.
  induction 1 as [g|g g' g'' Hstep _ IH]; intros Hq Hw; [exact Hw|].
  apply IH.
  - now apply (graph_queues_ok_step ds Hfile Hchunk Hinit Hend g).
  - now apply (graph_watermark_step g).
Qed.
End Watermark.

Lemma line_at_grown ld0 ld extra n :
  logLines ld = logLines ld0 ++ extra ->
  0 <= n < Z.of_nat (length (logLines ld0)) ->
  line_at ld n = line_at ld0 n.
Proof.
  intros Hgrow Hn. unfold line_at. rewrite Hgrow. apply app_nth1. lia.
Qed.

Lemma update_start_facts r sd :
  valid_lnum r -> 0 <= lc (nbLinesProcessed_ sd) <= UINT64_MAX ->
  ln (fst (update_start r sd)) = Z.max 0 (Z.max (lc (nbLinesProcessed_ sd)) (ln r) - 1) /\
  newMatches_ (snd (update_start r sd)) = newMatches_ sd /\
  nbMatches_ (snd (update_start r sd)) = nbMatches_ sd /\
  (strictly_sorted (matches_ sd) -> strictly_sorted (matches_ (snd (update_start r sd)))) /\
  (1 <= Z.max (lc (nbLinesProcessed_ sd)) (ln r) ->
   ~ In (ln (fst (update_start r sd))) (matches_ (snd (update_start r sd)))).
Proof.
  intros Hr Hw. unfold update_start, qMax_lnum, lnum_lt, getLastProcessedLine.
  unfold valid_lnum, is_uint64 in Hr. cbn [ln].
  set (initialLine := if lc (nbLinesProcessed_ sd) <? ln r
                      then r else mkLineNumber (lc (nbLinesProcessed_ sd))).
  assert (Hi : ln initialLine = Z.max (lc (nbLinesProcessed_ sd)) (ln r)).
  { subst initialLine. destruct (Z.ltb_spec (lc (nbLinesProcessed_ sd)) (ln r)); cbn [ln]; lia. }
  destruct (Z.geb_spec (ln initialLine) 1) as [Hge|Hlt]; cbn [fst snd ln deleteMatch newMatches_ nbMatches_ matches_].
  - rewrite wrap64_small by (unfold is_uint64; lia).
    split; [lia|]. split; [reflexivity|]. split; [reflexivity|].
    split; [apply bitmap_remove_sorted|].
    intros _ Hin. apply bitmap_remove_In in Hin. destruct Hin as [_ Hne]. now apply Hne.
  - split; [lia|]. split; [reflexivity|]. split; [reflexivity|].
    split; [tauto | lia].
Qed.

Section UpdateSearch.
Variable calculateProgress : Z -> Z -> Z.
Variable config : Configuration.
Variables op0 op : SearchOperation.
Variable r : LineNumber.
Variable sd : SearchData.
Hypothesis Hfile : lc (getNbLine (sourceLogData_ op)) <= UINT64_MAX.
Hypothesis Hchunk : 1 <= searchReadBufferSizeLines config <= INT_MAX.
Hypothesis Hstart : valid_lnum (startLine_ op).
Hypothesis Hend0 : valid_lnum (endLine_ op0).
Hypothesis Hend : valid_lnum (endLine_ op).
Hypothesis Hr : valid_lnum r.
Hypothesis Hpattern : regexp_ op0 = regexp_ op.
Hypothesis Hsame : startLine_ op0 = startLine_ op.
Hypothesis Hgrown :
  exists extra, logLines (sourceLogData_ op) = logLines (sourceLogData_ op0) ++ extra.
Hypothesis Hrange : ln (endLine_ op0) <= ln (endLine_ op).
Hypothesis Hresume :
  ln r <= Z.max (ln (startLine_ op))
                (Z.min (ln (endLine_ op0)) (lc (getNbLine (sourceLogData_ op0)))) + 1.

Let last0 : Z := Z.min (ln (endLine_ op0)) (lc (getNbLine (sourceLogData_ op0))).
Let last : Z := Z.min (ln (endLine_ op)) (lc (getNbLine (sourceLogData_ op))).

Lemma grown_file :
  lc (getNbLine (sourceLogData_ op0)) <= lc (getNbLine (sourceLogData_ op)).
Proof using All.
  destruct Hgrown as (extra & Hg). unfold getNbLine. cbn [lc].
  rewrite Hg, length_app. lia.
Qed.

(** What the preceding full search leaves. *)
Lemma preceding_search out0 :
  FullSearchOperation_run calculateProgress config op0 sd out0 ->
  out_status out0 = Finished ->
  interruptRequested_ (out_graph out0) = false ->
  out_matchSet out0 = matching_lines op0 (ln (startLine_ op)) last0 /\
  0 <= lc (nbLinesProcessed_ (out_searchData out0)) <= Z.max 0 last0 /\
  strictly_sorted (delivered (out_graph out0)) /\
  strictly_sorted (newMatches_ (out_searchData out0)) /\
  strictly_sorted (matches_ (out_searchData out0)).
Proof using All.
  intros Hrun Hstatus Hflag.
  pose proof grown_file as Hn.
  assert (Hfile0 : lc (getNbLine (sourceLogData_ op0)) <= UINT64_MAX) by lia.
  assert (Hstart0 : valid_lnum (startLine_ op0)) by (now rewrite Hsame).
  destruct (full_search_result calculateProgress config op0 Hfile0 Hchunk Hstart0 Hend0
              sd out0 Hrun Hstatus Hflag) as [Hset _].
  rewrite Hsame in Hset. split; [exact Hset|].
  destruct (full_search_hypotheses calculateProgress config op0 Hfile0 Hchunk Hstart0 Hend0)
    as (H1 & H2 & H3 & H4).
  destruct (full_search_locals calculateProgress config op0 Hchunk Hstart0) as (_ & He & _).
  unfold FullSearchOperation_run, try_doSearch in Hrun.
  destruct Hrun as (g & Hrun & [(Hf & Hidle & ->)|(what & _ & ->)]); [|discriminate].
  cbn [finished out_graph out_searchData].
  set (ds0 := doSearch_locals calculateProgress config op0 (mkLineNumber 0)) in *.
  pose proof (graph_watermark_run ds0 H1 H2 H3 H4 0 _ _ Hrun
                (graph_queues_ok_start ds0 H1 H2 H3 H4 _ _)) as Hw.
  unfold graph_watermark in Hw. cbn [graph_start searchData clear nbLinesProcessed_ lc] in Hw.
  rewrite He in Hw. split; [apply Hw; lia|].
  pose proof (graph_sorted_run ds0 _ _ Hrun
                (graph_sorted_start ds0 (clear sd) [] strictly_sorted_nil
                                    strictly_sorted_nil strictly_sorted_nil))
    as (Hd & Hnm & Hm & _).
  tauto.
Qed.

(** Where the update search starts, after the adjustment to the start
    line. *)
Lemma update_search_locals sd0 :
  0 <= lc (nbLinesProcessed_ sd0) <= Z.max 0 last0 ->
  let ds := doSearch_locals calculateProgress config op (fst (update_start r sd0)) in
  ln (startLine_ op) <= ln (ds_initialLine ds)
                     <= Z.max (ln (startLine_ op)) last0 /\
  ln (ds_endLine ds) = last /\
  last0 <= last /\
  (Z.of_nat (length (logLines (sourceLogData_ (ds_operation ds)))) <= UINT64_MAX /\
   1 <= lc (ds_nbLinesInChunk ds) <= INT_MAX /\
   valid_lnum (ds_initialLine ds) /\
   valid_lnum (endLine_ (ds_operation ds))).
Proof using All.
  intros Hw. cbv zeta.
  pose proof grown_file as Hn.
  unfold valid_lnum, is_uint64 in Hstart, Hend0, Hend, Hr.
  assert (Hw' : 0 <= lc (nbLinesProcessed_ sd0) <= UINT64_MAX)
    by (subst last0; unfold UINT64_MAX in *; lia).
  destruct (update_start_facts r sd0 Hr Hw') as (Hi & _).
  unfold doSearch_locals, ds_endLine, qMin_lnum, lnum_lt.
  cbn [ds_initialLine ds_operation ds_nbLinesInChunk ln lc].
  assert (Hinit : ln (if ln (fst (update_start r sd0)) <? ln (startLine_ op)
                      then startLine_ op else fst (update_start r sd0))
                  = Z.max (ln (startLine_ op)) (ln (fst (update_start r sd0)))).
  { destruct (Z.ltb_spec (ln (fst (update_start r sd0))) (ln (startLine_ op))); lia. }
  assert (Hlast : ln (if lc (getNbLine (sourceLogData_ op)) <? ln (endLine_ op)
                      then mkLineNumber (lc (getNbLine (sourceLogData_ op)))
                      else endLine_ op) = last).
  { subst last.
    destruct (Z.ltb_spec (lc (getNbLine (sourceLogData_ op))) (ln (endLine_ op)));
      cbn [ln]; lia. }
  rewrite Hlast. unfold valid_lnum, is_uint64. rewrite Hinit, Hi.
  rewrite wrap64_small by (unfold is_uint64, INT_MAX, UINT64_MAX in *; lia).
  subst last0 last. unfold getNbLine in *. cbn [lc] in *.
  repeat split; try lia.
Qed.

Lemma update_search_complete_run sd0 d0 :
  0 <= lc (nbLinesProcessed_ sd0) <= Z.max 0 last0 ->
  exists out,
    UpdateSearchOperation_run calculateProgress config op r sd0 d0 out /\
    out_status out = Finished /\
    interruptRequested_ (out_graph out) = false.
Proof using All.
  intros Hw.
  destruct (update_search_locals sd0 Hw) as (_ & _ & _ & H1 & H2 & H3 & H4).
  set (ds := doSearch_locals calculateProgress config op (fst (update_start r sd0))) in *.
  set (g0 := graph_start ds (snd (update_start r sd0)) d0).
  set (k := Z.to_nat (ln (ds_endLine ds) - ln (chunkStart g0))).
  destruct (rounds_come_to_rest ds H1 H2 H3 H4 k g0) as [Hidle Hflag];
    try reflexivity.
  - unfold g0. cbn [graph_start chunkStart]. unfold valid_lnum, is_uint64 in H3. lia.
  - lia.
  - exists (finished ds (rounds ds (S k) g0)). split; [|split; [reflexivity | exact Hflag]].
    unfold UpdateSearchOperation_run, try_doSearch. cbv zeta. fold ds. fold g0.
    exists (rounds ds (S k) g0). split; [now apply rounds_run|].
    left. split; [now rewrite rounds_failure | split; [exact Hidle | reflexivity]].
Qed.

Lemma update_search_result out0 out :
  FullSearchOperation_run calculateProgress config op0 sd out0 ->
  out_status out0 = Finished ->
  interruptRequested_ (out_graph out0) = false ->
  UpdateSearchOperation_run calculateProgress config op r
                            (out_searchData out0) (delivered (out_graph out0)) out ->
  out_status out = Finished ->
  interruptRequested_ (out_graph out) = false ->
  out_matchSet out = matching_lines op (ln (startLine_ op)) last /\
  (forall n, In n (out_matchSet out0) -> In n (out_matchSet out)) /\
  NoDup (out_matchSet out).
Proof using All.
  intros Hrun0 Hstatus0 Hflag0 Hrun Hstatus Hflag.
  destruct (preceding_search out0 Hrun0 Hstatus0 Hflag0) as (Hset0 & Hw & Hd & Hnm & Hm).
  destruct (update_search_locals (out_searchData out0) Hw)
    as (Hi & He & Hlast & H1 & H2 & H3 & H4).
  assert (Hw' : 0 <= lc (nbLinesProcessed_ (out_searchData out0)) <= UINT64_MAX).
  { pose proof grown_file. subst last0. unfold UINT64_MAX in *. lia. }
  destruct (update_start_facts r (out_searchData out0) Hr Hw') as (_ & Hnew & _ & Hsorted & _).
  unfold UpdateSearchOperation_run, try_doSearch in Hrun. cbv zeta in Hrun.
  set (ds := doSearch_locals calculateProgress config op
                             (fst (update_start r (out_searchData out0)))) in *.
  destruct Hrun as (g & Hrun & [(Hf & Hidle & ->)|(what & _ & ->)]); [|discriminate].
  cbn [finished out_graph] in Hflag.
  assert (Hgs : graph_sorted g).
  { apply (graph_sorted_run ds _ _ Hrun). apply graph_sorted_start; try assumption.
    - now rewrite Hnew.
    - now apply Hsorted. }
  assert (Hin : forall n, In n (matchSet g)
                          <-> In n (out_matchSet out0)
                              \/ (ln (ds_initialLine ds) <= n < ln (ds_endLine ds)
                                  /\ line_matches ds n = true)).
  { intros n. rewrite (graph_idle_match_set ds H1 H2 H3 H4 _ _ g n Hrun Hidle Hflag).
    unfold matchSet at 1. cbn [graph_start delivered searchData]. rewrite Hnew.
    reflexivity. }
  change (out_matchSet (finished ds g)) with (matchSet g).
  split; [|split].
  - apply strictly_sorted_ext;
      [now apply matchSet_sorted | apply matching_lines_sorted |].
    intros n. rewrite Hin, Hset0, !matching_lines_In, He.
    unfold line_matches. cbn [ds doSearch_locals ds_operation].
    destruct Hgrown as (extra & Hg). rewrite Hpattern.
    unfold valid_lnum, is_uint64 in Hstart.
    assert (Hline : ln (startLine_ op) <= n < last0 ->
                    line_at (sourceLogData_ op0) n = line_at (sourceLogData_ op) n).
    { intros Hn. symmetry. apply (line_at_grown _ _ extra n Hg).
      subst last0. unfold getNbLine in Hn. cbn [lc] in Hn. lia. }
    split.
    + intros [[Hn Hmatch]|[Hn Hmatch]].
      * split; [lia|]. now rewrite <- Hline.
      * split; [lia | exact Hmatch].
    + intros [Hn Hmatch].
      destruct (Z.lt_ge_cases n last0) as [Hlt|Hge].
      * left. split; [lia|]. now rewrite Hline by lia.
      * right. split; [lia | exact Hmatch].
  - intros n Hn. apply Hin. now left.
  - apply strictly_sorted_NoDup. now apply matchSet_sorted.
Qed.
End UpdateSearch.

Lemma full_outcome_run calculateProgress config op sd n :
  graph_idle (out_graph (full_outcome calculateProgress config op sd n)) = true ->
  FullSearchOperation_run calculateProgress config op sd
                          (full_outcome calculateProgress config op sd n).
Proof.
  unfold full_outcome. cbn [finished out_graph]. intros Hidle.
  unfold FullSearchOperation_run, try_doSearch.
  eexists. split; [apply rounds_run; reflexivity|].
  left. split; [|split; [exact Hidle | reflexivity]].
  now rewrite rounds_failure.
Qed.

Lemma update_outcome_run calculateProgress config op r sd d n :
  graph_idle (out_graph (update_outcome calculateProgress config op r sd d n)) = true ->
  UpdateSearchOperation_run calculateProgress config op r sd d
                            (update_outcome calculateProgress config op r sd d n).
Proof.
  unfold update_outcome. cbn [finished out_graph]. intros Hidle.
  unfold UpdateSearchOperation_run, try_doSearch. cbv zeta.
  eexists. split; [apply rounds_run; reflexivity|].
  left. split; [|split; [exact Hidle | reflexivity]].
  now rewrite rounds_failure.
Qed.

(** Where the update search does agree with a full search.  After a full
    search that ran to its end without an interrupt, let the file have
    grown by whole lines, the pattern and the start line be the same, the
    end line be no smaller, and the resume point be at most one line past
    the end of what that search covered.  Then an update search that runs
    to its end without an interrupt leaves exactly the match set a full
    search over the grown file leaves; the matches found before are all
    still there; and no line is in the match set twice.  Such an update
    search exists. *)
Theorem update_search_same_as_full_search :
  forall (calculateProgress : Z -> Z -> Z) (config : Configuration)
         (op0 op : SearchOperation) (r : LineNumber) (sd : SearchData)
         (out0 out : Outcome),
    lc (getNbLine (sourceLogData_ op)) <= UINT64_MAX ->
    1 <= searchReadBufferSizeLines config <= INT_MAX ->
    valid_lnum (startLine_ op) ->
    valid_lnum (endLine_ op0) ->
    valid_lnum (endLine_ op) ->
    valid_lnum r ->
    regexp_ op0 = regexp_ op ->
    startLine_ op0 = startLine_ op ->
    (exists extra, logLines (sourceLogData_ op) = logLines (sourceLogData_ op0) ++ extra) ->
    ln (endLine_ op0) <= ln (endLine_ op) ->
    ln r <= Z.max (ln (startLine_ op))
                  (Z.min (ln (endLine_ op0)) (lc (getNbLine (sourceLogData_ op0)))) + 1 ->
    FullSearchOperation_run calculateProgress config op0 sd out0 ->
    out_status out0 = Finished ->
    interruptRequested_ (out_graph out0) = false ->
    (exists out',
        UpdateSearchOperation_run calculateProgress config op r
                                  (out_searchData out0) (delivered (out_graph out0)) out' /\
        out_status out' = Finished /\
        interruptRequested_ (out_graph out') = false) /\
    (UpdateSearchOperation_run calculateProgress config op r
                               (out_searchData out0) (delivered (out_graph out0)) out ->
     out_status out = Finished ->
     interruptRequested_ (out_graph out) = false ->
     out_matchSet out
     = matching_lines op (ln (startLine_ op))
                      (Z.min (ln (endLine_ op)) (lc (getNbLine (sourceLogData_ op)))) /\
     (forall full,
         FullSearchOperation_run calculateProgress config op sd full ->
         out_status full = Finished ->
         interruptRequested_ (out_graph full) = false ->
         out_matchSet out = out_matchSet full) /\
     (forall n, In n (out_matchSet out0) -> In n (out_matchSet out)) /\
     NoDup (out_matchSet out)).
Proof.
  intros calculateProgress config op0 op r sd out0 out
         Hfile Hchunk Hstart Hend0 Hend Hr Hpattern Hsame Hgrown Hrange Hresume
         Hrun0 Hstatus0 Hflag0.
  destruct (preceding_search calculateProgress config op0 op r sd
              Hfile Hchunk Hstart Hend0 Hend Hr Hpattern Hsame Hgrown Hrange Hresume
              out0 Hrun0 Hstatus0 Hflag0) as (_ & Hw & _).
  split.
  - apply (update_search_complete_run calculateProgress config op0 op r sd
             Hfile Hchunk Hstart Hend0 Hend Hr Hpattern Hsame Hgrown Hrange Hresume).
    exact Hw.
  - intros Hrun Hstatus Hflag.
    destruct (update_search_result calculateProgress config op0 op r sd
                Hfile Hchunk Hstart Hend0 Hend Hr Hpattern Hsame Hgrown Hrange Hresume
                out0 out Hrun0 Hstatus0 Hflag0 Hrun Hstatus Hflag) as (Hset & Hkeep & Hnodup).
    split; [exact Hset|]. split; [|split; [exact Hkeep | exact Hnodup]].
    intros full Hfull Hsf Hff. rewrite Hset.
    symmetry.
    apply (full_search_result calculateProgress config op Hfile Hchunk Hstart Hend
                              sd full Hfull Hsf Hff).
Qed.

Lemma update_search_same_as_full_search_witness :
  out_matchSet (sample_update twelve_lines 12 10) = [0; 2; 4; 7; 9; 10] /\
  out_matchSet (sample_update twelve_lines 12 10) = out_matchSet (sample_full twelve_lines 12).
Proof.
  destruct (update_search_same_as_full_search
              spec_calculateProgress sample_config
              (search_a ten_lines 0 10) (search_a twelve_lines 0 12) (mkLineNumber 10)
              empty_SearchData
              (sample_full ten_lines 10) (sample_update twelve_lines 12 10))
    as [_ Hall].
  - vm_compute. discriminate.
  - vm_compute. split; discriminate.
  - vm_compute. split; discriminate.
  - vm_compute. split; discriminate.
  - vm_compute. split; discriminate.
  - vm_compute. split; discriminate.
  - reflexivity.
  - reflexivity.
  - exists [[x61]; [x66]]. reflexivity.
  - vm_compute. discriminate.
  - vm_compute. discriminate.
  - apply full_outcome_run. vm_compute. reflexivity.
  - vm_compute. reflexivity.
  - vm_compute. reflexivity.
  - destruct Hall as (Hset & Hfull & _).
    + apply update_outcome_run. vm_compute. reflexivity.
    + vm_compute. reflexivity.
    + vm_compute. reflexivity.
    + split; [vm_compute; reflexivity|].
      apply Hfull; [apply full_outcome_run | |]; vm_compute; reflexivity.
Defined.

(** The bound on the resume point is needed: after the full search over
    the ten lines, the file grows to thirteen lines and the update search
    resumes at 12; it scans from line 11 and never sees line 10, which a
    full search finds. *)
Lemma update_search_resume_point_ahead :
  let out0 := sample_full ten_lines 10 in
  let out := sample_update thirteen_lines 13 12 in
  let full := sample_full thirteen_lines 13 in
  (FullSearchOperation_run spec_calculateProgress sample_config (search_a ten_lines 0 10)
                           empty_SearchData out0
   /\ out_status out0 = Finished /\ interruptRequested_ (out_graph out0) = false) /\
  (UpdateSearchOperation_run spec_calculateProgress sample_config
                             (search_a thirteen_lines 0 13) (mkLineNumber 12)
                             (out_searchData out0) (delivered (out_graph out0)) out
   /\ out_status out = Finished /\ interruptRequested_ (out_graph out) = false) /\
  (FullSearchOperation_run spec_calculateProgress sample_config
                           (search_a thirteen_lines 0 13) empty_SearchData full
   /\ out_status full = Finished /\ interruptRequested_ (out_graph full) = false) /\
  out_matchSet out = [0; 2; 4; 7; 9; 11] /\
  out_matchSet full = [0; 2; 4; 7; 9; 10; 11] /\
  out_matchSet out <> out_matchSet full.
Proof.
  cbv zeta.
  split; [split; [apply full_outcome_run | split]; vm_compute; reflexivity|].
  split; [split; [apply update_outcome_run | split]; vm_compute; reflexivity|].
  split; [split; [apply full_outcome_run | split]; vm_compute; reflexivity|].
  split; [vm_compute; reflexivity|]. split; [vm_compute; reflexivity|].
  vm_compute. discriminate.
Qed.

(* ===================================================================== *)
(** ** The order of the match set *)
(* ===================================================================== *)

(** Beside C3: in the flow-graph worker the match set, and every bitmap it
    is made of, is in ascending order without repetition at every point of every
    run of a full or an update search that starts from search data in
    that order. *)
Theorem search_match_set_sorted :
  forall (ds : DoSearch) (sd : SearchData) (d : SearchResultArray) (g : Graph),
    strictly_sorted d ->
    strictly_sorted (newMatches_ sd) ->
    strictly_sorted (matches_ sd) ->
    run ds (graph_start ds sd d) g ->
    strictly_sorted (matchSet g) /\ NoDup (matchSet g) /\
    strictly_sorted (delivered g) /\
    strictly_sorted (newMatches_ (searchData g)) /\
    strictly_sorted (matches_ (searchData g)).
Proof.
  intros ds sd d g Hd Hn Hm Hrun.
  pose proof (graph_sorted_run ds _ _ Hrun (graph_sorted_start ds sd d Hd Hn Hm)) as Hs.
  pose proof (matchSet_sorted g Hs) as Hms.
  destruct Hs as (H1 & H2 & H3 & _).
  split; [exact Hms|]. split; [now apply strictly_sorted_NoDup|]. tauto.
Qed.

Lemma search_match_set_sorted_witness :
  strictly_sorted (matchSet (out_graph (sample_update twelve_lines 12 10))) /\
  matchSet (out_graph (sample_update twelve_lines 12 10)) = [0; 2; 4; 7; 9; 10].
Proof.
  split; [|vm_compute; reflexivity].
  refine (proj1 (search_match_set_sorted
                   (doSearch_locals spec_calculateProgress sample_config
                                    (search_a twelve_lines 0 12)
                                    (fst (update_start (mkLineNumber 10)
                                                       (out_searchData (sample_full ten_lines 10)))))
                   (snd (update_start (mkLineNumber 10)
                                      (out_searchData (sample_full ten_lines 10))))
                   (delivered (out_graph (sample_full ten_lines 10)))
                   (out_graph (sample_update twelve_lines 12 10))
                   _ _ _ _)).
  - vm_compute. constructor.
  - vm_compute. repeat (constructor; [|repeat (constructor; try reflexivity)]). constructor.
  - vm_compute. constructor.
  - unfold sample_update, update_outcome. cbn [finished out_graph].
    apply rounds_run. reflexivity.
Defined.

(** C3. The earlier worker thread: after the full search over the ten sample
    lines, the update search from position 10 over the grown file scans
    line 9 again (the last matched line, 9, differs from the position, so
    the initial line is decremented) and [addAll] inserts the batch
    [9; 10] in front of the 9 already there.  The condition of the
    [assert] in [addAll] is false, and the vector a reader sees is neither
    in ascending order nor free of repetition. *)
Theorem legacy_update_search_repeats_last_match :
  WorkerThread.matches_ WorkerThread.sample_data = [0; 2; 4; 7; 9] /\
  WorkerThread.update_initial_line (mkLineNumber 10) WorkerThread.sample_data
  = mkLineNumber 9 /\
  WorkerThread.arrival (WorkerThread.search_a twelve_lines 12) 5
    (WorkerThread.update_initial_line (mkLineNumber 10) WorkerThread.sample_data)
    [mkPartialSearchResults [9; 10] (mkLineLength 1) (mkLineNumber 9) (mkLinesCount 3)] /\
  WorkerThread.addAll_assertion [9; 10] WorkerThread.sample_data = false /\
  map WorkerThread.matches_ WorkerThread.sample_update_states
  = [[0; 2; 4; 7; 9; 10; 9]; [0; 2; 4; 7; 9]] /\
  ~ strictly_sorted [0; 2; 4; 7; 9; 10; 9] /\
  ~ NoDup [0; 2; 4; 7; 9; 10; 9].
Proof.
  split; [vm_compute; reflexivity|].
  split; [vm_compute; reflexivity|].
  split; [unfold WorkerThread.arrival; vm_compute; apply Permutation_refl|].
  split; [vm_compute; reflexivity|].
  split; [vm_compute; reflexivity|].
  split.
  - unfold strictly_sorted. intros H.
    do 4 (apply StronglySorted_inv in H; destruct H as [H _]).
    apply StronglySorted_inv in H. destruct H as [_ H].
    inversion H as [|? ? _ H']. inversion H' as [|? ? Hlt _]. lia.
  - intros H.
    do 4 (apply NoDup_cons_iff in H; destruct H as [_ H]).
    apply NoDup_cons_iff in H. destruct H as [H _].
    apply H. right. left. reflexivity.
Qed.

(* ===================================================================== *)
(** ** The earlier worker thread: a full search keeps the vector sorted *)
(* ===================================================================== *)

Lemma strictly_sorted_app a b :
  strictly_sorted a -> strictly_sorted b ->
  (forall x y, In x a -> In y b -> x < y) ->
  strictly_sorted (a ++ b).
Proof.
  unfold strictly_sorted. induction 1 as [|x a Ha IH Hall]; intros Hb Hlt; cbn [app].
  - exact Hb.
  - constructor.
    + apply IH; [exact Hb|]. intros u v Hu Hv. apply Hlt; [now right | exact Hv].
    + apply Forall_app. split; [exact Hall|].
      rewrite Forall_forall. intros v Hv. apply Hlt; [now left | exact Hv].
Qed.

Lemma In_firstn (n : nat) (v : list Z) x : In x (firstn n v) -> In x v.
Proof.
  revert n. induction v as [|y v IH]; intros n Hx.
  - now rewrite firstn_nil in Hx.
  - destruct n as [|n]; cbn [firstn] in Hx; [destruct Hx|].
    destruct Hx as [<-|Hx]; [now left | right; now apply (IH n)].
Qed.

Lemma In_skipn (n : nat) (v : list Z) x : In x (skipn n v) -> In x v.
Proof.
  revert n. induction v as [|y v IH]; intros n Hx.
  - now rewrite skipn_nil in Hx.
  - destruct n as [|n]; cbn [skipn] in Hx; [exact Hx|].
    right; now apply (IH n).
Qed.

Lemma strictly_sorted_firstn n v : strictly_sorted v -> strictly_sorted (firstn n v).
Proof.
  unfold strictly_sorted. revert n. induction v as [|x v IH]; intros n Hs.
  - rewrite firstn_nil. constructor.
  - destruct n as [|n]; cbn [firstn]; [constructor|].
    apply StronglySorted_inv in Hs. destruct Hs as [Hv Hall].
    constructor; [now apply IH|].
    rewrite Forall_forall in Hall |- *. intros y Hy. apply Hall.
    now apply (In_firstn n).
Qed.

Lemma strictly_sorted_skipn n v : strictly_sorted v -> strictly_sorted (skipn n v).
Proof.
  unfold strictly_sorted. revert n. induction v as [|x v IH]; intros n Hs.
  - rewrite skipn_nil. constructor.
  - destruct n as [|n]; cbn [skipn]; [exact Hs|].
    apply StronglySorted_inv in Hs. destruct Hs as [Hv _]. now apply IH.
Qed.

Lemma lower_bound_before v value :
  forall y, In y (firstn (WorkerThread.lower_bound v value) v) -> y < value.
Proof.
  induction v as [|x v IH]; intros y Hy; cbn [WorkerThread.lower_bound] in Hy.
  - destruct Hy.
  - destruct (Z.ltb_spec x value) as [Hlt|Hge]; cbn [firstn] in Hy; [|destruct Hy].
    destruct Hy as [<-|Hy]; [exact Hlt | now apply IH].
Qed.

Lemma lower_bound_after v value :
  strictly_sorted v ->
  forall y, In y (skipn (WorkerThread.lower_bound v value) v) -> value <= y.
Proof.
  unfold strictly_sorted.
  induction v as [|x v IH]; intros Hs y Hy; cbn [WorkerThread.lower_bound] in Hy.
  - destruct Hy.
  - apply StronglySorted_inv in Hs. destruct Hs as [Hv Hall].
    destruct (Z.ltb_spec x value) as [Hlt|Hge]; cbn [skipn] in Hy.
    + now apply IH.
    + rewrite Forall_forall in Hall.
      destruct Hy as [<-|Hy]; [exact Hge | specialize (Hall _ Hy); lia].
Qed.

Lemma vector_insert_In v it elements x :
  In x (WorkerThread.vector_insert v it elements) <-> In x v \/ In x elements.
Proof.
  unfold WorkerThread.vector_insert. rewrite !in_app_iff.
  rewrite <- (firstn_skipn it v) at 3. rewrite in_app_iff. tauto.
Qed.

(** [addAll] keeps the vector in ascending order when the batch is in
    ascending order and lies in a stretch of lines that holds no element
    of the vector. *)
Lemma legacy_addAll_sorted length matches lines sd first last :
  strictly_sorted (WorkerThread.matches_ sd) ->
  strictly_sorted matches ->
  (forall y, In y matches -> first <= y < last) ->
  (forall x, In x (WorkerThread.matches_ sd) -> x < first \/ last <= x) ->
  strictly_sorted (WorkerThread.matches_ (WorkerThread.addAll length matches lines sd)).
Proof.
  intros Hv Hm Hin Hout. unfold WorkerThread.addAll. cbn [WorkerThread.matches_].
  destruct matches as [|front rest]; [exact Hv|].
  unfold WorkerThread.vector_insert.
  set (it := WorkerThread.lower_bound (WorkerThread.matches_ sd) front).
  assert (Hfront : forall y, In y (front :: rest) -> front <= y).
  { intros y [<-|Hy]; [lia|].
    unfold strictly_sorted in Hm. apply StronglySorted_inv in Hm. destruct Hm as [_ Hall].
    rewrite Forall_forall in Hall. specialize (Hall _ Hy). lia. }
  apply strictly_sorted_app; [now apply strictly_sorted_firstn| |].
  - apply strictly_sorted_app; [exact Hm | now apply strictly_sorted_skipn|].
    intros y x Hy Hx.
    pose proof (lower_bound_after _ front Hv x Hx) as Hge.
    pose proof (Hin front (or_introl eq_refl)) as Hf.
    destruct (Hout x (In_skipn _ _ _ Hx)) as [Hlo|Hhi]; [lia|].
    specialize (Hin y Hy). lia.
  - intros x y Hx Hy.
    pose proof (lower_bound_before _ front x Hx) as Hlt.
    apply in_app_iff in Hy. destruct Hy as [Hy|Hy].
    + specialize (Hfront y Hy). lia.
    + pose proof (lower_bound_after _ front Hv y Hy). lia.
Qed.

Lemma legacy_filterLines_loop_spec matcher lengthOf chunkStart :
  valid_lnum chunkStart ->
  forall lines i results,
    0 <= i ->
    ln chunkStart + i + Z.of_nat (length lines) <= UINT64_MAX ->
    let r := WorkerThread.filterLines_loop matcher lengthOf lines chunkStart i results in
    psr_chunkStart r = psr_chunkStart results /\
    psr_processedLines r = psr_processedLines results /\
    exists added,
      psr_matchingLines r = psr_matchingLines results ++ added /\
      strictly_sorted added /\
      forall x, In x added ->
                ln chunkStart + i <= x < ln chunkStart + i + Z.of_nat (length lines).
Proof.
  intros Hcs. induction lines as [|l rest IH]; intros i results Hi Hmax;
    cbn [WorkerThread.filterLines_loop].
  - cbv zeta. split; [reflexivity|]. split; [reflexivity|].
    exists []. rewrite app_nil_r. split; [reflexivity|].
    split; [constructor | intros x []].
  - cbn [length] in Hmax |- *.
    assert (Hnext : wrap64 (i + 1) = i + 1).
    { apply wrap64_small. unfold valid_lnum, is_uint64 in *. lia. }
    rewrite Hnext. cbv zeta.
    destruct (matcher l).
    + rewrite lnum_plus_exact
        by (unfold valid_lnum, valid_lcount, is_uint64 in *; cbn [lc]; lia).
      cbn [ln lc].
      destruct (IH (i + 1)
                   (mkPartialSearchResults
                      (psr_matchingLines results ++ [ln chunkStart + i])
                      (qMax_length (psr_maxLength results) (lengthOf l))
                      (psr_chunkStart results) (psr_processedLines results)))
        as (H1 & H2 & added & Hadd & Hsorted & Hin); [lia | lia |].
      cbn [psr_chunkStart psr_processedLines psr_matchingLines] in H1, H2, Hadd.
      split; [exact H1|]. split; [exact H2|].
      exists ((ln chunkStart + i) :: added).
      split; [rewrite Hadd, <- app_assoc; reflexivity|].
      split.
      * constructor; [exact Hsorted|].
        rewrite Forall_forall. intros x Hx. specialize (Hin x Hx). lia.
      * intros x [<-|Hx]; [lia|]. specialize (Hin x Hx). lia.
    + destruct (IH (i + 1) results) as (H1 & H2 & added & Hadd & Hsorted & Hin); [lia | lia |].
      split; [exact H1|]. split; [exact H2|].
      exists added. split; [exact Hadd|]. split; [exact Hsorted|].
      intros x Hx. specialize (Hin x Hx). lia.
Qed.

(** What [filterLines] of the earlier worker returns for a chunk of at
    least one line. *)
Lemma legacy_filterLines_ok matcher lengthOf lines chunkStart :
  valid_lnum chunkStart ->
  (1 <= length lines)%nat ->
  ln chunkStart + Z.of_nat (length lines) <= UINT64_MAX ->
  let r := WorkerThread.filterLines matcher lengthOf lines chunkStart in
  partial_result_ok r /\
  chunk_first r = ln chunkStart /\
  chunk_last r = ln chunkStart + Z.of_nat (length lines).
Proof.
  intros Hcs Hlen Hmax. cbv zeta. unfold WorkerThread.filterLines.
  destruct (legacy_filterLines_loop_spec matcher lengthOf chunkStart Hcs lines 0
              (mkPartialSearchResults [] (mkLineLength 0) chunkStart
                                      (mkLinesCount (Z.of_nat (length lines)))))
    as (H1 & H2 & added & Hadd & Hsorted & Hin); [lia | lia |].
  cbn [psr_chunkStart psr_processedLines psr_matchingLines app] in H1, H2, Hadd.
  unfold partial_result_ok, chunk_first, chunk_last.
  rewrite H1, H2, Hadd. cbn [lc].
  split; [|split; reflexivity].
  split; [exact Hsorted|]. split; [lia|].
  intros x Hx. specialize (Hin x Hx). lia.
Qed.

Section LegacyFullSearch.
Variable op : WorkerThread.SearchOperation.
Hypothesis Hfile : Z.of_nat (length (logLines (WorkerThread.sourceLogData_ op))) <= UINT64_MAX.
Hypothesis Hend : valid_lnum (WorkerThread.endLine_ op).
Hypothesis Hchunk : 1 <= lc (WorkerThread.nbLinesInChunk op) <= UINT64_MAX.

Lemma legacy_endLine_bounds :
  0 <= ln (WorkerThread.endLine op)
  <= Z.of_nat (length (logLines (WorkerThread.sourceLogData_ op))).
Proof using All.
  unfold WorkerThread.endLine, qMin_lnum, lnum_lt, getNbLine. cbn [ln lc].
  unfold valid_lnum, is_uint64 in Hend.
  destruct (Z.ltb_spec (Z.of_nat (length (logLines (WorkerThread.sourceLogData_ op))))
                       (ln (WorkerThread.endLine_ op))); cbn [ln]; lia.
Qed.

(** The chunks the loop of [doSearch] reads: each holds at least one line
    and ends at or before the start of every later one. *)
Lemma legacy_chunks_apart reads :
  forall chunkStart,
    valid_lnum chunkStart ->
    Forall (fun c => valid_lnum (fst c)
                     /\ ln chunkStart <= ln (fst c)
                     /\ (1 <= length (snd c))%nat
                     /\ ln (fst c) + Z.of_nat (length (snd c)) <= UINT64_MAX)
           (WorkerThread.chunks reads op chunkStart) /\
    StronglySorted (fun a b => ln (fst a) + Z.of_nat (length (snd a)) <= ln (fst b))
                   (WorkerThread.chunks reads op chunkStart).
Proof using All.
  pose proof legacy_endLine_bounds as Hbounds.
  induction reads as [|reads IH]; intros chunkStart Hcs; cbn [WorkerThread.chunks].
  - split; constructor.
  - unfold lnum_lt. destruct (Z.ltb_spec (ln chunkStart) (ln (WorkerThread.endLine op)))
      as [Hlt|Hge]; [|split; constructor].
    cbv zeta.
    assert (Hdiff : lc (lnum_diff (WorkerThread.endLine op) chunkStart)
                    = ln (WorkerThread.endLine op) - ln chunkStart).
    { unfold lnum_diff.
      destruct (Z.geb_spec (ln (WorkerThread.endLine op)) (ln chunkStart)); [|lia].
      cbn [lc]. apply wrap64_small. unfold valid_lnum, is_uint64 in *. lia. }
    rewrite Hdiff.
    set (count := Z.min (lc (WorkerThread.nbLinesInChunk op))
                        (ln (WorkerThread.endLine op) - ln chunkStart)).
    assert (Hcount : 1 <= count <= ln (WorkerThread.endLine op) - ln chunkStart)
      by (unfold count; lia).
    assert (Hlen : Z.of_nat (length (utf8View (getLinesRaw (WorkerThread.sourceLogData_ op)
                                                           chunkStart (mkLinesCount count))))
                   = count).
    { unfold valid_lnum, is_uint64 in Hcs.
      rewrite getLinesRaw_length; cbn [lc]; [reflexivity | lia | lia | lia]. }
    assert (Hnext : valid_lnum (lnum_plus chunkStart (WorkerThread.nbLinesInChunk op)))
      by (apply lnum_plus_valid; [exact Hcs | unfold valid_lcount, is_uint64; lia]).
    assert (Hstep : ln chunkStart + count
                    <= ln (lnum_plus chunkStart (WorkerThread.nbLinesInChunk op))).
    { destruct (Z.le_gt_cases (ln chunkStart + lc (WorkerThread.nbLinesInChunk op)) UINT64_MAX)
        as [Hfit|Hover].
      - rewrite lnum_plus_exact by (try exact Hcs; unfold valid_lcount, is_uint64; lia).
        cbn [ln]. unfold count. lia.
      - rewrite lnum_plus_saturates by (try exact Hcs; unfold valid_lcount, is_uint64; lia).
        cbn [ln maxValue_LineNumber]. lia. }
    destruct (IH _ Hnext) as [Hall Hsorted].
    split.
    + constructor.
      * cbn [fst snd]. rewrite Hlen. unfold valid_lnum, is_uint64 in Hcs.
        split; [exact Hcs|]. split; [lia|]. split; lia.
      * rewrite Forall_forall in Hall |- *. intros c Hc.
        destruct (Hall c Hc) as (Hv & Hlo & Hone & Hhi).
        split; [exact Hv|]. split; [lia|]. split; [exact Hone | exact Hhi].
    + constructor; [exact Hsorted|].
      rewrite Forall_forall in Hall |- *. intros c Hc.
      destruct (Hall c Hc) as (Hv & Hlo & Hone & Hhi).
      cbn [fst snd]. rewrite Hlen. lia.
Qed.

(** The results the matchers send: each as [partial_result_ok] says, no
    two of them the same, and their chunks apart. *)
Lemma legacy_partial_results_apart reads initialLine :
  valid_lnum initialLine ->
  let results := WorkerThread.partial_results reads op initialLine in
  Forall partial_result_ok results /\
  NoDup results /\
  (forall a b, In a results -> In b results -> a <> b -> chunks_apart a b).
Proof using All.
  intros Hinit. cbv zeta. unfold WorkerThread.partial_results.
  destruct (legacy_chunks_apart reads initialLine Hinit) as [Hall Hsorted].
  induction Hsorted as [|c rest Hrest IH Hhead].
  - cbn [map]. split; [constructor|]. split; [constructor | intros a b []].
  - apply Forall_cons_iff in Hall. destruct Hall as [(Hv & _ & Hone & Hhi) Hall].
    destruct (IH Hall) as (Hok & Hnodup & Hapart). clear IH.
    destruct (legacy_filterLines_ok (WorkerThread.regexp_ op) (WorkerThread.lengthOf_ op)
                                    (snd c) (fst c) Hv Hone Hhi) as (Hc & Hfirst & Hlast).
    assert (Hafter : forall b,
               In b (map (fun chunk => WorkerThread.filterLines
                                         (WorkerThread.regexp_ op) (WorkerThread.lengthOf_ op)
                                         (snd chunk) (fst chunk)) rest) ->
               chunk_last (WorkerThread.filterLines
                             (WorkerThread.regexp_ op) (WorkerThread.lengthOf_ op)
                             (snd c) (fst c)) <= chunk_first b
               /\ chunk_first b < chunk_last b).
    { intros b Hb. apply in_map_iff in Hb. destruct Hb as (d & <- & Hd).
      rewrite Forall_forall in Hhead, Hall.
      specialize (Hhead d Hd). destruct (Hall d Hd) as (Hvd & _ & Honed & Hhid).
      destruct (legacy_filterLines_ok (WorkerThread.regexp_ op) (WorkerThread.lengthOf_ op)
                                      (snd d) (fst d) Hvd Honed Hhid) as (_ & Hfd & Hld).
      rewrite Hlast, Hfd, Hld. lia. }
    cbn [map]. split; [constructor; [exact Hc | exact Hok]|].
    split.
    + constructor; [|exact Hnodup].
      intros Hin. destruct (Hafter _ Hin) as [Hle _].
      rewrite Hfirst, Hlast in *. lia.
    + intros a b [<-|Ha] [<-|Hb] Hneq.
      * now contradiction Hneq.
      * left. now apply Hafter.
      * right. now apply Hafter.
      * now apply Hapart.
Qed.
End LegacyFullSearch.

(** The loop of [processMatches] keeps the vector in ascending order when
    the results that arrive are as [partial_result_ok] says, differ from
    one another, come from chunks that are apart, and no element of the
    vector is a line of one of these chunks. *)
Lemma legacy_processMatches_sorted arrived :
  forall maxLength sd,
    strictly_sorted (WorkerThread.matches_ sd) ->
    Forall partial_result_ok arrived ->
    NoDup arrived ->
    (forall a b, In a arrived -> In b arrived -> a <> b -> chunks_apart a b) ->
    (forall x r, In x (WorkerThread.matches_ sd) -> In r arrived ->
                 x < chunk_first r \/ chunk_last r <= x) ->
    Forall (fun s => strictly_sorted (WorkerThread.matches_ s))
           (WorkerThread.processMatches arrived maxLength sd).
Proof.
  induction arrived as [|r rest IH]; intros maxLength sd Hsd Hok Hnodup Hapart Hout;
    cbn [WorkerThread.processMatches].
  - constructor; [exact Hsd | constructor].
  - apply Forall_cons_iff in Hok. destruct Hok as [(Hsorted & Hone & Hin) Hok].
    apply NoDup_cons_iff in Hnodup. destruct Hnodup as [Hfresh Hnodup].
    destruct (Z.eqb_spec (lc (psr_processedLines r)) 0) as [Hz|Hnz]; [lia|].
    cbv zeta. apply Forall_app. split; [|constructor; [exact Hsd | constructor]].
    apply IH.
    + apply (legacy_addAll_sorted _ _ _ _ (chunk_first r) (chunk_last r));
        [exact Hsd | exact Hsorted | exact Hin |].
      intros x Hx. apply Hout; [exact Hx | now left].
    + exact Hok.
    + exact Hnodup.
    + intros a b Ha Hb. apply Hapart; now right.
    + intros x r' Hx Hr'.
      unfold WorkerThread.addAll in Hx. cbn [WorkerThread.matches_] in Hx.
      assert (Hx' : In x (WorkerThread.matches_ sd) \/ In x (psr_matchingLines r)).
      { destruct (psr_matchingLines r) as [|front more]; [now left|].
        now apply vector_insert_In in Hx. }
      destruct Hx' as [Hold|Hnew].
      * apply Hout; [exact Hold | now right].
      * specialize (Hin x Hnew).
        assert (Hneq : r <> r') by (intros ->; contradiction).
        destruct (Hapart r r' (or_introl eq_refl) (or_intror Hr') Hneq) as [H|H];
          unfold chunk_first, chunk_last in *; lia.
Qed.

(** Beside C3: in the earlier worker thread a full search keeps the vector
    of matches in strictly ascending order at every state a reader may see,
    in whatever order the results of the matcher threads arrive and
    wherever an interrupt ends the reading of chunks. *)
Theorem legacy_full_search_sorted (op : WorkerThread.SearchOperation) (reads : nat)
        (sd : WorkerThread.SearchData) (arrived : list PartialSearchResults) :
  Z.of_nat (length (logLines (WorkerThread.sourceLogData_ op))) <= UINT64_MAX ->
  valid_lnum (WorkerThread.startLine_ op) ->
  valid_lnum (WorkerThread.endLine_ op) ->
  1 <= lc (WorkerThread.nbLinesInChunk op) <= UINT64_MAX ->
  WorkerThread.arrival op reads (mkLineNumber 0) arrived ->
  Forall (fun s => strictly_sorted (WorkerThread.matches_ s))
         (WorkerThread.FullSearchOperation_start op reads sd arrived).
Proof.
  intros Hfile Hstart Hend Hchunk Harrival.
  unfold WorkerThread.FullSearchOperation_start, WorkerThread.doSearch.
  unfold WorkerThread.arrival in Harrival.
  assert (Hinit : valid_lnum (WorkerThread.adjust op (mkLineNumber 0))).
  { unfold WorkerThread.adjust. destruct (lnum_lt _ _); [exact Hstart|].
    unfold valid_lnum, is_uint64, UINT64_MAX. cbn [ln]. lia. }
  destruct (legacy_partial_results_apart op Hfile Hend Hchunk reads _ Hinit)
    as (Hok & Hnodup & Hapart).
  apply legacy_processMatches_sorted.
  - cbn [WorkerThread.clear WorkerThread.matches_]. constructor.
  - rewrite Forall_forall in Hok |- *. intros r Hr.
    apply Hok. now apply (Permutation_in _ Harrival).
  - apply (Permutation_NoDup (Permutation_sym Harrival) Hnodup).
  - intros a b Ha Hb. apply Hapart; now apply (Permutation_in _ Harrival).
  - cbn [WorkerThread.clear WorkerThread.matches_]. intros x r [].
Qed.

Lemma legacy_full_search_sorted_witness :
  Forall (fun s => strictly_sorted (WorkerThread.matches_ s))
         (WorkerThread.FullSearchOperation_start
            (WorkerThread.search_a ten_lines 10) 5
            (WorkerThread.mkSearchData [] (mkLineLength 0) (mkLinesCount 0))
            (rev (WorkerThread.partial_results 5 (WorkerThread.search_a ten_lines 10)
                                               (mkLineNumber 0)))).
Proof.
  apply legacy_full_search_sorted.
  - vm_compute. discriminate.
  - vm_compute. split; discriminate.
  - vm_compute. split; discriminate.
  - vm_compute. split; discriminate.
  - unfold WorkerThread.arrival.
    replace (WorkerThread.adjust (WorkerThread.search_a ten_lines 10) (mkLineNumber 0))
      with (mkLineNumber 0) by reflexivity.
    apply Permutation_sym, Permutation_rev.
Defined.

(* ===================================================================== *)
(** ** Further properties *)
(* ===================================================================== *)

(** [operator+] on a line number and a count saturates: it returns the sum
    when the sum fits 64 bits and the largest line number otherwise. *)
Theorem line_addition_saturates (n : LineNumber) (c : LinesCount) :
  valid_lnum n -> valid_lcount c ->
  ln (lnum_plus n c) = Z.min (ln n + lc c) UINT64_MAX.
Proof.
  intros Hn Hc.
  destruct (Z.le_gt_cases (ln n + lc c) UINT64_MAX) as [Hfit|Hover].
  - rewrite lnum_plus_exact by assumption. cbn [ln]. lia.
  - rewrite lnum_plus_saturates by assumption. cbn [ln maxValue_LineNumber]. lia.
Qed.

Lemma line_addition_saturates_witness :
  ln (lnum_plus (mkLineNumber 18446744073709551614) (mkLinesCount 5)) = UINT64_MAX.
Proof.
  replace UINT64_MAX with (Z.min (18446744073709551614 + 5) UINT64_MAX) by reflexivity.
  apply (line_addition_saturates (mkLineNumber 18446744073709551614) (mkLinesCount 5)).
  - vm_compute. split; discriminate.
  - vm_compute. split; discriminate.
Defined.

(** The counter behind [getNbMatches] in the flow-graph worker: [addAll]
    adds the cardinality of every batch, and [deleteMatch] leaves the
    counter as it is.  In the sample update search line 9, a match of the
    preceding full search, is scanned again: the match set holds six lines
    and the counter says seven. *)
Example update_search_counts_rescanned_match_twice :
  out_matchSet (sample_update twelve_lines 12 10) = [0; 2; 4; 7; 9; 10] /\
  lc (getNbMatches (out_searchData (sample_update twelve_lines 12 10))) = 7.
Proof. vm_compute. split; reflexivity. Qed.

(* ===================================================================== *)
(** ** linetypes.h: arithmetic and comparisons of the line types *)
(* ===================================================================== *)

(** Addition and the two subtractions undo one another as long as the
    sum fits 64 bits, and the count that [operator+] has added is read
    back through [operator-] cut off at the largest line number;
    [(n - c) + c] is [n] when [c] does not exceed [n] and [c] otherwise. *)
Theorem line_addition_subtraction_round_trip (n : LineNumber) (c : LinesCount) :
  valid_lnum n -> valid_lcount c ->
  lc (lnum_diff (lnum_plus n c) n) = Z.min (lc c) (UINT64_MAX - ln n) /\
  (ln n + lc c <= UINT64_MAX ->
   lnum_minus (lnum_plus n c) c = n /\ lnum_diff (lnum_plus n c) n = c) /\
  ln (lnum_plus (lnum_minus n c) c) = Z.max (ln n) (lc c).
Proof.
  intros Hn Hc. destruct n as [n], c as [c].
  unfold valid_lnum, valid_lcount, is_uint64 in *. cbn [ln lc] in *.
  assert (Hsum : ln (lnum_plus (mkLineNumber n) (mkLinesCount c)) = Z.min (n + c) UINT64_MAX).
  { destruct (Z.le_gt_cases (n + c) UINT64_MAX).
    - rewrite lnum_plus_exact by (unfold valid_lnum, valid_lcount, is_uint64; cbn; lia).
      cbn [ln lc]. lia.
    - rewrite lnum_plus_saturates by (unfold valid_lnum, valid_lcount, is_uint64; cbn; lia).
      cbn [ln maxValue_LineNumber]. lia. }
  split; [|split].
  - unfold lnum_diff. rewrite Hsum. cbn [ln].
    destruct (Z.geb_spec (Z.min (n + c) UINT64_MAX) n); [|lia].
    cbn [lc]. rewrite wrap64_small by (unfold is_uint64; lia). lia.
  - intros Hfit.
    rewrite lnum_plus_exact by (unfold valid_lnum, valid_lcount, is_uint64; cbn; lia).
    cbn [ln lc]. unfold lnum_minus, lnum_diff. cbn [ln lc].
    destruct (Z.geb_spec (n + c) c); [|lia].
    destruct (Z.geb_spec (n + c) n); [|lia].
    rewrite !wrap64_small by (unfold is_uint64; lia).
    split; f_equal; lia.
  - unfold lnum_minus. cbn [ln lc].
    destruct (Z.geb_spec n c).
    + rewrite wrap64_small by (unfold is_uint64; lia).
      rewrite lnum_plus_exact by (unfold valid_lnum, valid_lcount, is_uint64; cbn; lia).
      cbn [ln lc]. lia.
    + rewrite lnum_plus_exact
        by (unfold valid_lnum, valid_lcount, is_uint64, UINT64_MAX in *; cbn [ln lc]; lia).
      cbn [ln lc]. lia.
Qed.

Lemma line_addition_subtraction_round_trip_witness :
  lnum_minus (lnum_plus (mkLineNumber 41) (mkLinesCount 7)) (mkLinesCount 7) = mkLineNumber 41
  /\ lnum_diff (lnum_plus (mkLineNumber 41) (mkLinesCount 7)) (mkLineNumber 41)
     = mkLinesCount 7.
Proof.
  apply (line_addition_subtraction_round_trip (mkLineNumber 41) (mkLinesCount 7)).
  - vm_compute. split; discriminate.
  - vm_compute. split; discriminate.
  - vm_compute. discriminate.
Defined.

(** The six comparisons of a line number with a count agree with the
    order of the two values: of [<], [==] and [>] exactly one holds, [==]
    holds when the values are equal, and [<=], [>=] and [!=] are the
    negations of [>], [<] and [==]. *)
Theorem mixed_comparisons_agree (number : LineNumber) (count : LinesCount) :
  (lnum_lt_count number count = true <-> ln number < lc count) /\
  (lnum_eq_count number count = true <-> ln number = lc count) /\
  (lnum_gt_count number count = true <-> lc count < ln number) /\
  lnum_le_count number count = lnum_lt_count number count || lnum_eq_count number count /\
  lnum_ge_count number count = lnum_gt_count number count || lnum_eq_count number count /\
  lnum_ne_count number count = lnum_lt_count number count || lnum_gt_count number count.
Proof.
  unfold lnum_lt_count, lnum_eq_count, lnum_gt_count, lnum_le_count, lnum_ge_count,
    lnum_ne_count, lnum_eq_count, lnum_lt_count.
  destruct (Z.ltb_spec (ln number) (lc count)), (Z.ltb_spec (lc count) (ln number));
    cbn [negb andb orb]; repeat split; intros; try lia; try discriminate.
Qed.

(* ===================================================================== *)
(** ** linetypes.h: more on tab expansion *)
(* ===================================================================== *)

Lemma columns_from_app a b col :
  columns_from col (a ++ b) = columns_from (columns_from col a) b.
Proof.
  revert col. induction a as [|x a IH]; intros col; cbn [app columns_from]; [reflexivity|].
  apply IH.
Qed.

Lemma untabify_loop_column :
  forall (rest : Line) (ip pos ts ip' pos' ts' : Z),
    0 <= ip -> 0 <= pos -> 0 <= ts -> 0 <= ip' -> 0 <= pos' -> 0 <= ts' ->
    ip + pos + ts = ip' + pos' + ts' ->
    columns_from (ip + pos + ts) rest <= INT_MAX ->
    untabify_loop rest ip pos ts = untabify_loop rest ip' pos' ts'.
Proof.
  induction rest as [|ch rest IH];
    intros ip pos ts ip' pos' ts' Hip Hpos Hts Hip' Hpos' Hts' Hcol Hmax;
    cbn [untabify_loop columns_from] in Hmax |- *; [reflexivity|].
  destruct (Byte.eqb ch tab).
  - cbv zeta.
    pose proof (Z.mod_pos_bound (ip + pos + ts) 8 ltac:(lia)) as Hmod.
    pose proof (columns_from_tab_bound _ rest Hmax) as Hstop.
    destruct (untabify_tab_step ip pos ts Hip Hpos Hts Hstop) as [Hspaces Hnext].
    destruct (untabify_tab_step ip' pos' ts' Hip' Hpos' Hts'
                ltac:(rewrite <- Hcol; exact Hstop)) as [Hspaces' Hnext'].
    rewrite Hspaces, Hnext, Hspaces', Hnext', <- Hcol.
    f_equal. rewrite next_tab_stop_eq in Hmax.
    apply IH; try lia.
    replace (ip + (pos + 1) + (ts + (8 - (ip + pos + ts) mod 8 - 1)))
      with (ip + pos + ts + (8 - (ip + pos + ts) mod 8)) by lia.
    exact Hmax.
  - assert (Hrest : untabify_loop rest ip (pos + 1) ts = untabify_loop rest ip' (pos' + 1) ts').
    { apply IH; try lia.
      replace (ip + (pos + 1) + ts) with (ip + pos + ts + 1) by lia. exact Hmax. }
    destruct (Byte.eqb ch nul); f_equal; exact Hrest.
Qed.

Lemma untabify_loop_app :
  forall (a b : Line) (ip pos ts : Z),
    0 <= ip -> 0 <= pos -> 0 <= ts ->
    columns_from (ip + pos + ts) (a ++ b) <= INT_MAX ->
    untabify_loop (a ++ b) ip pos ts
    = untabify_loop a ip pos ts ++ untabify_loop b (columns_from (ip + pos + ts) a) 0 0.
Proof.
  induction a as [|ch a IH]; intros b ip pos ts Hip Hpos Hts Hmax;
    cbn [app untabify_loop columns_from] in Hmax |- *.
  - apply untabify_loop_column; try lia; exact Hmax.
  - destruct (Byte.eqb ch tab).
    + cbv zeta.
      pose proof (Z.mod_pos_bound (ip + pos + ts) 8 ltac:(lia)) as Hmod.
      assert (Hstop : next_tab_stop (ip + pos + ts) <= INT_MAX).
      { pose proof (columns_from_ge (a ++ b) (next_tab_stop (ip + pos + ts))). lia. }
      destruct (untabify_tab_step ip pos ts Hip Hpos Hts Hstop) as [Hspaces Hnext].
      rewrite Hspaces, Hnext. rewrite next_tab_stop_eq in Hmax |- *.
      assert (Hcol : ip + (pos + 1) + (ts + (8 - (ip + pos + ts) mod 8 - 1))
                     = ip + pos + ts + (8 - (ip + pos + ts) mod 8)) by lia.
      rewrite IH by (try rewrite Hcol; try exact Hmax; lia).
      rewrite Hcol, <- app_assoc. reflexivity.
    + assert (Hcol : ip + (pos + 1) + ts = ip + pos + ts + 1) by lia.
      assert (Hrest : untabify_loop (a ++ b) ip (pos + 1) ts
                      = untabify_loop a ip (pos + 1) ts
                        ++ untabify_loop b (columns_from (ip + pos + ts + 1) a) 0 0).
      { rewrite IH by (try rewrite Hcol; try exact Hmax; lia). now rewrite Hcol. }
      destruct (Byte.eqb ch nul); rewrite Hrest; reflexivity.
Qed.

(** [untabify] of two pieces in a row is [untabify] of the first, followed
    by [untabify] of the second started at the column the first one
    reaches: this is what [initialPosition] is for.  It holds from a
    position that is not negative and as long as the columns of the whole
    line fit an [int], so that no sum of the loop leaves its range; the
    position the second piece starts from is then an [int] as well. *)
Theorem untabify_app (a b : Line) (initialPosition : Z) :
  0 <= initialPosition ->
  columns_from initialPosition (a ++ b) <= INT_MAX ->
  untabify (a ++ b) initialPosition
  = untabify a initialPosition
    ++ untabify b (initialPosition + Z.of_nat (length (untabify a initialPosition))) /\
  initialPosition + Z.of_nat (length (untabify a initialPosition)) <= INT_MAX.
Proof.
  intros Hip Hmax. unfold untabify.
  assert (Ha : columns_from (initialPosition + 0 + 0) a <= INT_MAX).
  { replace (initialPosition + 0 + 0) with initialPosition by lia.
    rewrite columns_from_app in Hmax.
    pose proof (columns_from_ge b (columns_from initialPosition a)). lia. }
  rewrite untabify_loop_length by (try exact Ha; lia).
  split; [|lia].
  rewrite untabify_loop_app
    by (try (replace (initialPosition + 0 + 0) with initialPosition by lia; exact Hmax); lia).
  do 2 f_equal. lia.
Qed.

Lemma untabify_app_witness :
  untabify ([x61; x09] ++ [x09; x62]) 0 = untabify [x61; x09] 0 ++ untabify [x09; x62] 8.
Proof.
  apply (untabify_app [x61; x09] [x09; x62] 0); [lia | vm_compute; discriminate].
Defined.

Lemma untabify_loop_plain :
  forall (rest : Line) (ip pos ts : Z),
    Forall (fun b => plain_byte b = true) (untabify_loop rest ip pos ts).
Proof.
  induction rest as [|ch rest IH]; intros ip pos ts; cbn [untabify_loop]; [constructor|].
  destruct (Byte.eqb ch tab) eqn:Htab.
  - apply Forall_app. split; [|apply IH].
    rewrite Forall_forall. intros b Hb. apply repeat_spec in Hb. now subst b.
  - destruct (Byte.eqb ch nul) eqn:Hnul; constructor; try apply IH.
    + reflexivity.
    + unfold plain_byte. now rewrite Htab, Hnul.
Qed.

Lemma untabify_loop_of_plain :
  forall (rest : Line) (ip pos ts : Z),
    Forall (fun b => plain_byte b = true) rest ->
    untabify_loop rest ip pos ts = rest.
Proof.
  induction rest as [|ch rest IH]; intros ip pos ts Hplain; cbn [untabify_loop];
    [reflexivity|].
  apply Forall_cons_iff in Hplain. destruct Hplain as [Hch Hrest].
  unfold plain_byte in Hch. apply andb_prop in Hch. destruct Hch as [Htab Hnul].
  apply negb_true_iff in Htab, Hnul. rewrite Htab, Hnul. f_equal. now apply IH.
Qed.

(** What [untabify] returns holds neither a tab nor a NUL; from a position
    that is not negative, and as long as the columns of the line fit an
    [int], it has as many characters as the line has columns from
    [initialPosition] on; and [untabify] leaves it as it is, at whatever
    position. *)
Theorem untabify_expands_all (line : Line) (initialPosition again : Z) :
  0 <= initialPosition ->
  columns_from initialPosition line <= INT_MAX ->
  INT_MIN <= again <= INT_MAX ->
  Forall (fun b => b <> tab /\ b <> nul) (untabify line initialPosition) /\
  Z.of_nat (length (untabify line initialPosition))
  = columns_from initialPosition line - initialPosition /\
  untabify (untabify line initialPosition) again = untabify line initialPosition.
Proof.
  intros Hip Hmax _. unfold untabify.
  pose proof (untabify_loop_plain line initialPosition 0 0) as Hplain.
  split; [|split].
  - rewrite Forall_forall in Hplain |- *. intros b Hb. specialize (Hplain b Hb).
    unfold plain_byte in Hplain. apply andb_prop in Hplain. destruct Hplain as [Ht Hn].
    apply negb_true_iff in Ht, Hn.
    split; intros ->; [vm_compute in Ht | vm_compute in Hn]; discriminate.
  - replace initialPosition with (initialPosition + 0 + 0) in Hmax by lia.
    rewrite untabify_loop_length by (try exact Hmax; lia).
    replace (initialPosition + 0 + 0) with initialPosition by lia. reflexivity.
  - now apply untabify_loop_of_plain.
Qed.

Lemma untabify_expands_all_witness :
  untabify (untabify [x61; x09; x00; x62] 3) 5 = untabify [x61; x09; x00; x62] 3.
Proof.
  apply (untabify_expands_all [x61; x09; x00; x62] 3 5);
    [lia | vm_compute; discriminate | vm_compute; split; discriminate].
Defined.

Lemma columns_from_bounds line :
  forall col,
    0 <= col ->
    col + Z.of_nat (length line) <= columns_from col line
    <= col + Z.of_nat (length line) + 7 * count_tabs line.
Proof.
  unfold count_tabs.
  induction line as [|b rest IH]; intros col Hcol; cbn [columns_from length filter].
  - lia.
  - destruct (Byte.eqb b tab).
    + pose proof (next_tab_stop_eq col) as Heq.
      pose proof (Z.mod_pos_bound col 8 ltac:(lia)) as Hmod.
      specialize (IH (next_tab_stop col) ltac:(lia)). cbn [length]. lia.
    + specialize (IH (col + 1) ltac:(lia)). lia.
Qed.

(** The length [getUntabifiedLength] returns lies between the number of
    bytes of the line and seven more per tab; it is the number of bytes
    when the line has no tab, and a multiple of 8 when the line ends in a
    tab. *)
Theorem getUntabifiedLength_bounds (line : Line) :
  display_columns line <= INT_MAX ->
  Z.of_nat (length line) <= ll (getUntabifiedLength line)
  <= Z.of_nat (length line) + 7 * count_tabs line /\
  (count_tabs line = 0 -> ll (getUntabifiedLength line) = Z.of_nat (length line)) /\
  (forall front, line = front ++ [tab] -> ll (getUntabifiedLength line) mod 8 = 0).
Proof.
  intros Hmax.
  pose proof (display_columns_nonneg line) as Hge.
  assert (H : ll (getUntabifiedLength line) = display_columns line).
  { rewrite getUntabifiedLength_wide by (unfold INT_MAX, UINT64_MAX in *; lia).
    apply to_int_small. unfold INT_MIN, INT_MAX in *. lia. }
  rewrite H. unfold display_columns.
  pose proof (columns_from_bounds line 0 ltac:(lia)) as Hb.
  split; [lia|]. split; [lia|].
  intros front ->. rewrite columns_from_app. cbn [columns_from].
  replace (Byte.eqb tab tab) with true by reflexivity.
  unfold next_tab_stop. apply Z.mod_mul. lia.
Qed.

Lemma getUntabifiedLength_bounds_witness :
  ll (getUntabifiedLength ([x61; x62] ++ [tab])) mod 8 = 0.
Proof.
  destruct (getUntabifiedLength_bounds ([x61; x62] ++ [tab])) as (_ & _ & Hlast).
  - vm_compute. discriminate.
  - apply (Hlast [x61; x62]). reflexivity.
Defined.

(* ===================================================================== *)
(** ** SearchData: what its member functions keep *)
(* ===================================================================== *)

Lemma qMax_length_max a b : ll (qMax_length a b) = Z.max (ll a) (ll b).
Proof. unfold qMax_length. destruct (Z.ltb_spec (ll a) (ll b)); lia. Qed.

Lemma qMax_count_max a b : lc (qMax_count a b) = Z.max (lc a) (lc b).
Proof. unfold qMax_count. destruct (Z.ltb_spec (lc a) (lc b)); lia. Qed.

Lemma max_of_ge start l : start <= max_of start l /\ Forall (fun x => x <= max_of start l) l.
Proof.
  unfold max_of. revert start. induction l as [|x l IH]; intros start; cbn [fold_left].
  - split; [lia | constructor].
  - destruct (IH (Z.max start x)) as [H1 H2]. split; [lia|].
    constructor; [lia | exact H2].
Qed.

(** [maxLength_] and [nbLinesProcessed_] are running maxima: after any
    number of [addAll] they hold the largest of what they held and of what
    the commits brought, whatever the order of the commits, and
    [takeCurrentResults] reports both and leaves them as they are. *)
Theorem searchData_running_maxima (sd : SearchData) (cs : list Commit) :
  let sd' := addAll_commits sd cs in
  ll (maxLength_ sd') = max_of (ll (maxLength_ sd)) (map (fun c => ll (commit_length c)) cs) /\
  lc (nbLinesProcessed_ sd')
  = max_of (lc (nbLinesProcessed_ sd)) (map (fun c => lc (commit_lines c)) cs) /\
  ll (maxLength_ sd) <= ll (maxLength_ sd') /\
  lc (nbLinesProcessed_ sd) <= lc (nbLinesProcessed_ sd') /\
  sr_maxLength (fst (takeCurrentResults sd')) = maxLength_ sd' /\
  sr_processedLines (fst (takeCurrentResults sd')) = nbLinesProcessed_ sd' /\
  getLastProcessedLine (snd (takeCurrentResults sd')) = getLastProcessedLine sd'.
Proof.
  cbv zeta.
  assert (H : ll (maxLength_ (addAll_commits sd cs))
              = max_of (ll (maxLength_ sd)) (map (fun c => ll (commit_length c)) cs) /\
              lc (nbLinesProcessed_ (addAll_commits sd cs))
              = max_of (lc (nbLinesProcessed_ sd)) (map (fun c => lc (commit_lines c)) cs)).
  { unfold addAll_commits, max_of. revert sd.
    induction cs as [|c cs IH]; intros sd; cbn [fold_left map]; [split; reflexivity|].
    destruct (IH (addAll_commit sd c)) as [H1 H2]. rewrite H1, H2.
    unfold addAll_commit, addAll. cbn [maxLength_ nbLinesProcessed_].
    now rewrite qMax_length_max, qMax_count_max. }
  destruct H as [H1 H2]. rewrite H1, H2.
  pose proof (max_of_ge (ll (maxLength_ sd)) (map (fun c => ll (commit_length c)) cs)) as [G1 _].
  pose proof (max_of_ge (lc (nbLinesProcessed_ sd)) (map (fun c => lc (commit_lines c)) cs))
    as [G2 _].
  repeat split; assumption.
Qed.

(** The member functions of this file never put a line into [matches_]:
    from an object whose [matches_] is empty, as [clear] leaves it, every
    sequence of calls leaves it empty, and [deleteMatch], which removes
    from [matches_] only, changes nothing then; what [addAll] has
    committed stays in [newMatches_] and in the counter. *)
Theorem searchData_matches_stays_empty (sd : SearchData) (calls : list SearchDataCall)
        (line : LineNumber) :
  matches_ sd = [] ->
  matches_ (apply_calls sd calls) = [] /\
  deleteMatch line (apply_calls sd calls) = apply_calls sd calls.
Proof.
  intros Hempty.
  assert (H : matches_ (apply_calls sd calls) = []).
  { unfold apply_calls. revert sd Hempty.
    induction calls as [|call calls IH]; intros sd Hempty; cbn [fold_left]; [exact Hempty|].
    apply IH. destruct call; cbn; try rewrite Hempty; reflexivity. }
  split; [exact H|].
  unfold deleteMatch. rewrite H. cbn [bitmap_remove filter].
  rewrite <- H. now destruct (apply_calls sd calls).
Qed.

Lemma searchData_matches_stays_empty_witness :
  deleteMatch (mkLineNumber 9)
              (apply_calls (clear empty_SearchData)
                           [call_addAll (mkCommit (mkLineLength 1) [7; 9] (mkLinesCount 10));
                            call_takeCurrentResults;
                            call_deleteMatch (mkLineNumber 9)])
  = apply_calls (clear empty_SearchData)
                [call_addAll (mkCommit (mkLineLength 1) [7; 9] (mkLinesCount 10));
                 call_takeCurrentResults;
                 call_deleteMatch (mkLineNumber 9)].
Proof.
  apply (searchData_matches_stays_empty
           (clear empty_SearchData)
           [call_addAll (mkCommit (mkLineLength 1) [7; 9] (mkLinesCount 10));
            call_takeCurrentResults;
            call_deleteMatch (mkLineNumber 9)]
           (mkLineNumber 9)).
  reflexivity.
Defined.

(* ===================================================================== *)
(** ** The flow graph: what a search finds, counts and reads *)
(* ===================================================================== *)

Lemma filterLines_loop_longest matcher lines chunkStart :
  forall offset results,
    ll (psr_maxLength results)
    <= ll (psr_maxLength (filterLines_loop matcher lines chunkStart offset results)) /\
    forall i,
      (i < length lines)%nat -> matcher (nth i lines []) = true ->
      ll (getUntabifiedLength (nth i lines []))
      <= ll (psr_maxLength (filterLines_loop matcher lines chunkStart offset results)).
Proof.
  induction lines as [|line rest IH]; intros offset results; cbn [filterLines_loop length].
  - split; [lia | intros i Hi; lia].
  - destruct (matcher line) eqn:Hm; cbv zeta.
    + destruct (IH (to_uint32 (offset + 1))
                   (mkPartialSearchResults
                      (bitmap_add (ln (lnum_plus chunkStart (mkLinesCount offset)))
                                  (psr_matchingLines results))
                      (qMax_length (psr_maxLength results) (getUntabifiedLength line))
                      (psr_chunkStart results) (psr_processedLines results))) as [H1 H2].
      cbn [psr_maxLength] in H1. rewrite qMax_length_max in H1.
      split; [lia|]. intros [|i] Hi Hmi; cbn [nth] in *; [lia|].
      apply H2; [lia | exact Hmi].
    + destruct (IH (to_uint32 (offset + 1)) results) as [H1 H2].
      split; [exact H1|]. intros [|i] Hi Hmi; cbn [nth] in *; [congruence|].
      apply H2; [lia | exact Hmi].
Qed.

Section GraphData.
Variable ds : DoSearch.
Hypothesis Hfile :
  Z.of_nat (length (logLines (sourceLogData_ (ds_operation ds)))) <= UINT64_MAX.
Hypothesis Hchunk : 1 <= lc (ds_nbLinesInChunk ds) <= INT_MAX.
Hypothesis Hinit : valid_lnum (ds_initialLine ds).
Hypothesis Hend : valid_lnum (endLine_ (ds_operation ds)).

(** What a result in [resultsQueue] holds: the matching lines of its
    chunk, in ascending order, none of them longer than its [maxLength]. *)
Lemma result_ok_holds r :
  result_ok ds r ->
  chunk_ok ds (psr_chunkStart r) (psr_processedLines r) /\
  psr_matchingLines r
  = filter (line_matches ds)
           (line_range (ln (psr_chunkStart r))
                       (ln (psr_chunkStart r) + lc (psr_processedLines r))) /\
  forall n, In n (psr_matchingLines r) -> line_length ds n <= ll (psr_maxLength r).
Proof using All.
  intros (first & number & Hok & ->).
  pose proof Hok as (H1 & H2 & H3).
  pose proof (ds_endLine_bounds ds Hfile Hchunk Hinit Hend) as Hb.
  unfold valid_lnum, is_uint64 in Hinit.
  assert (Hfirst : valid_lnum first) by (unfold valid_lnum, is_uint64; lia).
  rewrite filterLines_processedLines, filterLines_chunkStart.
  rewrite getLinesRaw_numberOfLines by lia. cbn [lc].
  assert (Hmem : forall n,
             In n (psr_matchingLines
                     (filterLines (regexp_ (ds_operation ds))
                                  (getLinesRaw (sourceLogData_ (ds_operation ds)) first number)
                                  first))
             <-> ln first <= n < ln first + lc number /\ line_matches ds n = true).
  { intros n. apply filterLines_getLinesRaw;
      [exact Hfirst | unfold INT_MAX in Hchunk; lia | lia | exact Hfile]. }
  split; [|split].
  - destruct number as [number]. exact Hok.
  - apply strictly_sorted_ext.
    + apply filterLines_sorted.
    + apply filter_sorted, line_range_sorted.
    + intros n. rewrite Hmem, filter_In, line_range_In. tauto.
  - intros n Hn. apply Hmem in Hn. destruct Hn as [Hrange Hm].
    unfold filterLines, line_length.
    destruct (filterLines_loop_longest
                (regexp_ (ds_operation ds))
                (utf8View (getLinesRaw (sourceLogData_ (ds_operation ds)) first number))
                first 0
                (mkPartialSearchResults
                   [] (mkLineLength 0) first
                   (numberOfLines (getLinesRaw (sourceLogData_ (ds_operation ds))
                                               first number)))) as [_ Hlong].
    specialize (Hlong (Z.to_nat (n - ln first))).
    pose proof (getLinesRaw_length (sourceLogData_ (ds_operation ds)) first number
                                   ltac:(lia) ltac:(lia) ltac:(lia)) as Hlen.
    rewrite getLinesRaw_nth in Hlong by lia.
    replace (ln first + Z.of_nat (Z.to_nat (n - ln first))) with n in Hlong by lia.
    apply Hlong; [lia | exact Hm].
Qed.

(** The match processor on a result, when nobody has interrupted. *)
Lemma matchProcessor_commit r others g :
  interruptRequested_ g = false ->
  lc (psr_processedLines r) <> 0 ->
  let g' := matchProcessor ds r others g in
  (forall n, In n (matchSet g') <-> In n (matchSet g) \/ In n (psr_matchingLines r)) /\
  ll (maxLength_ (searchData g'))
  = Z.max (ll (maxLength_ (searchData g))) (Z.max (ll (maxLength g)) (ll (psr_maxLength r))) /\
  lc (nbLinesProcessed_ (searchData g'))
  = Z.max (lc (nbLinesProcessed_ (searchData g)))
          (wrap64 (ln (psr_chunkStart r) + lc (psr_processedLines r))) /\
  lc (nbMatches_ (searchData g'))
  = wrap64 (lc (nbMatches_ (searchData g)) + bitmap_cardinality (psr_matchingLines r)) /\
  lc (nbMatches g')
  = wrap64 (lc (nbMatches g) + bitmap_cardinality (psr_matchingLines r)) /\
  resultsQueue g' = others /\
  lineBlocksQueue g' = lineBlocksQueue g /\
  chunkStart g' = chunkStart g /\
  sourceActive g' = sourceActive g /\
  interruptRequested_ g' = false /\
  chunksRead g' = chunksRead g /\
  linesExamined g' = linesExamined g.
Proof using All.
  intros Hflag Hlines. cbv zeta. unfold matchProcessor. rewrite Hflag.
  destruct (reportProgress_fields ds (combineResults r (with_resultsQueue others g)))
    as (E1 & E2 & E3 & E4 & E5 & _ & E7 & E8 & E9 & E10 & E11 & _).
  assert (Hset : forall n,
             In n (matchSet (reportProgress ds (combineResults r (with_resultsQueue others g))))
             <-> In n (matchSet g) \/ In n (psr_matchingLines r)).
  { intros n. rewrite !matchSet_In, E8, E11.
    unfold combineResults.
    destruct (Z.eqb_spec (lc (psr_processedLines r)) 0) as [Hz|_]; [contradiction|].
    cbn [delivered searchData with_resultsQueue addAll newMatches_].
    rewrite bitmap_union_In. tauto. }
  split; [exact Hset|].
  rewrite E1, E2, E3, E4, E5, E7, E8, E9, E10.
  unfold combineResults.
  destruct (Z.eqb_spec (lc (psr_processedLines r)) 0) as [Hz|_]; [contradiction|].
  cbn [searchData with_resultsQueue addAll maxLength_ nbLinesProcessed_ nbMatches_
       nbMatches resultsQueue lineBlocksQueue chunkStart sourceActive interruptRequested_
       chunksRead linesExamined lc].
  rewrite !qMax_length_max, qMax_count_max. cbn [lc].
  repeat split; try reflexivity; exact Hflag.
Qed.

(** Any other step leaves the match set and the data the match processor
    writes as they are. *)
Lemma step_keeps_data g g' :
  step ds g g' ->
  (exists before r after,
      resultsQueue g = before ++ r :: after /\
      interruptRequested_ g = false /\
      g' = matchProcessor ds r (before ++ after) g)
  \/ ((forall n, In n (matchSet g') <-> In n (matchSet g)) /\
      maxLength_ (searchData g') = maxLength_ (searchData g) /\
      nbLinesProcessed_ (searchData g') = nbLinesProcessed_ (searchData g) /\
      nbMatches_ (searchData g') = nbMatches_ (searchData g) /\
      nbMatches g' = nbMatches g /\
      emitted g' = emitted g).
Proof using All.
  intros Hstep.
  destruct Hstep as [g _ _|g before b after _ Hq|g before r after _ Hq|g|g|g what _].
  - right. unfold linesSource, stop_source.
    destruct (interruptRequested_ g); [cbn; repeat split; tauto|].
    destruct (lnum_ge _ _); cbn; repeat split; tauto.
  - right. cbn. repeat split; tauto.
  - destruct (interruptRequested_ g) eqn:Hflag.
    + right. unfold matchProcessor. rewrite Hflag. cbn. repeat split; tauto.
    + left. exists before, r, after. repeat split; assumption.
  - right. cbn. repeat split; tauto.
  - right. split; [|cbn; repeat split; reflexivity].
    intros n. rewrite !matchSet_In.
    cbn [getSearchResults takeCurrentResults fst snd sr_newMatches newMatches_
         delivered searchData].
    rewrite bitmap_union_In. cbn [In]. tauto.
  - right. cbn. repeat split; tauto.
Qed.

Lemma graph_found_step base g g' :
  graph_queues_ok ds g ->
  graph_found ds base g -> step ds g g' -> graph_found ds base g'.
Proof using All.
  intros (_ & _ & Hresults) Hfound Hstep n Hn.
  destruct (step_keeps_data g g' Hstep)
    as [(before & r & after & Hq & Hflag & ->)|(Hset & Hlen & _)].
  - rewrite Hq in Hresults. apply Forall_remove_middle in Hresults.
    destruct Hresults as [Hr _].
    destruct (result_ok_holds r Hr) as ((Hc1 & Hc2 & Hc3) & Hlines & Hlong).
    destruct (matchProcessor_commit r (before ++ after) g Hflag ltac:(lia))
      as (Hset & Hmax & _).
    rewrite Hmax. apply Hset in Hn. destruct Hn as [Hold|Hnew].
    + destruct (Hfound n Hold) as [Hb|(H1 & H2 & H3)]; [now left|].
      right. split; [exact H1|]. split; [exact H2 | lia].
    + right. specialize (Hlong n Hnew).
      rewrite Hlines, filter_In, line_range_In in Hnew. destruct Hnew as [Hrange Hm].
      split; [lia|]. split; [exact Hm | lia].
  - rewrite Hlen. apply Hfound. now apply Hset.
Qed.

Lemma graph_found_run base g g' :
  run ds g g' ->
  graph_queues_ok ds g -> graph_found ds base g -> graph_found ds base g'.
Proof using All.
  induction 1 as [g|g g' g'' Hstep _ IH]; intros Hq Hfound; [exact Hfound|].
  apply IH.
  - now apply (graph_queues_ok_step ds Hfile Hchunk Hinit Hend g).
  - now apply (graph_found_step base g).
Qed.
End GraphData.

(** At every moment of a search, interrupted or not, a line of the match
    set was there when the search started, or it is a line from the
    initial line to the end line that the pattern matches, and
    [maxLength_] is at least its untabified length. *)
Theorem search_finds_matching_lines_only :
  forall (ds : DoSearch) (sd : SearchData) (d : SearchResultArray) (g : Graph) (n : Z),
    Z.of_nat (length (logLines (sourceLogData_ (ds_operation ds)))) <= UINT64_MAX ->
    1 <= lc (ds_nbLinesInChunk ds) <= INT_MAX ->
    valid_lnum (ds_initialLine ds) ->
    valid_lnum (endLine_ (ds_operation ds)) ->
    run ds (graph_start ds sd d) g ->
    In n (matchSet g) ->
    In n (matchSet (graph_start ds sd d))
    \/ (ln (ds_initialLine ds) <= n < ln (ds_endLine ds)
        /\ regexp_ (ds_operation ds) (line_at (sourceLogData_ (ds_operation ds)) n) = true
        /\ ll (getUntabifiedLength (line_at (sourceLogData_ (ds_operation ds)) n))
           <= ll (maxLength_ (searchData g))).
Proof.
  intros ds sd d g n Hfile Hchunk Hinit Hend Hrun Hn.
  apply (graph_found_run ds Hfile Hchunk Hinit Hend (matchSet (graph_start ds sd d))
                         (graph_start ds sd d) g Hrun).
  - apply graph_queues_ok_start; assumption.
  - intros m Hm. now left.
  - exact Hn.
Qed.

Lemma search_finds_matching_lines_only_witness :
  In 2 (matchSet (graph_start sample_locals (clear empty_SearchData) []))
  \/ (ln (ds_initialLine sample_locals) <= 2 < ln (ds_endLine sample_locals)
      /\ regexp_ (ds_operation sample_locals)
                 (line_at (sourceLogData_ (ds_operation sample_locals)) 2) = true
      /\ ll (getUntabifiedLength (line_at (sourceLogData_ (ds_operation sample_locals)) 2))
         <= ll (maxLength_ (searchData
                              (interrupt (round sample_locals
                                                (graph_start sample_locals
                                                             (clear empty_SearchData) [])))))).
Proof.
  apply (search_finds_matching_lines_only
           sample_locals (clear empty_SearchData) []
           (interrupt (round sample_locals
                             (graph_start sample_locals (clear empty_SearchData) []))) 2).
  - vm_compute. discriminate.
  - vm_compute. split; discriminate.
  - vm_compute. split; discriminate.
  - vm_compute. split; discriminate.
  - eapply run_trans.
    + apply round_run. reflexivity.
    + apply run_one. apply step_interrupt.
  - vm_compute. right. now left.
Defined.

Lemma LinesCount_ext (a b : LinesCount) : lc a = lc b -> a = b.
Proof. destruct a, b. cbn. now intros ->. Qed.

Lemma sum_Z_nonneg {A} (f : A -> Z) l : (forall x, 0 <= f x) -> 0 <= sum_Z (map f l).
Proof.
  intros Hf. unfold sum_Z. induction l as [|x l IH]; cbn [map fold_right]; [lia|].
  specialize (Hf x). lia.
Qed.

Lemma count_matching_nonneg ds a b : 0 <= count_matching ds a b.
Proof. unfold count_matching. lia. Qed.

Lemma count_matching_le ds a b : count_matching ds a b <= Z.max 0 (b - a).
Proof.
  unfold count_matching. rewrite <- line_range_length.
  pose proof (filter_length_le (line_matches ds) (line_range a b)). lia.
Qed.

Lemma count_matching_split ds a m b :
  a <= m <= b ->
  count_matching ds a b = count_matching ds a m + count_matching ds m b.
Proof.
  intros H. unfold count_matching.
  rewrite (line_range_split a m b H), filter_app, length_app. lia.
Qed.

Lemma count_matching_empty ds a b : b <= a -> count_matching ds a b = 0.
Proof. intros H. unfold count_matching. now rewrite line_range_empty. Qed.

Lemma count_matching_one ds a :
  count_matching ds a (a + 1) = if line_matches ds a then 1 else 0.
Proof.
  unfold count_matching, line_range.
  replace (Z.to_nat (a + 1 - a)) with 1%nat by lia.
  cbn [seq map filter]. replace (a + Z.of_nat 0) with a by lia.
  now destruct (line_matches ds a).
Qed.

Section GraphCounts.
Variable ds : DoSearch.
Hypothesis Hfile :
  Z.of_nat (length (logLines (sourceLogData_ (ds_operation ds)))) <= UINT64_MAX.
Hypothesis Hchunk : 1 <= lc (ds_nbLinesInChunk ds) <= INT_MAX.
Hypothesis Hinit : valid_lnum (ds_initialLine ds).
Hypothesis Hend : valid_lnum (endLine_ (ds_operation ds)).
Variable nbMatches0 : Z.
Hypothesis Hnb :
  0 <= nbMatches0 /\
  nbMatches0 + count_matching ds (ln (ds_initialLine ds)) (ln (ds_endLine ds)) <= UINT64_MAX.

Lemma block_matches b :
  block_ok ds b ->
  bitmap_cardinality
    (psr_matchingLines
       (filterLines (regexp_ (ds_operation ds)) (blk_lines b) (blk_chunkStart b)))
  = Z.of_nat (length (filter (line_matches ds) (block_lines b))).
Proof using All.
  intros Hb. unfold bitmap_cardinality. do 2 f_equal.
  apply strictly_sorted_ext.
  - apply filterLines_sorted.
  - apply filter_sorted. unfold block_lines. apply line_range_sorted.
  - intros n. rewrite (regexMatcher_finds ds Hfile Hchunk Hinit Hend b n Hb), filter_In.
    tauto.
Qed.

Lemma pending_matches_nonneg g : 0 <= pending_matches ds g.
Proof.
  unfold pending_matches.
  pose proof (sum_Z_nonneg (fun r => bitmap_cardinality (psr_matchingLines r))
                           (resultsQueue g)) as H1.
  pose proof (sum_Z_nonneg
                (fun b => Z.of_nat (length (filter (line_matches ds) (block_lines b))))
                (lineBlocksQueue g)) as H2.
  pose proof (count_matching_nonneg ds (ln (chunkStart g)) (ln (ds_endLine ds))).
  assert (G1 : forall x : PartialSearchResults,
             0 <= bitmap_cardinality (psr_matchingLines x))
    by (intros x; unfold bitmap_cardinality; lia).
  assert (G2 : forall x : SearchBlockData,
             0 <= Z.of_nat (length (filter (line_matches ds) (block_lines x))))
    by (intros x; lia).
  specialize (H1 G1). specialize (H2 G2). lia.
Qed.

Lemma commit_fits g before r after :
  graph_queues_ok ds g ->
  graph_counts ds nbMatches0 g ->
  interruptRequested_ g = false ->
  resultsQueue g = before ++ r :: after ->
  lc (psr_processedLines r) <> 0 /\
  pending_matches ds g
  = bitmap_cardinality (psr_matchingLines r)
    + pending_matches ds (with_resultsQueue (before ++ after) g) /\
  wrap64 (lc (nbMatches g) + bitmap_cardinality (psr_matchingLines r))
  = lc (nbMatches g) + bitmap_cardinality (psr_matchingLines r).
Proof using All.
  intros (_ & _ & Hresults) (_ & Hlow & Hcount) Hflag Hr.
  rewrite Hr in Hresults. apply Forall_remove_middle in Hresults.
  destruct Hresults as [Hok _].
  destruct (result_ok_facts ds Hfile Hchunk Hinit Hend r Hok) as (Hp & _).
  specialize (Hcount Hflag).
  pose proof (pending_matches_nonneg (with_resultsQueue (before ++ after) g)) as Hrest.
  assert (Hpend : pending_matches ds g
                  = bitmap_cardinality (psr_matchingLines r)
                    + pending_matches ds (with_resultsQueue (before ++ after) g)).
  { unfold pending_matches. cbn [resultsQueue lineBlocksQueue chunkStart with_resultsQueue].
    rewrite Hr, sum_Z_remove_middle. lia. }
  assert (Hcard : 0 <= bitmap_cardinality (psr_matchingLines r))
    by (unfold bitmap_cardinality; lia).
  split; [lia|]. split; [exact Hpend|].
  apply wrap64_small; unfold is_uint64; lia.
Qed.

Lemma graph_counts_step g g' :
  graph_queues_ok ds g ->
  graph_counts ds nbMatches0 g -> step ds g g' -> graph_counts ds nbMatches0 g'.
Proof using All.
  intros Hq Hc Hstep.
  pose proof Hc as (Hsame & Hlow & Hcount).
  pose proof Hq as (Hcs & Hblocks & Hresults).
  assert (Hpart : nbMatches_ (searchData g') = nbMatches g' /\ nbMatches0 <= lc (nbMatches g')).
  { destruct (step_keeps_data ds Hfile Hchunk Hinit Hend g g' Hstep)
      as [(before & r & after & Hr & Hflag & ->)|(_ & _ & _ & E1 & E2 & _)].
    - destruct (commit_fits g before r after Hq Hc Hflag Hr) as (Hp & _ & Hsmall).
      destruct (matchProcessor_commit ds Hfile Hchunk Hinit Hend r (before ++ after) g Hflag Hp)
        as (_ & _ & _ & C1 & C2 & _).
      split.
      + apply LinesCount_ext. rewrite C1, C2, Hsame. reflexivity.
      + rewrite C2, Hsmall. unfold bitmap_cardinality. lia.
    - split; [now rewrite E1, E2 | now rewrite E2]. }
  destruct Hpart as (P1 & P2).
  split; [exact P1|]. split; [exact P2|].
  intros Hflag'.
  pose proof (step_interrupt_flag ds g g' Hstep Hflag') as Hflag.
  specialize (Hcount Hflag).
  destruct Hstep as [g _ Hact|g before b after _ Hb|g before r after _ Hr|g|g|g what _].
  - unfold linesSource, stop_source in *. rewrite Hflag in *.
    unfold lnum_ge, lnum_lt in *.
    destruct (Z.ltb_spec (ln (chunkStart g)) (ln (ds_endLine ds))) as [Hlt|Hge];
      cbn [negb] in *; [|exact Hcount].
    cbn [nbMatches] in *. rewrite <- Hcount. f_equal.
    destruct (next_chunk ds Hfile Hchunk Hinit Hend (chunkStart g) Hcs Hlt)
      as ((Hc1 & Hc2 & Hc3) & Hnext & Hwhere).
    cbn [lc] in Hc2, Hc3, Hwhere.
    unfold pending_matches.
    cbn [resultsQueue lineBlocksQueue chunkStart].
    rewrite sum_Z_snoc. unfold block_lines. cbn [blk_chunkStart blk_lines].
    pose proof (ds_endLine_bounds ds Hfile Hchunk Hinit Hend) as Hbnd.
    unfold valid_lnum, is_uint64 in Hinit.
    rewrite getLinesRaw_length by (cbn [lc]; lia). cbn [lc].
    set (number := Z.min (lc (ds_nbLinesInChunk ds))
                         (lc (lnum_diff (ds_endLine ds) (chunkStart g)))) in *.
    fold (count_matching ds (ln (chunkStart g)) (ln (chunkStart g) + number)).
    rewrite (count_matching_split ds (ln (chunkStart g)) (ln (chunkStart g) + number)
                                  (ln (ds_endLine ds))) by lia.
    destruct Hwhere as [Hw|[Hw1 Hw2]].
    + rewrite <- Hw. lia.
    + rewrite (count_matching_empty ds _ _ Hw2).
      rewrite (count_matching_empty ds (ln (chunkStart g) + number)) by lia. lia.
  - rewrite Hb in Hblocks. apply Forall_remove_middle in Hblocks.
    destruct Hblocks as [Hok _].
    unfold regexMatcher. cbn [nbMatches]. rewrite <- Hcount. f_equal.
    unfold pending_matches.
    cbn [resultsQueue lineBlocksQueue chunkStart].
    rewrite sum_Z_snoc, Hb, sum_Z_remove_middle, (block_matches b Hok). lia.
  - destruct (commit_fits g before r after Hq Hc Hflag Hr) as (Hp & Hpend & Hsmall).
    destruct (matchProcessor_commit ds Hfile Hchunk Hinit Hend r (before ++ after) g Hflag Hp)
      as (_ & _ & _ & _ & C2 & Q1 & Q2 & Q3 & _).
    rewrite C2, Hsmall, <- Hcount, Hpend.
    unfold pending_matches. rewrite Q1, Q2, Q3.
    cbn [resultsQueue lineBlocksQueue chunkStart with_resultsQueue]. lia.
  - cbn in Hflag'. discriminate.
  - exact Hcount.
  - exact Hcount.
Qed.

Lemma graph_counts_run g g' :
  run ds g g' ->
  graph_queues_ok ds g -> graph_counts ds nbMatches0 g -> graph_counts ds nbMatches0 g'.
Proof using All.
  induction 1 as [g|g g' g'' Hstep _ IH]; intros Hq Hc; [exact Hc|].
  apply IH.
  - now apply (graph_queues_ok_step ds Hfile Hchunk Hinit Hend g).
  - now apply (graph_counts_step g).
Qed.

Lemma graph_counts_start sd d :
  lc (getNbMatches sd) = nbMatches0 ->
  graph_counts ds nbMatches0 (graph_start ds sd d).
Proof using All.
  intros H0. unfold graph_counts, graph_start, pending_matches, getNbMatches in *.
  cbn [searchData nbMatches resultsQueue lineBlocksQueue chunkStart interruptRequested_ map].
  split; [reflexivity|]. split; [lia|]. intros _. unfold sum_Z. cbn [fold_right]. lia.
Qed.

(** When the graph is at rest and nobody has interrupted, the counter
    stands at its start plus the matching lines of the range. *)
Lemma graph_idle_counts sd d g :
  lc (getNbMatches sd) = nbMatches0 ->
  run ds (graph_start ds sd d) g ->
  graph_idle g = true ->
  interruptRequested_ g = false ->
  nbMatches_ (searchData g) = nbMatches g /\
  lc (nbMatches g)
  = nbMatches0 + count_matching ds (ln (ds_initialLine ds)) (ln (ds_endLine ds)).
Proof using All.
  intros H0 Hrun Hidle Hflag.
  pose proof (graph_queues_ok_start ds Hfile Hchunk Hinit Hend sd d) as Hq0.
  pose proof (graph_counts_run _ _ Hrun Hq0 (graph_counts_start sd d H0))
    as (Hsame & _ & Hcount).
  pose proof (graph_covers_run ds Hfile Hchunk Hinit Hend _ _ _ Hrun Hq0
                               (graph_covers_start ds Hfile Hchunk Hinit Hend sd d) Hflag)
    as (Hstop & _).
  split; [exact Hsame|]. specialize (Hcount Hflag).
  unfold graph_idle in Hidle. apply andb_prop in Hidle. destruct Hidle as [Hidle Hres].
  apply andb_prop in Hidle. destruct Hidle as [Hsrc Hblk].
  apply negb_true_iff in Hsrc. specialize (Hstop Hsrc).
  unfold pending_matches in Hcount.
  destruct (resultsQueue g); [|discriminate]. destruct (lineBlocksQueue g); [|discriminate].
  rewrite count_matching_empty in Hcount by exact Hstop.
  unfold sum_Z in Hcount. cbn [map fold_right] in Hcount. lia.
Qed.
End GraphCounts.

Section GraphReads.
Variable ds : DoSearch.
Hypothesis Hfile :
  Z.of_nat (length (logLines (sourceLogData_ (ds_operation ds)))) <= UINT64_MAX.
Hypothesis Hchunk : 1 <= lc (ds_nbLinesInChunk ds) <= INT_MAX.
Hypothesis Hinit : valid_lnum (ds_initialLine ds).
Hypothesis Hend : valid_lnum (endLine_ (ds_operation ds)).

Lemma graph_last_chunk_step g g' :
  graph_queues_ok ds g ->
  graph_last_chunk ds g -> step ds g g' -> graph_last_chunk ds g'.
Proof using All.
  intros Hq Hlast Hstep Hflag'.
  pose proof (step_interrupt_flag ds g g' Hstep Hflag') as Hflag.
  specialize (Hlast Hflag).
  pose proof Hq as (Hcs & Hblocks & Hresults).
  pose proof (ds_endLine_bounds ds Hfile Hchunk Hinit Hend) as Hbnd.
  unfold valid_lnum, is_uint64 in Hinit.
  destruct Hstep as [g _ Hact|g before b after _ Hb|g before r after _ Hr|g|g|g what _].
  - unfold linesSource, stop_source. rewrite Hflag.
    unfold lnum_ge, lnum_lt.
    destruct (Z.ltb_spec (ln (chunkStart g)) (ln (ds_endLine ds))) as [Hlt|Hge];
      cbn [negb].
    + destruct (next_chunk ds Hfile Hchunk Hinit Hend (chunkStart g) Hcs Hlt)
        as ((Hc1 & Hc2 & Hc3) & Hnext & Hwhere).
      cbn [lc] in Hc2, Hc3, Hwhere.
      cbn [searchData resultsQueue lineBlocksQueue sourceActive chunkStart].
      destruct Hlast as [H|[(r & Hin & H)|[(b & Hin & H)|[_ _]]]].
      * now left.
      * right; left. now exists r.
      * right; right; left. exists b. split; [|exact H]. apply in_or_app. now left.
      * destruct (Z.lt_ge_cases (ln (lnum_plus (chunkStart g) (ds_nbLinesInChunk ds)))
                                (ln (ds_endLine ds))) as [Hmore|Hdone].
        -- right; right; right. split; [reflexivity | exact Hmore].
        -- right; right; left. eexists. split; [apply in_or_app; right; now left|].
           cbn [blk_chunkStart blk_lines].
           rewrite getLinesRaw_length by (cbn [lc]; lia). cbn [lc]. lia.
    + cbn [searchData resultsQueue lineBlocksQueue sourceActive chunkStart].
      destruct Hlast as [H|[H|[H|[_ H]]]]; [now left | right; now left
                                            | right; right; now left | lia].
  - unfold regexMatcher.
    cbn [searchData resultsQueue lineBlocksQueue sourceActive chunkStart].
    destruct Hlast as [H|[(r & Hin & H)|[(b' & Hin & H)|H]]].
    + now left.
    + right; left. exists r. split; [apply in_or_app; now left | exact H].
    + rewrite Hb in Hin, Hblocks. apply In_remove_middle in Hin.
      destruct Hin as [->|Hin].
      * right; left. eexists. split; [apply in_or_app; right; now left|].
        apply Forall_remove_middle in Hblocks. destruct Hblocks as [Hok _].
        destruct (block_ok_lines ds Hfile Hchunk Hinit Hend b Hok)
          as (number & (Hc1 & Hc2 & Hc3) & Hlines & Hlen & _).
        rewrite filterLines_chunkStart, filterLines_processedLines, Hlines.
        rewrite getLinesRaw_numberOfLines by lia. cbn [lc]. lia.
      * right; right; left. now exists b'.
    + right; right; now right.
  - rewrite Hr in Hresults. pose proof Hresults as Hall.
    apply Forall_remove_middle in Hresults. destruct Hresults as [Hok _].
    destruct (result_ok_facts ds Hfile Hchunk Hinit Hend r Hok) as (Hp & _ & Hhi & Hlo).
    destruct (matchProcessor_commit ds Hfile Hchunk Hinit Hend r (before ++ after) g Hflag
                                    ltac:(lia))
      as (_ & _ & W & _ & _ & Q1 & Q2 & Q3 & Q4 & _).
    rewrite W, Q1, Q2, Q3, Q4.
    rewrite wrap64_small by (unfold is_uint64; lia).
    destruct Hlast as [H|[(r' & Hin & H)|[H|H]]].
    + left. lia.
    + rewrite Hr in Hin. apply In_remove_middle in Hin. destruct Hin as [->|Hin].
      * left. lia.
      * right; left. now exists r'.
    + right; right; now left.
    + right; right; now right.
  - cbn in Hflag'. discriminate.
  - cbn [getSearchResults takeCurrentResults snd searchData nbLinesProcessed_
         resultsQueue lineBlocksQueue sourceActive chunkStart].
    exact Hlast.
  - exact Hlast.
Qed.

Lemma graph_last_chunk_run g g' :
  run ds g g' ->
  graph_queues_ok ds g -> graph_last_chunk ds g -> graph_last_chunk ds g'.
Proof using All.
  induction 1 as [g|g g' g'' Hstep _ IH]; intros Hq Hl; [exact Hl|].
  apply IH.
  - now apply (graph_queues_ok_step ds Hfile Hchunk Hinit Hend g).
  - now apply (graph_last_chunk_step g).
Qed.

Lemma graph_reads_step g g' :
  graph_queues_ok ds g ->
  graph_reads ds g -> step ds g g' -> graph_reads ds g'.
Proof using All.
  intros Hq (Hall & Hsorted) Hstep.
  pose proof Hq as (Hcs & _ & Hresults).
  destruct Hstep as [g _ Hact|g before b after _ Hb|g before r after _ Hr|g|g|g what _];
    try (split; assumption).
  - unfold linesSource, stop_source.
    destruct (interruptRequested_ g); [split; assumption|].
    unfold lnum_ge, lnum_lt.
    destruct (Z.ltb_spec (ln (chunkStart g)) (ln (ds_endLine ds))) as [Hlt|Hge];
      cbn [negb]; [|split; assumption].
    destruct (next_chunk ds Hfile Hchunk Hinit Hend (chunkStart g) Hcs Hlt)
      as (Hok & Hnext & Hwhere).
    unfold graph_reads. cbn [chunksRead chunkStart].
    pose proof Hok as (Hc1 & Hc2 & Hc3). cbn [lc] in Hc2, Hc3, Hwhere.
    split.
    + apply Forall_app. split.
      * rewrite Forall_forall in Hall |- *. intros c Hc.
        destruct (Hall c Hc) as [H1 H2]. split; [exact H1 | lia].
      * constructor; [|constructor]. cbn [fst snd lc]. split; [exact Hok | lia].
    + clear Hok. induction Hsorted as [|c rest Hrest IH Hhead].
      * cbn [app]. constructor; [constructor | constructor].
      * apply Forall_cons_iff in Hall. destruct Hall as [[_ Hc] Hall].
        cbn [app]. constructor; [now apply IH|].
        apply Forall_app. split; [exact Hhead|].
        constructor; [cbn [fst]; exact Hc | constructor].
  - unfold matchProcessor, graph_reads.
    destruct (interruptRequested_ g); [split; assumption|].
    destruct (reportProgress_fields ds (combineResults r (with_resultsQueue (before ++ after) g)))
      as (_ & E1 & _ & _ & _ & _ & _ & _ & E2 & _).
    destruct (combineResults_fields r (with_resultsQueue (before ++ after) g))
      as (_ & E1' & _ & _ & _ & _ & _ & _ & E2' & _).
    rewrite E1, E2, E1', E2'. split; assumption.
Qed.

Lemma graph_reads_run g g' :
  run ds g g' ->
  graph_queues_ok ds g -> graph_reads ds g -> graph_reads ds g'.
Proof using All.
  induction 1 as [g|g g' g'' Hstep _ IH]; intros Hq Hr; [exact Hr|].
  apply IH.
  - now apply (graph_queues_ok_step ds Hfile Hchunk Hinit Hend g).
  - now apply (graph_reads_step g).
Qed.

End GraphReads.

Lemma graph_idle_queues g :
  graph_idle g = true ->
  sourceActive g = false /\ lineBlocksQueue g = [] /\ resultsQueue g = [].
Proof.
  unfold graph_idle. intros H. apply andb_prop in H. destruct H as [H Hres].
  apply andb_prop in H. destruct H as [Hsrc Hblk]. apply negb_true_iff in Hsrc.
  destruct (lineBlocksQueue g); [|discriminate]. destruct (resultsQueue g); [|discriminate].
  repeat split; assumption.
Qed.

(** The signals of a search operation, whichever way [run] is left:
    through the end of its [try] block the last two signals are
    [searchProgressed] with 100 percent and [searchFinished], and no other
    [searchFinished] comes before; through the [catch] handler
    [searchFinished] is not emitted at all; and every [searchProgressed]
    names the line at which this search started. *)
Theorem search_signals_protocol :
  forall (prefix : String.string) (ds : DoSearch) (sd : SearchData)
         (d : SearchResultArray) (out : Outcome),
    try_doSearch prefix ds sd d out ->
    match out_status out with
    | Finished =>
        exists earlier nb,
          out_signals out
          = earlier ++ [searchProgressed nb 100 (ds_initialLine ds); searchFinished] /\
          Forall (fun s => is_searchFinished s = false
                           /\ progressed_from s = Some (ds_initialLine ds)) earlier
    | Errored =>
        Forall (fun s => is_searchFinished s = false
                         /\ progressed_from s = Some (ds_initialLine ds)) (out_signals out)
    end.
Proof.
  intros prefix ds sd d out (g & Hrun & [(Hf & Hidle & ->)|(what & _ & ->)]).
  - cbn [finished out_status out_signals]. unfold doSearch_signals.
    exists (emitted g), (nbMatches g). split; [reflexivity|].
    apply (graph_signals_run ds _ _ Hrun). constructor.
  - cbn [errored out_status out_signals].
    apply (graph_signals_run ds _ _ Hrun). constructor.
Qed.

Section SearchData.
Variable ds : DoSearch.
Hypothesis Hfile :
  Z.of_nat (length (logLines (sourceLogData_ (ds_operation ds)))) <= UINT64_MAX.
Hypothesis Hchunk : 1 <= lc (ds_nbLinesInChunk ds) <= INT_MAX.
Hypothesis Hinit : valid_lnum (ds_initialLine ds).
Hypothesis Hend : valid_lnum (endLine_ (ds_operation ds)).

Lemma graph_idle_watermark sd d g :
  run ds (graph_start ds sd d) g ->
  graph_idle g = true ->
  interruptRequested_ g = false ->
  ln (ds_initialLine ds) < ln (ds_endLine ds) ->
  0 <= lc (nbLinesProcessed_ sd) <= ln (ds_endLine ds) ->
  lc (nbLinesProcessed_ (searchData g)) = ln (ds_endLine ds).
Proof using All.
  intros Hrun Hidle Hflag Hrange Hw0.
  pose proof (graph_queues_ok_start ds Hfile Hchunk Hinit Hend sd d) as Hq0.
  assert (Hl0 : graph_last_chunk ds (graph_start ds sd d)).
  { intros _. right; right; right. split; [reflexivity | exact Hrange]. }
  pose proof (graph_last_chunk_run ds Hfile Hchunk Hinit Hend _ _ Hrun Hq0 Hl0 Hflag) as Hl.
  assert (Hw : graph_watermark ds (lc (nbLinesProcessed_ sd)) (graph_start ds sd d))
    by (unfold graph_watermark; cbn [graph_start searchData]; lia).
  pose proof (graph_watermark_run ds Hfile Hchunk Hinit Hend _ _ _ Hrun Hq0 Hw) as Hup.
  unfold graph_watermark in Hup.
  destruct (graph_idle_queues g Hidle) as (Hsrc & Hblk & Hres).
  rewrite Hblk, Hres, Hsrc in Hl.
  destruct Hl as [H|[(r & [] & _)|[(b & [] & _)|[H _]]]]; [lia | discriminate].
Qed.

Lemma graph_examined_once sd d g :
  run ds (graph_start ds sd d) g ->
  NoDup (linesExamined g) /\
  forall n, In n (linesExamined g) -> ln (ds_initialLine ds) <= n < ln (ds_endLine ds).
Proof using All.
  intros Hrun.
  pose proof (graph_queues_ok_start ds Hfile Hchunk Hinit Hend sd d) as Hq0.
  pose proof (graph_examines_run ds Hfile Hchunk Hinit Hend _ _ Hrun Hq0
                                 (graph_examines_start ds sd d)) as Hperm.
  unfold graph_examines in Hperm.
  pose proof (strictly_sorted_NoDup _ (line_range_sorted (ln (ds_initialLine ds))
                                                         (ln (ds_endLine ds)))) as Hnd.
  apply (Permutation_NoDup (Permutation_sym Hperm)) in Hnd.
  split.
  - now apply NoDup_app_remove_r in Hnd.
  - intros n Hn. apply line_range_In. apply (Permutation_in _ Hperm).
    apply in_or_app. now left.
Qed.
End SearchData.

(** At every moment of a search: no line has been given to a matcher
    twice; the lines given lie from the initial line to the end line; and
    the reads of the source are chunks of that range of at least one and
    at most [nbLinesInChunk] lines, each starting at or after the end of
    the one before. *)
Theorem search_reads_each_line_once :
  forall (ds : DoSearch) (sd : SearchData) (d : SearchResultArray) (g : Graph),
    Z.of_nat (length (logLines (sourceLogData_ (ds_operation ds)))) <= UINT64_MAX ->
    1 <= lc (ds_nbLinesInChunk ds) <= INT_MAX ->
    valid_lnum (ds_initialLine ds) ->
    valid_lnum (endLine_ (ds_operation ds)) ->
    run ds (graph_start ds sd d) g ->
    NoDup (linesExamined g) /\
    (forall n, In n (linesExamined g) -> ln (ds_initialLine ds) <= n < ln (ds_endLine ds)) /\
    Forall (fun c => chunk_ok ds (fst c) (snd c)) (chunksRead g) /\
    StronglySorted (fun a b => ln (fst a) + lc (snd a) <= ln (fst b)) (chunksRead g).
Proof.
  intros ds sd d g Hfile Hchunk Hinit Hend Hrun.
  destruct (graph_examined_once ds Hfile Hchunk Hinit Hend sd d g Hrun) as [H1 H2].
  split; [exact H1|]. split; [exact H2|].
  pose proof (graph_queues_ok_start ds Hfile Hchunk Hinit Hend sd d) as Hq0.
  assert (Hr0 : graph_reads ds (graph_start ds sd d))
    by (split; constructor).
  destruct (graph_reads_run ds Hfile Hchunk Hinit Hend _ _ Hrun Hq0 Hr0) as [Hall Hsorted].
  split; [|exact Hsorted].
  rewrite Forall_forall in Hall |- *. intros c Hc. now destruct (Hall c Hc).
Qed.

Lemma search_reads_each_line_once_witness :
  NoDup (linesExamined sample_graph) /\
  chunksRead sample_graph
  = [(mkLineNumber 0, mkLinesCount 4); (mkLineNumber 4, mkLinesCount 4);
     (mkLineNumber 8, mkLinesCount 2)].
Proof.
  split; [|reflexivity].
  apply (search_reads_each_line_once sample_locals (clear empty_SearchData) [] sample_graph).
  - vm_compute. discriminate.
  - vm_compute. split; discriminate.
  - vm_compute. split; discriminate.
  - vm_compute. split; discriminate.
  - apply rounds_run. reflexivity.
Defined.

(** After a search over at least one line that ran to its end without an
    interrupt, [getLastProcessedLine] is the end line of the search,
    [min(endLine_, line count)], provided it was not beyond that line
    before; and at no moment of a search, interrupted or not, does it go
    beyond the larger of the two. *)
Theorem search_last_processed_line :
  forall (ds : DoSearch) (sd : SearchData) (d : SearchResultArray) (g : Graph),
    Z.of_nat (length (logLines (sourceLogData_ (ds_operation ds)))) <= UINT64_MAX ->
    1 <= lc (ds_nbLinesInChunk ds) <= INT_MAX ->
    valid_lnum (ds_initialLine ds) ->
    valid_lnum (endLine_ (ds_operation ds)) ->
    0 <= ln (getLastProcessedLine sd) ->
    run ds (graph_start ds sd d) g ->
    0 <= ln (getLastProcessedLine (searchData g))
    <= Z.max (ln (getLastProcessedLine sd)) (ln (ds_endLine ds)) /\
    (graph_idle g = true -> interruptRequested_ g = false ->
     ln (ds_initialLine ds) < ln (ds_endLine ds) ->
     ln (getLastProcessedLine sd) <= ln (ds_endLine ds) ->
     ln (getLastProcessedLine (searchData g)) = ln (ds_endLine ds)).
Proof.
  intros ds sd d g Hfile Hchunk Hinit Hend Hw0 Hrun.
  unfold getLastProcessedLine in *. cbn [ln] in *.
  pose proof (graph_queues_ok_start ds Hfile Hchunk Hinit Hend sd d) as Hq0.
  assert (Hw : graph_watermark ds (lc (nbLinesProcessed_ sd)) (graph_start ds sd d))
    by (unfold graph_watermark; cbn [graph_start searchData]; lia).
  pose proof (graph_watermark_run ds Hfile Hchunk Hinit Hend _ _ _ Hrun Hq0 Hw) as Hup.
  split; [exact Hup|].
  intros Hidle Hflag Hrange Hbelow.
  apply (graph_idle_watermark ds Hfile Hchunk Hinit Hend sd d g Hrun Hidle Hflag Hrange).
  lia.
Qed.

Lemma search_last_processed_line_witness :
  ln (getLastProcessedLine (searchData sample_graph)) = ln (ds_endLine sample_locals).
Proof.
  apply (search_last_processed_line sample_locals (clear empty_SearchData) [] sample_graph).
  - vm_compute. discriminate.
  - vm_compute. split; discriminate.
  - vm_compute. split; discriminate.
  - vm_compute. split; discriminate.
  - vm_compute. discriminate.
  - apply rounds_run. reflexivity.
  - reflexivity.
  - reflexivity.
  - vm_compute. reflexivity.
  - vm_compute. discriminate.
Defined.

Lemma search_signals_protocol_witness :
  exists earlier nb,
    out_signals (sample_full ten_lines 10)
    = earlier ++ [searchProgressed nb 100 (mkLineNumber 0); searchFinished] /\
    Forall (fun s => is_searchFinished s = false
                     /\ progressed_from s = Some (mkLineNumber 0)) earlier.
Proof.
  apply (search_signals_protocol
           "FullSearchOperation failed: "%string
           (doSearch_locals spec_calculateProgress sample_config (search_a ten_lines 0 10)
                            (mkLineNumber 0))
           (clear empty_SearchData) [] (sample_full ten_lines 10)).
  apply full_outcome_run. vm_compute. reflexivity.
Defined.

(* ===================================================================== *)
(** ** The two operations: what getNbMatches counts *)
(* ===================================================================== *)

Lemma matching_lines_count (ds : DoSearch) a b :
  Z.of_nat (length (matching_lines (ds_operation ds) a b)) = count_matching ds a b.
Proof. reflexivity. Qed.

Section FullSearchData.
Variable calculateProgress : Z -> Z -> Z.
Variable config : Configuration.
Variable op : SearchOperation.
Hypothesis Hfile : lc (getNbLine (sourceLogData_ op)) <= UINT64_MAX.
Hypothesis Hchunk : 1 <= searchReadBufferSizeLines config <= INT_MAX.
Hypothesis Hstart : valid_lnum (startLine_ op).
Hypothesis Hend : valid_lnum (endLine_ op).
Let ds := doSearch_locals calculateProgress config op (mkLineNumber 0).
Let last : Z := Z.min (ln (endLine_ op)) (lc (getNbLine (sourceLogData_ op))).

Lemma full_search_initialLine : ds_initialLine ds = startLine_ op.
Proof using All.
  unfold ds, doSearch_locals, lnum_lt. cbn [ds_initialLine ln].
  unfold valid_lnum, is_uint64 in Hstart.
  destruct (startLine_ op) as [s]. cbn [ln] in *.
  destruct (Z.ltb_spec 0 s); [reflexivity | f_equal; lia].
Qed.

Lemma full_search_data sd out :
  FullSearchOperation_run calculateProgress config op sd out ->
  out_status out = Finished ->
  interruptRequested_ (out_graph out) = false ->
  lc (getNbMatches (out_searchData out))
  = count_matching ds (ln (startLine_ op)) last /\
  nbMatches (out_graph out) = getNbMatches (out_searchData out) /\
  0 <= lc (nbLinesProcessed_ (out_searchData out)) <= Z.max 0 last /\
  (ln (startLine_ op) < last -> lc (nbLinesProcessed_ (out_searchData out)) = last).
Proof using All.
  destruct (full_search_hypotheses calculateProgress config op Hfile Hchunk Hstart Hend)
    as (H1 & H2 & H3 & H4).
  destruct (full_search_locals calculateProgress config op Hchunk Hstart) as (Hi & He & _).
  fold ds in H1, H2, H3, H4, Hi, He. fold last in He.
  unfold FullSearchOperation_run, try_doSearch. fold ds.
  intros (g & Hrun & [(Hf & Hidle & ->)|(what & _ & ->)]) Hstatus Hflag;
    [|discriminate].
  cbn [finished out_graph out_searchData] in Hflag |- *.
  pose proof (ds_endLine_bounds ds H1 H2 H3 H4) as Hb.
  pose proof (count_matching_le ds (ln (ds_initialLine ds)) (ln (ds_endLine ds))) as Hle.
  unfold valid_lnum, is_uint64 in H3.
  destruct (graph_idle_counts ds H1 H2 H3 H4 0 ltac:(lia) (clear sd) [] g
                              eq_refl Hrun Hidle Hflag) as (Hsame & Hcount).
  rewrite Hi, He in Hcount.
  pose proof (graph_queues_ok_start ds H1 H2 H3 H4 (clear sd) []) as Hq0.
  assert (Hw : graph_watermark ds 0 (graph_start ds (clear sd) []))
    by (unfold graph_watermark; cbn [graph_start searchData clear nbLinesProcessed_ lc]; lia).
  pose proof (graph_watermark_run ds H1 H2 H3 H4 _ _ _ Hrun Hq0 Hw) as Hup.
  unfold graph_watermark in Hup. rewrite He in Hup.
  split; [|split; [|split]].
  - unfold getNbMatches. rewrite Hsame, Hcount. lia.
  - unfold getNbMatches. now rewrite Hsame.
  - exact Hup.
  - intros Hrange. rewrite <- He.
    apply (graph_idle_watermark ds H1 H2 H3 H4 (clear sd) [] g Hrun Hidle Hflag).
    + lia.
    + cbn [clear nbLinesProcessed_ lc]. lia.
Qed.
End FullSearchData.

(** After a full search that ran to its end without an interrupt,
    [getNbMatches] is the number of lines of the match set, and the last
    [searchProgressed] signal, the one with 100 percent, carries that
    number and the start line. *)
Theorem full_search_counts_matches :
  forall (calculateProgress : Z -> Z -> Z) (config : Configuration)
         (op : SearchOperation) (sd : SearchData) (out : Outcome),
    lc (getNbLine (sourceLogData_ op)) <= UINT64_MAX ->
    1 <= searchReadBufferSizeLines config <= INT_MAX ->
    valid_lnum (startLine_ op) ->
    valid_lnum (endLine_ op) ->
    FullSearchOperation_run calculateProgress config op sd out ->
    out_status out = Finished ->
    interruptRequested_ (out_graph out) = false ->
    lc (getNbMatches (out_searchData out)) = Z.of_nat (length (out_matchSet out)) /\
    exists earlier,
      out_signals out
      = earlier ++ [searchProgressed (getNbMatches (out_searchData out)) 100 (startLine_ op);
                    searchFinished].
Proof.
  intros calculateProgress config op sd out Hfile Hchunk Hstart Hend Hrun Hstatus Hflag.
  destruct (full_search_data calculateProgress config op Hfile Hchunk Hstart Hend sd out
                             Hrun Hstatus Hflag) as (Hcount & Hsame & _).
  destruct (full_search_result calculateProgress config op Hfile Hchunk Hstart Hend sd out
                               Hrun Hstatus Hflag) as (Hset & _).
  split.
  - rewrite Hcount, Hset. symmetry.
    apply (matching_lines_count
             (doSearch_locals calculateProgress config op (mkLineNumber 0))).
  - rewrite <- Hsame,
      <- (full_search_initialLine calculateProgress config op Hfile Hchunk Hstart Hend).
    destruct Hrun as (g & _ & [(_ & _ & ->)|(what & _ & ->)]); [|discriminate].
    exists (emitted g). reflexivity.
Qed.

Lemma full_search_counts_matches_witness :
  lc (getNbMatches (out_searchData (sample_full ten_lines 10))) = 5 /\
  out_matchSet (sample_full ten_lines 10) = [0; 2; 4; 7; 9].
Proof.
  split; [|reflexivity].
  replace 5 with (Z.of_nat (length (out_matchSet (sample_full ten_lines 10))))
    by reflexivity.
  apply (full_search_counts_matches spec_calculateProgress sample_config
                                    (search_a ten_lines 0 10) empty_SearchData
                                    (sample_full ten_lines 10)).
  - vm_compute. discriminate.
  - vm_compute. split; discriminate.
  - vm_compute. split; discriminate.
  - vm_compute. split; discriminate.
  - apply full_outcome_run. vm_compute. reflexivity.
  - vm_compute. reflexivity.
  - vm_compute. reflexivity.
Defined.

Lemma count_matching_ext ds ds' a b :
  (forall n, a <= n < b -> line_matches ds n = line_matches ds' n) ->
  count_matching ds a b = count_matching ds' a b.
Proof.
  intros H. unfold count_matching. do 2 f_equal.
  apply filter_ext_in. intros n Hn. apply line_range_In in Hn. now apply H.
Qed.

Section UpdateSearchData.
Variable calculateProgress : Z -> Z -> Z.
Variable config : Configuration.
Variables op0 op : SearchOperation.
Variable r : LineNumber.
Variable sd : SearchData.
Hypothesis Hfile : lc (getNbLine (sourceLogData_ op)) < UINT64_MAX.
Hypothesis Hchunk : 1 <= searchReadBufferSizeLines config <= INT_MAX.
Hypothesis Hstart : valid_lnum (startLine_ op).
Hypothesis Hend0 : valid_lnum (endLine_ op0).
Hypothesis Hend : valid_lnum (endLine_ op).
Hypothesis Hr : valid_lnum r.
Hypothesis Hpattern : regexp_ op0 = regexp_ op.
Hypothesis Hsame : startLine_ op0 = startLine_ op.
Hypothesis Hgrown :
  exists extra, logLines (sourceLogData_ op) = logLines (sourceLogData_ op0) ++ extra.
Hypothesis Hrange : ln (endLine_ op0) <= ln (endLine_ op).
Let last0 : Z := Z.min (ln (endLine_ op0)) (lc (getNbLine (sourceLogData_ op0))).
Let last : Z := Z.min (ln (endLine_ op)) (lc (getNbLine (sourceLogData_ op))).
Hypothesis Hnonempty : ln (startLine_ op) < last0.
Hypothesis Hresume : ln r <= last0.

Lemma update_search_data out0 out :
  FullSearchOperation_run calculateProgress config op0 sd out0 ->
  out_status out0 = Finished ->
  interruptRequested_ (out_graph out0) = false ->
  UpdateSearchOperation_run calculateProgress config op r
                            (out_searchData out0) (delivered (out_graph out0)) out ->
  out_status out = Finished ->
  interruptRequested_ (out_graph out) = false ->
  lc (getNbMatches (out_searchData out))
  = count_matching (doSearch_locals calculateProgress config op (mkLineNumber 0))
                   (ln (startLine_ op)) last
    + (if regexp_ op (line_at (sourceLogData_ op) (last0 - 1)) then 1 else 0).
Proof using All.
  intros Hrun0 Hstatus0 Hflag0 Hrun Hstatus Hflag.
  destruct Hgrown as (extra & Hextra).
  assert (Hlen : lc (getNbLine (sourceLogData_ op0)) <= lc (getNbLine (sourceLogData_ op))).
  { unfold getNbLine. cbn [lc]. rewrite Hextra, length_app. lia. }
  assert (Hfile0 : lc (getNbLine (sourceLogData_ op0)) <= UINT64_MAX) by lia.
  assert (Hstart0 : valid_lnum (startLine_ op0)) by now rewrite Hsame.
  assert (Hlast : last0 <= last) by (unfold last0, last; lia).
  assert (Hnat : 0 <= lc (getNbLine (sourceLogData_ op0)))
    by (unfold getNbLine; cbn [lc]; lia).
  unfold valid_lnum, is_uint64 in Hstart, Hr, Hend, Hend0.
  (* the preceding full search *)
  destruct (full_search_data calculateProgress config op0 Hfile0 Hchunk Hstart0 Hend0
                             sd out0 Hrun0 Hstatus0 Hflag0)
    as (Hcount0 & _ & Hw0 & Hexact0).
  rewrite Hsame in Hcount0, Hexact0. fold last0 in Hcount0, Hw0, Hexact0.
  specialize (Hexact0 Hnonempty).
  set (sd0 := out_searchData out0) in *.
  (* where the update search starts *)
  destruct (update_start_facts r sd0 ltac:(unfold valid_lnum, is_uint64; lia) ltac:(lia))
    as (Hfst & _ & Hnb & _).
  rewrite Hexact0 in Hfst.
  replace (Z.max 0 (Z.max last0 (ln r) - 1)) with (last0 - 1) in Hfst by lia.
  unfold UpdateSearchOperation_run in Hrun. cbv zeta in Hrun.
  set (ds := doSearch_locals calculateProgress config op (fst (update_start r sd0))) in *.
  assert (Hi : ln (ds_initialLine ds) = last0 - 1).
  { unfold ds, doSearch_locals, lnum_lt. cbn [ds_initialLine]. rewrite Hfst.
    destruct (Z.ltb_spec (last0 - 1) (ln (startLine_ op))); [lia | exact Hfst]. }
  assert (He : ln (ds_endLine ds) = last).
  { unfold ds, doSearch_locals, ds_endLine, qMin_lnum, lnum_lt, last.
    cbn [ds_operation ln].
    destruct (Z.ltb_spec (lc (getNbLine (sourceLogData_ op))) (ln (endLine_ op)));
      cbn [ln]; lia. }
  assert (H1 : Z.of_nat (length (logLines (sourceLogData_ (ds_operation ds)))) <= UINT64_MAX)
    by (unfold ds, doSearch_locals, getNbLine in *; cbn [ds_operation lc] in *; lia).
  assert (H2 : 1 <= lc (ds_nbLinesInChunk ds) <= INT_MAX).
  { unfold ds, doSearch_locals. cbn [ds_nbLinesInChunk lc].
    rewrite wrap64_small; [exact Hchunk | unfold is_uint64, INT_MAX, UINT64_MAX in *; lia]. }
  assert (H3 : valid_lnum (ds_initialLine ds))
    by (unfold valid_lnum, is_uint64; rewrite Hi; unfold last0; lia).
  assert (H4 : valid_lnum (endLine_ (ds_operation ds)))
    by (unfold valid_lnum, is_uint64; exact Hend).
  set (ds0 := doSearch_locals calculateProgress config op0 (mkLineNumber 0)) in *.
  set (dsf := doSearch_locals calculateProgress config op (mkLineNumber 0)).
  (* the counts over the two files agree on the lines of the first search *)
  assert (Hsame0 : count_matching ds0 (ln (startLine_ op)) last0
                   = count_matching ds (ln (startLine_ op)) last0).
  { apply count_matching_ext. intros n Hn.
    unfold line_matches, ds0, ds, doSearch_locals. cbn [ds_operation].
    rewrite Hpattern. f_equal. symmetry.
    apply (line_at_grown _ _ extra n Hextra).
    unfold last0, getNbLine in Hn. cbn [lc] in Hn. lia. }
  assert (Hdsf : forall a b, count_matching dsf a b = count_matching ds a b)
    by (intros a b; reflexivity).
  pose proof (count_matching_le ds (ln (startLine_ op)) last0) as Hle0.
  pose proof (count_matching_le ds (last0 - 1) last) as Hle.
  pose proof (count_matching_nonneg ds (ln (startLine_ op)) last0) as Hge0.
  assert (Hlastle : last <= lc (getNbLine (sourceLogData_ op))) by (unfold last; lia).
  destruct Hrun as (g & Hrun & [(Hf & Hidle & ->)|(what & _ & ->)]); [|discriminate].
  cbn [finished out_graph out_searchData] in Hflag |- *.
  destruct (graph_idle_counts ds H1 H2 H3 H4
                              (count_matching ds (ln (startLine_ op)) last0)
                              ltac:(rewrite Hi, He; lia)
                              (snd (update_start r sd0)) (delivered (out_graph out0)) g
                              ltac:(unfold getNbMatches in *; rewrite Hnb, Hcount0; exact Hsame0)
                              Hrun Hidle Hflag)
    as (Hsamec & Hcount).
  unfold getNbMatches. rewrite Hsamec, Hcount, Hi, He, Hdsf.
  rewrite (count_matching_split ds (ln (startLine_ op)) (last0 - 1) last) by lia.
  rewrite (count_matching_split ds (ln (startLine_ op)) (last0 - 1) last0) by lia.
  pose proof (count_matching_one ds (last0 - 1)) as Hone.
  replace (last0 - 1 + 1) with last0 in Hone by lia.
  rewrite Hone.
  change (line_matches ds (last0 - 1))
    with (regexp_ op (line_at (sourceLogData_ op) (last0 - 1))).
  lia.
Qed.
End UpdateSearchData.

(** The counter behind [getNbMatches] after an update search.  After a
    full search over at least one line, let the file have grown and the
    update search resume at a position up to the last processed line: it
    scans the last line of the earlier search again, [addAll] counts what
    that scan finds, and [deleteMatch] lowers no counter.  So
    [getNbMatches] is the number of lines of the match set when that line
    does not match, and one more when it does. *)
Theorem update_search_counts_last_line_again :
  forall (calculateProgress : Z -> Z -> Z) (config : Configuration)
         (op0 op : SearchOperation) (r : LineNumber) (sd : SearchData)
         (out0 out : Outcome),
    lc (getNbLine (sourceLogData_ op)) < UINT64_MAX ->
    1 <= searchReadBufferSizeLines config <= INT_MAX ->
    valid_lnum (startLine_ op) ->
    valid_lnum (endLine_ op0) ->
    valid_lnum (endLine_ op) ->
    valid_lnum r ->
    regexp_ op0 = regexp_ op ->
    startLine_ op0 = startLine_ op ->
    (exists extra, logLines (sourceLogData_ op) = logLines (sourceLogData_ op0) ++ extra) ->
    ln (endLine_ op0) <= ln (endLine_ op) ->
    ln (startLine_ op) < Z.min (ln (endLine_ op0)) (lc (getNbLine (sourceLogData_ op0))) ->
    ln r <= Z.min (ln (endLine_ op0)) (lc (getNbLine (sourceLogData_ op0))) ->
    FullSearchOperation_run calculateProgress config op0 sd out0 ->
    out_status out0 = Finished ->
    interruptRequested_ (out_graph out0) = false ->
    UpdateSearchOperation_run calculateProgress config op r
                              (out_searchData out0) (delivered (out_graph out0)) out ->
    out_status out = Finished ->
    interruptRequested_ (out_graph out) = false ->
    lc (getNbMatches (out_searchData out))
    = Z.of_nat (length (out_matchSet out))
      + (if regexp_ op (line_at (sourceLogData_ op)
                                (Z.min (ln (endLine_ op0))
                                       (lc (getNbLine (sourceLogData_ op0))) - 1))
         then 1 else 0).
Proof.
  intros calculateProgress config op0 op r sd out0 out Hfile Hchunk Hstart Hend0 Hend Hr
         Hpattern Hsame Hgrown Hrange Hnonempty Hresume Hrun0 Hstatus0 Hflag0
         Hrun Hstatus Hflag.
  rewrite (update_search_data calculateProgress config op0 op r sd Hfile Hchunk Hstart Hend0
                              Hend Hr Hpattern Hsame Hgrown Hrange Hnonempty Hresume
                              out0 out Hrun0 Hstatus0 Hflag0 Hrun Hstatus Hflag).
  destruct (update_search_result calculateProgress config op0 op r sd ltac:(lia) Hchunk Hstart
                                 Hend0 Hend Hr Hpattern Hsame Hgrown Hrange ltac:(lia)
                                 out0 out Hrun0 Hstatus0 Hflag0 Hrun Hstatus Hflag)
    as (Hset & _).
  rewrite Hset. f_equal.
Qed.

Lemma update_search_counts_last_line_again_witness :
  lc (getNbMatches (out_searchData (sample_update twelve_lines 12 10))) = 7 /\
  out_matchSet (sample_update twelve_lines 12 10) = [0; 2; 4; 7; 9; 10].
Proof.
  split; [|reflexivity].
  replace 7 with (Z.of_nat (length (out_matchSet (sample_update twelve_lines 12 10)))
                  + (if regexp_ (search_a twelve_lines 0 12)
                                (line_at (sourceLogData_ (search_a twelve_lines 0 12))
                                         (Z.min (ln (endLine_ (search_a ten_lines 0 10)))
                                                (lc (getNbLine (sourceLogData_
                                                                  (search_a ten_lines 0 10))))
                                          - 1))
                     then 1 else 0))
    by reflexivity.
  apply (update_search_counts_last_line_again
           spec_calculateProgress sample_config
           (search_a ten_lines 0 10) (search_a twelve_lines 0 12) (mkLineNumber 10)
           empty_SearchData
           (sample_full ten_lines 10) (sample_update twelve_lines 12 10)).
  - vm_compute. reflexivity.
  - vm_compute. split; discriminate.
  - vm_compute. split; discriminate.
  - vm_compute. split; discriminate.
  - vm_compute. split; discriminate.
  - vm_compute. split; discriminate.
  - reflexivity.
  - reflexivity.
  - exists [[x61]; [x66]]. reflexivity.
  - vm_compute. discriminate.
  - vm_compute. reflexivity.
  - vm_compute. discriminate.
  - apply full_outcome_run. vm_compute. reflexivity.
  - vm_compute. reflexivity.
  - vm_compute. reflexivity.
  - apply update_outcome_run. vm_compute. reflexivity.
  - vm_compute. reflexivity.
  - vm_compute. reflexivity.
Defined.

(* ===================================================================== *)
(** ** Update search: a match that is no longer one *)
(* ===================================================================== *)

(** No step of the graph writes [matches_]. *)
Lemma matches_step ds g g' :
  step ds g g' -> matches_ (searchData g') = matches_ (searchData g).
Proof.
  intros Hstep.
  destruct Hstep as [g _ _|g before b after _ Hq|g before r after _ Hq|g|g|g what _];
    try reflexivity.
  - unfold linesSource, stop_source.
    destruct (interruptRequested_ g); [reflexivity|]. destruct (lnum_ge _ _); reflexivity.
  - unfold matchProcessor. destruct (interruptRequested_ g); [reflexivity|].
    destruct (reportProgress_fields ds (combineResults r (with_resultsQueue (before ++ after) g)))
      as (_ & _ & _ & _ & _ & _ & _ & E & _).
    rewrite E.
    now destruct (combineResults_searchData r (with_resultsQueue (before ++ after) g)) as [-> _].
Qed.

Lemma matches_run ds g g' :
  run ds g g' -> matches_ (searchData g') = matches_ (searchData g).
Proof.
  induction 1 as [g|g g' g'' Hstep _ IH]; [reflexivity|].
  rewrite IH. now apply (matches_step ds).
Qed.

(** C2. The update search of the flow-graph worker goes back one line
    "because it might have been updated (if it was not LF-terminated)" and
    calls [deleteMatch] on that line; [deleteMatch] removes from
    [matches_], which no function fills, so the line stays in the match
    set.  Take the pattern ^a$ and the ten sample lines, the last of them,
    a, without its line feed yet.  Whatever way the full search ran, it
    leaves the lines 0, 2, 4, 7 and 9.  The file then gets the rest of
    line 9, which reads ab now, and the line a.  The update search from
    position 10 starts at line 9 with the search data as they were, and
    every run of it that ends without an interrupt leaves line 9 in the
    match set, while every full search over the same file leaves it out.
    The earlier worker thread, which has no [deleteMatch], leaves line 9 in
    [matches_] in the same way. *)
Theorem update_search_keeps_stale_match :
  forall out0 : Outcome,
    FullSearchOperation_run spec_calculateProgress sample_config
                            (search_is_a ten_lines 0 10) empty_SearchData out0 ->
    out_status out0 = Finished ->
    interruptRequested_ (out_graph out0) = false ->
    out_matchSet out0 = [0; 2; 4; 7; 9] /\
    is_a (line_at ten_lines 9) = true /\
    is_a (line_at rewritten_lines 9) = false /\
    fst (update_start (mkLineNumber 10) (out_searchData out0)) = mkLineNumber 9 /\
    snd (update_start (mkLineNumber 10) (out_searchData out0)) = out_searchData out0 /\
    (exists out,
        UpdateSearchOperation_run spec_calculateProgress sample_config
                                  (search_is_a rewritten_lines 0 11) (mkLineNumber 10)
                                  (out_searchData out0) (delivered (out_graph out0)) out /\
        out_status out = Finished /\
        interruptRequested_ (out_graph out) = false) /\
    (forall out,
        UpdateSearchOperation_run spec_calculateProgress sample_config
                                  (search_is_a rewritten_lines 0 11) (mkLineNumber 10)
                                  (out_searchData out0) (delivered (out_graph out0)) out ->
        out_status out = Finished ->
        interruptRequested_ (out_graph out) = false ->
        out_matchSet out = [0; 2; 4; 7; 9; 10]) /\
    (forall full,
        FullSearchOperation_run spec_calculateProgress sample_config
                                (search_is_a rewritten_lines 0 11) empty_SearchData full ->
        out_status full = Finished ->
        interruptRequested_ (out_graph full) = false ->
        out_matchSet full = [0; 2; 4; 7; 10]) /\
    WorkerThread.matches_ WorkerThread.is_a_data = [0; 2; 4; 7; 9] /\
    map WorkerThread.matches_ WorkerThread.is_a_update_states
    = [[0; 2; 4; 7; 9; 10]; [0; 2; 4; 7; 9]] /\
    map WorkerThread.matches_ (WorkerThread.is_a_full_states rewritten_lines 11)
    = [[0; 2; 4; 7; 10]; [0; 2; 4; 7]; [0; 2]; []].
Proof.
  intros out0 Hrun0 Hst0 Hfl0.
  set (op0 := search_is_a ten_lines 0 10) in *.
  set (op := search_is_a rewritten_lines 0 11).
  assert (Hchunk : 1 <= searchReadBufferSizeLines sample_config <= INT_MAX)
    by (vm_compute; split; discriminate).
  assert (Hfile0 : lc (getNbLine (sourceLogData_ op0)) <= UINT64_MAX)
    by (vm_compute; discriminate).
  assert (Hstart0 : valid_lnum (startLine_ op0)) by (vm_compute; split; discriminate).
  assert (Hend0 : valid_lnum (endLine_ op0)) by (vm_compute; split; discriminate).
  assert (Hfile : lc (getNbLine (sourceLogData_ op)) <= UINT64_MAX)
    by (vm_compute; discriminate).
  assert (Hstart : valid_lnum (startLine_ op)) by (vm_compute; split; discriminate).
  assert (Hend : valid_lnum (endLine_ op)) by (vm_compute; split; discriminate).
  destruct (full_search_result spec_calculateProgress sample_config op0
              Hfile0 Hchunk Hstart0 Hend0 empty_SearchData out0 Hrun0 Hst0 Hfl0)
    as [Hset0 _].
  destruct (full_search_data spec_calculateProgress sample_config op0
              Hfile0 Hchunk Hstart0 Hend0 empty_SearchData out0 Hrun0 Hst0 Hfl0)
    as (_ & _ & _ & Hlast).
  specialize (Hlast ltac:(vm_compute; reflexivity)).
  change (Z.min (ln (endLine_ op0)) (lc (getNbLine (sourceLogData_ op0)))) with 10 in Hlast.
  change (matching_lines op0 (ln (startLine_ op0))
                         (Z.min (ln (endLine_ op0)) (lc (getNbLine (sourceLogData_ op0)))))
    with [0; 2; 4; 7; 9] in Hset0.
  unfold FullSearchOperation_run, try_doSearch in Hrun0.
  destruct Hrun0 as (g0 & Hg0 & [(Hf0 & Hidle0 & ->)|(what & _ & ->)]); [|discriminate].
  cbn [finished out_graph out_searchData] in *.
  set (ds0 := doSearch_locals spec_calculateProgress sample_config op0 (mkLineNumber 0)) in *.
  assert (Hsorted0 : graph_sorted g0).
  { apply (graph_sorted_run ds0 _ _ Hg0).
    apply graph_sorted_start; apply strictly_sorted_nil. }
  assert (Hm0 : matches_ (searchData g0) = [])
    by (rewrite (matches_run ds0 _ _ Hg0); reflexivity).
  assert (Hus : update_start (mkLineNumber 10) (searchData g0)
                = (mkLineNumber 9, searchData g0)).
  { unfold update_start, getLastProcessedLine, qMax_lnum, lnum_lt. cbn [ln]. rewrite Hlast.
    cbn. unfold deleteMatch. rewrite Hm0. cbn [ln bitmap_remove].
    f_equal. destruct (searchData g0) as [m nm ml np nb]. cbn in Hm0 |- *. now subst m. }
  split; [exact Hset0|]. split; [reflexivity|]. split; [reflexivity|].
  split; [now rewrite Hus|]. split; [now rewrite Hus|].
  set (ds := doSearch_locals spec_calculateProgress sample_config op (mkLineNumber 9)).
  assert (H1 : Z.of_nat (length (logLines (sourceLogData_ (ds_operation ds)))) <= UINT64_MAX)
    by (vm_compute; discriminate).
  assert (H2 : 1 <= lc (ds_nbLinesInChunk ds) <= INT_MAX) by (vm_compute; split; discriminate).
  assert (H3 : valid_lnum (ds_initialLine ds)) by (vm_compute; split; discriminate).
  assert (H4 : valid_lnum (endLine_ (ds_operation ds))) by (vm_compute; split; discriminate).
  split; [|split; [|split]].
  - unfold UpdateSearchOperation_run. cbv zeta. rewrite Hus. cbn [fst snd]. fold op. fold ds.
    set (g1 := graph_start ds (searchData g0) (delivered g0)).
    destruct (rounds_come_to_rest ds H1 H2 H3 H4 2%nat g1) as [Hidle Hflag];
      try reflexivity; try (vm_compute; split; discriminate); try (vm_compute; discriminate).
    exists (finished ds (rounds ds 3 g1)). split; [|split; [reflexivity | exact Hflag]].
    exists (rounds ds 3 g1). split; [now apply rounds_run|].
    left. split; [now rewrite rounds_failure | split; [exact Hidle | reflexivity]].
  - intros out Hrun Hst Hfl.
    unfold UpdateSearchOperation_run in Hrun. cbv zeta in Hrun.
    rewrite Hus in Hrun. cbn [fst snd] in Hrun. fold op in Hrun. fold ds in Hrun.
    destruct Hrun as (g & Hg & [(Hf & Hidle & ->)|(what & _ & ->)]); [|discriminate].
    cbn [finished out_graph] in Hfl.
    change (out_matchSet (finished ds g)) with (matchSet g).
    assert (Hsorted : graph_sorted g).
    { apply (graph_sorted_run ds _ _ Hg).
      destruct Hsorted0 as (S1 & S2 & S3 & _). now apply graph_sorted_start. }
    apply strictly_sorted_ext; [now apply matchSet_sorted| |].
    + repeat (constructor; [|repeat (constructor; try reflexivity)]). constructor.
    + intros n.
      rewrite (graph_idle_match_set ds H1 H2 H3 H4 _ _ g n Hg Hidle Hfl).
      change (matchSet (graph_start ds (searchData g0) (delivered g0)))
        with (out_matchSet (finished ds0 g0)).
      rewrite Hset0.
      change (ln (ds_initialLine ds)) with 9. change (ln (ds_endLine ds)) with 11.
      split.
      * intros [Hn|[Hn Hmatch]].
        -- cbn [In] in Hn |- *. tauto.
        -- assert (Hcase : n = 9 \/ n = 10) by lia.
           destruct Hcase as [-> | ->]; cbn [In]; tauto.
      * intros Hn. cbn [In] in Hn.
        destruct Hn as [<-|[<-|[<-|[<-|[<-|[<-|[]]]]]]];
          try (left; cbn [In]; tauto).
        right. split; [lia | reflexivity].
  - intros full Hfull Hsf Hff.
    destruct (full_search_result spec_calculateProgress sample_config op
                Hfile Hchunk Hstart Hend empty_SearchData full Hfull Hsf Hff) as [Hset _].
    exact Hset.
  - repeat split; vm_compute; reflexivity.
Qed.

Lemma update_search_keeps_stale_match_witness :
  out_matchSet (full_outcome spec_calculateProgress sample_config
                             (search_is_a ten_lines 0 10) empty_SearchData 5)
  = [0; 2; 4; 7; 9] /\
  out_matchSet
    (update_outcome spec_calculateProgress sample_config
       (search_is_a rewritten_lines 0 11) (mkLineNumber 10)
       (out_searchData (full_outcome spec_calculateProgress sample_config
                                     (search_is_a ten_lines 0 10) empty_SearchData 5))
       (delivered (out_graph (full_outcome spec_calculateProgress sample_config
                                           (search_is_a ten_lines 0 10) empty_SearchData 5)))
       5)
  = [0; 2; 4; 7; 9; 10].
Proof.
  destruct (update_search_keeps_stale_match
              (full_outcome spec_calculateProgress sample_config
                            (search_is_a ten_lines 0 10) empty_SearchData 5))
    as (Hset0 & _ & _ & _ & _ & _ & Hall & _).
  - apply full_outcome_run. vm_compute. reflexivity.
  - vm_compute. reflexivity.
  - vm_compute. reflexivity.
  - split; [exact Hset0|].
    apply Hall; [apply update_outcome_run | |]; vm_compute; reflexivity.
Defined.

(* ===================================================================== *)
(** ** An interrupt between two chunks *)
(* ===================================================================== *)

Lemma linesSource_reads ds g :
  interruptRequested_ g = false ->
  ln (chunkStart g) < ln (ds_endLine ds) ->
  let number :=
    mkLinesCount (Z.min (lc (ds_nbLinesInChunk ds))
                        (lc (lnum_diff (ds_endLine ds) (chunkStart g)))) in
  let g' := linesSource ds g in
  interruptRequested_ g' = false /\
  chunkStart g' = lnum_plus (chunkStart g) (ds_nbLinesInChunk ds) /\
  sourceActive g' = true /\
  lineBlocksQueue g'
  = lineBlocksQueue g
    ++ [mkSearchBlockData (chunkStart g)
                          (getLinesRaw (sourceLogData_ (ds_operation ds)) (chunkStart g) number)] /\
  resultsQueue g' = resultsQueue g /\
  searchData g' = searchData g /\
  delivered g' = delivered g /\
  failure g' = failure g.
Proof.
  intros Hflag Hlt. cbv zeta. unfold linesSource. rewrite Hflag.
  unfold lnum_ge, lnum_lt.
  destruct (Z.ltb_spec (ln (chunkStart g)) (ln (ds_endLine ds))); [|lia].
  cbn [negb interruptRequested_ chunkStart sourceActive lineBlocksQueue resultsQueue
       searchData delivered failure].
  repeat split; reflexivity.
Qed.

Lemma interrupted_run_data ds g g' :
  run ds g g' -> interruptRequested_ g = true ->
  nbLinesProcessed_ (searchData g') = nbLinesProcessed_ (searchData g).
Proof.
  induction 1 as [g|g g' g'' Hstep _ IH]; intros Hflag; [reflexivity|].
  destruct (interrupted_step ds g g' Hflag Hstep) as (Hflag' & _).
  rewrite (IH Hflag').
  destruct Hstep as [g _ _|g before b after _ Hq|g before r after _ Hq|g|g|g what _];
    try reflexivity.
  - unfold linesSource. now rewrite Hflag.
  - unfold matchProcessor. now rewrite Hflag.
Qed.

Section InterruptGap.
Variable ds : DoSearch.
Hypothesis Hfile :
  Z.of_nat (length (logLines (sourceLogData_ (ds_operation ds)))) <= UINT64_MAX.
Hypothesis Hchunk : 1 <= lc (ds_nbLinesInChunk ds) <= INT_MAX.
Hypothesis Hinit : valid_lnum (ds_initialLine ds).
Hypothesis Hend : valid_lnum (endLine_ (ds_operation ds)).
Hypothesis Htwo : ln (ds_initialLine ds) + lc (ds_nbLinesInChunk ds) < ln (ds_endLine ds).

Lemma interrupt_gap sd d :
  0 <= lc (nbLinesProcessed_ sd) <= ln (ds_initialLine ds) + lc (ds_nbLinesInChunk ds) ->
  exists g,
    run ds (graph_start ds sd d) g /\
    graph_idle g = true /\ failure g = None /\ interruptRequested_ g = true /\
    lc (nbLinesProcessed_ (searchData g))
    = Z.min (ln (ds_endLine ds)) (ln (ds_initialLine ds) + 2 * lc (ds_nbLinesInChunk ds)) /\
    forall n,
      In n (matchSet g) ->
      In n (matchSet (graph_start ds sd d))
      \/ ln (ds_initialLine ds) + lc (ds_nbLinesInChunk ds) <= n.
Proof using All.
  intros Hw0.
  pose proof (ds_endLine_bounds ds Hfile Hchunk Hinit Hend) as Hbnd.
  pose proof Hinit as Hinit'. unfold valid_lnum, is_uint64 in Hinit'.
  set (g0 := graph_start ds sd d).
  assert (Hq0 : graph_queues_ok ds g0)
    by (apply graph_queues_ok_start; assumption).
  (* the first two reads *)
  destruct (linesSource_reads ds g0 eq_refl ltac:(cbn [g0 graph_start chunkStart]; lia))
    as (F1 & C1 & A1 & B1 & R1 & S1 & D1 & X1).
  set (g1 := linesSource ds g0) in *.
  cbn [g0 graph_start chunkStart lineBlocksQueue resultsQueue searchData delivered failure app]
    in C1, B1, R1, S1, D1, X1.
  assert (Hc1 : ln (chunkStart g1) = ln (ds_initialLine ds) + lc (ds_nbLinesInChunk ds)).
  { rewrite C1, lnum_plus_exact;
      [reflexivity | exact Hinit
       | unfold valid_lcount, is_uint64, INT_MAX, UINT64_MAX in *; lia | lia]. }
  destruct (linesSource_reads ds g1 F1 ltac:(lia)) as (F2 & C2 & A2 & B2 & R2 & S2 & D2 & X2).
  set (g2 := linesSource ds g1) in *.
  rewrite B1 in B2. rewrite R1 in R2. rewrite S1 in S2. rewrite D1 in D2. rewrite X1 in X2.
  cbn [app] in B2.
  set (b1 := mkSearchBlockData (ds_initialLine ds) _) in *.
  set (number2 := mkLinesCount (Z.min (lc (ds_nbLinesInChunk ds))
                                      (lc (lnum_diff (ds_endLine ds) (chunkStart g1))))) in *.
  set (b2 := mkSearchBlockData (chunkStart g1) _) in *.
  assert (Hn2 : ln (chunkStart g1) + lc number2
                = Z.min (ln (ds_endLine ds))
                        (ln (ds_initialLine ds) + 2 * lc (ds_nbLinesInChunk ds))).
  { unfold number2. cbn [lc]. rewrite lnum_diff_exact;
      [lia | unfold valid_lnum, is_uint64; lia | unfold valid_lnum, is_uint64; lia]. }
  assert (Hok2 : chunk_ok ds (chunkStart g1) number2).
  { apply (next_chunk ds Hfile Hchunk Hinit Hend (chunkStart g1)); lia. }
  (* a matcher takes the second block, the match processor its result *)
  set (g3 := regexMatcher ds b2 ([b1] ++ []) g2).
  set (r2 := filterLines (regexp_ (ds_operation ds)) (blk_lines b2) (blk_chunkStart b2)).
  assert (Hr2 : result_ok ds r2).
  { exists (chunkStart g1), number2. split; [exact Hok2 | reflexivity]. }
  destruct (result_ok_holds ds Hfile Hchunk Hinit Hend r2 Hr2) as (_ & Hlines2 & _).
  assert (Hcs2 : psr_chunkStart r2 = chunkStart g1) by apply filterLines_chunkStart.
  assert (Hpl2 : lc (psr_processedLines r2) = lc number2).
  { unfold r2. rewrite filterLines_processedLines. cbn [b2 blk_lines blk_chunkStart].
    destruct Hok2 as (_ & Hnum & Hhi).
    rewrite getLinesRaw_numberOfLines by lia. reflexivity. }
  assert (F3 : interruptRequested_ g3 = false) by exact F2.
  assert (R3 : resultsQueue g3 = [] ++ r2 :: [])
    by (cbn [g3 regexMatcher resultsQueue]; rewrite R2; reflexivity).
  destruct (matchProcessor_commit ds Hfile Hchunk Hinit Hend r2 ([] ++ []) g3 F3)
    as (M4 & _ & W4 & _ & _ & R4 & B4 & _ & A4 & F4 & _).
  { rewrite Hpl2. destruct Hok2 as (_ & Hnum & _). lia. }
  set (g4 := matchProcessor ds r2 ([] ++ []) g3) in *.
  cbn [g3 regexMatcher lineBlocksQueue sourceActive searchData app] in B4, A4, W4.
  rewrite S2 in W4. rewrite A2 in A4.
  assert (X4 : failure g4 = None).
  { unfold g4. rewrite matchProcessor_failure. cbn [g3 regexMatcher failure]. exact X2. }
  (* the interrupt, and the graph comes to rest *)
  set (g5 := interrupt g4).
  assert (F5 : interruptRequested_ g5 = true) by reflexivity.
  assert (X5 : failure g5 = None) by exact X4.
  set (g := rounds ds 3 g5).
  assert (Hrun5 : run ds g0 g5).
  { eapply run_step; [apply step_linesSource; reflexivity|].
    eapply run_step; [apply step_linesSource; [exact X1 | exact A1]|].
    eapply run_step.
    { apply (step_regexMatcher ds g2 [b1] b2 []); [exact X2 | exact B2]. }
    eapply run_step.
    { apply (step_matchProcessor ds g3 [] r2 []);
        [cbn [g3 regexMatcher failure]; exact X2 | exact R3]. }
    apply run_one. apply step_interrupt. }
  assert (Hrun : run ds g5 g) by (apply rounds_run; exact X5).
  destruct (interrupted_run ds g5 g Hrun F5) as (Fg & _ & Mg).
  exists g. split; [exact (run_trans ds _ _ _ Hrun5 Hrun)|].
  split.
  { apply rounds_drain; [exact F5|].
    cbn [g5 interrupt lineBlocksQueue resultsQueue]. rewrite B4, R4. cbn [length app]. lia. }
  split; [unfold g; rewrite rounds_failure; exact X5|].
  split; [exact Fg|].
  split.
  - rewrite (interrupted_run_data ds g5 g Hrun F5).
    cbn [g5 interrupt searchData]. rewrite W4, Hcs2, Hpl2, Hn2.
    rewrite wrap64_small by (unfold is_uint64; lia). lia.
  - intros n Hn. apply Mg in Hn.
    change (matchSet g5) with (matchSet g4) in Hn.
    apply M4 in Hn. destruct Hn as [Hn|Hn].
    + left. rewrite matchSet_In in Hn |- *.
      cbn [g3 regexMatcher delivered searchData] in Hn. rewrite D2, S2 in Hn. exact Hn.
    + right. rewrite Hlines2, filter_In, line_range_In, Hcs2 in Hn. lia.
Qed.
End InterruptGap.

(** An interrupt can leave lines unsearched below the last processed
    line.  When a full search has at least two chunks to read, this run is
    possible: the second chunk goes through a matcher and the match
    processor before the first one, then [interrupt] is called, and the
    match processor drops the result of the first chunk.  The operation
    ends through the end of its [try] block, [getLastProcessedLine] stands
    at the end of the second chunk, and no line of the first chunk is in
    the match set, whether the pattern matches it or not. *)
Theorem interrupted_search_leaves_lines_unsearched :
  forall (calculateProgress : Z -> Z -> Z) (config : Configuration)
         (op : SearchOperation) (sd : SearchData),
    lc (getNbLine (sourceLogData_ op)) <= UINT64_MAX ->
    1 <= searchReadBufferSizeLines config <= INT_MAX ->
    valid_lnum (startLine_ op) ->
    valid_lnum (endLine_ op) ->
    ln (startLine_ op) + searchReadBufferSizeLines config
    < Z.min (ln (endLine_ op)) (lc (getNbLine (sourceLogData_ op))) ->
    exists out,
      FullSearchOperation_run calculateProgress config op sd out /\
      out_status out = Finished /\
      interruptRequested_ (out_graph out) = true /\
      ln (getLastProcessedLine (out_searchData out))
      = Z.min (Z.min (ln (endLine_ op)) (lc (getNbLine (sourceLogData_ op))))
              (ln (startLine_ op) + 2 * searchReadBufferSizeLines config) /\
      forall n,
        In n (out_matchSet out) ->
        ln (startLine_ op) + searchReadBufferSizeLines config <= n.
Proof.
  intros calculateProgress config op sd Hfile Hchunk Hstart Hend Htwo.
  destruct (full_search_hypotheses calculateProgress config op Hfile Hchunk Hstart Hend)
    as (H1 & H2 & H3 & H4).
  destruct (full_search_locals calculateProgress config op Hchunk Hstart) as (Hi & He & Hc).
  set (ds := doSearch_locals calculateProgress config op (mkLineNumber 0)) in *.
  unfold valid_lnum, is_uint64 in Hstart.
  destruct (interrupt_gap ds H1 H2 H3 H4 ltac:(lia) (clear sd) [])
    as (g & Hrun & Hidle & Hfail & Hflag & Hw & Hset).
  { cbn [clear nbLinesProcessed_ lc]. lia. }
  exists (finished ds g).
  split.
  { exists g. split; [exact Hrun|]. left. repeat split; assumption. }
  split; [reflexivity|]. split; [exact Hflag|].
  cbn [finished out_searchData out_graph]. unfold getLastProcessedLine. cbn [ln].
  split; [rewrite Hw, Hi, He, Hc; reflexivity|].
  intros n Hn. destruct (Hset n Hn) as [H|H]; [|lia].
  rewrite matchSet_In in H. cbn [graph_start delivered searchData clear newMatches_] in H.
  destruct H as [[]|[]].
Qed.

Lemma interrupted_search_leaves_lines_unsearched_witness :
  exists out,
    FullSearchOperation_run spec_calculateProgress sample_config
                            (search_a ten_lines 0 10) empty_SearchData out /\
    out_status out = Finished /\
    interruptRequested_ (out_graph out) = true /\
    ln (getLastProcessedLine (out_searchData out)) = 8 /\
    forall n, In n (out_matchSet out) -> 4 <= n.
Proof.
  apply (interrupted_search_leaves_lines_unsearched
           spec_calculateProgress sample_config (search_a ten_lines 0 10) empty_SearchData).
  - vm_compute. discriminate.
  - vm_compute. split; discriminate.
  - vm_compute. split; discriminate.
  - vm_compute. split; discriminate.
  - vm_compute. reflexivity.
Defined.

(* ===================================================================== *)
(** ** The earlier worker thread: what a full search finds *)
(* ===================================================================== *)

Lemma legacy_filterLines_loop_In matcher lengthOf chunkStart :
  valid_lnum chunkStart ->
  forall lines i results,
    0 <= i ->
    ln chunkStart + i + Z.of_nat (length lines) <= UINT64_MAX ->
    forall n,
      In n (psr_matchingLines
              (WorkerThread.filterLines_loop matcher lengthOf lines chunkStart i results))
      <-> In n (psr_matchingLines results)
          \/ exists k, (k < length lines)%nat
                       /\ n = ln chunkStart + i + Z.of_nat k
                       /\ matcher (nth k lines []) = true.
Proof.
  intros Hcs.
  induction lines as [|line rest IH]; intros i results Hi Hmax n;
    cbn [WorkerThread.filterLines_loop].
  - split; [now left | intros [H|(k & Hk & _)]; [exact H | cbn [length] in Hk; lia]].
  - cbn [length] in Hmax.
    assert (Hnext : wrap64 (i + 1) = i + 1).
    { apply wrap64_small. unfold valid_lnum, is_uint64 in *. lia. }
    rewrite Hnext, IH by lia. clear IH.
    assert (Hshift :
              (exists k, (k < length rest)%nat /\ n = ln chunkStart + (i + 1) + Z.of_nat k
                         /\ matcher (nth k rest []) = true)
              <-> (exists k, (0 < k < S (length rest))%nat
                             /\ n = ln chunkStart + i + Z.of_nat k
                             /\ matcher (nth k (line :: rest) []) = true)).
    { split.
      - intros (k & Hk & Hn & Hm). exists (S k). cbn [nth].
        repeat split; [lia | lia | lia | exact Hm].
      - intros (k & Hk & Hn & Hm). destruct k as [|k]; [lia|].
        exists k. cbn [nth] in Hm. repeat split; [lia | lia | exact Hm]. }
    rewrite Hshift. clear Hshift.
    destruct (matcher line) eqn:Hm; cbn [psr_matchingLines length].
    + rewrite in_app_iff.
      rewrite lnum_plus_exact by (unfold valid_lnum, valid_lcount, is_uint64 in *; cbn [lc]; lia).
      cbn [ln lc In]. split.
      * intros [[H|[->|[]]]|(k & Hk & Hn & Hmk)].
        -- now left.
        -- right. exists O. cbn [nth]. repeat split; [lia | lia | exact Hm].
        -- right. exists k. repeat split; [lia | exact Hn | exact Hmk].
      * intros [H|(k & Hk & Hn & Hmk)]; [left; now left|].
        destruct k as [|k].
        -- left. right. left. lia.
        -- right. exists (S k). repeat split; [lia | lia | exact Hn | exact Hmk].
    + split.
      * intros [H|(k & Hk & Hn & Hmk)]; [now left|].
        right. exists k. repeat split; [lia | exact Hn | exact Hmk].
      * intros [H|(k & Hk & Hn & Hmk)]; [now left|].
        destruct k as [|k]; [cbn [nth] in Hmk; congruence|].
        right. exists (S k). repeat split; [lia | lia | exact Hn | exact Hmk].
Qed.

(** What [filterLines] of the earlier worker finds in a chunk read from
    the file. *)
Lemma legacy_filterLines_getLinesRaw matcher lengthOf ld chunkStart number n :
  valid_lnum chunkStart ->
  0 <= lc number ->
  ln chunkStart + lc number <= Z.of_nat (length (logLines ld)) ->
  Z.of_nat (length (logLines ld)) <= UINT64_MAX ->
  In n (psr_matchingLines
          (WorkerThread.filterLines matcher lengthOf
                                    (utf8View (getLinesRaw ld chunkStart number)) chunkStart))
  <-> ln chunkStart <= n < ln chunkStart + lc number /\ matcher (line_at ld n) = true.
Proof.
  intros Hcs Hnum Hin Hmax.
  assert (H0 : 0 <= ln chunkStart) by (unfold valid_lnum, is_uint64 in Hcs; lia).
  pose proof (getLinesRaw_length ld chunkStart number H0 Hnum Hin) as Hlen.
  unfold WorkerThread.filterLines.
  rewrite legacy_filterLines_loop_In by (try exact Hcs; lia).
  cbn [psr_matchingLines In]. split.
  - intros [[]|(k & Hk & -> & Hm)].
    rewrite getLinesRaw_nth in Hm by lia.
    replace (ln chunkStart + 0 + Z.of_nat k) with (ln chunkStart + Z.of_nat k) by lia.
    split; [lia | exact Hm].
  - intros [Hn Hm]. right. exists (Z.to_nat (n - ln chunkStart)).
    split; [lia|]. split; [lia|].
    rewrite getLinesRaw_nth by lia.
    replace (ln chunkStart + Z.of_nat (Z.to_nat (n - ln chunkStart))) with n by lia.
    exact Hm.
Qed.

Lemma vector_insert_Permutation v it elements :
  Permutation (WorkerThread.vector_insert v it elements) (v ++ elements).
Proof.
  unfold WorkerThread.vector_insert.
  eapply Permutation_trans.
  - apply Permutation_app_head. apply Permutation_app_comm.
  - rewrite app_assoc, firstn_skipn. apply Permutation_refl.
Qed.

Lemma legacy_processMatches_nonempty arrived :
  forall maxLength sd, WorkerThread.processMatches arrived maxLength sd <> [].
Proof.
  induction arrived as [|r rest IH]; intros maxLength sd; cbn [WorkerThread.processMatches].
  - discriminate.
  - destruct (lc (psr_processedLines r) =? 0); [apply IH|].
    cbv zeta. intros H. apply app_eq_nil in H. destruct H as [_ H]. discriminate.
Qed.

Lemma hd_error_app_nonempty {A} (l l' : list A) : l <> [] -> hd_error (l ++ l') = hd_error l.
Proof. destruct l; [contradiction | reflexivity]. Qed.

(** The elements of the vector after the last result, with their
    repetitions: the ones it held, and the matching lines of every result
    that arrived. *)
Lemma legacy_processMatches_final arrived :
  forall maxLength sd,
    exists final,
      legacy_final (WorkerThread.processMatches arrived maxLength sd) = Some final /\
      Permutation
        (WorkerThread.matches_ final)
        (WorkerThread.matches_ sd
         ++ concat (map psr_matchingLines
                        (filter (fun r => negb (lc (psr_processedLines r) =? 0)) arrived))).
Proof.
  unfold legacy_final.
  induction arrived as [|r rest IH]; intros maxLength sd;
    cbn [WorkerThread.processMatches filter map concat].
  - exists sd. split; [reflexivity|]. rewrite app_nil_r. apply Permutation_refl.
  - destruct (lc (psr_processedLines r) =? 0); cbn [negb]; [apply IH|].
    cbv zeta. cbn [map concat].
    match goal with
    | |- context [WorkerThread.processMatches rest ?m ?s] =>
        destruct (IH m s) as (final & Hfinal & Hperm)
    end.
    exists final. split.
    + rewrite hd_error_app_nonempty by apply legacy_processMatches_nonempty. exact Hfinal.
    + eapply Permutation_trans; [exact Hperm|].
      rewrite app_assoc. apply Permutation_app_tail.
      unfold WorkerThread.addAll. cbn [WorkerThread.matches_].
      destruct (psr_matchingLines r) as [|front more] eqn:Hbatch.
      * rewrite app_nil_r. apply Permutation_refl.
      * apply vector_insert_Permutation.
Qed.

Section LegacyComplete.
Variable op : WorkerThread.SearchOperation.
Hypothesis Hfile : Z.of_nat (length (logLines (WorkerThread.sourceLogData_ op))) <= UINT64_MAX.
Hypothesis Hend : valid_lnum (WorkerThread.endLine_ op).
Hypothesis Hchunk : 1 <= lc (WorkerThread.nbLinesInChunk op) <= UINT64_MAX.

(** With reads enough to reach the end line, the matching lines of the
    results are the matching lines from the first chunk to the end line. *)
Lemma legacy_partial_results_In reads :
  forall chunkStart n,
    valid_lnum chunkStart ->
    (exists r, In r (WorkerThread.partial_results reads op chunkStart)
               /\ lc (psr_processedLines r) <> 0 /\ In n (psr_matchingLines r))
    -> ln chunkStart <= n < ln (WorkerThread.endLine op)
       /\ WorkerThread.regexp_ op (line_at (WorkerThread.sourceLogData_ op) n) = true.
Proof using All.
  pose proof (legacy_endLine_bounds op Hfile Hend Hchunk) as Hbounds.
  unfold WorkerThread.partial_results.
  induction reads as [|reads IH]; intros chunkStart n Hcs (r & Hr & _ & Hn);
    cbn [WorkerThread.chunks map] in Hr; [destruct Hr|].
  unfold lnum_lt in Hr.
  destruct (Z.ltb_spec (ln chunkStart) (ln (WorkerThread.endLine op))) as [Hlt|Hge];
    [|destruct Hr].
  cbv zeta in Hr. cbn [map fst snd In] in Hr.
  pose proof Hcs as Hcs'. unfold valid_lnum, is_uint64 in Hcs'.
  assert (Hdiff : lc (lnum_diff (WorkerThread.endLine op) chunkStart)
                  = ln (WorkerThread.endLine op) - ln chunkStart).
  { rewrite lnum_diff_exact; [lia | unfold valid_lnum, is_uint64; lia | exact Hcs]. }
  rewrite Hdiff in Hr.
  destruct Hr as [<-|Hr].
  - apply legacy_filterLines_getLinesRaw in Hn;
      [| exact Hcs | cbn [lc]; lia | cbn [lc]; lia | exact Hfile].
    cbn [lc] in Hn. destruct Hn as [Hrange Hm]. split; [lia | exact Hm].
  - assert (Hnext : valid_lnum (lnum_plus chunkStart (WorkerThread.nbLinesInChunk op)))
      by (apply lnum_plus_valid; [exact Hcs | unfold valid_lcount, is_uint64; lia]).
    destruct (IH _ n Hnext) as [Hrange Hm].
    { exists r. split; [exact Hr|]. split; [|exact Hn].
      apply in_map_iff in Hr. destruct Hr as (c & <- & Hc).
      destruct (legacy_chunks_apart op Hfile Hend Hchunk reads _ Hnext) as [Hall _].
      rewrite Forall_forall in Hall. destruct (Hall c Hc) as (Hv & _ & Hone & Hhi).
      destruct (legacy_filterLines_ok (WorkerThread.regexp_ op) (WorkerThread.lengthOf_ op)
                                      (snd c) (fst c) Hv Hone Hhi) as ((_ & Hp & _) & _).
      lia. }
    split; [|exact Hm].
    assert (ln chunkStart <= ln (lnum_plus chunkStart (WorkerThread.nbLinesInChunk op))).
    { destruct (Z.le_gt_cases (ln chunkStart + lc (WorkerThread.nbLinesInChunk op)) UINT64_MAX).
      - rewrite lnum_plus_exact by (try exact Hcs; unfold valid_lcount, is_uint64; lia).
        cbn [ln]. lia.
      - rewrite lnum_plus_saturates by (try exact Hcs; unfold valid_lcount, is_uint64; lia).
        cbn [ln maxValue_LineNumber]. lia. }
    lia.
Qed.

Lemma legacy_partial_results_cover reads :
  forall chunkStart n,
    valid_lnum chunkStart ->
    ln (WorkerThread.endLine op) - ln chunkStart <= Z.of_nat reads ->
    ln chunkStart <= n < ln (WorkerThread.endLine op) ->
    WorkerThread.regexp_ op (line_at (WorkerThread.sourceLogData_ op) n) = true ->
    exists r, In r (WorkerThread.partial_results reads op chunkStart)
              /\ lc (psr_processedLines r) <> 0 /\ In n (psr_matchingLines r).
Proof using All.
  pose proof (legacy_endLine_bounds op Hfile Hend Hchunk) as Hbounds.
  unfold WorkerThread.partial_results.
  induction reads as [|reads IH]; intros chunkStart n Hcs Hreads Hrange Hm; [lia|].
  cbn [WorkerThread.chunks]. unfold lnum_lt.
  destruct (Z.ltb_spec (ln chunkStart) (ln (WorkerThread.endLine op))) as [Hlt|Hge]; [|lia].
  cbv zeta. cbn [map fst snd].
  pose proof Hcs as Hcs'. unfold valid_lnum, is_uint64 in Hcs'.
  assert (Hdiff : lc (lnum_diff (WorkerThread.endLine op) chunkStart)
                  = ln (WorkerThread.endLine op) - ln chunkStart).
  { rewrite lnum_diff_exact; [lia | unfold valid_lnum, is_uint64; lia | exact Hcs]. }
  rewrite Hdiff.
  set (count := Z.min (lc (WorkerThread.nbLinesInChunk op))
                      (ln (WorkerThread.endLine op) - ln chunkStart)).
  assert (Hcount : 1 <= count <= ln (WorkerThread.endLine op) - ln chunkStart)
    by (unfold count; lia).
  destruct (Z.lt_ge_cases n (ln chunkStart + count)) as [Hhere|Hlater].
  - eexists. split; [left; reflexivity|]. split.
    + pose proof (getLinesRaw_length (WorkerThread.sourceLogData_ op) chunkStart
                                     (mkLinesCount count)
                                     ltac:(lia) ltac:(cbn [lc]; lia) ltac:(cbn [lc]; lia))
        as Hlen.
      cbn [lc] in Hlen.
      destruct (legacy_filterLines_ok
                  (WorkerThread.regexp_ op) (WorkerThread.lengthOf_ op)
                  (utf8View (getLinesRaw (WorkerThread.sourceLogData_ op) chunkStart
                                         (mkLinesCount count)))
                  chunkStart Hcs ltac:(lia) ltac:(lia)) as ((_ & Hp & _) & _).
      lia.
    + apply legacy_filterLines_getLinesRaw;
        [exact Hcs | cbn [lc]; lia | cbn [lc]; lia | exact Hfile|].
      cbn [lc]. split; [lia | exact Hm].
  - assert (Hnext : valid_lnum (lnum_plus chunkStart (WorkerThread.nbLinesInChunk op)))
      by (apply lnum_plus_valid; [exact Hcs | unfold valid_lcount, is_uint64; lia]).
    assert (Hfit : ln chunkStart + lc (WorkerThread.nbLinesInChunk op) <= UINT64_MAX)
      by (unfold count in Hlater; lia).
    assert (Hln : ln (lnum_plus chunkStart (WorkerThread.nbLinesInChunk op))
                  = ln chunkStart + lc (WorkerThread.nbLinesInChunk op)).
    { rewrite lnum_plus_exact by (try exact Hcs; unfold valid_lcount, is_uint64; lia).
      reflexivity. }
    destruct (IH _ n Hnext) as (r & Hr & Hp & Hn);
      [rewrite Hln; lia | rewrite Hln; unfold count in Hlater; lia | exact Hm|].
    exists r. split; [right; exact Hr|]. split; assumption.
Qed.
End LegacyComplete.

(** In the earlier worker thread a full search that reads up to the end
    line leaves in [matches_], in whatever order the results of the matcher
    threads arrive, exactly the lines from the start line to
    [min(line count, endLine_)] that the pattern matches, in ascending
    order, and [getNbMatches] is their number. *)
Theorem legacy_full_search_complete (op : WorkerThread.SearchOperation) (reads : nat)
        (sd : WorkerThread.SearchData) (arrived : list PartialSearchResults) :
  Z.of_nat (length (logLines (WorkerThread.sourceLogData_ op))) <= UINT64_MAX ->
  valid_lnum (WorkerThread.startLine_ op) ->
  valid_lnum (WorkerThread.endLine_ op) ->
  1 <= lc (WorkerThread.nbLinesInChunk op) <= UINT64_MAX ->
  ln (WorkerThread.endLine op) - ln (WorkerThread.startLine_ op) <= Z.of_nat reads ->
  WorkerThread.arrival op reads (mkLineNumber 0) arrived ->
  exists final,
    legacy_final (WorkerThread.FullSearchOperation_start op reads sd arrived) = Some final /\
    WorkerThread.matches_ final
    = legacy_matching_lines op (ln (WorkerThread.startLine_ op)) (ln (WorkerThread.endLine op)) /\
    lc (WorkerThread.getNbMatches final)
    = Z.of_nat (length (legacy_matching_lines op (ln (WorkerThread.startLine_ op))
                                              (ln (WorkerThread.endLine op)))).
Proof.
  intros Hfile Hstart Hend Hchunk Hreads Harrival.
  unfold WorkerThread.FullSearchOperation_start, WorkerThread.doSearch.
  unfold WorkerThread.arrival in Harrival.
  pose proof (legacy_endLine_bounds op Hfile Hend Hchunk) as Hbounds.
  assert (Hinit : valid_lnum (WorkerThread.adjust op (mkLineNumber 0))
                  /\ ln (WorkerThread.adjust op (mkLineNumber 0))
                     = ln (WorkerThread.startLine_ op)).
  { unfold WorkerThread.adjust, lnum_lt. cbn [ln].
    unfold valid_lnum, is_uint64 in Hstart.
    destruct (Z.ltb_spec 0 (ln (WorkerThread.startLine_ op))).
    - split; [exact Hstart | reflexivity].
    - unfold valid_lnum, is_uint64, UINT64_MAX. cbn [ln]. lia. }
  destruct Hinit as [Hinit Hfirst].
  destruct (legacy_processMatches_final arrived (mkLineLength 0) (WorkerThread.clear sd))
    as (final & Hfinal & Hperm).
  cbn [WorkerThread.clear WorkerThread.matches_ app] in Hperm.
  exists final. split; [exact Hfinal|].
  assert (Hsorted : strictly_sorted (WorkerThread.matches_ final)).
  { destruct (legacy_partial_results_apart op Hfile Hend Hchunk reads _ Hinit)
      as (Hok & Hnodup & Hapart).
    pose proof (legacy_processMatches_sorted
                  arrived (mkLineLength 0) (WorkerThread.clear sd)) as Hall.
    assert (Hstates : Forall (fun s => strictly_sorted (WorkerThread.matches_ s))
                             (WorkerThread.processMatches arrived (mkLineLength 0)
                                                          (WorkerThread.clear sd))).
    { apply Hall.
      - cbn [WorkerThread.clear WorkerThread.matches_]. constructor.
      - rewrite Forall_forall in Hok |- *. intros r Hr.
        apply Hok. now apply (Permutation_in _ Harrival).
      - apply (Permutation_NoDup (Permutation_sym Harrival) Hnodup).
      - intros a b Ha Hb. apply Hapart; now apply (Permutation_in _ Harrival).
      - cbn [WorkerThread.clear WorkerThread.matches_]. intros x r []. }
    unfold legacy_final in Hfinal.
    destruct (WorkerThread.processMatches arrived (mkLineLength 0) (WorkerThread.clear sd))
      as [|s states]; [discriminate|].
    cbn [hd_error] in Hfinal. injection Hfinal as <-.
    now apply Forall_inv in Hstates. }
  assert (Heq : WorkerThread.matches_ final
                = legacy_matching_lines op (ln (WorkerThread.startLine_ op))
                                        (ln (WorkerThread.endLine op))).
  { apply strictly_sorted_ext; [exact Hsorted | apply filter_sorted, line_range_sorted|].
    intros n. unfold legacy_matching_lines. rewrite filter_In, line_range_In, <- Hfirst.
    split.
    - intros Hn. apply (Permutation_in _ Hperm) in Hn.
      apply in_concat in Hn. destruct Hn as (l & Hl & Hn).
      apply in_map_iff in Hl. destruct Hl as (r & <- & Hr).
      apply filter_In in Hr. destruct Hr as [Hr Hp].
      apply (legacy_partial_results_In op Hfile Hend Hchunk reads _ n Hinit).
      exists r. split; [now apply (Permutation_in _ Harrival)|].
      split; [|exact Hn]. apply negb_true_iff in Hp. now apply Z.eqb_neq.
    - intros [Hrange Hm].
      destruct (legacy_partial_results_cover op Hfile Hend Hchunk reads _ n Hinit
                                             ltac:(lia) Hrange Hm) as (r & Hr & Hp & Hn).
      apply (Permutation_in _ (Permutation_sym Hperm)).
      apply in_concat. exists (psr_matchingLines r). split; [|exact Hn].
      apply in_map. apply filter_In. split.
      + now apply (Permutation_in _ (Permutation_sym Harrival)).
      + apply negb_true_iff. now apply Z.eqb_neq. }
  split; [exact Heq|].
  unfold WorkerThread.getNbMatches. cbn [lc]. rewrite Heq.
  apply wrap64_small. unfold is_uint64. split; [lia|].
  unfold legacy_matching_lines.
  pose proof (filter_length_le
                (fun n => WorkerThread.regexp_ op (line_at (WorkerThread.sourceLogData_ op) n))
                (line_range (ln (WorkerThread.startLine_ op)) (ln (WorkerThread.endLine op)))).
  pose proof (line_range_length (ln (WorkerThread.startLine_ op))
                                (ln (WorkerThread.endLine op))).
  unfold valid_lnum, is_uint64 in Hstart. lia.
Qed.

Lemma legacy_full_search_complete_witness :
  exists final,
    legacy_final (WorkerThread.FullSearchOperation_start
                    (WorkerThread.search_a ten_lines 10) 10
                    (WorkerThread.mkSearchData [] (mkLineLength 0) (mkLinesCount 0))
                    (rev (WorkerThread.partial_results 10 (WorkerThread.search_a ten_lines 10)
                                                       (mkLineNumber 0))))
    = Some final /\
    WorkerThread.matches_ final = [0; 2; 4; 7; 9].
Proof.
  destruct (legacy_full_search_complete
              (WorkerThread.search_a ten_lines 10) 10
              (WorkerThread.mkSearchData [] (mkLineLength 0) (mkLinesCount 0))
              (rev (WorkerThread.partial_results 10 (WorkerThread.search_a ten_lines 10)
                                                 (mkLineNumber 0))))
    as (final & Hfinal & Hset & _).
  - vm_compute. discriminate.
  - vm_compute. split; discriminate.
  - vm_compute. split; discriminate.
  - vm_compute. split; discriminate.
  - vm_compute. discriminate.
  - unfold WorkerThread.arrival.
    replace (WorkerThread.adjust (WorkerThread.search_a ten_lines 10) (mkLineNumber 0))
      with (mkLineNumber 0) by reflexivity.
    apply Permutation_sym, Permutation_rev.
  - exists final. split; [exact Hfinal|]. rewrite Hset. reflexivity.
Defined.

(* ===================================================================== *)
(** ** The earlier worker thread: the update search *)
(* ===================================================================== *)

Lemma NoDup_app_In {A} (a b : list A) x : NoDup (a ++ b) -> In x a -> In x b -> False.
Proof.
  induction a as [|y a IH]; intros Hnd Ha Hb; [destruct Ha|].
  cbn [app] in Hnd. apply NoDup_cons_iff in Hnd. destruct Hnd as [Hy Hnd].
  destruct Ha as [->|Ha]; [|now apply IH].
  apply Hy. apply in_or_app. now right.
Qed.

Section LegacyUpdate.
Variable op : WorkerThread.SearchOperation.
Hypothesis Hfile : Z.of_nat (length (logLines (WorkerThread.sourceLogData_ op))) <= UINT64_MAX.
Hypothesis Hend : valid_lnum (WorkerThread.endLine_ op).
Hypothesis Hchunk : 1 <= lc (WorkerThread.nbLinesInChunk op) <= UINT64_MAX.

(** The first chunk a search reads starts at its initial line: when the
    pattern matches that line, the result of the chunk holds it. *)
Lemma legacy_first_chunk reads chunkStart :
  valid_lnum chunkStart ->
  (1 <= reads)%nat ->
  ln chunkStart < ln (WorkerThread.endLine op) ->
  WorkerThread.regexp_ op (line_at (WorkerThread.sourceLogData_ op) (ln chunkStart)) = true ->
  exists r, In r (WorkerThread.partial_results reads op chunkStart)
            /\ lc (psr_processedLines r) <> 0
            /\ In (ln chunkStart) (psr_matchingLines r).
Proof using All.
  intros Hcs Hreads Hlt Hm.
  pose proof (legacy_endLine_bounds op Hfile Hend Hchunk) as Hbounds.
  destruct reads as [|reads]; [lia|].
  unfold WorkerThread.partial_results. cbn [WorkerThread.chunks]. unfold lnum_lt.
  destruct (Z.ltb_spec (ln chunkStart) (ln (WorkerThread.endLine op))) as [_|Hge]; [|lia].
  cbv zeta. cbn [map fst snd].
  pose proof Hcs as Hcs'. unfold valid_lnum, is_uint64 in Hcs'.
  assert (Hdiff : lc (lnum_diff (WorkerThread.endLine op) chunkStart)
                  = ln (WorkerThread.endLine op) - ln chunkStart).
  { rewrite lnum_diff_exact; [lia | unfold valid_lnum, is_uint64; lia | exact Hcs]. }
  rewrite Hdiff.
  set (count := Z.min (lc (WorkerThread.nbLinesInChunk op))
                      (ln (WorkerThread.endLine op) - ln chunkStart)).
  assert (Hcount : 1 <= count <= ln (WorkerThread.endLine op) - ln chunkStart)
    by (unfold count; lia).
  pose proof (getLinesRaw_length (WorkerThread.sourceLogData_ op) chunkStart
                                 (mkLinesCount count)
                                 ltac:(lia) ltac:(cbn [lc]; lia) ltac:(cbn [lc]; lia))
    as Hlen.
  cbn [lc] in Hlen.
  eexists. split; [left; reflexivity|]. split.
  - destruct (legacy_filterLines_ok
                (WorkerThread.regexp_ op) (WorkerThread.lengthOf_ op)
                (utf8View (getLinesRaw (WorkerThread.sourceLogData_ op) chunkStart
                                       (mkLinesCount count)))
                chunkStart Hcs ltac:(lia) ltac:(lia)) as ((_ & Hp & _) & _).
    lia.
  - apply legacy_filterLines_getLinesRaw;
      [exact Hcs | cbn [lc]; lia | cbn [lc]; lia | exact Hfile|].
    cbn [lc]. split; [lia | exact Hm].
Qed.
End LegacyUpdate.

(** In the earlier worker thread the update search scans the line before
    its position again whenever the last matched line is not the position
    itself, and nothing removes that line from [matches_] first.  So when
    that line is in [matches_] and still matches, it is in [matches_] twice
    once the results have been taken, whatever their order. *)
Theorem legacy_update_search_repeats_matched_line
        (op : WorkerThread.SearchOperation) (reads : nat) (position : LineNumber)
        (sd : WorkerThread.SearchData) (arrived : list PartialSearchResults) :
  Z.of_nat (length (logLines (WorkerThread.sourceLogData_ op))) <= UINT64_MAX ->
  valid_lnum (WorkerThread.startLine_ op) ->
  valid_lnum (WorkerThread.endLine_ op) ->
  1 <= lc (WorkerThread.nbLinesInChunk op) <= UINT64_MAX ->
  valid_lnum position ->
  (1 <= reads)%nat ->
  ln (WorkerThread.startLine_ op) <= ln position - 1 < ln (WorkerThread.endLine op) ->
  In (ln position - 1) (WorkerThread.matches_ sd) ->
  ln (WorkerThread.getLastMatchedLineNumber sd) <> ln position ->
  WorkerThread.regexp_ op (line_at (WorkerThread.sourceLogData_ op) (ln position - 1)) = true ->
  WorkerThread.arrival op reads (WorkerThread.update_initial_line position sd) arrived ->
  exists final,
    legacy_final (WorkerThread.UpdateSearchOperation_start op reads position sd arrived)
    = Some final /\
    ~ NoDup (WorkerThread.matches_ final).
Proof.
  intros Hfile Hstart Hend Hchunk Hpos Hreads Hrange Hin Hlast Hm Harrival.
  pose proof (legacy_endLine_bounds op Hfile Hend Hchunk) as Hbounds.
  unfold valid_lnum, is_uint64 in Hpos, Hstart.
  assert (Hinit : WorkerThread.update_initial_line position sd
                  = mkLineNumber (ln position - 1)).
  { unfold WorkerThread.update_initial_line.
    destruct (Z.geb_spec (ln position) 1); [|lia].
    destruct (Z.eqb_spec (ln (WorkerThread.getLastMatchedLineNumber sd)) (ln position));
      [contradiction|].
    cbn [negb andb]. f_equal. apply wrap64_small. unfold is_uint64. lia. }
  unfold WorkerThread.UpdateSearchOperation_start, WorkerThread.doSearch.
  unfold WorkerThread.arrival in Harrival. rewrite Hinit in Harrival.
  assert (Hadjust : WorkerThread.adjust op (mkLineNumber (ln position - 1))
                    = mkLineNumber (ln position - 1)).
  { unfold WorkerThread.adjust, lnum_lt. cbn [ln].
    destruct (Z.ltb_spec (ln position - 1) (ln (WorkerThread.startLine_ op)));
      [lia | reflexivity]. }
  rewrite Hadjust in Harrival.
  destruct (legacy_processMatches_final arrived (mkLineLength 0) sd)
    as (final & Hfinal & Hperm).
  exists final. split; [exact Hfinal|].
  intros Hnodup. apply (Permutation_NoDup Hperm) in Hnodup.
  apply (NoDup_app_In _ _ (ln position - 1) Hnodup Hin).
  destruct (legacy_first_chunk op Hfile Hend Hchunk reads (mkLineNumber (ln position - 1)))
    as (r & Hr & Hp & Hn).
  - unfold valid_lnum, is_uint64. cbn [ln]. lia.
  - exact Hreads.
  - cbn [ln]. lia.
  - cbn [ln]. exact Hm.
  - cbn [ln] in Hn.
    apply in_concat. exists (psr_matchingLines r). split; [|exact Hn].
    apply in_map. apply filter_In. split.
    + now apply (Permutation_in _ (Permutation_sym Harrival)).
    + apply negb_true_iff. now apply Z.eqb_neq.
Qed.

Lemma legacy_update_search_repeats_matched_line_witness :
  exists final,
    legacy_final WorkerThread.sample_update_states = Some final /\
    ~ NoDup (WorkerThread.matches_ final).
Proof.
  apply (legacy_update_search_repeats_matched_line
           (WorkerThread.search_a twelve_lines 12) 5 (mkLineNumber 10)
           WorkerThread.sample_data
           (WorkerThread.partial_results
              5 (WorkerThread.search_a twelve_lines 12)
              (WorkerThread.update_initial_line (mkLineNumber 10) WorkerThread.sample_data))).
  - vm_compute. discriminate.
  - vm_compute. split; discriminate.
  - vm_compute. split; discriminate.
  - vm_compute. split; discriminate.
  - vm_compute. split; discriminate.
  - lia.
  - vm_compute. split; [discriminate | reflexivity].
  - vm_compute. tauto.
  - vm_compute. discriminate.
  - vm_compute. reflexivity.
  - unfold WorkerThread.arrival.
    replace (WorkerThread.adjust
               (WorkerThread.search_a twelve_lines 12)
               (WorkerThread.update_initial_line (mkLineNumber 10) WorkerThread.sample_data))
      with (WorkerThread.update_initial_line (mkLineNumber 10) WorkerThread.sample_data)
      by reflexivity.
    apply Permutation_refl.
Defined.

(** The other case: when every line in [matches_] lies before the line at
    which the update search starts, the vector stays in strictly ascending
    order at every state a reader may see, in whatever order the results
    arrive. *)
Theorem legacy_update_search_sorted
        (op : WorkerThread.SearchOperation) (reads : nat) (position : LineNumber)
        (sd : WorkerThread.SearchData) (arrived : list PartialSearchResults) :
  Z.of_nat (length (logLines (WorkerThread.sourceLogData_ op))) <= UINT64_MAX ->
  valid_lnum (WorkerThread.startLine_ op) ->
  valid_lnum (WorkerThread.endLine_ op) ->
  1 <= lc (WorkerThread.nbLinesInChunk op) <= UINT64_MAX ->
  valid_lnum (WorkerThread.update_initial_line position sd) ->
  strictly_sorted (WorkerThread.matches_ sd) ->
  (forall x, In x (WorkerThread.matches_ sd) ->
             x < ln (WorkerThread.adjust op (WorkerThread.update_initial_line position sd))) ->
  WorkerThread.arrival op reads (WorkerThread.update_initial_line position sd) arrived ->
  Forall (fun s => strictly_sorted (WorkerThread.matches_ s))
         (WorkerThread.UpdateSearchOperation_start op reads position sd arrived).
Proof.
  intros Hfile Hstart Hend Hchunk Hvalid Hsorted Hbelow Harrival.
  unfold WorkerThread.UpdateSearchOperation_start, WorkerThread.doSearch.
  unfold WorkerThread.arrival in Harrival.
  set (initialLine := WorkerThread.adjust op (WorkerThread.update_initial_line position sd))
    in *.
  assert (Hinit : valid_lnum initialLine).
  { unfold initialLine, WorkerThread.adjust. destruct (lnum_lt _ _); assumption. }
  destruct (legacy_partial_results_apart op Hfile Hend Hchunk reads _ Hinit)
    as (Hok & Hnodup & Hapart).
  destruct (legacy_chunks_apart op Hfile Hend Hchunk reads initialLine Hinit) as [Hchunks _].
  apply legacy_processMatches_sorted.
  - exact Hsorted.
  - rewrite Forall_forall in Hok |- *. intros r Hr.
    apply Hok. now apply (Permutation_in _ Harrival).
  - apply (Permutation_NoDup (Permutation_sym Harrival) Hnodup).
  - intros a b Ha Hb. apply Hapart; now apply (Permutation_in _ Harrival).
  - intros x r Hx Hr. left. specialize (Hbelow x Hx).
    apply (Permutation_in _ Harrival) in Hr.
    unfold WorkerThread.partial_results in Hr. apply in_map_iff in Hr.
    destruct Hr as (c & <- & Hc).
    rewrite Forall_forall in Hchunks. destruct (Hchunks c Hc) as (Hv & Hlo & Hone & Hhi).
    destruct (legacy_filterLines_ok (WorkerThread.regexp_ op) (WorkerThread.lengthOf_ op)
                                    (snd c) (fst c) Hv Hone Hhi) as (_ & Hfirst & _).
    rewrite Hfirst. lia.
Qed.

Lemma legacy_update_search_sorted_witness :
  Forall (fun s => strictly_sorted (WorkerThread.matches_ s))
         (WorkerThread.UpdateSearchOperation_start
            (WorkerThread.search_a twelve_lines 12) 5 (mkLineNumber 10)
            (WorkerThread.mkSearchData [0; 2; 4; 7] (mkLineLength 1) (mkLinesCount 9))
            (WorkerThread.partial_results 5 (WorkerThread.search_a twelve_lines 12)
                                          (mkLineNumber 9))).
Proof.
  apply legacy_update_search_sorted.
  - vm_compute. discriminate.
  - vm_compute. split; discriminate.
  - vm_compute. split; discriminate.
  - vm_compute. split; discriminate.
  - vm_compute. split; discriminate.
  - repeat constructor.
  - vm_compute. intros x [<-|[<-|[<-|[<-|[]]]]]; reflexivity.
  - unfold WorkerThread.arrival. apply Permutation_refl.
Defined.

(* ===================================================================== *)
(** ** abstractlogdata.h: getUntabifiedLength counts in bytes *)
(* ===================================================================== *)

Lemma find_byte_none c l : Forall (fun b => b <> c) l -> find_byte c l = None.
Proof.
  induction 1 as [|b l Hb _ IH]; cbn [find_byte]; [reflexivity|].
  destruct (Z.eqb_spec b c); [contradiction|]. now rewrite IH.
Qed.

Lemma find_byte_app c a b :
  Forall (fun x => x <> c) a ->
  find_byte c (a ++ b) = option_map (Nat.add (length a)) (find_byte c b).
Proof.
  induction 1 as [|x a Hx _ IH]; cbn [app find_byte length].
  - destruct (find_byte c b); reflexivity.
  - destruct (Z.eqb_spec x c); [contradiction|]. rewrite IH.
    destruct (find_byte c b); reflexivity.
Qed.

Lemma utf16_bytes_length line : length (utf16_bytes line) = (length line * 2)%nat.
Proof.
  unfold utf16_bytes. induction line as [|u line IH]; cbn [flat_map length app]; lia.
Qed.

Lemma utf16_bytes_app a b : utf16_bytes (a ++ b) = utf16_bytes a ++ utf16_bytes b.
Proof. unfold utf16_bytes. apply flat_map_app. Qed.

Lemma utf16_bytes_tabless line :
  Forall (fun u => tabless_unit u = true) line ->
  Forall (fun b => b <> 9) (utf16_bytes line).
Proof.
  unfold utf16_bytes. induction 1 as [|u line Hu _ IH]; cbn [flat_map app]; [constructor|].
  unfold tabless_unit in Hu. apply andb_prop in Hu. destruct Hu as [Hlo Hhi].
  apply negb_true_iff in Hlo, Hhi. apply Z.eqb_neq in Hlo, Hhi.
  constructor; [exact Hlo|]. constructor; [exact Hhi | exact IH].
Qed.

Lemma tabless_unit_not_tab u : tabless_unit u = true -> u <> 9.
Proof.
  unfold tabless_unit. intros H ->. vm_compute in H. discriminate.
Qed.

Lemma AbstractLogData_untabify_loop_tabless line :
  forall j total_spaces,
    Forall (fun u => u <> 9) line ->
    length (AbstractLogData_untabify_loop line j total_spaces) = length line.
Proof.
  induction line as [|u line IH]; intros j ts Hline; cbn [AbstractLogData_untabify_loop];
    [reflexivity|].
  apply Forall_cons_iff in Hline. destruct Hline as [Hu Hline].
  destruct (Z.eqb_spec u 9); [contradiction|].
  destruct (u =? 0); cbn [length]; now rewrite IH.
Qed.

Lemma AbstractLogData_untabify_loop_app a b :
  forall j total_spaces,
    Forall (fun u => u <> 9) a ->
    AbstractLogData_untabify_loop (a ++ b) j total_spaces
    = AbstractLogData_untabify_loop a j total_spaces
      ++ AbstractLogData_untabify_loop b (j + Z.of_nat (length a)) total_spaces.
Proof.
  induction a as [|u a IH]; intros j ts Ha; cbn [app AbstractLogData_untabify_loop length].
  - f_equal. lia.
  - apply Forall_cons_iff in Ha. destruct Ha as [Hu Ha].
    destruct (Z.eqb_spec u 9); [contradiction|].
    destruct (u =? 0); cbn [app]; f_equal; rewrite IH by exact Ha; do 2 f_equal; lia.
Qed.

(** [AbstractLogData::getUntabifiedLength] looks for the byte of a tab in
    the bytes of the UTF-16 string and takes the offset in bytes for the
    column.  Take a line with one code unit [u] whose low byte is 9, the
    tab itself or a character such as U+0109, after [before] and in front
    of [after], whose code units hold no byte 9.  The function returns
    [length + 7 - (2 * |before|) mod 8].  The string that
    [AbstractLogData::untabify] builds has [length + 7 - |before| mod 8]
    characters when [u] is the tab, and [length] characters otherwise. *)
Theorem AbstractLogData_getUntabifiedLength_byte_offset (before after : QString) (u : Z) :
  Forall (fun c => tabless_unit c = true) before ->
  Forall (fun c => tabless_unit c = true) after ->
  u mod 256 = 9 -> u / 256 <> 9 ->
  let line := before ++ u :: after in
  ll (AbstractLogData_getUntabifiedLength line)
  = Z.of_nat (length line) + 7 - (2 * Z.of_nat (length before)) mod 8 /\
  Z.of_nat (length (AbstractLogData_untabify line))
  = if u =? 9
    then Z.of_nat (length line) + 7 - Z.of_nat (length before) mod 8
    else Z.of_nat (length line).
Proof.
  intros Hbefore Hafter Hlow Hhigh. cbv zeta.
  pose proof (utf16_bytes_tabless before Hbefore) as Hb.
  pose proof (utf16_bytes_tabless after Hafter) as Ha.
  pose proof (utf16_bytes_length before) as Lb.
  pose proof (utf16_bytes_length after) as La.
  split.
  - unfold AbstractLogData_getUntabifiedLength. cbn [ll].
    set (line := before ++ u :: after).
    assert (Hbuf : utf16_buffer line
                   = utf16_bytes before ++ 9 :: u / 256 :: utf16_bytes after ++ [0; 0]).
    { unfold utf16_buffer, line. rewrite utf16_bytes_app.
      change (utf16_bytes (u :: after)) with (u mod 256 :: u / 256 :: utf16_bytes after).
      rewrite Hlow, <- app_assoc. reflexivity. }
    assert (Hlen : (length line * 2 = length (utf16_bytes before) + 2
                                      + length (utf16_bytes after))%nat).
    { unfold line. rewrite length_app. cbn [length]. lia. }
    (* the first search finds the low byte *)
    assert (Hfirst : memchr (utf16_buffer line) 0 9 (length line * 2)
                     = Some (length before * 2)%nat).
    { unfold memchr. cbn [skipn]. rewrite Hbuf, Hlen.
      replace (utf16_bytes before ++ 9 :: u / 256 :: utf16_bytes after ++ [0; 0])
        with ((utf16_bytes before ++ 9 :: u / 256 :: utf16_bytes after) ++ [0; 0])
        by (rewrite <- app_assoc; reflexivity).
      rewrite firstn_app.
      replace (length (utf16_bytes before) + 2 + length (utf16_bytes after)
               - length (utf16_bytes before ++ 9%Z :: (u / 256)%Z :: utf16_bytes after))%nat
        with O by (rewrite length_app; cbn [length]; lia).
      rewrite firstn_all2 by (rewrite length_app; cbn [length]; lia).
      cbn [firstn]. rewrite app_nil_r, (find_byte_app 9 _ _ Hb).
      change (find_byte 9 (9 :: u / 256 :: utf16_bytes after)) with (Some O).
      cbn [option_map]. rewrite Lb. f_equal. lia. }
    (* the second search, from the byte after it, finds nothing *)
    assert (Hsecond : memchr (utf16_buffer line) (length before * 2 + 1) 9
                             (length line * 2 - length before * 2) = None).
    { unfold memchr. rewrite Hbuf.
      replace (utf16_bytes before ++ 9 :: u / 256 :: utf16_bytes after ++ [0; 0])
        with ((utf16_bytes before ++ [9]) ++ u / 256 :: utf16_bytes after ++ [0; 0])
        by (rewrite <- app_assoc; reflexivity).
      rewrite skipn_app.
      replace (length before * 2 + 1 - length (utf16_bytes before ++ [9%Z]))%nat
        with O by (rewrite length_app; cbn [length]; lia).
      rewrite skipn_all2 by (rewrite length_app; cbn [length]; lia).
      cbn [skipn app].
      rewrite find_byte_none; [reflexivity|].
      apply Forall_forall. intros b Hin.
      assert (Hall : Forall (fun b => b <> 9) (u / 256 :: utf16_bytes after ++ [0; 0])).
      { constructor; [exact Hhigh|]. apply Forall_app. split; [exact Ha|].
        repeat constructor; discriminate. }
      rewrite Forall_forall in Hall. apply Hall.
      apply (In_firstn _ _ _ Hin). }
    rewrite Hfirst. cbn [legacy_tab_loop]. rewrite Hsecond.
    assert (Hnone : forall fuel ts,
               legacy_tab_loop fuel (utf16_buffer line) (length line * 2) None ts = ts)
      by (intros [|fuel] ts; reflexivity).
    rewrite Hnone. unfold tabStop. rewrite Nat2Z.inj_mul. change (Z.of_nat 2) with 2.
    replace (Z.of_nat (length before) * 2 + 0) with (2 * Z.of_nat (length before)) by lia.
    lia.
  - unfold AbstractLogData_untabify.
    assert (Hnt : Forall (fun c => c <> 9) before).
    { rewrite Forall_forall in Hbefore |- *. intros c Hc.
      apply tabless_unit_not_tab. now apply Hbefore. }
    assert (Hnt' : Forall (fun c => c <> 9) after).
    { rewrite Forall_forall in Hafter |- *. intros c Hc.
      apply tabless_unit_not_tab. now apply Hafter. }
    rewrite AbstractLogData_untabify_loop_app by exact Hnt.
    rewrite !length_app, AbstractLogData_untabify_loop_tabless by exact Hnt.
    cbn [AbstractLogData_untabify_loop length].
    destruct (u =? 9).
    + rewrite length_app, repeat_length, AbstractLogData_untabify_loop_tabless by exact Hnt'.
      unfold tabStop.
      pose proof (Z.mod_pos_bound (0 + Z.of_nat (length before) + 0) 8 ltac:(lia)) as Hmod.
      replace (0 + Z.of_nat (length before) + 0) with (Z.of_nat (length before)) in * by lia.
      lia.
    + destruct (u =? 0); cbn [length];
        rewrite AbstractLogData_untabify_loop_tabless by exact Hnt'; lia.
Qed.

Lemma AbstractLogData_getUntabifiedLength_byte_offset_witness :
  ll (AbstractLogData_getUntabifiedLength [97; 9; 98]) = 8 /\
  Z.of_nat (length (AbstractLogData_untabify [97; 9; 98])) = 9.
Proof.
  apply (AbstractLogData_getUntabifiedLength_byte_offset [97] [98] 9).
  - repeat constructor.
  - repeat constructor.
  - reflexivity.
  - discriminate.
Defined.

(* ===================================================================== *)
(** ** crawlerwidget.cpp: the search state and the search pattern *)
(* ===================================================================== *)

Lemma searchState_call_requested (s : CrawlerWidget.SearchState)
      (c : CrawlerWidget.SearchStateCall) :
  (CrawlerWidget.autorefreshing s = true -> CrawlerWidget.autoRefreshRequested_ s = true) ->
  CrawlerWidget.autorefreshing (CrawlerWidget.searchState_call s c) = true ->
  CrawlerWidget.autoRefreshRequested_ (CrawlerWidget.searchState_call s c) = true.
Proof.
  destruct s as [st r]; destruct c as [|refresh| | | |]; try destruct refresh;
    destruct st; destruct r; cbn; intros Hinv Hauto;
    try reflexivity; try discriminate; try (apply Hinv; reflexivity).
Qed.

(** Whatever the widget calls on its search state, and in whatever
    order, the state is [Autorefreshing] or [TruncatedAutorefreshing] only
    while auto-refresh is requested, provided that held to begin with. *)
Theorem searchState_autorefresh_only_when_requested
        (calls : list CrawlerWidget.SearchStateCall) (s : CrawlerWidget.SearchState) :
  (CrawlerWidget.autorefreshing s = true -> CrawlerWidget.autoRefreshRequested_ s = true) ->
  CrawlerWidget.autorefreshing (CrawlerWidget.searchState_calls calls s) = true ->
  CrawlerWidget.autoRefreshRequested_ (CrawlerWidget.searchState_calls calls s) = true.
Proof.
  revert s. induction calls as [|c calls IH]; intros s Hinv.
  - exact Hinv.
  - cbn. apply IH. apply searchState_call_requested. exact Hinv.
Qed.

Lemma searchState_autorefresh_only_when_requested_witness :
  CrawlerWidget.autoRefreshRequested_
    (CrawlerWidget.searchState_calls
       [CrawlerWidget.on_setAutorefresh true; CrawlerWidget.on_startSearch;
        CrawlerWidget.on_truncateFile; CrawlerWidget.on_changeExpression]
       (CrawlerWidget.mkSearchState CrawlerWidget.NoSearch false)) = true.
Proof.
  apply searchState_autorefresh_only_when_requested.
  - cbn. discriminate.
  - reflexivity.
Defined.

Lemma searchState_call_truncated (s : CrawlerWidget.SearchState)
      (c : CrawlerWidget.SearchStateCall) :
  CrawlerWidget.restarts c = false ->
  CrawlerWidget.state_ s = CrawlerWidget.FileTruncated
  \/ CrawlerWidget.state_ s = CrawlerWidget.TruncatedAutorefreshing ->
  CrawlerWidget.state_ (CrawlerWidget.searchState_call s c) = CrawlerWidget.FileTruncated
  \/ CrawlerWidget.state_ (CrawlerWidget.searchState_call s c)
     = CrawlerWidget.TruncatedAutorefreshing.
Proof.
  destruct s as [st r]; destruct c as [|refresh| | | |]; try destruct refresh;
    cbn; intros Hc [Hs | Hs]; subst st; cbn; try discriminate; auto.
Qed.

(** Once the file has been truncated, the search info line reads that
    the file was truncated, whatever the match count, until a search is
    started or the state is reset: toggling auto-refresh, changing the
    expression, stopping the search and further truncations do not bring
    the match count back. *)
Theorem searchState_truncated_until_restart
        (calls : list CrawlerWidget.SearchStateCall) (s : CrawlerWidget.SearchState)
        (nbMatches : LinesCount) :
  forallb (fun c => negb (CrawlerWidget.restarts c)) calls = true ->
  CrawlerWidget.printSearchInfoMessage
    (CrawlerWidget.searchState_calls calls (CrawlerWidget.truncateFile s)) nbMatches
  = CrawlerWidget.text_file_truncated.
Proof.
  intros Hcalls.
  assert (Hstart : CrawlerWidget.state_ (CrawlerWidget.truncateFile s)
                   = CrawlerWidget.FileTruncated
                   \/ CrawlerWidget.state_ (CrawlerWidget.truncateFile s)
                      = CrawlerWidget.TruncatedAutorefreshing).
  { destruct s as [st r]; destruct st; cbn; auto. }
  assert (Hend : forall l t,
             forallb (fun c => negb (CrawlerWidget.restarts c)) l = true ->
             CrawlerWidget.state_ t = CrawlerWidget.FileTruncated
             \/ CrawlerWidget.state_ t = CrawlerWidget.TruncatedAutorefreshing ->
             CrawlerWidget.state_ (CrawlerWidget.searchState_calls l t)
             = CrawlerWidget.FileTruncated
             \/ CrawlerWidget.state_ (CrawlerWidget.searchState_calls l t)
                = CrawlerWidget.TruncatedAutorefreshing).
  { induction l as [|c l IH]; intros t Hl Ht.
    - exact Ht.
    - cbn in Hl. apply andb_true_iff in Hl. destruct Hl as [Hc Hl].
      cbn. apply IH; [exact Hl|].
      apply searchState_call_truncated; [|exact Ht].
      destruct (CrawlerWidget.restarts c); [discriminate | reflexivity]. }
  unfold CrawlerWidget.printSearchInfoMessage.
  destruct (Hend calls _ Hcalls Hstart) as [H | H]; rewrite H; reflexivity.
Qed.

Lemma searchState_truncated_until_restart_witness :
  CrawlerWidget.printSearchInfoMessage
    (CrawlerWidget.searchState_calls
       [CrawlerWidget.on_setAutorefresh false; CrawlerWidget.on_changeExpression;
        CrawlerWidget.on_setAutorefresh true; CrawlerWidget.on_stopSearch]
       (CrawlerWidget.truncateFile
          (CrawlerWidget.mkSearchState CrawlerWidget.Autorefreshing true)))
    (mkLinesCount 7)
  = CrawlerWidget.text_file_truncated.
Proof.
  apply searchState_truncated_until_restart. reflexivity.
Defined.

Lemma QString_replace_same (q : Z) (s : QString) :
  CrawlerWidget.QString_replace q [q] s = s.
Proof.
  induction s as [|ch rest IH]; [reflexivity|].
  cbn [CrawlerWidget.QString_replace]. rewrite IH.
  destruct (ch =? q) eqn:E; [apply Z.eqb_eq in E; subst ch|]; reflexivity.
Qed.

Lemma join_cons (sep x : QString) (rest : list QString) :
  CrawlerWidget.join sep (x :: rest) = x ++ flat_map (fun y => sep ++ y) rest.
Proof.
  revert x. induction rest as [|y rest IH]; intros x.
  - cbn. rewrite app_nil_r. reflexivity.
  - change (CrawlerWidget.join sep (x :: y :: rest))
      with (x ++ sep ++ CrawlerWidget.join sep (y :: rest)).
    rewrite IH. cbn [flat_map]. rewrite <- app_assoc. reflexivity.
Qed.

Lemma combinePatterns_nonempty (buttons : CrawlerWidget.SearchButtons)
      (currentPattern newPattern : QString) :
  currentPattern <> [] ->
  CrawlerWidget.combinePatterns buttons currentPattern newPattern
  = currentPattern ++ CrawlerWidget.pattern_separator buttons ++ newPattern.
Proof.
  intros Hcur. unfold CrawlerWidget.combinePatterns, CrawlerWidget.pattern_separator.
  destruct currentPattern as [|ch rest]; [contradiction|].
  cbn [CrawlerWidget.QString_isEmpty negb].
  destruct (CrawlerWidget.booleanButton_ buttons);
    [|destruct (CrawlerWidget.useRegexpButton_ buttons)];
    rewrite <- ?app_assoc; reflexivity.
Qed.

Lemma combinePatterns_fold_nonempty (escape : QString -> QString)
      (buttons : CrawlerWidget.SearchButtons)
      (filters : list CrawlerWidget.PredefinedFilter) (currentPattern : QString) :
  currentPattern <> [] ->
  fold_left (fun searchPattern filter =>
               CrawlerWidget.combinePatterns buttons searchPattern
                 (CrawlerWidget.escapeSearchPattern escape buttons
                    (CrawlerWidget.pattern filter) (CrawlerWidget.useRegex filter)))
            filters currentPattern
  = currentPattern
      ++ flat_map (fun y => CrawlerWidget.pattern_separator buttons ++ y)
           (map (fun filter =>
                   CrawlerWidget.escapeSearchPattern escape buttons
                     (CrawlerWidget.pattern filter) (CrawlerWidget.useRegex filter))
                filters).
Proof.
  revert currentPattern. induction filters as [|f filters IH]; intros cur Hcur.
  - cbn. rewrite app_nil_r. reflexivity.
  - cbn [fold_left map flat_map]. rewrite IH.
    + rewrite combinePatterns_nonempty by exact Hcur.
      rewrite <- !app_assoc. reflexivity.
    + rewrite combinePatterns_nonempty by exact Hcur.
      destruct cur; [contradiction | discriminate].
Qed.

(** The pattern built from a list of predefined filters is their
    escaped patterns in order, joined by the separator of the mode (the
    word or between spaces in boolean mode, a bar in regular-expression
    mode, nothing otherwise), except that the empty patterns the list
    starts with are dropped without a separator. *)
Theorem predefined_filters_pattern_joined (escape : QString -> QString)
        (buttons : CrawlerWidget.SearchButtons)
        (filters : list CrawlerWidget.PredefinedFilter) :
  CrawlerWidget.setSearchPatternFromPredefinedFilters escape buttons filters
  = CrawlerWidget.join (CrawlerWidget.pattern_separator buttons)
      (CrawlerWidget.drop_empty
         (map (fun filter =>
                 CrawlerWidget.escapeSearchPattern escape buttons
                   (CrawlerWidget.pattern filter) (CrawlerWidget.useRegex filter))
              filters)).
Proof.
  unfold CrawlerWidget.setSearchPatternFromPredefinedFilters.
  induction filters as [|f filters IH]; [reflexivity|].
  cbn [fold_left map CrawlerWidget.drop_empty].
  destruct (CrawlerWidget.escapeSearchPattern escape buttons
              (CrawlerWidget.pattern f) (CrawlerWidget.useRegex f)) as [|ch rest] eqn:E.
  - cbn [CrawlerWidget.QString_isEmpty].
    change (CrawlerWidget.combinePatterns buttons [] []) with (@nil Z).
    exact IH.
  - cbn [CrawlerWidget.QString_isEmpty].
    change (CrawlerWidget.combinePatterns buttons [] (ch :: rest)) with (ch :: rest).
    rewrite combinePatterns_fold_nonempty by discriminate.
    rewrite join_cons. reflexivity.
Qed.

(** In boolean mode [escapeSearchPattern] only puts the pattern between
    two double quotes: a double quote inside the pattern is left as it is,
    without a backslash before it, unless [QRegularExpression::escape] was
    applied and put one there. *)
Theorem escapeSearchPattern_boolean_quotes (escape : QString -> QString)
        (buttons : CrawlerWidget.SearchButtons) (pattern : QString) (isRegex : bool) :
  CrawlerWidget.booleanButton_ buttons = true ->
  CrawlerWidget.escapeSearchPattern escape buttons pattern isRegex
  = [CrawlerWidget.double_quote]
      ++ (if negb isRegex && CrawlerWidget.useRegexpButton_ buttons
          then escape pattern else pattern)
      ++ [CrawlerWidget.double_quote].
Proof.
  intros Hbool. unfold CrawlerWidget.escapeSearchPattern.
  rewrite Hbool, QString_replace_same. reflexivity.
Qed.

Lemma escapeSearchPattern_boolean_quotes_witness :
  CrawlerWidget.escapeSearchPattern (fun s => s) (CrawlerWidget.mkSearchButtons false true)
                                    [97; 34; 98] false
  = [34; 97; 34; 98; 34].
Proof.
  apply (escapeSearchPattern_boolean_quotes
           (fun s => s) (CrawlerWidget.mkSearchButtons false true) [97; 34; 98] false).
  reflexivity.
Defined.
